(* ===== verification/_CoqProject ===== *)
-Q . S2P
Prelude.v
CString.v
CFloat.v
Cvector.v
StateMachine.v
Ring.v
RingBuffer.v
Smem.v
SmemClients.v
Afifo.v
Alist.v
Abus.v
AbusWf.v
Emm.v
Stepper.v
Fsus.v
Apid.v
Motor.v
DjMotor.v
Chassis.v
ChassisOps.v
WheelLoop.v
MotorShell.v
SemanticMap.v
PathFinder.v
RobotManager.v
Mission.v
Movement.v
Sbus.v
Action.v
FollowLine.v
FloatMem.v
Var.v
System.v
Arm.v
ArmExact.v
ArmWire.v
