(* ===== verification/Prelude.v ===== *)
(** * The firmware of the construction robot: a verification library

    The repository is the firmware of a mobile robot on an STM32F4 under RT-Thread: a
    mecanum chassis on four CAN motors follows a line by infrared sensors, fetches nine
    blocks with a gripper and delivers them by the colour a camera reports.  Its own code
    is [src/project/applications]; everything else is vendored or generated.  Of the kernel
    under [src/project/rt-thread], the heap and the ring buffer are modelled as well.

    ** Parts and how they interact

    Threads and interrupts talk over a publish/subscribe bus.  The line follower publishes
    its error and special points; the robot manager, called back by the bus, steers along
    the line or, at a special point, runs the next action of its path tables; both publish
    chassis commands; the chassis thread turns them into wheel commands for the motor
    abstraction, whose periodic step runs the PID controllers and hands currents to the
    CAN driver, which packs them into frames and unwraps the encoders that come back.  The
    arm's steppers and the bus servo of the gripper have drivers of their own; the C++
    sketch of the arm turns a target into the steppers' pulse counts.

    ** Files

    - [Prelude]: machine integers, bytes of words, the [outcome] of C code (a value, or a
      [fault]: out of bounds, null dereference, undefined behaviour, no end), arrays.
    - [CString]: [atoi].
    - [CFloat]: [float] and [double] behind the interface [FloatOps], with an IEEE 754
      implementation and an exact rational one.
    - [Cvector] ([statemachine/cvector.c]), with the blocks its iterators point into;
      [StateMachine] ([statemachine/statemachine.c]).
    - [Ring]: reading and writing an array around its end, for both ring buffers.
    - [RingBuffer] ([rt-thread/components/drivers/ipc/ringbuffer.c]): the kernel's ring
      buffer, in which the CAN motors' receive queue is kept.
    - [Smem] ([rt-thread/src/mem.c]): the heap behind [rt_malloc], over the words of its
      memory; [SmemClients]: the heap as its clients see it.
    - [Afifo] ([abus/afifo.c]), [Alist] ([abus/alist.h]), [Abus] ([abus/abus_topic.c] and
      the wiring of [abus/abus_port.c]): the bus, over a heap of intrusive list nodes;
      [AbusWf]: its typing, under the discipline the intrusive lists ask of subscribers.
    - [Emm] ([Emm_V5.c]) and [Stepper] ([drv_stepper_motor.c]): frames of the stepper
      drivers and the threads that send them and read the answers.
    - [Fsus] ([FasionStar/fashion_star_uart_servo.c]): the bus servo.
    - [Apid] ([apid.c], the setters of [apid_exfunc.c]): the PID controllers; [Var] (the
      rest of [apid_exfunc.c]): variables registered for the shell.
    - [Motor] ([motor.c]) against the class [MotorOps]; [DjMotor] ([motor_dj_rm_driver.c],
      [motor_cfg.c]) is its instance; [MotorShell]: the shell command of [motor.c].
    - [Chassis] ([chassis/chassis.c], [chassis_module_mai.c], [chassis_port.c]);
      [ChassisOps] ([chassis/chassis_module_mai_ops.c]): the other wheel module;
      [WheelLoop]: chassis, motor table, controllers and CAN driver composed.
    - [SemanticMap] ([map/SemanticMap.c]): the maps as tables, and their drawing.
    - [PathFinder] ([map/PathFinder.c], [map/RobotState.c]), [RobotManager]
      ([robotManager/robotmanager.c], [color_com.c], [aboard_power_switch.c]): the model;
      [Mission] and [Movement]: its theorems.
    - [Sbus] ([bsp_sbus.c]), [Action] ([drv_action.c]), [FollowLine] ([follow_line.c]).
    - [System]: the callbacks and publishers of [robotmanager.c], [chassis_port.c] and
      [follow_line.c] composed with the bus itself; [FloatMem]: a [float]'s four bytes.
    - [Arm] ([robotarm/robotGeometry.cpp], [robotarm/interpolation.cpp],
      [arduino_main.cpp]); [ArmExact]: its theorems over the real numbers; [ArmWire]: the
      shell commands of [drv_stepper_motor.c], [Arm] and [Stepper] composed.

    Definitions keep the names of the C functions they translate.  C objects that are
    reached by several pointers live in a store ([Alist], [Abus], [StateMachine]); others
    are records passed from call to call; a call that can leave the language returns an
    [outcome].  Threads are functions of what the other threads and interrupts do: action
    lists and traces in [Stepper], an environment of events in [RobotManager].

    ** What the theorems show

    - The mission: for every behaviour of line, camera, motors and callbacks, the gripper's
      actions are a prefix of "raise, then nine times fetch and deliver", no path table is
      overrun, the thread ends exactly when the sequence is done, and it does end when
      lines end ([Mission]); every movement returns after at most 1001 polls, and with
      motors that reach the targets the motor table gives them, fetching and delivering
      leave the robot where they should ([Movement], through the chassis, the wheel
      formulas and the motor table).
    - The kernel's heap: no sequence of requests of at most 2^32 - 8 bytes and of writes
      within blocks makes it fault, live blocks are disjoint, aligned and keep their
      contents, allocation is first fit, everything freed is one block again, and a second
      free of a pointer stops at an assertion ([SmemClients]).
    - Refinements: both ring buffers are queues, the linked list is a list, and so is the
      vector wherever no iterator into a freed block and no overlapping copy is used, the
      cases in which the code is proved to leave the language; motor commands reach the
      driver interface as specified, and the bus, with messages as bytes and publications
      nested in callbacks, does what direct calls do ([System]): this is what lets
      [RobotManager] and [FollowLine] call each other directly.
    - Types: programs on the bus that subscribe each accounter to one list only keep every
      pointer valid and every table within its bounds ([AbusWf]).
    - End to end: a position message becomes the four currents on the CAN bus that the
      controllers compute from it ([WheelLoop]); a target of the arm becomes two frames
      for its steppers, within a step of the right joint angles ([ArmWire]).
    - The arm: its joint angles hold the gripper at the point asked for, its pulse counts
      are within a step of them, its positions within the limits; and it is always one
      target behind ([Arm], [ArmExact]).
    - On the wire: stepper frames, servo requests, motor currents and remote control frames
      are read back as what was meant; responses are received under any interleaving.
    - Controllers: the PID step is its formula, its outputs stay within limits; the encoder
      tracks the shaft; line steering is bounded and symmetric.
    - Safety, errors and what goes wrong: mutex balance, wrong frames, and, as theorems with
      the code's own behaviour in the conclusion, the faults the code has (a dead lock
      after a bad stepper answer, loops that do not end, writes past a block, the speed
      kinematics that turn instead of moving sideways).  PROJECT.json lists them as findings.

    ** Bounds and fuel

    Loops over data recurse on it.  [movement_loop] has fuel 1001, the code's own limit;
    [mission_order] and [movement_bounded] prove that it is never exhausted.  The waits of
    calibration mode and the servo's receive loops may never end in the code; their fuel is
    a parameter, running out is the fault [Hang], and theorems quantify over it.  List
    walks ([Alist], [Abus]) have fuel above the length of the list, with the walk's end
    proved from it; the heap's loops ([FUEL]) have more than it has bytes, and its invariant
    shows that they end; the search by CAN identifier has more rounds than its 8-bit interval
    has elements.  In [System] a ring has at most 128 members, the accounter table's size
    ([RING_FUEL]), and publications nest two deep ([DEPTH]): the error's and, inside it,
    the command's; [bus_implements_calls] proves both enough.

    ** Assumptions

    [float] operations round to nearest even one by one (the compiler does not contract
    them); [double] constants are widened and rounded back as C prescribes.  RT-Thread's
    kernel objects behave as documented: recursive mutexes, counting semaphores, a running
    thread is not preempted by one of lower priority.  In [RobotManager] the camera's
    interrupt is modelled where the thread sleeps or polls, not between two instructions,
    and its message fits the array it is copied to.  Statements in [Qc] are about the
    formulas, not about rounding; so are those of [ArmExact] in the real numbers, where a
    division by zero is zero as in the Standard Library.  [math.h] and the Arduino macros
    are the interface [Libm].  In [System] a publication runs to its end before another
    thread publishes, and in [ArmWire] the stepper thread does not run between the two
    stores of pulse counts at the end of a pass of [loop].

    ** Not modelled

    Thread creation, device opening and pin modes; logging, and printing other than what
    a shell command answers; [main.c], which blinks an LED; [robot_move_direct.c], whose
    thread only sleeps; CubeMX's [color.c]; the C++ classes of [robotarm] that the firmware
    does not use (command parser, end stops, equipment, queue, ramps); the vendored
    [libraries], [packages] and [board] directories and the rest of [rt-thread]: scheduler,
    timers, device framework, shell, and around the heap its lock, the list of memory
    objects and the trace commands, which the configuration leaves out. *)
From Stdlib Require Export ZArith Lia.
From stdpp Require Export base gmap option list.
#[export] Set Default Goal Selector "!".
#[global] Open Scope Z_scope.

(** [lia] sees through division and remainder by constants. *)
Ltac Zify.zify_post_hook ::= Z.to_euclidean_division_equations.

(** ** Machine integers

    A C integer is a [Z]; every conversion the source performs is written out
    with one of the wrap functions below. *)

Definition u8 (z : Z) : Z := z mod 2 ^ 8.
Definition u16 (z : Z) : Z := z mod 2 ^ 16.
Definition u32 (z : Z) : Z := z mod 2 ^ 32.
Definition swrap (w z : Z) : Z := (z + 2 ^ (w - 1)) mod 2 ^ w - 2 ^ (w - 1).
Definition s8 (z : Z) : Z := swrap 8 z.
Definition s16 (z : Z) : Z := swrap 16 z.
Definition s32 (z : Z) : Z := swrap 32 z.

Definition is_u8 (z : Z) : Prop := 0 <= z < 2 ^ 8.
Definition is_u16 (z : Z) : Prop := 0 <= z < 2 ^ 16.
Definition is_u32 (z : Z) : Prop := 0 <= z < 2 ^ 32.
Definition is_s16 (z : Z) : Prop := - 2 ^ 15 <= z < 2 ^ 15.
Definition is_s32 (z : Z) : Prop := - 2 ^ 31 <= z < 2 ^ 31.

Create HintDb cint.
#[export] Hint Unfold u8 u16 u32 swrap s8 s16 s32 is_u8 is_u16 is_u32 is_s16 is_s32 : cint.

(** Linear arithmetic after unfolding the widths. *)
Ltac cint :=
  autounfold with cint in *;
  change (2 ^ 8) with 256 in *; change (2 ^ 16) with 65536 in *;
  change (2 ^ 32) with 4294967296 in *; change (2 ^ 15) with 32768 in *;
  change (2 ^ 31) with 2147483648 in *; change (2 ^ (8 - 1)) with 128 in *;
  change (2 ^ (16 - 1)) with 32768 in *; change (2 ^ (32 - 1)) with 2147483648 in *;
  lia.

Lemma u8_range z : is_u8 (u8 z). Proof. cint. Qed.
Lemma u16_range z : is_u16 (u16 z). Proof. cint. Qed.
Lemma u32_range z : is_u32 (u32 z). Proof. cint. Qed.
Lemma s16_range z : is_s16 (s16 z). Proof. cint. Qed.
Lemma s32_range z : is_s32 (s32 z). Proof. cint. Qed.
Lemma u8_id z : is_u8 z -> u8 z = z. Proof. cint. Qed.
Lemma u16_id z : is_u16 z -> u16 z = z. Proof. cint. Qed.
Lemma u32_id z : is_u32 z -> u32 z = z. Proof. cint. Qed.
Lemma s16_id z : is_s16 z -> s16 z = z. Proof. cint. Qed.
Lemma s32_id z : is_s32 z -> s32 z = z. Proof. cint. Qed.

#[export] Hint Resolve u8_range u16_range u32_range s16_range s32_range : cint.

(** ** Bytes of a word

    [lo], [hi] and friends are how the drivers split a word into bytes: a cast
    to [uint8_t] of a right shift. *)

Definition byte_at (k v : Z) : Z := u8 (Z.shiftr v (8 * k)).

Lemma byte_at_range k v : is_u8 (byte_at k v).
Proof. apply u8_range. Qed.

Lemma byte_at_div k v : 0 <= k -> byte_at k v = (v / 2 ^ (8 * k)) mod 256.
Proof. intros. unfold byte_at, u8. rewrite Z.shiftr_div_pow2 by lia. done. Qed.

Lemma word16_join v : is_u16 v -> 256 * byte_at 1 v + byte_at 0 v = v.
Proof.
  intros. rewrite !byte_at_div by lia.
  change (2 ^ (8 * 1)) with 256; change (2 ^ (8 * 0)) with 1. cint.
Qed.

Lemma word32_join v : is_u32 v ->
  16777216 * byte_at 3 v + 65536 * byte_at 2 v + 256 * byte_at 1 v + byte_at 0 v = v.
Proof.
  intros. rewrite !byte_at_div by lia.
  change (2 ^ (8 * 3)) with 16777216; change (2 ^ (8 * 2)) with 65536;
    change (2 ^ (8 * 1)) with 256; change (2 ^ (8 * 0)) with 1. cint.
Qed.

(** The receiving side: bytes or-ed together after left shifts are a sum. *)
Lemma lor_shiftl_add a b n : 0 <= n -> 0 <= b < 2 ^ n ->
  Z.lor (Z.shiftl a n) b = a * 2 ^ n + b.
Proof.
  intros Hn Hb. rewrite <- Z.shiftl_mul_pow2 by lia.
  rewrite <- Z.lxor_lor, Z.add_nocarry_lxor; [done| |];
    apply Z.bits_inj'; intros i Hi; rewrite Z.land_spec, Z.bits_0, Z.shiftl_spec by lia;
    (destruct (Z_lt_le_dec i n);
     [rewrite (Z.testbit_neg_r a) by lia; done|
      rewrite <- (Z.mod_small b (2 ^ n)), Z.mod_pow2_bits_high by lia; apply andb_false_r]).
Qed.

#[export] Hint Resolve byte_at_range : cint.

(** Little-endian words, as the core stores them. *)
Fixpoint le_bytes (n : nat) (z : Z) : list Z :=
  match n with O => [] | S n => z mod 256 :: le_bytes n (z / 256) end.
Fixpoint le_word (l : list Z) : Z := match l with [] => 0 | b :: l => b + 256 * le_word l end.
Lemma le_word_bytes n z : le_word (le_bytes n z) = z mod 256 ^ Z.of_nat n.
Proof.
  revert z. induction n as [|n IH]; intros z; cbn [le_bytes le_word]; [symmetry; apply Z.mod_1_r|].
  rewrite IH, Nat2Z.inj_succ, Z.pow_succ_r by lia. symmetry. apply Z.rem_mul_r; lia.
Qed.
Lemma length_le_bytes n z : length (le_bytes n z) = n.
Proof. revert z. induction n as [|n IH]; intros z; [done|]. exact (f_equal S (IH _)). Qed.

(** ** Outcomes of C code

    A call returns ([Done]) or the program leaves the language: an access
    outside an object, a dereference of [NULL], behaviour the C standard leaves
    undefined, or a loop that never ends. *)

Inductive fault := OutOfBounds | NullDeref | Undefined | Hang.
Inductive outcome (A : Type) := Done (a : A) | Fault (f : fault).
Arguments Done {A} a.
Arguments Fault {A} f.

#[export] Instance fault_eq_dec : EqDecision fault.
Proof. solve_decision. Defined.
#[export] Instance outcome_eq_dec `{EqDecision A} : EqDecision (outcome A).
Proof. solve_decision. Defined.

#[export] Instance outcome_ret : MRet outcome := fun A a => Done a.
#[export] Instance outcome_bind : MBind outcome := fun A B f m =>
  match m with Done a => f a | Fault e => Fault e end.
#[export] Instance outcome_fmap : FMap outcome := fun A B f m =>
  match m with Done a => Done (f a) | Fault e => Fault e end.

Lemma outcome_bind_Done {A B} (m : outcome A) (f : A -> outcome B) b :
  (m ≫= f) = Done b <-> exists a, m = Done a /\ f a = Done b.
Proof. destruct m; cbn; naive_solver. Qed.

(** A computation known to return: replay its steps in the goal. *)
Ltac replay H :=
  repeat (let x := fresh "x" in let Hx := fresh "Hx" in
    apply outcome_bind_Done in H as (x & Hx & H); rewrite Hx; cbn [mbind outcome_bind]; clear Hx).

(** The result of [int] arithmetic; overflow is undefined. *)
Definition int_result (z : Z) : outcome Z :=
  if decide (- 2 ^ 31 <= z < 2 ^ 31) then Done z else Fault Undefined.
Lemma int_result_ok z : - 2 ^ 31 <= z < 2 ^ 31 -> int_result z = Done z.
Proof. intros. unfold int_result. by rewrite decide_True. Qed.

(** The object behind a pointer; one that is not [NULL] and has no object of this type
    behind it is an access outside an object. *)
Definition deref {A} (m : gmap nat A) (a : option nat) : outcome A :=
  match a with
  | None => Fault NullDeref
  | Some a => match m !! a with Some x => Done x | None => Fault OutOfBounds end
  end.
Lemma deref_ok {A} (m : gmap nat A) a x : m !! a = Some x -> deref m (Some a) = Done x.
Proof. unfold deref. by intros ->. Qed.

(** ** Fixed-size arrays

    Reads and writes carry the bounds of the object; nothing is clipped. *)

Definition arr_get {A} (l : list A) (i : Z) : outcome A :=
  if decide (0 <= i) then
    match l !! Z.to_nat i with Some x => Done x | None => Fault OutOfBounds end
  else Fault OutOfBounds.

Definition arr_set {A} (l : list A) (i : Z) (x : A) : outcome (list A) :=
  if decide (0 <= i < Z.of_nat (length l))
  then Done (<[Z.to_nat i := x]> l) else Fault OutOfBounds.

(** [memcpy] out of, and into, an array of elements. *)
Definition arr_read {A} (l : list A) (off n : Z) : outcome (list A) :=
  if decide (0 <= off /\ 0 <= n /\ off + n <= Z.of_nat (length l))
  then Done (take (Z.to_nat n) (drop (Z.to_nat off) l)) else Fault OutOfBounds.

Definition arr_write {A} (l : list A) (off : Z) (xs : list A) : outcome (list A) :=
  if decide (0 <= off /\ off + Z.of_nat (length xs) <= Z.of_nat (length l))
  then Done (list_inserts (Z.to_nat off) xs l) else Fault OutOfBounds.

Section arrays.
Context {A : Type}.
Implicit Types (l xs : list A) (i off n : Z) (x : A).

Lemma arr_set_Done l i x l' : arr_set l i x = Done l' ->
  length l' = length l /\ l' = <[Z.to_nat i := x]> l /\ 0 <= i < Z.of_nat (length l).
Proof.
  unfold arr_set. case_decide; [|done]. intros [= <-].
  rewrite length_insert. done.
Qed.

Lemma arr_set_ok l i x : 0 <= i < Z.of_nat (length l) ->
  arr_set l i x = Done (<[Z.to_nat i := x]> l).
Proof. intros. unfold arr_set. by rewrite decide_True. Qed.

Lemma arr_write_ok l off xs :
  0 <= off -> off + Z.of_nat (length xs) <= Z.of_nat (length l) ->
  arr_write l off xs = Done (list_inserts (Z.to_nat off) xs l).
Proof. intros. unfold arr_write. by rewrite decide_True. Qed.

Lemma arr_read_ok l off n :
  0 <= off -> 0 <= n -> off + n <= Z.of_nat (length l) ->
  arr_read l off n = Done (take (Z.to_nat n) (drop (Z.to_nat off) l)).
Proof. intros. unfold arr_read. by rewrite decide_True. Qed.

Lemma list_inserts_app l xs (n : nat) :
  (n + length xs <= length l)%nat ->
  list_inserts n xs l = take n l ++ xs ++ drop (n + length xs) l.
Proof.
  intros Hlen. apply list_eq. intros i.
  destruct (decide (i < n)%nat) as [Hi|Hi].
  { rewrite list_lookup_inserts_lt by done.
    rewrite lookup_app_l by (rewrite length_take; lia).
    by rewrite lookup_take_lt by lia. }
  rewrite lookup_app_r by (rewrite length_take; lia).
  rewrite length_take, Nat.min_l by lia.
  destruct (decide (i < n + length xs)%nat) as [Hj|Hj].
  { rewrite list_lookup_inserts by lia. by rewrite lookup_app_l by lia. }
  rewrite list_lookup_inserts_ge by lia.
  rewrite lookup_app_r by lia. rewrite lookup_drop. f_equal. lia.
Qed.
End arrays.
