(* ===== verification/CString.v ===== *)
(** * [atoi]: the texts of shell commands as numbers *)
From Stdlib Require Import String Ascii.
From S2P Require Import Prelude.
#[local] Open Scope Z_scope.

Definition is_space (c : ascii) : bool :=
  let n := N_of_ascii c in ((n =? 32) || (9 <=? n) && (n <=? 13))%N.
Definition digit (c : ascii) : option Z :=
  let n := Z.of_N (N_of_ascii c) in if (48 <=? n) && (n <=? 57) then Some (n - 48) else None.
Fixpoint skip_space (s : string) : string :=
  match s with String c s' => if is_space c then skip_space s' else s | EmptyString => s end.
Fixpoint digits (acc : Z) (s : string) : Z :=
  match s with
  | String c s' => match digit c with Some d => digits (10 * acc + d) s' | None => acc end
  | EmptyString => acc
  end.
(** A value that is no [int] is undefined. *)
Definition atoi (s : string) : outcome Z :=
  int_result
    match skip_space s with
    | String "-" s => - digits 0 s
    | String "+" s => digits 0 s
    | s => digits 0 s
    end.

Lemma atoi_range x z : atoi x = Done z -> is_s32 z.
Proof. unfold atoi, int_result. case_decide; [|done]. by intros [= <-]. Qed.

Example atoi_reads : map atoi [" -12a"; "+7"; "x"; "99999999999"]%string = [Done (-12); Done 7; Done 0; Fault Undefined].
Proof. reflexivity. Qed.
