(* ===== verification/CFloat.v ===== *)
(** * The C floating-point types

    The controllers compute in [float].  Their models are written over an
    interface, [FloatOps], with two implementations: IEEE 754 binary32, rounding
    to nearest even after every operation as the Cortex-M4 FPU does, on the
    Standard Library's [spec_float]; and exact rational arithmetic, in which the
    algebra a formula is meant to express can be stated.  Bounds that must hold on
    the hardware are proved from [FloatLaws], which both implementations satisfy. *)
From Stdlib Require Export QArith.QArith_base QArith.Qcanon.
From Stdlib Require Import SpecFloat.
From S2P Require Import Prelude.
#[global] Open Scope Z_scope.

Class FloatOps (F : Type) := {
  f_of_Z : Z -> F;
  f_lit : Z -> positive -> F;
  f_add : F -> F -> F;
  f_sub : F -> F -> F;
  f_mul : F -> F -> F;
  f_div : F -> F -> F;
  f_opp : F -> F;
  f_ltb : F -> F -> bool;
  f_leb : F -> F -> bool;
  f_eqb : F -> F -> bool;
  f_flt_max : F;
  f_trunc : F -> option Z;
}.

Declare Scope cfloat_scope.
Delimit Scope cfloat_scope with F.
Infix "+" := f_add : cfloat_scope.
Infix "-" := f_sub : cfloat_scope.
Infix "*" := f_mul : cfloat_scope.
Infix "/" := f_div : cfloat_scope.
Notation "- x" := (f_opp x) : cfloat_scope.
Infix "<?" := f_ltb : cfloat_scope.
Infix "<=?" := f_leb : cfloat_scope.
Infix "=?" := f_eqb : cfloat_scope.
Notation "x >? y" := (f_ltb y x) (only parsing) : cfloat_scope.
Notation "x >=? y" := (f_leb y x) (only parsing) : cfloat_scope.
Notation "0" := (f_of_Z 0) : cfloat_scope.
Notation "1" := (f_of_Z 1) : cfloat_scope.
Notation "2" := (f_of_Z 2) : cfloat_scope.

(** The [double] that goes with a [float]: C widens an operand when the other is a
    [double], as the unsuffixed constants are, and rounds back on assignment. *)
Class DoubleOf (F : Type) := {
  dbl : Type;
  dbl_ops :: FloatOps dbl;
  widen : F -> dbl;
  narrow : dbl -> F;
}.

(** What a clamp needs of the order. *)
Class FloatLaws (F : Type) `{FloatOps F} := {
  f_ltb_irrefl : forall x : F, (x <? x)%F = false;
  f_nonneg_opp : forall x : F, (0 <=? x)%F = true -> (x <? - x)%F = false;
}.

(** ** Clamps *)
Section clamp.
Context {F : Type} `{FloatLaws F}.
Implicit Types (x lim : F).

(** [if (x > lim) x = lim; else if (x < -lim) x = -lim;] *)
Definition f_clamp lim x : F :=
  if (x >? lim)%F then lim else if (x <? - lim)%F then (- lim)%F else x.

(** Neither above [lim] nor below [-lim]; a [NaN] passes, as it does in the code. *)
Definition f_within lim x : Prop := (x >? lim)%F = false /\ (x <? - lim)%F = false.

Lemma f_clamp_within lim x : (0 <=? lim)%F = true -> f_within lim (f_clamp lim x).
Proof.
  intros Hl. pose proof (f_nonneg_opp lim Hl). unfold f_within, f_clamp.
  destruct (f_ltb lim x) eqn:E1; [by rewrite f_ltb_irrefl|].
  destruct (f_ltb x (f_opp lim)) eqn:E2; [by rewrite f_ltb_irrefl|done].
Qed.

Lemma f_clamp_id lim x : f_within lim x -> f_clamp lim x = x.
Proof. unfold f_within, f_clamp. by intros [-> ->]. Qed.
End clamp.

(** ** Casts to integers *)
Section casts.
Context {F : Type} `{FloatOps F}.

(** Casts of a float to an integer type: undefined when the value does not fit. *)
Definition f_to_int (lo hi : Z) (x : F) : outcome Z :=
  match f_trunc x with
  | Some z => if decide (lo <= z < hi) then Done z else Fault Undefined
  | None => Fault Undefined
  end.
Definition to_int16 : F -> outcome Z := f_to_int (- 2 ^ 15) (2 ^ 15).
Definition to_uint16 : F -> outcome Z := f_to_int 0 (2 ^ 16).
Definition to_int32 : F -> outcome Z := f_to_int (- 2 ^ 31) (2 ^ 31).

(** A result of a cast is in the range of its type. *)
Lemma f_to_int_range lo hi (x : F) z : f_to_int lo hi x = Done z -> lo <= z < hi.
Proof. unfold f_to_int. repeat case_match; intros; by simplify_eq. Qed.
End casts.

(** ** binary32 and binary64 *)

Definition sf_of_Z (prec emax z : Z) : spec_float := binary_normalize prec emax z 0 false.

(** A decimal constant, rounded once: [SFdiv] of two exact integers. *)
Definition sf_lit (prec emax n : Z) (d : positive) : spec_float :=
  match n with
  | Z0 => S754_zero false
  | Zpos m => SFdiv prec emax (S754_finite false m 0) (S754_finite false d 0)
  | Zneg m => SFdiv prec emax (S754_finite true m 0) (S754_finite false d 0)
  end.

(** Conversion between the formats. *)
Definition sf_convert (prec emax : Z) (x : spec_float) : spec_float :=
  match x with
  | S754_finite s m e => binary_normalize prec emax (cond_Zopp s (Zpos m)) e s
  | _ => x
  end.

(** A cast to an integer type: truncation; [None] when there is no integer. *)
Definition sf_trunc (x : spec_float) : option Z :=
  match x with
  | S754_zero _ => Some 0
  | S754_finite s m e =>
    Some (cond_Zopp s (if 0 <=? e then Zpos m * 2 ^ e else Zpos m / 2 ^ (- e)))
  | _ => None
  end.

Variant f32 := F32 (x : spec_float).
Definition sf32 (x : f32) : spec_float := let 'F32 x := x in x.
Definition lift32 (op : spec_float -> spec_float -> spec_float) (x y : f32) : f32 :=
  F32 (op (sf32 x) (sf32 y)).

#[export] Instance f32_ops : FloatOps f32 := {
  f_of_Z z := F32 (sf_of_Z 24 128 z);
  f_lit n d := F32 (sf_lit 24 128 n d);
  f_add := lift32 (SFadd 24 128);
  f_sub := lift32 (SFsub 24 128);
  f_mul := lift32 (SFmul 24 128);
  f_div := lift32 (SFdiv 24 128);
  f_opp x := F32 (SFopp (sf32 x));
  f_ltb x y := SFltb (sf32 x) (sf32 y);
  f_leb x y := SFleb (sf32 x) (sf32 y);
  f_eqb x y := SFeqb (sf32 x) (sf32 y);
  f_flt_max := F32 (S754_finite false 16777215 104);
  f_trunc x := sf_trunc (sf32 x);
}.

Variant f64 := F64 (x : spec_float).
Definition sf64 (x : f64) : spec_float := let 'F64 x := x in x.
Definition lift64 (op : spec_float -> spec_float -> spec_float) (x y : f64) : f64 :=
  F64 (op (sf64 x) (sf64 y)).

#[export] Instance f64_ops : FloatOps f64 := {
  f_of_Z z := F64 (sf_of_Z 53 1024 z);
  f_lit n d := F64 (sf_lit 53 1024 n d);
  f_add := lift64 (SFadd 53 1024);
  f_sub := lift64 (SFsub 53 1024);
  f_mul := lift64 (SFmul 53 1024);
  f_div := lift64 (SFdiv 53 1024);
  f_opp x := F64 (SFopp (sf64 x));
  f_ltb x y := SFltb (sf64 x) (sf64 y);
  f_leb x y := SFleb (sf64 x) (sf64 y);
  f_eqb x y := SFeqb (sf64 x) (sf64 y);
  f_flt_max := F64 (S754_finite false 16777215 104);
  f_trunc x := sf_trunc (sf64 x);
}.

#[export] Instance f32_double : DoubleOf f32 := {
  dbl := f64;
  widen x := F64 (sf_convert 53 1024 (sf32 x));
  narrow x := F32 (sf_convert 24 128 (sf64 x));
}.

Lemma SFcompare_refl x : SFcompare x x = Some Eq \/ SFcompare x x = None.
Proof.
  destruct x as [s|s| |s m e]; cbn; [by left|by destruct s; left|by right|left].
  destruct s; rewrite Z.compare_refl; by rewrite Pos.compare_cont_refl.
Qed.

#[export] Instance f32_laws : FloatLaws f32.
Proof.
  split.
  - intros [x]. cbn. unfold SFltb. by destruct (SFcompare_refl x) as [-> | ->].
  - intros [x]. cbn. by destruct x as [|[]| |[] ? ?].
Qed.

(** ** Exact arithmetic *)

Definition qc_of_Z (z : Z) : Qc := Q2Qc (Qmake z 1).

#[export] Instance qc_ops : FloatOps Qc := {
  f_of_Z := qc_of_Z;
  f_lit n d := Q2Qc (Qmake n d);
  f_add := Qcplus;
  f_sub := Qcminus;
  f_mul := Qcmult;
  f_div := Qcdiv;
  f_opp := Qcopp;
  f_ltb x y := match Qccompare x y with Lt => true | _ => false end;
  f_leb x y := match Qccompare x y with Gt => false | _ => true end;
  f_eqb x y := match Qccompare x y with Eq => true | _ => false end;
  f_flt_max := qc_of_Z (16777215 * 2 ^ 104);
  f_trunc x := Some (Z.quot (Qnum x) (Zpos (Qden x)));
}.

#[export] Instance qc_double : DoubleOf Qc := { dbl := Qc; widen x := x; narrow x := x }.

Lemma qc_ltb_spec (x y : Qc) : (x <? y)%F = true <-> (x < y)%Qc.
Proof. cbn. rewrite Qclt_alt. by destruct (x ?= y)%Qc. Qed.
Lemma qc_leb_spec (x y : Qc) : (x <=? y)%F = true <-> (x <= y)%Qc.
Proof. cbn. rewrite Qcle_alt. by destruct (x ?= y)%Qc. Qed.
Lemma qc_ltb_false (x y : Qc) : (x <? y)%F = false <-> (y <= x)%Qc.
Proof.
  rewrite <- not_true_iff_false, qc_ltb_spec. split; [apply Qcnot_lt_le|apply Qcle_not_lt].
Qed.

#[export] Instance qc_laws : FloatLaws Qc.
Proof.
  split.
  - intros x. apply qc_ltb_false, Qcle_refl.
  - intros x Hx%qc_leb_spec. apply qc_ltb_false. cbn.
    change (qc_of_Z 0) with 0%Qc in Hx. apply Qcle_trans with 0%Qc; [|done].
    replace 0%Qc with (- 0)%Qc by ring. by apply Qcopp_le_compat.
Qed.
