(* ===== verification/Cvector.v ===== *)
(** * [statemachine/cvector.c]: the growable array

    A [cvector] owns a block of [cv_tot_len] slots of [cv_size] bytes, of which the first
    [cv_len] are in use.  A slot is an [option]: [None] is memory that was allocated and
    never written.  An iterator ([void *] into the block) is element aligned in every
    caller: it is the address of its block and a slot number, possibly outside the block.
    The allocator is not in this file: [alloc n] is the address at which a request for [n]
    bytes is granted, if it is; a [realloc] that finds another address has freed the block,
    and its iterators are dangling.  [memcpy] with overlapping operands is undefined. *)
From S2P Require Import Prelude.

Definition MIN_LEN : Z := 256.
Definition CVEFAILED : Z := -1.
Definition CVESUCCESS : Z := 0.
Definition CVEPUSHBACK : Z := 1.
Definition CVEPOPBACK : Z := 2.
Definition CVEINSERT : Z := 3.
Definition CVERM : Z := 4.
Definition EXPANED_VAL : Z := 1.
Definition REDUSED_VAL : Z := 2.

(** [cv_pdata] is the block at the address [cv_block]. *)
Record cvector (A : Type) := Cvector {
  cv_block : Z;
  cv_pdata : list (option A);
  cv_len : Z;
  cv_tot_len : Z;
  cv_size : Z;
}.
Arguments Cvector {A}.
Arguments cv_block {A}.
Arguments cv_pdata {A}.
Arguments cv_len {A}.
Arguments cv_tot_len {A}.
Arguments cv_size {A}.

Record citerator := Iter { it_block : Z; it_slot : Z }.

(** The faults of [memcpy] of [n] slots within a block. *)
Definition memcpy_slots {A} (p : list A) (dst src n : Z) : outcome (list A) :=
  if Z.abs (dst - src) <? n then Fault Undefined
  else xs ← arr_read p src n; arr_write p dst xs.

Section ops.
Context {A : Type}.
Implicit Types (cv : cvector A) (alloc : Z -> option Z) (iter : citerator) (index : Z) (memb : A).

Definition set_pdata (p : list (option A)) cv : cvector A :=
  Cvector (cv_block cv) p (cv_len cv) (cv_tot_len cv) (cv_size cv).
Definition set_len (n : Z) cv : cvector A :=
  Cvector (cv_block cv) (cv_pdata cv) n (cv_tot_len cv) (cv_size cv).
Definition set_tot_len (n : Z) cv : cvector A :=
  Cvector (cv_block cv) (cv_pdata cv) (cv_len cv) n (cv_size cv).

(** [realloc] to [bytes] bytes of a block of slots: the common prefix survives. *)
Definition realloc_slots (bytes size : Z) (p : list (option A)) : list (option A) :=
  resize (Z.to_nat (bytes / size)) None p.

Definition cvector_create (alloc : Z -> option Z) (size : Z) : option (cvector A) :=
  let bytes := u32 (MIN_LEN * size) in
  match alloc 16, alloc bytes with
  | Some _, Some b => Some (Cvector b (realloc_slots bytes size []) 0 MIN_LEN size)
  | _, _ => None
  end.

Definition cvector_length cv : Z := cv_len cv.

(** The growth step shared by [cvector_pushback] and [cvector_insert]; the
  boolean says whether [realloc] returned memory. *)
Definition grow alloc cv : cvector A * bool :=
  let tot := u32 (Z.shiftl (cv_tot_len cv) EXPANED_VAL) in
  let bytes := u32 (tot * cv_size cv) in
  match alloc bytes with
  | Some b => (Cvector b (realloc_slots bytes (cv_size cv) (cv_pdata cv)) (cv_len cv) tot (cv_size cv), true)
  | None => (set_tot_len (Z.shiftr tot EXPANED_VAL) cv, false)
  end.

Definition cvector_pushback alloc cv memb : outcome (cvector A * Z) :=
  let '(cv1, ok) := if cv_tot_len cv <=? cv_len cv then grow alloc cv else (cv, true) in
  if ok then
  p ← arr_set (cv_pdata cv1) (cv_len cv1) (Some memb);
  Done (set_len (u32 (cv_len cv1 + 1)) (set_pdata p cv1), CVESUCCESS)
  else Done (cv1, CVEPUSHBACK).

(** The shrink step shared by [cvector_popback] and [cvector_rm]. *)
Definition shrink alloc cv : cvector A * bool :=
  if (Z.shiftl MIN_LEN REDUSED_VAL <=? cv_tot_len cv)
   && (cv_len cv <=? Z.shiftr (cv_tot_len cv) REDUSED_VAL) then
  let tot := Z.shiftr (cv_tot_len cv) EXPANED_VAL in
  let bytes := u32 (tot * cv_size cv) in
  match alloc bytes with
  | Some b => (Cvector b (realloc_slots bytes (cv_size cv) (cv_pdata cv)) (cv_len cv) tot (cv_size cv), true)
  | None => (set_tot_len (u32 (Z.shiftl tot EXPANED_VAL)) cv, false)
  end
  else (cv, true).

(** The result carries the element written through [memb], if any was. *)
Definition cvector_popback alloc cv : outcome (cvector A * Z * option (option A)) :=
  if cv_len cv <=? 0 then Done (cv, CVEPOPBACK, None)
  else
  let cv1 := set_len (cv_len cv - 1) cv in
  x ← arr_get (cv_pdata cv1) (cv_len cv1);
  let '(cv2, ok) := shrink alloc cv1 in
  Done (cv2, if ok then CVESUCCESS else CVEPOPBACK, Some x).

Definition cvector_begin cv : citerator := Iter (cv_block cv) 0.
Definition cvector_end cv : citerator := Iter (cv_block cv) (cv_len cv).
Definition cvector_next cv iter : citerator := Iter (it_block iter) (it_slot iter + 1).

(** The slot an iterator points to, when it points into the block. *)
Definition slot_of cv iter : outcome Z :=
  if it_block iter =? cv_block cv then Done (it_slot iter) else Fault Undefined.
(** The guard of the macro [CWARNING_ITER]. *)
Definition iter_warning cv iter : outcome bool :=
  i ← slot_of cv iter;
  Done ((i <? it_slot (cvector_begin cv)) || (it_slot (cvector_end cv) <=? i)).

Definition cvector_iter_at cv iter : outcome Z :=
  w ← iter_warning cv iter;
  if w : bool then Done (u32 CVEFAILED) else slot_of cv iter.

Definition cvector_iter_val cv iter : outcome (Z * option (option A)) :=
  w ← iter_warning cv iter;
  if w : bool then Done (CVEFAILED, None)
  else i ← slot_of cv iter; x ← arr_get (cv_pdata cv) i; Done (0, Some x).

Definition cvector_val cv iter : outcome (option A) :=
  i ← slot_of cv iter; arr_get (cv_pdata cv) i.
Definition cvector_val_at cv index : outcome (option A) := arr_get (cv_pdata cv) index.

Definition cvector_at cv index : option citerator :=
  if cv_len cv <=? index then None else Some (Iter (cv_block cv) index).

(** [for (p = to; p >= from; p -= size) memcpy(p + size, p, size);] with [n]
  the number of slots from [from] to [to]. *)
Fixpoint cvmemove_foreward (p : list (option A)) (to : Z) (n : nat)
  : outcome (list (option A)) :=
  match n with
  | O => Done p
  | S n' =>
  x ← arr_get p to;
  p' ← arr_set p (to + 1) x;
  cvmemove_foreward p' (to - 1) n'
  end.

Definition cvmemove_backward (p : list (option A)) (from to : Z)
  : outcome (list (option A)) := memcpy_slots p from (from + 1) (to - from).

(** [realloc] leaves [iter] as it was. *)
Definition cvector_insert alloc cv iter memb : outcome (cvector A * Z) :=
  w ← iter_warning cv iter;
  if w : bool then Done (cv, CVEFAILED)
  else
  let '(cv1, ok) := if cv_tot_len cv <=? cv_len cv then grow alloc cv else (cv, true) in
  if ok then
  i ← slot_of cv1 iter;
  p ← cvmemove_foreward (cv_pdata cv1) (cv_len cv1) (Z.to_nat (cv_len cv1 - i + 1));
  p' ← arr_set p i (Some memb);
  Done (set_len (u32 (cv_len cv1 + 1)) (set_pdata p' cv1), CVESUCCESS)
  else Done (cv1, CVEINSERT).

(** [while (cv->cv_len >= cv->cv_tot_len) cv->cv_tot_len <<= EXPANED_VAL;]:
  after 32 shifts the total is 0 and stays 0. *)
Fixpoint expand_to (fuel : nat) (len tot : Z) : outcome Z :=
  if tot <=? len then
  match fuel with
  | O => Fault Hang
  | S fuel' => expand_to fuel' len (u32 (Z.shiftl tot EXPANED_VAL))
  end
  else Done tot.

Definition cvector_insert_at alloc cv index memb : outcome (cvector A * Z) :=
  if cv_tot_len cv <=? index then
  let len := u32 (index + 1) in
  tot ← expand_to 32 len (cv_tot_len cv);
  let bytes := u32 (tot * cv_size cv) in
  match alloc bytes with
  | Some b =>
    p ← arr_set (realloc_slots bytes (cv_size cv) (cv_pdata cv)) index (Some memb);
    Done (Cvector b p len tot (cv_size cv), 0)
  | None => Fault NullDeref
  end
  else
  r ← cvector_insert alloc cv (Iter (cv_block cv) index) memb;
  Done (r.1, 0).

Definition cvector_rm alloc cv iter : outcome (cvector A * Z) :=
  w ← iter_warning cv iter;
  if w : bool then Done (cv, CVEFAILED)
  else
  from ← slot_of cv iter;
  p ← memcpy_slots (cv_pdata cv) from (from + 1) (it_slot (cvector_end cv) - from);
  let '(cv1, ok) := shrink alloc (set_len (cv_len cv - 1) (set_pdata p cv)) in
  Done (cv1, if ok then CVESUCCESS else CVERM).

Definition cvector_rm_at alloc cv index : outcome (cvector A * Z) :=
  let iter := Iter (cv_block cv) index in
  w ← iter_warning cv iter;
  if w : bool then Done (cv, CVEFAILED) else cvector_rm alloc cv iter.
End ops.

(** ** The invariant and the list a vector stands for *)

Record cv_wf {A} (cv : cvector A) : Prop := {
  wf_block : Z.of_nat (length (cv_pdata cv)) = cv_tot_len cv;
  wf_len : 0 <= cv_len cv <= cv_tot_len cv;
  wf_min : MIN_LEN <= cv_tot_len cv;
  wf_size : 0 < cv_size cv;
  wf_bytes : cv_tot_len cv * cv_size cv < 2 ^ 32;
}.

(** [cv] holds the elements [xs]; the slots behind them are junk. *)
Definition cv_rep {A} (cv : cvector A) (xs : list A) : Prop :=
  cv_wf cv /\ cv_len cv = Z.of_nat (length xs)
  /\ exists junk, cv_pdata cv = (Some <$> xs) ++ junk.

(** The memory the next growth asks for is there, and its size fits [size_t]. *)
Definition can_grow {A} (alloc : Z -> option Z) (cv : cvector A) : Prop :=
  2 * cv_tot_len cv * cv_size cv < 2 ^ 32 /\ is_Some (alloc (2 * cv_tot_len cv * cv_size cv)).

Section facts.
Context {A : Type}.
Implicit Types (cv : cvector A) (xs : list A) (alloc : Z -> option Z) (x : A).

Lemma cv_rep_intro cv xs junk :
  cv_pdata cv = (Some <$> xs) ++ junk ->
  cv_len cv = Z.of_nat (length xs) ->
  cv_tot_len cv = Z.of_nat (length xs + length junk) ->
  MIN_LEN <= cv_tot_len cv -> 0 < cv_size cv ->
  cv_tot_len cv * cv_size cv < 2 ^ 32 ->
  cv_rep cv xs.
Proof.
  intros Hp Hl Ht Hm Hs Hb. repeat split; eauto.
  - rewrite Hp, length_app, length_fmap. lia.
  - lia.
  - lia.
Qed.

Lemma cv_rep_elim cv xs : cv_rep cv xs ->
  exists junk, cv_pdata cv = (Some <$> xs) ++ junk
  /\ cv_len cv = Z.of_nat (length xs)
  /\ cv_tot_len cv = Z.of_nat (length xs + length junk)
  /\ MIN_LEN <= cv_tot_len cv /\ 0 < cv_size cv
  /\ cv_tot_len cv * cv_size cv < 2 ^ 32.
Proof.
  intros ([] & Hl & junk & Hp). exists junk.
  rewrite Hp, length_app, length_fmap in wf_block0. repeat split; auto; lia.
Qed.

Lemma tot_small cv xs : cv_rep cv xs -> 0 <= cv_tot_len cv < 2 ^ 32.
Proof.
  intros (junk & _ & _ & Ht & Hm & Hs & Hb)%cv_rep_elim. unfold MIN_LEN in *. nia.
Qed.

Lemma realloc_slots_grow (xs : list A) junk tot size :
  0 < size -> Z.of_nat (length xs) <= tot ->
  exists junk', realloc_slots (tot * size) size ((Some <$> xs) ++ junk) = (Some <$> xs) ++ junk'
  /\ tot = Z.of_nat (length xs + length junk').
Proof.
  intros Hs Ht. unfold realloc_slots. rewrite Z.div_mul by lia.
  exists (resize (Z.to_nat tot - length xs) None junk).
  rewrite resize_app_ge by (rewrite length_fmap; lia).
  rewrite length_fmap, length_resize. split; [done|lia].
Qed.

Lemma grow_rep alloc cv xs :
  cv_rep cv xs -> can_grow alloc cv ->
  exists cv', grow alloc cv = (cv', true) /\ cv_rep cv' xs
  /\ cv_tot_len cv' = 2 * cv_tot_len cv /\ cv_len cv' = cv_len cv
  /\ alloc (2 * cv_tot_len cv * cv_size cv) = Some (cv_block cv').
Proof.
  intros Hrep [Hb Ha]. pose proof (tot_small _ _ Hrep) as Htot.
  apply cv_rep_elim in Hrep as (junk & Hp & Hl & Ht & Hm & Hs & _).
  unfold MIN_LEN in *.
  unfold grow. rewrite Z.shiftl_mul_pow2 by done. change (2 ^ EXPANED_VAL) with 2.
  rewrite (u32_id (cv_tot_len cv * 2)) by (unfold is_u32; nia).
  rewrite u32_id by (unfold is_u32; nia).
  replace (cv_tot_len cv * 2 * cv_size cv) with (2 * cv_tot_len cv * cv_size cv) by lia.
  destruct Ha as [b Ha]. rewrite Ha. eexists; split; [done|]. cbn.
  destruct (realloc_slots_grow xs junk (2 * cv_tot_len cv) (cv_size cv)) as (junk' & Hr & Ht');
  [lia..|].
  split; [|split; [lia|split; [lia|done]]].
  apply cv_rep_intro with junk'; cbn; unfold MIN_LEN; try lia. by rewrite Hp.
Qed.

Lemma shrink_rep alloc cv xs :
  cv_rep cv xs -> (forall n, is_Some (alloc n)) ->
  exists cv', shrink alloc cv = (cv', true) /\ cv_rep cv' xs.
Proof.
  intros Hrep Ha. unfold shrink.
  destruct (_ && _) eqn:Hc; [|by eauto].
  apply andb_true_iff in Hc as [Hc1%Z.leb_le Hc2%Z.leb_le].
  rewrite Z.shiftr_div_pow2 in Hc2 by done.
  change (Z.shiftl MIN_LEN REDUSED_VAL) with 1024 in Hc1.
  change (2 ^ REDUSED_VAL) with 4 in Hc2.
  pose proof (tot_small _ _ Hrep) as Htot.
  apply cv_rep_elim in Hrep as (junk & Hp & Hl & Ht & Hm & Hs & Hb).
  unfold MIN_LEN in *.
  rewrite Z.shiftr_div_pow2 by done. change (2 ^ EXPANED_VAL) with 2.
  destruct (Ha (u32 (cv_tot_len cv / 2 * cv_size cv))) as [b ->]. eexists; split; [done|].
  assert (cv_tot_len cv / 2 * cv_size cv <= cv_tot_len cv * cv_size cv) by nia.
  rewrite u32_id by (unfold is_u32; nia).
  destruct (realloc_slots_grow xs junk (cv_tot_len cv / 2) (cv_size cv)) as (junk' & Hr & Ht');
  [lia..|].
  apply cv_rep_intro with junk'; cbn; unfold MIN_LEN; try lia. by rewrite Hp.
Qed.

Lemma store_rep cv xs x :
  cv_rep cv xs -> cv_len cv < cv_tot_len cv ->
  exists p, arr_set (cv_pdata cv) (cv_len cv) (Some x) = Done p
  /\ cv_rep (set_len (u32 (cv_len cv + 1)) (set_pdata p cv)) (xs ++ [x]).
Proof.
  intros Hrep Hlt. pose proof (tot_small _ _ Hrep) as Htot.
  apply cv_rep_elim in Hrep as (junk & Hp & Hl & Ht & Hm & Hs & Hb).
  destruct junk as [|j junk]; [cbn in Ht; lia|].
  rewrite arr_set_ok by (rewrite Hp, length_app, length_fmap; cbn; lia).
  eexists; split; [done|].
  rewrite u32_id by (unfold is_u32; lia).
  apply cv_rep_intro with junk; cbn; unfold MIN_LEN in *; try lia.
  - rewrite Hp, Hl, Nat2Z.id, insert_app_r_alt by (rewrite length_fmap; lia).
  rewrite length_fmap, Nat.sub_diag, fmap_app. by rewrite <- app_assoc.
  - rewrite length_app. cbn. lia.
  - rewrite length_app. cbn in *. lia.
Qed.

Lemma cvmemove_foreward_spec (front seg rest : list (option A)) y :
  cvmemove_foreward (front ++ seg ++ y :: rest)
  (Z.of_nat (length front + length seg) - 1) (length seg)
  = Done (front ++ take 1 (seg ++ [y]) ++ seg ++ rest).
Proof.
  revert y rest. induction seg as [|s seg IH] using rev_ind; intros y rest; [done|].
  rewrite length_app. cbn [length]. rewrite (Nat.add_comm (length seg)). cbn [Nat.add cvmemove_foreward].
  unfold arr_get. rewrite decide_True by lia.
  replace (Z.to_nat _) with (length front + length seg)%nat by lia.
  rewrite <- !app_assoc. cbn [app].
  rewrite lookup_app_r, lookup_app_r by lia.
  replace (_ - _ - _)%nat with O by lia. cbn [lookup list_lookup mbind outcome_bind].
  rewrite arr_set_ok by (rewrite !length_app; cbn; lia). cbn [mbind outcome_bind].
  replace (Z.to_nat _) with (length front + (length seg + 1))%nat by lia.
  rewrite insert_app_r, insert_app_r. cbn [insert list_insert].
  replace (_ - 1 - 1) with (Z.of_nat (length front + length seg) - 1) by lia.
  rewrite (IH s (s :: rest)). do 2 f_equal.
  destruct seg; cbn; by rewrite <- ?app_assoc.
Qed.
End facts.

(** ** The operations refine list operations *)

Inductive cv_op (A : Type) :=
  | OpPush (x : A)
  | OpPop
  | OpInsert (i : Z) (x : A)
  | OpRm (i : Z).
Arguments OpPush {A} x.
Arguments OpPop {A}.
Arguments OpInsert {A} i x.
Arguments OpRm {A} i.

(** The concrete call: new vector, return code, element handed back. *)
Definition cv_run {A} (alloc : Z -> option Z) (cv : cvector A) (op : cv_op A)
    : outcome (cvector A * Z * option (option A)) :=
  match op with
  | OpPush x => r ← cvector_pushback alloc cv x; Done (r, None)
  | OpPop => cvector_popback alloc cv
  | OpInsert i x => r ← cvector_insert alloc cv (Iter (cv_block cv) i) x; Done (r, None)
  | OpRm i => r ← cvector_rm_at alloc cv i; Done (r, None)
  end.

(** What the call promises on the list the vector stands for. *)
Definition cv_spec {A} (xs : list A) (op : cv_op A) : list A * Z * option (option A) :=
  let valid i := bool_decide (0 <= i < Z.of_nat (length xs)) in
  match op with
  | OpPush x => (xs ++ [x], CVESUCCESS, None)
  | OpPop =>
    match list.last xs with
    | None => (xs, CVEPOPBACK, None)
    | Some x => (take (length xs - 1) xs, CVESUCCESS, Some (Some x))
    end
  | OpInsert i x =>
    if valid i then (take (Z.to_nat i) xs ++ x :: drop (Z.to_nat i) xs, CVESUCCESS, None)
    else (xs, CVEFAILED, None)
  | OpRm i => if valid i then (delete (Z.to_nat i) xs, CVESUCCESS, None) else (xs, CVEFAILED, None)
  end.

(** The next growth fits [size_t]; memory is there. *)
Definition cv_grows {A} (alloc : Z -> option Z) (cv : cvector A) : Prop :=
  2 * cv_tot_len cv * cv_size cv < 2 ^ 32 /\ forall n, is_Some (alloc n).
(** The room a push needs. *)
Definition cv_push_room {A} (alloc : Z -> option Z) (cv : cvector A) : Prop :=
  cv_len cv < cv_tot_len cv \/ can_grow alloc cv.

(** The calls that go wrong: an insertion one short of a full block shifts past it; an
    insertion into a full block that [realloc] moves goes on with its old iterator; a
    removal before the last element is a [memcpy] of overlapping operands; a removal from
    a full block reads past it. *)
Definition cv_hazard {A} (alloc : Z -> option Z) (cv : cvector A) (op : cv_op A) : option fault :=
  let valid i := bool_decide (0 <= i < cv_len cv) in
  let moved := negb (bool_decide (alloc (2 * cv_tot_len cv * cv_size cv) = Some (cv_block cv))) in
  match op with
  | OpInsert i _ =>
    if valid i then
      if cv_len cv + 1 =? cv_tot_len cv then Some OutOfBounds
      else if (cv_len cv =? cv_tot_len cv) && moved then Some Undefined else None
    else None
  | OpRm i =>
    if valid i then
      if i + 1 <? cv_len cv then Some Undefined
      else if cv_len cv =? cv_tot_len cv then Some OutOfBounds else None
    else None
  | _ => None
  end.

Section refinement.
Context {A : Type}.
Implicit Types (cv : cvector A) (xs : list A) (alloc : Z -> option Z) (x : A).

Lemma iter_warning_spec cv xs i : cv_rep cv xs ->
  iter_warning cv (Iter (cv_block cv) i) = Done (negb (bool_decide (0 <= i < Z.of_nat (length xs)))).
Proof.
  intros (junk & _ & Hl & _)%cv_rep_elim. unfold iter_warning, slot_of, cvector_begin, cvector_end.
  cbn. rewrite Z.eqb_refl, Hl. cbn. f_equal. case_bool_decide; cbn; lia.
Qed.
Lemma slot_of_own cv i : slot_of cv (Iter (cv_block cv) i) = Done i.
Proof. unfold slot_of. cbn. by rewrite Z.eqb_refl. Qed.

(** The growth a full vector goes through before an element is stored. *)
Lemma make_room alloc cv xs :
  cv_rep cv xs -> cv_len cv < cv_tot_len cv \/ can_grow alloc cv ->
  exists cv', (if cv_tot_len cv <=? cv_len cv then grow alloc cv else (cv, true)) = (cv', true)
  /\ cv_rep cv' xs /\ cv_len cv' < cv_tot_len cv'
  /\ (cv' = cv \/ cv_len cv' + 1 < cv_tot_len cv').
Proof.
  intros Hrep Hroom. destruct (Z.leb_spec (cv_tot_len cv) (cv_len cv)) as [Hf|Hf].
  - destruct Hroom as [|Hg]; [lia|].
  destruct (grow_rep _ _ _ Hrep Hg) as (cv' & -> & Hrep' & Ht & Hl & _).
  exists cv'. destruct Hrep as ([] & _). unfold MIN_LEN in *.
  split_and!; [done|done|lia|right; lia].
  - exists cv. auto.
Qed.

Lemma push_refines alloc cv xs x :
  cv_rep cv xs -> cv_push_room alloc cv ->
  exists cv', cvector_pushback alloc cv x = Done (cv', CVESUCCESS) /\ cv_rep cv' (xs ++ [x]).
Proof.
  intros Hrep Hroom. unfold cvector_pushback.
  destruct (make_room _ _ _ Hrep Hroom) as (cv1 & -> & Hrep1 & Hl & _).
  destruct (store_rep cv1 xs x) as (p & -> & Hrep'); [done..|].
  cbn. eauto.
Qed.

Lemma pop_refines alloc cv xs x :
  cv_rep cv (xs ++ [x]) -> (forall n, is_Some (alloc n)) ->
  exists cv', cvector_popback alloc cv = Done (cv', CVESUCCESS, Some (Some x)) /\ cv_rep cv' xs.
Proof.
  intros Hrep Ha. pose proof (cv_rep_elim _ _ Hrep) as (junk & Hp & Hl & Ht & Hm & Hs & Hb).
  rewrite length_app in Hl, Ht. cbn in Hl, Ht. unfold cvector_popback.
  destruct (Z.leb_spec (cv_len cv) 0); [lia|]. cbn -[shrink].
  unfold arr_get. rewrite decide_True, Hp, Hl by lia.
  rewrite fmap_app, <- app_assoc, lookup_app_r by (rewrite length_fmap; lia).
  rewrite length_fmap. replace (_ - _)%nat with O by lia. cbn -[shrink].
  destruct (shrink_rep alloc (set_len (Z.of_nat (length xs + 1) - 1) cv) xs) as (cv' & -> & Hrep');
  [|done|by eauto].
  apply cv_rep_intro with (Some x :: junk); cbn; try lia.
  by rewrite Hp, fmap_app, <- app_assoc.
Qed.

(** Insertion once there is room for the shift. *)
Lemma insert_shift cv xs i x :
  cv_rep cv xs -> 0 <= i < Z.of_nat (length xs) -> cv_len cv + 1 < cv_tot_len cv ->
  exists cv',
    (p ← cvmemove_foreward (cv_pdata cv) (cv_len cv) (Z.to_nat (cv_len cv - i + 1));
     p' ← arr_set p i (Some x);
     Done (set_len (u32 (cv_len cv + 1)) (set_pdata p' cv), CVESUCCESS)) = Done (cv', CVESUCCESS)
    /\ cv_rep cv' (take (Z.to_nat i) xs ++ x :: drop (Z.to_nat i) xs).
Proof.
  intros Hrep Hi Hroom1. pose proof (tot_small _ _ Hrep) as Htot.
  apply cv_rep_elim in Hrep as (junk & Hp & Hl & Ht & Hm & Hs & Hb).
  destruct junk as [|j0 [|j1 junk]]; cbn in Ht; [lia|lia|].
  set (front := Some <$> take (Z.to_nat i) xs).
  set (seg := (Some <$> drop (Z.to_nat i) xs) ++ [j0]).
  assert (length front = Z.to_nat i) as Hfl.
  { unfold front. rewrite length_fmap, length_take. lia. }
  assert (length seg = (length xs - Z.to_nat i + 1)%nat) as Hsl.
  { unfold seg. rewrite length_app, length_fmap, length_drop. cbn. lia. }
  assert (cv_pdata cv = front ++ seg ++ j1 :: junk) as Hsplit.
  { rewrite Hp. unfold front, seg. rewrite <- (take_drop (Z.to_nat i) xs) at 1.
    by rewrite fmap_app, <- !app_assoc. }
  assert (cv_len cv = Z.of_nat (length front + length seg) - 1) as Hto by lia.
  rewrite Hsplit. replace (Z.to_nat (_ - i + 1)) with (length seg) by lia.
  rewrite Hto, cvmemove_foreward_spec. cbn [mbind outcome_bind].
  assert (exists s, take 1 (seg ++ [j1]) = [s]) as [s ->].
  { destruct seg; [cbn in Hsl; lia|]. by eexists. }
  cbn [app].
  rewrite arr_set_ok by (rewrite !length_app; cbn; lia). cbn [mbind outcome_bind].
  rewrite insert_app_r_alt, Hfl, Nat.sub_diag by lia. cbn [insert list_insert].
  eexists; split; [done|]. rewrite u32_id by (unfold is_u32; lia).
  apply cv_rep_intro with (j0 :: junk); cbn -[Z.of_nat]; try done.
  - unfold front. rewrite fmap_app. cbn. rewrite <- app_assoc. cbn.
    unfold seg. by rewrite <- app_assoc.
  - rewrite length_app, length_take. cbn. rewrite length_drop. lia.
  - rewrite length_app, length_take. cbn. rewrite length_drop. lia.
Qed.
(** With one slot left the shift runs past the block. *)
Lemma insert_overrun cv xs i : cv_rep cv xs -> 0 <= i < Z.of_nat (length xs) -> cv_len cv + 1 = cv_tot_len cv ->
  cvmemove_foreward (cv_pdata cv) (cv_len cv) (Z.to_nat (cv_len cv - i + 1)) = Fault OutOfBounds.
Proof.
  intros Hrep Hi Hfull. pose proof (cv_rep_elim _ _ Hrep) as (junk & Hp & Hl & Ht & Hm & Hs & Hb).
  replace (Z.to_nat (cv_len cv - i + 1)) with (S (Z.to_nat (cv_len cv - i))) by lia.
  cbn [cvmemove_foreward]. unfold arr_get. rewrite decide_True by lia.
  destruct (lookup_lt_is_Some_2 (cv_pdata cv) (Z.to_nat (cv_len cv))) as [y ->].
  { rewrite Hp, length_app, length_fmap. lia. }
  cbn [mbind outcome_bind]. unfold arr_set. rewrite decide_False; [done|].
  rewrite Hp, length_app, length_fmap. lia.
Qed.

Lemma insert_total alloc cv xs i x :
  cv_rep cv xs -> 0 <= i < Z.of_nat (length xs) -> cv_grows alloc cv ->
  match cv_hazard alloc cv (OpInsert i x) with
  | Some f => cvector_insert alloc cv (Iter (cv_block cv) i) x = Fault f
  | None => exists cv', cvector_insert alloc cv (Iter (cv_block cv) i) x = Done (cv', CVESUCCESS)
      /\ cv_rep cv' (take (Z.to_nat i) xs ++ x :: drop (Z.to_nat i) xs)
  end.
Proof.
  intros Hrep Hi [Hbytes Ha]. pose proof (cv_rep_elim _ _ Hrep) as (junk & _ & Hl & Ht & Hm & Hs & _).
  unfold cv_hazard, cvector_insert. rewrite (iter_warning_spec cv xs) by done.
  rewrite (bool_decide_true (0 <= i < cv_len cv)), (bool_decide_true (0 <= i < _)) by lia. cbn [negb mbind outcome_bind].
  destruct (Z.eqb_spec (cv_len cv + 1) (cv_tot_len cv)) as [Hone|Hone].
  { rewrite (proj2 (Z.leb_gt _ _)), slot_of_own by lia. cbn [mbind outcome_bind].
    by rewrite (insert_overrun cv xs) by (done || lia). }
  destruct (Z.eqb_spec (cv_len cv) (cv_tot_len cv)) as [Hfull|Hfull]; cbn [andb].
  2:{ rewrite (proj2 (Z.leb_gt _ _)), slot_of_own by lia. apply (insert_shift cv xs); [done..|lia]. }
  rewrite (proj2 (Z.leb_le _ _)) by lia.
  destruct (grow_rep alloc cv xs Hrep (conj Hbytes (Ha _))) as (cv1 & -> & Hrep1 & Ht1 & Hl1 & Hblock).
  rewrite Hblock. unfold slot_of. cbn [it_block it_slot].
  destruct (Z.eqb_spec (cv_block cv) (cv_block cv1)) as [->|Hmoved]; cbn [mbind outcome_bind].
  - rewrite bool_decide_true by done. cbn [negb]. apply (insert_shift cv1 xs); [done..|unfold MIN_LEN in *; lia].
  - by rewrite bool_decide_false by congruence.
Qed.

Lemma rm_total alloc cv xs i x :
  cv_rep cv xs -> xs !! Z.to_nat i = Some x -> 0 <= i -> (forall n, is_Some (alloc n)) ->
  match cv_hazard alloc cv (OpRm i) with
  | Some f => cvector_rm_at alloc cv i = Fault f
  | None => exists cv', cvector_rm_at alloc cv i = Done (cv', CVESUCCESS) /\ cv_rep cv' (delete (Z.to_nat i) xs)
  end.
Proof.
  intros Hrep Hx Hi0 Ha. pose proof (lookup_lt_Some _ _ _ Hx) as Hi.
  pose proof (cv_rep_elim _ _ Hrep) as (junk & Hp & Hl & Ht & Hm & Hs & Hb).
  unfold cv_hazard, cvector_rm_at, cvector_rm, cvector_end. rewrite !(iter_warning_spec cv xs) by done.
  rewrite slot_of_own, (bool_decide_true (0 <= i < cv_len cv)), (bool_decide_true (0 <= i < _)) by lia.
  cbn [negb mbind outcome_bind it_slot]. unfold memcpy_slots.
  replace (i - (i + 1)) with (-1) by lia. change (Z.abs (-1)) with 1.
  destruct (Z.ltb_spec (i + 1) (cv_len cv)) as [Hmid|Hlast].
  { by rewrite (proj2 (Z.ltb_lt _ _)) by lia. }
  rewrite (proj2 (Z.ltb_ge 1 _)) by lia. replace (cv_len cv - i) with 1 by lia.
  destruct (Z.eqb_spec (cv_len cv) (cv_tot_len cv)) as [Hfull|Hroom].
  { unfold arr_read. rewrite decide_False; [done|]. rewrite Hp, length_app, length_fmap. lia. }
  destruct junk as [|j junk]; cbn in Ht; [lia|].
  assert (exists ys, xs = ys ++ [x] /\ Z.of_nat (length ys) = i) as (ys & -> & Hys).
  { exists (take (Z.to_nat i) xs). rewrite length_take. split; [|lia].
    rewrite <- (take_drop_middle xs _ x Hx) at 1. by rewrite drop_ge by lia. }
  assert (cv_pdata cv = (Some <$> ys) ++ Some x :: j :: junk) as Hsplit by (by rewrite Hp, fmap_app, <- app_assoc).
  rewrite Hsplit, arr_read_ok by (rewrite ?length_app, ?length_fmap; cbn; lia). cbn [mbind outcome_bind].
  replace (Z.to_nat (i + 1)) with (length (Some <$> ys) + 1)%nat by (rewrite length_fmap; lia).
  rewrite drop_app_add. cbn [drop]. change (take (Z.to_nat 1) (j :: junk)) with [j].
  rewrite arr_write_ok by (rewrite ?length_app, ?length_fmap; cbn; lia). cbn [mbind outcome_bind].
  replace (Z.to_nat i) with (length (Some <$> ys)) by (rewrite length_fmap; lia).
  rewrite list_inserts_app by (rewrite ?length_app; cbn; lia). rewrite take_app_length, drop_app_add. cbn [drop length app].
  rewrite length_fmap, delete_middle, app_nil_r.
  match goal with |- context [shrink alloc ?v] =>
    destruct (shrink_rep alloc v ys) as (cv' & -> & Hrep'); [|done|by eauto] end.
  rewrite length_app in Hl, Ht. cbn in Hl, Ht.
  apply cv_rep_intro with (j :: j :: junk); cbn -[Z.of_nat]; try lia. done.
Qed.

(** C34: On a well-formed vector, with memory for reallocations whose sizes fit size_t,
    push, pop, insert and remove return what the list operation returns and leave a
    well-formed vector that represents its list, except for exactly four calls, which
    fault: an insertion one element short of a full block writes past it; an insertion
    into a full block that realloc moves goes on writing through its iterator into the
    freed block; a removal before the last element is a memcpy of overlapping operands,
    undefined in C; and removing the last element of a full block reads past it. *)
Theorem cvector_refines_list alloc cv xs (op : cv_op A) : cv_rep cv xs -> cv_grows alloc cv ->
  match cv_hazard alloc cv op with
  | Some f => cv_run alloc cv op = Fault f
  | None => let '(xs', code, out) := cv_spec xs op in
      exists cv', cv_run alloc cv op = Done (cv', code, out) /\ cv_rep cv' xs'
  end.
Proof.
  intros Hrep Hg. pose proof Hg as [Hbytes Ha]. pose proof (cv_rep_elim _ _ Hrep) as (_ & _ & Hl & _).
  destruct op as [x| |i x|i]; cbn [cv_spec cv_run].
  - cbn [cv_hazard]. destruct (push_refines alloc cv xs x) as (cv' & -> & ?); [done|right; by split|]. cbn. eauto.
  - cbn [cv_hazard]. destruct (list.last xs) as [x|] eqn:Hlast.
    + apply last_Some in Hlast as [xs0 ->].
      destruct (pop_refines alloc cv xs0 x) as (cv' & -> & ?); [done..|].
      rewrite length_app, Nat.add_sub, take_app_length. eauto.
    + apply last_None in Hlast as ->. exists cv. split; [|done]. unfold cvector_popback. by rewrite Hl.
  - case_bool_decide as Hi.
    + pose proof (insert_total alloc cv xs i x Hrep Hi Hg) as Ht. destruct (cv_hazard _ _ _); [by rewrite Ht|].
      destruct Ht as (cv' & -> & ?). cbn. eauto.
    + unfold cv_hazard. rewrite bool_decide_false by lia. exists cv. split; [|done]. unfold cvector_insert.
      by rewrite (iter_warning_spec cv xs), bool_decide_false.
  - case_bool_decide as Hi.
    + destruct (lookup_lt_is_Some_2 xs (Z.to_nat i)) as [x Hx]; [lia|].
      pose proof (rm_total alloc cv xs i x Hrep Hx (proj1 Hi) Ha) as Ht. destruct (cv_hazard _ _ _); [by rewrite Ht|].
      destruct Ht as (cv' & -> & ?). cbn. eauto.
    + unfold cv_hazard. rewrite bool_decide_false by lia. exists cv. split; [|done]. unfold cvector_rm_at.
      by rewrite (iter_warning_spec cv xs), bool_decide_false.
Qed.
End refinement.

(** ** Concrete vectors *)

Definition alloc_all (n : Z) : option Z := Some 4096.

(** A new vector of pointers. *)
Definition cv_new (A : Type) : cvector A :=
  Cvector 4096 (replicate 256 None) 0 MIN_LEN 4.

Lemma cv_new_create A : cvector_create alloc_all 4 = Some (cv_new A).
Proof. reflexivity. Qed.

Lemma cv_new_rep A : cv_rep (cv_new A) [].
Proof. by apply cv_rep_intro with (replicate 256 None). Qed.

(** A vector of [n] equal elements in a block of 256 slots. *)
Definition cv_filled {A} (n : nat) (x : A) : cvector A :=
  Cvector 4096 ((Some <$> replicate n x) ++ replicate (256 - n) None) (Z.of_nat n) MIN_LEN 4.

Lemma cv_filled_rep {A} n (x : A) : (n <= 256)%nat -> cv_rep (cv_filled n x) (replicate n x).
Proof.
  intros. apply cv_rep_intro with (replicate (256 - n) None); try done.
  - by rewrite length_replicate.
  - rewrite !length_replicate. cbn. unfold MIN_LEN. lia.
Qed.

Lemma cvector_refines_list_witness :
  (exists cv', cv_run alloc_all (cv_filled 3 7) (OpInsert 1 9) = Done (cv', CVESUCCESS, None)
    /\ cv_rep cv' [7; 9; 7; 7]) /\
  cv_run alloc_all (cv_filled 255 7) (OpInsert 1 9) = Fault OutOfBounds /\
  cv_run (fun _ => Some 8192) (cv_filled 256 7) (OpInsert 1 9) = Fault Undefined /\
  cv_run alloc_all (cv_filled 3 7) (OpRm 0) = Fault Undefined.
Proof.
  split_and!.
  - apply (cvector_refines_list alloc_all (cv_filled 3 7) [7; 7; 7] (OpInsert 1 9)).
    + apply (cv_filled_rep 3 7). lia.
    + split; [reflexivity|]. intros n. by eexists.
  - apply (cvector_refines_list alloc_all (cv_filled 255 7) (replicate 255 7) (OpInsert 1 9)).
    + apply cv_filled_rep. lia.
    + split; [reflexivity|]. intros n. by eexists.
  - apply (cvector_refines_list (fun _ => Some 8192) (cv_filled 256 7) (replicate 256 7) (OpInsert 1 9)).
    + apply cv_filled_rep. lia.
    + split; [reflexivity|]. intros n. by eexists.
  - apply (cvector_refines_list alloc_all (cv_filled 3 7) [7; 7; 7] (OpRm 0)).
    + apply (cv_filled_rep 3 7). lia.
    + split; [reflexivity|]. intros n. by eexists.
Defined.
