(* ===== verification/StateMachine.v ===== *)
(** * [statemachine/statemachine.c]: the table-driven state machine

    States and transitions are C objects reached by pointer, so they live in a
    store: [st_mem] maps addresses to [aState] and [tr_mem] to [transition].
    The handlers ([entry], [excution], [exit]) and the transition conditions are
    function pointers supplied by the user of the library; their meaning is a
    parameter ([call_state], [call_cond]).  A handler works on a world [W] of the
    user's and sees the machine, but does not rewrite the tables.  Names are
    compared by address, as the source does. *)
From S2P Require Import Prelude Cvector.

Abbreviation addr := nat (only parsing).
Abbreviation fnptr := nat (only parsing).

Definition stateNone : Z := 0.
Definition statePause : Z := 1.
Definition stateFinish : Z := 2.

Record transition := Transition {
  t_trigger : bool;
  t_to : addr;
  t_condition : fnptr;
}.

Record aState := AState {
  s_entry : option fnptr;
  s_excution : option fnptr;
  s_exit : option fnptr;
  s_name : Z;
  s_transitions : cvector addr;
}.

Record aStateMachine := AStateMachine {
  sm_name : Z;
  sm_states : cvector addr;
  sm_current : option addr;
  sm_previous : option addr;
  sm_started : bool;
  sm_finished : bool;
  sm_defaultFinishState : addr;
}.

(** The machine with the objects it reaches. *)
Record memory := Memory {
  st_mem : gmap addr aState;
  tr_mem : gmap addr transition;
  machine : aStateMachine;
}.

Definition set_machine (sm : aStateMachine) (m : memory) : memory :=
  Memory (st_mem m) (tr_mem m) sm.
Definition upd_state (a : addr) (s : aState) (m : memory) : memory :=
  Memory (<[a := s]> (st_mem m)) (tr_mem m) (machine m).

Definition load {A} (h : gmap addr A) (a : addr) : outcome A :=
  match h !! a with Some x => Done x | None => Fault NullDeref end.

Lemma load_Some {A} (h : gmap addr A) a x : h !! a = Some x -> load h a = Done x.
Proof. unfold load. by intros ->. Qed.

(** Dereferencing what [cvector_at] returned, a slot that holds a pointer. *)
Definition deref_slot (cv : cvector addr) (i : Z) : outcome addr :=
  match cvector_at cv i with
  | None => Fault NullDeref
  | Some it =>
    x ← cvector_val cv it;
    match x with Some a => Done a | None => Fault Undefined end
  end.

Section machine.
Context (alloc : Z -> option Z).

Definition transition_Init (to : addr) (condition : fnptr) : transition :=
  Transition true to condition.

(** [cvector_create] may return [NULL]; the library then keeps that pointer
  and faults on first use, so initialisation is modelled with memory. *)
Definition aState_Init (name : Z) (excution entry exit : option fnptr) : outcome aState :=
  match cvector_create alloc 4 with
  | Some v => Done (AState entry excution exit name v)
  | None => Fault NullDeref
  end.

Definition aState_getName (s : aState) : Z := s_name s.

Definition aState_addTransition (s : aState) (t : addr) : outcome aState :=
  r ← cvector_pushback alloc (s_transitions s) t;
  Done (AState (s_entry s) (s_excution s) (s_exit s) (s_name s) r.1).

(** [fin] is the address of the member [defaultFinishState], [finish_str] that
  of its name. *)
Definition aStateMachine_Init (fin : addr) (finish_str name : Z) (m : memory) : outcome memory :=
  d ← aState_Init finish_str None None None;
  match cvector_create alloc 4 with
  | Some v =>
  Done (Memory (<[fin := d]> (st_mem m)) (tr_mem m)
  (AStateMachine name v None None false false fin))
  | None => Fault NullDeref
  end.

Definition aStateMachine_finish (sm : aStateMachine) : aStateMachine :=
  AStateMachine (sm_name sm) (sm_states sm) (sm_current sm) (sm_previous sm)
  (sm_started sm) true (sm_defaultFinishState sm).

Definition aStateMachine_addState (s : addr) (m : memory) : outcome memory :=
  let sm := machine m in
  r ← cvector_pushback alloc (sm_states sm) s;
  Done (set_machine (AStateMachine (sm_name sm) r.1 (sm_current sm) (sm_previous sm)
  (sm_started sm) (sm_finished sm) (sm_defaultFinishState sm)) m).

(** The loops over [sm->states]: [n] slots remain from slot [i] on. *)
Fixpoint find_state (m : memory) (v : cvector addr) (test : addr -> aState -> bool)
  (i : Z) (n : nat) : outcome (option addr) :=
  match n with
  | O => Done None
  | S n' =>
  a ← deref_slot v i;
  s ← load (st_mem m) a;
  if test a s then Done (Some a) else find_state m v test (i + 1) n'
  end.

Definition aStateMachine_convert_state (m : memory) (name : Z) : outcome (option addr) :=
  let v := sm_states (machine m) in
  find_state m v (fun _ s => aState_getName s =? name) 0 (Z.to_nat (cvector_length v)).

Definition aStateMachine_convert_name (m : memory) (s : addr) : outcome Z :=
  aState_getName <$> load (st_mem m) s.

(** [tnew] is what [malloc] returns for the new transition; a NULL is written through.
  A [from] that is not in the table is reported and nothing changes. *)
Definition aStateMachine_addTransition1 (tnew : option addr) (from to : option addr) (condition : fnptr)
  (m : memory) : outcome memory :=
  let to := match to with Some t => t | None => sm_defaultFinishState (machine m) end in
  let v := sm_states (machine m) in
  found ← find_state m v (fun a _ => bool_decide (Some a = from)) 0 (Z.to_nat (cvector_length v));
  match found with
  | Some f =>
    match tnew with
    | Some p =>
      s ← load (st_mem m) f;
      s' ← aState_addTransition s p;
      Done (Memory (<[f := s']> (st_mem m)) (<[p := transition_Init to condition]> (tr_mem m)) (machine m))
    | None => Fault NullDeref
    end
  | None => Done m
  end.

Definition aStateMachine_addTransition2 (tnew : option addr) (fromName toName : Z) (condition : fnptr)
  (m : memory) : outcome memory :=
  from ← aStateMachine_convert_state m fromName;
  to ← aStateMachine_convert_state m toName;
  aStateMachine_addTransition1 tnew from to condition m.

Definition aStateMachine_addTransition3 (tnew : option addr) (from : option addr) (toName : Z)
  (condition : fnptr) (m : memory) : outcome memory :=
  to ← aStateMachine_convert_state m toName;
  aStateMachine_addTransition1 tnew from to condition m.

Definition aStateMachine_addTransition4 (tnew : option addr) (fromName : Z) (to : option addr)
  (condition : fnptr) (m : memory) : outcome memory :=
  from ← aStateMachine_convert_state m fromName;
  aStateMachine_addTransition1 tnew from to condition m.
End machine.

(** ** Running the machine *)
Section run.
Context {W : Type}.
Context (call_state : fnptr -> addr -> W -> W * Z).
Context (call_cond : fnptr -> aStateMachine -> W -> W * bool).

Definition call_opt (f : option fnptr) (s : addr) (w : W) : W :=
  match f with Some f => (call_state f s w).1 | None => w end.

Definition set_current (cur prev : option addr) (sm : aStateMachine) : aStateMachine :=
  AStateMachine (sm_name sm) (sm_states sm) cur prev (sm_started sm) (sm_finished sm)
  (sm_defaultFinishState sm).
Definition set_flags (started finished : bool) (sm : aStateMachine) : aStateMachine :=
  AStateMachine (sm_name sm) (sm_states sm) (sm_current sm) (sm_previous sm) started finished
  (sm_defaultFinishState sm).

Definition aStateMachine_start (s : addr) (m : memory) (w : W) : outcome (memory * W) :=
  let sm := machine m in
  if sm_started sm then Done (m, w)
  else
  let m' := set_machine (set_current (Some s) None (set_flags true (sm_finished sm) sm)) m in
  o ← load (st_mem m') s;
  Done (m', call_opt (s_entry o) s w).

Definition aStateMachine_restart (s : addr) (m : memory) (w : W) : outcome (memory * W) :=
  let m' := set_machine (set_current (Some s) None (set_flags false false (machine m))) m in
  o ← load (st_mem m') s;
  Done (m', call_opt (s_entry o) s w).

(** The transition loop of [aStateMachine_update] for the current state [cur],
  whose object is [s]. *)
Fixpoint update_loop (cur : addr) (s : aState) (m : memory) (w : W) (i : Z) (n : nat)
  : outcome (memory * W) :=
  match n with
  | O => Done (m, w)
  | S n' =>
  a ← deref_slot (s_transitions s) i;
  t ← load (tr_mem m) a;
  if t_trigger t then
  let '(w1, fire) := call_cond (t_condition t) (machine m) w in
  if fire then
  let w2 := call_opt (s_exit s) cur w1 in
  let m' := set_machine (set_current (Some (t_to t)) (Some cur) (machine m)) m in
  o ← load (st_mem m') (t_to t);
  Done (m', call_opt (s_entry o) (t_to t) w2)
  else update_loop cur s m w1 (i + 1) n'
  else update_loop cur s m w (i + 1) n'
  end.

Definition aStateMachine_update (m : memory) (w : W) : outcome (memory * W) :=
  let sm := machine m in
  if negb (sm_started sm) then Done (m, w)
  else if sm_finished sm then Done (m, w)
  else match sm_current sm with
  | Some cur =>
  s ← load (st_mem m) cur;
  let '(m1, w1) :=
  match s_excution s with
  | Some f =>
  let '(w1, r) := call_state f cur w in
  (if r =? stateFinish then set_machine (aStateMachine_finish sm) m else m, w1)
  | None => (m, w)
  end in
  update_loop cur s m1 w1 0 (Z.to_nat (cvector_length (s_transitions s)))
  | None =>
  if negb (sm_started sm) then
  s ← deref_slot (sm_states sm) 0;
  aStateMachine_start s m w
  else Done (m, w)
  end.
End run.

(** ** Well-formed memories *)

(** [ts] are the transitions of [s], in the order they were added. *)
Definition transitions_of (m : memory) (s : aState) (ts : list transition) : Prop :=
  exists tas, cv_rep (s_transitions s) tas /\ Forall2 (fun a t => tr_mem m !! a = Some t) tas ts
    /\ Forall (fun t => is_Some (st_mem m !! t_to t)) ts.

Record mem_wf (m : memory) : Prop := {
  wf_states : map_Forall (fun _ s => exists ts, transitions_of m s ts) (st_mem m);
  wf_table : exists l, cv_rep (sm_states (machine m)) l
               /\ Forall (fun a => is_Some (st_mem m !! a)) l;
  wf_current : forall c, sm_current (machine m) = Some c -> is_Some (st_mem m !! c);
  wf_finish : is_Some (st_mem m !! sm_defaultFinishState (machine m));
}.

Lemma deref_slot_rep cv xs i x :
  cv_rep cv xs -> xs !! i = Some x -> deref_slot cv (Z.of_nat i) = Done x.
Proof.
  intros (junk & Hp & Hl & _)%cv_rep_elim Hx. pose proof (lookup_lt_Some _ _ _ Hx).
  unfold deref_slot, cvector_at, cvector_val, arr_get.
  rewrite (proj2 (Z.leb_gt _ _)), slot_of_own by lia. cbn [mbind outcome_bind]. rewrite decide_True, Nat2Z.id, Hp by lia.
  rewrite lookup_app_l by (rewrite length_fmap; lia).
  by rewrite list_lookup_fmap, Hx.
Qed.

Lemma mem_wf_set_machine m sm :
  mem_wf m -> sm_states sm = sm_states (machine m) ->
  (forall c, sm_current sm = Some c -> is_Some (st_mem m !! c)) ->
  sm_defaultFinishState sm = sm_defaultFinishState (machine m) ->
  mem_wf (set_machine sm m).
Proof. intros [] Hs Hc Hf. split; cbn; rewrite ?Hs, ?Hf; done. Qed.

(** ** The reference semantics of one update *)
Section spec.
Context {W : Type}.
Context (call_state : fnptr -> addr -> W -> W * Z).
Context (call_cond : fnptr -> aStateMachine -> W -> W * bool).
Implicit Types (m : memory) (w : W) (ts : list transition).

(** The first armed transition whose condition holds; the conditions before it
  are evaluated, in order, and none after it. *)
Fixpoint first_enabled (sm : aStateMachine) ts w : W * option transition :=
  match ts with
  | [] => (w, None)
  | t :: ts' =>
  if t_trigger t then
  let '(w1, b) := call_cond (t_condition t) sm w in
  if b then (w1, Some t) else first_enabled sm ts' w1
  else first_enabled sm ts' w
  end.

Definition excute (f : option fnptr) (cur : addr) w : W * bool :=
  match f with
  | Some f => let '(w1, r) := call_state f cur w in (w1, r =? stateFinish)
  | None => (w, false)
  end.

Definition update_spec m (cur : addr) (s : aState) ts w : memory * W :=
  let '(w1, fin) := excute (s_excution s) cur w in
  let sm := if fin then aStateMachine_finish (machine m) else machine m in
  let '(w2, r) := first_enabled sm ts w1 in
  match r with
  | None => (set_machine sm m, w2)
  | Some t =>
  let entry := st_mem m !! t_to t ≫= s_entry in
  (set_machine (set_current (Some (t_to t)) (Some cur) sm) m,
   call_opt call_state entry (t_to t) (call_opt call_state (s_exit s) cur w2))
  end.

Lemma update_loop_spec cur s m tas ts w :
  cv_rep (s_transitions s) tas ->
  Forall2 (fun a t => tr_mem m !! a = Some t) tas ts ->
  Forall (fun t => is_Some (st_mem m !! t_to t)) ts ->
  update_loop call_state call_cond cur s m w 0 (length tas) =
  Done (let '(w2, r) := first_enabled (machine m) ts w in
  match r with
  | None => (m, w2)
  | Some t =>
  (set_machine (set_current (Some (t_to t)) (Some cur) (machine m)) m,
   call_opt call_state (st_mem m !! t_to t ≫= s_entry) (t_to t)
   (call_opt call_state (s_exit s) cur w2))
  end).
Proof.
  intros Hrep Hts Hto.
  assert (forall i w, (i <= length tas)%nat ->
  update_loop call_state call_cond cur s m w (Z.of_nat i) (length tas - i) =
  Done (let '(w2, r) := first_enabled (machine m) (drop i ts) w in
  match r with
  | None => (m, w2)
  | Some t =>
  (set_machine (set_current (Some (t_to t)) (Some cur) (machine m)) m,
   call_opt call_state (st_mem m !! t_to t ≫= s_entry) (t_to t)
   (call_opt call_state (s_exit s) cur w2))
  end)) as Hgen; [|specialize (Hgen 0%nat w); rewrite Nat.sub_0_r in Hgen; apply Hgen; lia].
  intros i. remember (length tas - i)%nat as n eqn:Hn. revert i Hn.
  induction n as [|n IH]; intros i Hn w' Hi.
  { rewrite drop_ge by (rewrite <- (Forall2_length _ _ _ Hts); lia). done. }
  destruct (lookup_lt_is_Some_2 tas i) as [a Ha]; [lia|].
  destruct (Forall2_lookup_l _ _ _ _ _ Hts Ha) as (t & Ht & Hld).
  cbn [update_loop]. rewrite (deref_slot_rep _ _ _ _ Hrep Ha). cbn [mbind outcome_bind].
  rewrite (load_Some _ _ _ Hld). cbn [mbind outcome_bind].
  rewrite (drop_S _ _ _ Ht). cbn [first_enabled].
  replace (Z.of_nat i + 1) with (Z.of_nat (S i)) by lia.
  destruct (t_trigger t); [|by apply IH; lia].
  destruct (call_cond _ _ _) as [w1 b]. destruct b; [|by apply IH; lia].
  apply (proj1 (Forall_lookup _ _) Hto) in Ht as [o Ho].
  cbn [set_machine st_mem]. rewrite (load_Some _ _ _ Ho). cbn. by rewrite Ho.
Qed.

Lemma update_eq m w cur s ts :
  sm_started (machine m) = true -> sm_finished (machine m) = false ->
  sm_current (machine m) = Some cur -> st_mem m !! cur = Some s -> transitions_of m s ts ->
  aStateMachine_update call_state call_cond m w = Done (update_spec m cur s ts w).
Proof.
  intros Hst Hfin Hcur Hs (tas & Hrep & Hts & Hto).
  unfold aStateMachine_update, update_spec, excute. rewrite Hst, Hfin, Hcur. cbn [negb].
  rewrite (load_Some _ _ _ Hs). cbn [mbind outcome_bind].
  assert (Z.to_nat (cvector_length (s_transitions s)) = length tas) as ->.
  { unfold cvector_length. destruct Hrep as (_ & -> & _). lia. }
  destruct (s_excution s) as [f|]; cbn.
  + destruct (call_state f cur w) as [w1 r]. destruct (r =? stateFinish).
    * rewrite (update_loop_spec cur s _ tas ts) by done. cbn.
      by destruct (first_enabled _ _ _) as [w2 []].
    * rewrite (update_loop_spec cur s _ tas ts) by done. destruct m; cbn.
      by destruct (first_enabled _ _ _) as [w2 []].
  + rewrite (update_loop_spec cur s _ tas ts) by done. destruct m; cbn.
    by destruct (first_enabled _ _ _) as [w2 []].
Qed.

Lemma update_spec_wf m w cur s ts :
  mem_wf m -> transitions_of m s ts -> mem_wf (update_spec m cur s ts w).1.
Proof.
  intros Hwf (tas & Hrep & Hts & Hto).
  unfold update_spec. destruct (excute _ _ _) as [w1 fin].
  set (sm := if fin then _ else _).
  assert (sm_states sm = sm_states (machine m) /\ sm_current sm = sm_current (machine m)
    /\ sm_defaultFinishState sm = sm_defaultFinishState (machine m)) as (H1 & H2 & H3).
  { unfold sm. destruct fin; done. }
  assert (forall w w' r, first_enabled sm ts w = (w', Some r) -> is_Some (st_mem m !! t_to r)) as Hfe.
  { clear -Hto. induction Hto as [|t ts Ht Hts IH]; intros w w' r; cbn; [done|].
    destruct (t_trigger t); [|apply IH].
    destruct (call_cond _ _ _) as [w1 []]; [congruence|apply IH]. }
  destruct (first_enabled sm ts w1) as [w2 [t|]] eqn:Hfe'; cbn.
  + apply mem_wf_set_machine; cbn; auto. intros c [= <-]. eauto.
  + apply mem_wf_set_machine; auto. rewrite H2. apply Hwf.
Qed.

(** C37: One update of a started, unfinished machine runs the current state's excution,
    then fires exactly the first armed transition whose condition holds, in the order
    the transitions were added, with exit, switch and entry in that order; no condition
    after it is evaluated and the memory stays well formed. *)
Theorem update_first_enabled m w cur s ts :
  mem_wf m -> sm_started (machine m) = true -> sm_finished (machine m) = false ->
  sm_current (machine m) = Some cur -> st_mem m !! cur = Some s -> transitions_of m s ts ->
  aStateMachine_update call_state call_cond m w = Done (update_spec m cur s ts w)
  /\ mem_wf (update_spec m cur s ts w).1.
Proof. intros. split; [by apply update_eq|by apply update_spec_wf]. Qed.
End spec.

(** ** The table operations *)

(** The first element of [l] that passes [test], as a list search. *)
Fixpoint find_first (m : memory) (test : addr -> aState -> bool) (l : list addr) : option addr :=
  match l with
  | [] => None
  | a :: l' =>
    match st_mem m !! a with
    | Some s => if test a s then Some a else find_first m test l'
    | None => None
    end
  end.

Lemma find_state_spec m v l test :
  cv_rep v l -> Forall (fun a => is_Some (st_mem m !! a)) l ->
  find_state m v test 0 (length l) = Done (find_first m test l).
Proof.
  intros Hrep Hl.
  assert (forall n i, n = (length l - i)%nat -> (i <= length l)%nat ->
    find_state m v test (Z.of_nat i) n = Done (find_first m test (drop i l))) as Hgen;
    [|apply (Hgen (length l) 0%nat); lia].
  induction n as [|n IH]; intros i Hn Hi.
  { by rewrite drop_ge by lia. }
  destruct (lookup_lt_is_Some_2 l i) as [a Ha]; [lia|].
  destruct (proj1 (Forall_lookup _ _) Hl _ _ Ha) as [s Hs].
  cbn [find_state]. rewrite (deref_slot_rep _ _ _ _ Hrep Ha). cbn [mbind outcome_bind].
  rewrite (load_Some _ _ _ Hs). cbn [mbind outcome_bind].
  rewrite (drop_S _ _ _ Ha). cbn [find_first]. rewrite Hs.
  destruct (test a s); [done|].
  replace (Z.of_nat i + 1) with (Z.of_nat (S i)) by lia. apply IH; lia.
Qed.

Lemma find_first_addr m l f :
  Forall (fun a => is_Some (st_mem m !! a)) l ->
  find_first m (fun a _ => bool_decide (Some a = f)) l
  = match f with Some f => if decide (f ∈ l) then Some f else None | None => None end.
Proof.
  induction 1 as [|a l [s Hs] Hl IH]; [by destruct f|].
  cbn. rewrite Hs. case_bool_decide as Hc.
  - subst f. by rewrite decide_True by set_solver.
  - rewrite IH. destruct f as [f|]; [|done].
    repeat case_decide; set_solver.
Qed.

Lemma transitions_of_weaken m m' s ts :
  transitions_of m s ts ->
  (forall a t, tr_mem m !! a = Some t -> tr_mem m' !! a = Some t) ->
  (forall a, is_Some (st_mem m !! a) -> is_Some (st_mem m' !! a)) ->
  transitions_of m' s ts.
Proof.
  intros (tas & Hrep & Hts & Hto) Htr Hst. exists tas. split_and!; [done| |].
  - eapply Forall2_impl; [exact Hts|]. cbn. auto.
  - eapply Forall_impl; [exact Hto|]. cbn. auto.
Qed.

Lemma cv_rep_inj {A} (v : cvector A) l l' : cv_rep v l -> cv_rep v l' -> l = l'.
Proof.
  intros (j & Hp & Hl & _)%cv_rep_elim (j' & Hp' & Hl' & _)%cv_rep_elim.
  rewrite Hp in Hp'. apply app_inj_1 in Hp' as [Hp' _]; [|rewrite !length_fmap; lia].
  by apply (inj (fmap Some)) in Hp'.
Qed.

Lemma transitions_of_inj m s ts ts' : transitions_of m s ts -> transitions_of m s ts' -> ts = ts'.
Proof.
  intros (tas & Hr & Ht & _) (tas' & Hr' & Ht' & _).
  rewrite <- (cv_rep_inj _ _ _ Hr Hr') in Ht'. clear -Ht Ht'.
  revert ts' Ht'. induction Ht as [|a t tas ts Ha Ht IH]; intros ts' Ht'; inversion Ht'; [done|].
  subst. f_equal; [congruence|by apply IH].
Qed.

(** C38: With room in the list and memory for the transition, adding a transition keeps
    the tables well formed and appends it at the end of the source state's list, with
    the default finish state as its target when none is given; the lists of the other
    states are unchanged, and an unknown source state changes nothing. *)
Theorem addTransition_appends alloc tnew (from to : option addr) condition m :
  mem_wf m -> tr_mem m !! tnew = None ->
  (forall t, to = Some t -> is_Some (st_mem m !! t)) ->
  (forall f s, from = Some f -> st_mem m !! f = Some s ->
     cv_push_room alloc (s_transitions s)) ->
  exists m', aStateMachine_addTransition1 alloc (Some tnew) from to condition m = Done m' /\ mem_wf m' /\
  forall l, cv_rep (sm_states (machine m)) l ->
  match from with
  | Some f =>
    if decide (f ∈ l) then
      forall g s ts, st_mem m !! g = Some s -> transitions_of m s ts ->
      exists s', st_mem m' !! g = Some s' /\
        transitions_of m' s' (if decide (g = f) then
          ts ++ [Transition true (default (sm_defaultFinishState (machine m)) to) condition] else ts)
    else m' = m
  | None => m' = m
  end.
Proof.
  intros Hwf Hnew Hto Hroom. pose proof Hwf as [Hst (l & Hrep & Hl) Hcur Hfin].
  unfold aStateMachine_addTransition1.
  assert (Z.to_nat (cvector_length (sm_states (machine m))) = length l) as ->.
  { unfold cvector_length. destruct Hrep as (_ & -> & _). lia. }
  rewrite (find_state_spec m _ l), find_first_addr by done. cbn [mbind outcome_bind].
  assert (forall l', cv_rep (sm_states (machine m)) l' -> l' = l) as Huniq.
  { intros. by eapply cv_rep_inj. }
  destruct from as [f|]; [destruct (decide (f ∈ l)) as [Hf|Hf]|].
  2:{ exists m. split_and!; [done..|]. intros l' ->%Huniq. by rewrite decide_False. }
  2:{ exists m. split_and!; done. }
  destruct (list_elem_of_lookup_1 _ _ Hf) as [i Hi].
  destruct (proj1 (Forall_lookup _ _) Hl i f Hi) as [s Hs].
  destruct (Hst _ _ Hs) as (ts & tas & Hrs & Hts & Htto).
  rewrite (load_Some _ _ _ Hs). cbn [mbind outcome_bind]. unfold aState_addTransition.
  destruct (push_refines alloc (s_transitions s) tas tnew) as (cv' & -> & Hrs'); [done|by eapply Hroom|].
  cbn [mbind outcome_bind]. set (s' := AState _ _ _ _ _).
  set (t := transition_Init _ _). set (m' := Memory _ _ _).
  assert (forall a t0, tr_mem m !! a = Some t0 -> tr_mem m' !! a = Some t0) as Htr.
  { intros a t0 Ha. cbn. rewrite lookup_insert_ne; [done|congruence]. }
  assert (forall a, is_Some (st_mem m !! a) -> is_Some (st_mem m' !! a)) as Hstm.
  { intros a Ha. cbn. rewrite lookup_insert. case_decide; eauto. }
  assert (is_Some (st_mem m' !! t_to t)) as Htot.
  { apply Hstm. destruct to as [a|]; cbn; [by apply Hto|done]. }
  assert (transitions_of m' s' (ts ++ [t])) as Hs'.
  { exists (tas ++ [tnew]). split_and!; [done| |].
    - apply Forall2_app; [eapply Forall2_impl; [exact Hts|]; auto|]. repeat constructor. cbn.
      apply lookup_insert_eq.
    - apply Forall_app; split; [eapply Forall_impl; [exact Htto|]; auto|]. by repeat constructor. }
  exists m'. split_and!; [done| |].
  - split.
    + intros g s0 Hg. cbn in Hg. rewrite lookup_insert in Hg. case_decide as Hgf.
      * simplify_eq. eauto.
      * destruct (Hst _ _ Hg) as [ts0 ?]. exists ts0. by eapply transitions_of_weaken.
    + exists l. split; [done|]. eapply Forall_impl; [exact Hl|]; auto.
    + intros c Hc. by apply Hstm, Hcur.
    + by apply Hstm.
  - intros l' ->%Huniq. rewrite decide_True by done. intros g s0 ts0 Hg Hts0.
    case_decide as Hgf.
    + subst g. simplify_eq. exists s'. split; [apply lookup_insert_eq|].
      replace ts0 with ts; [done|]. eapply transitions_of_inj; [|done]. by exists tas.
    + exists s0. split; [cbn; by rewrite lookup_insert_ne|]. by eapply transitions_of_weaken.
Qed.

(** ** The default finish state

    It has no handler and, unless transitions are added to it, no way out, so a
    machine that reaches it stays there and never raises [finished]. *)

Definition in_default_finish (m : memory) : Prop :=
  sm_started (machine m) = true /\ sm_finished (machine m) = false
  /\ sm_current (machine m) = Some (sm_defaultFinishState (machine m))
  /\ exists s, st_mem m !! sm_defaultFinishState (machine m) = Some s
       /\ s_excution s = None /\ transitions_of m s [].

(** The effect of [k] calls of [aStateMachine_update]. *)
Fixpoint updates {W} (call_state : fnptr -> addr -> W -> W * Z)
    (call_cond : fnptr -> aStateMachine -> W -> W * bool) (k : nat) (m : memory) (w : W)
    : outcome (memory * W) :=
  match k with
  | O => Done (m, w)
  | S k' => r ← aStateMachine_update call_state call_cond m w; updates call_state call_cond k' r.1 r.2
  end.

(** A machine that has moved to its default finish state is stuck: no number of
    updates changes it, and its finished flag never rises, because the default state has
    neither a handler nor transitions. *)
Theorem default_finish_never_finishes {W} call_state call_cond (k : nat) m (w : W) :
  mem_wf m -> in_default_finish m ->
  updates call_state call_cond k m w = Done (m, w).
Proof.
  intros Hwf (Hst & Hfi & Hcur & s & Hs & Hex & Hts).
  assert (aStateMachine_update call_state call_cond m w = Done (m, w)) as Hstep.
  { rewrite (update_eq _ _ m w (sm_defaultFinishState (machine m)) s []) by done.
    unfold update_spec, excute. rewrite Hex. by destruct m. }
  induction k as [|k IH]; [done|]. cbn [updates]. by rewrite Hstep.
Qed.

(** ** A concrete machine

    State 1 has a handler and one transition, to state 2; state 9 is the default
    finish state.  Handlers return 0 and count their calls in the world. *)

Definition ex_state (f : option fnptr) (n : nat) (t : addr) : aState :=
  AState f f f 0 (cv_filled n t).

Definition ex_memory (cur : addr) : memory :=
  Memory {[ 1%nat := ex_state (Some 0%nat) 1 5%nat; 2%nat := ex_state (Some 0%nat) 0 0%nat;
            9%nat := ex_state None 0 0%nat ]}
         {[ 5%nat := Transition true 2%nat 0%nat ]}
         (AStateMachine 0 (cv_filled 1 1%nat) (Some cur) None true false 9%nat).

Definition ex_call (_ : fnptr) (_ : addr) (w : Z) : Z * Z := (w + 1, stateNone).
Definition ex_cond (_ : fnptr) (_ : aStateMachine) (w : Z) : Z * bool := (w, 0 <? w).

Lemma ex_empty m f a : transitions_of m (ex_state f 0 a) [].
Proof. exists []. split_and!; [by apply (cv_filled_rep 0%nat); lia|constructor..]. Qed.

Lemma ex_one cur : transitions_of (ex_memory cur) (ex_state (Some 0%nat) 1 5%nat)
  [Transition true 2%nat 0%nat].
Proof.
  exists [5%nat]. split_and!; [apply (cv_filled_rep 1%nat); lia| |].
  - repeat constructor.
  - repeat constructor. eexists. reflexivity.
Qed.

Lemma ex_memory_wf cur : cur = 1%nat \/ cur = 9%nat -> mem_wf (ex_memory cur).
Proof.
  intros Hcur. split.
  - cbn [st_mem ex_memory].
    apply map_Forall_insert_2; [eexists; apply ex_one|].
    apply map_Forall_insert_2; [eexists; apply ex_empty|].
    apply map_Forall_singleton. eexists; apply ex_empty.
  - exists [1%nat]. split; [apply (cv_filled_rep 1%nat); lia|]. repeat constructor. eexists. reflexivity.
  - intros c [= <-]. destruct Hcur as [-> | ->]; eexists; reflexivity.
  - eexists. reflexivity.
Qed.

Lemma update_first_enabled_witness :
  exists r, aStateMachine_update ex_call ex_cond (ex_memory 1%nat) 0 = Done r
    /\ sm_current (machine r.1) = Some 2%nat /\ r.2 = 3.
Proof.
  eexists. split; [|split].
  - apply (update_first_enabled ex_call ex_cond (ex_memory 1%nat) 0 1%nat
             (ex_state (Some 0%nat) 1 5%nat) [Transition true 2%nat 0%nat]); try reflexivity.
    + apply ex_memory_wf. by left.
    + apply ex_one.
  - reflexivity.
  - reflexivity.
Defined.

Lemma default_finish_never_finishes_witness :
  updates ex_call ex_cond 1000 (ex_memory 9%nat) 0 = Done (ex_memory 9%nat, 0).
Proof.
  apply (default_finish_never_finishes ex_call ex_cond 1000).
  - apply ex_memory_wf. by right.
  - split_and!; try reflexivity. eexists. split_and!; [reflexivity..|]. apply ex_empty.
Defined.

Lemma addTransition_appends_witness :
  exists m', aStateMachine_addTransition1 alloc_all (Some 6%nat) (Some 1%nat) None 3%nat (ex_memory 1%nat) = Done m'
  /\ mem_wf m' /\ exists s', st_mem m' !! 1%nat = Some s'
  /\ transitions_of m' s' [Transition true 2%nat 0%nat; Transition true 9%nat 3%nat].
Proof.
  destruct (addTransition_appends alloc_all 6%nat (Some 1%nat) None 3%nat (ex_memory 1%nat))
    as (m' & H1 & H2 & H3).
  - apply ex_memory_wf. by left.
  - reflexivity.
  - done.
  - intros f s [= <-] [= <-]. left. reflexivity.
  - exists m'. split; [done|]. split; [done|].
    specialize (H3 [1%nat] ltac:(apply (cv_filled_rep 1%nat); lia)).
    destruct (H3 1%nat _ _ eq_refl (ex_one 1%nat)) as (s' & Hs & Ht). eauto.
Defined.
