(* ===== verification/Ring.v ===== *)
(** * Bytes in a circle

    What [abus/afifo.c] and the kernel's [ringbuffer.c] share: the byte at a position
    that is taken modulo the size of the array, and the two copies that write into, or
    read from, such a ring. *)
From S2P Require Import Prelude.

(** The byte of index [p] of a ring. *)
Definition ring (b : list Z) (p : Z) : option Z := b !! Z.to_nat (p mod Z.of_nat (length b)).

Lemma mod_wrap a s : 0 < s -> 0 <= a < 2 * s -> a mod s = if a <? s then a else a - s.
Proof.
  intros Hs Ha. destruct (Z.ltb_spec a s); [by apply Z.mod_small; lia|].
  symmetry. apply Z.mod_unique_pos with 1; lia.
Qed.

Lemma ring_mod b p p' :
  p mod Z.of_nat (length b) = p' mod Z.of_nat (length b) -> ring b p = ring b p'.
Proof. unfold ring. by intros ->. Qed.

(** The two copies of a write fill the ring from index [pos] on. *)
Lemma ring_write b pos buf n :
  (0 < length b)%nat -> 0 <= n <= Z.of_nat (length b) -> n <= Z.of_nat (length buf) ->
  let off := pos mod Z.of_nat (length b) in
  let l := Z.min n (Z.of_nat (length b) - off) in
  exists b',
    (xs ← arr_read buf 0 l; b1 ← arr_write b off xs;
     ys ← arr_read buf l (n - l); arr_write b1 0 ys) = Done b'
    /\ length b' = length b
    /\ forall i, 0 <= i < Z.of_nat (length b) ->
         ring b' (pos + i) = if i <? n then buf !! Z.to_nat i else ring b (pos + i).
Proof.
  intros Hb Hn Hbuf off l.
  assert (0 <= off < Z.of_nat (length b)) as Hoff by (apply Z.mod_pos_bound; lia).
  rewrite (arr_read_ok buf 0 l) by lia. cbn [mbind outcome_bind].
  rewrite arr_write_ok by (rewrite ?length_take, ?length_drop; lia). cbn [mbind outcome_bind].
  rewrite arr_read_ok by lia. cbn [mbind outcome_bind].
  rewrite arr_write_ok by (rewrite ?length_inserts, ?length_take, ?length_drop; lia).
  eexists. split; [done|]. rewrite !length_inserts. split; [done|].
  intros i Hi. unfold ring. rewrite !length_inserts.
  rewrite <- Z.add_mod_idemp_l by lia. fold off.
  rewrite (mod_wrap (off + i)) by lia.
  change (Z.to_nat 0) with 0%nat. rewrite drop_0.
  destruct (Z.ltb_spec (off + i) (Z.of_nat (length b))) as [Hw|Hw].
  - rewrite list_lookup_inserts_ge by (rewrite length_take, length_drop; lia).
    destruct (Z.ltb_spec i n).
    + rewrite list_lookup_inserts by (rewrite ?length_take; lia).
      rewrite lookup_take_lt by lia. f_equal. lia.
    + by rewrite list_lookup_inserts_ge by (rewrite length_take; lia).
  - destruct (Z.ltb_spec i n).
    + rewrite list_lookup_inserts by (rewrite ?length_take, ?length_drop, ?length_inserts; lia).
      rewrite lookup_take_lt by lia. rewrite lookup_drop. f_equal. lia.
    + rewrite list_lookup_inserts_ge by (rewrite length_take, length_drop; lia).
      by rewrite list_lookup_inserts_lt by lia.
Qed.

(** The two copies of a read collect the bytes from index [pos] on. *)
Lemma ring_read b pos dst n :
  (0 < length b)%nat -> 0 <= n <= Z.of_nat (length b) -> n <= Z.of_nat (length dst) ->
  let off := pos mod Z.of_nat (length b) in
  let l := Z.min n (Z.of_nat (length b) - off) in
  exists d,
    (xs ← arr_read b off l; d1 ← arr_write dst 0 xs;
     ys ← arr_read b 0 (n - l); arr_write d1 l ys) = Done d
    /\ length d = length dst
    /\ (forall i, 0 <= i < n -> d !! Z.to_nat i = ring b (pos + i))
    /\ (forall i, (Z.to_nat n <= i)%nat -> d !! i = dst !! i).
Proof.
  intros Hb Hn Hdst off l.
  assert (0 <= off < Z.of_nat (length b)) as Hoff by (apply Z.mod_pos_bound; lia).
  rewrite (arr_read_ok b off l) by lia. cbn [mbind outcome_bind].
  rewrite arr_write_ok by (rewrite ?length_take, ?length_drop; lia). cbn [mbind outcome_bind].
  rewrite arr_read_ok by lia. cbn [mbind outcome_bind].
  rewrite arr_write_ok by (rewrite ?length_inserts, ?length_take, ?length_drop; lia).
  eexists. split; [done|]. rewrite !length_inserts. split; [done|].
  change (Z.to_nat 0) with 0%nat. rewrite drop_0. split.
  - intros i Hi. unfold ring. rewrite <- Z.add_mod_idemp_l by lia. fold off.
    rewrite (mod_wrap (off + i)) by lia.
    destruct (Z.ltb_spec (off + i) (Z.of_nat (length b))) as [Hw|Hw].
    + rewrite list_lookup_inserts_lt by lia.
      rewrite list_lookup_inserts by (rewrite ?length_take, ?length_drop; lia).
      rewrite lookup_take_lt by lia. rewrite lookup_drop. f_equal. lia.
    + rewrite list_lookup_inserts by (rewrite ?length_take, ?length_inserts; lia).
      rewrite lookup_take_lt by lia. f_equal. lia.
  - intros i Hi. rewrite !list_lookup_inserts_ge by (rewrite ?length_take, ?length_drop; lia). done.
Qed.
