(* ===== verification/RingBuffer.v ===== *)
(** * [rt-thread/components/drivers/ipc/ringbuffer.c]: the kernel's ring buffer

    The queue between the CAN interrupt and the receive thread, and the receive buffer of
    the serial ports.  Any size divisible by eight will do: a one-bit mirror beside each
    index tells a full ring from an empty one.  [memcpy] checks the bounds of both
    objects; the calls take no lock. *)
From S2P Require Import Prelude Ring.
#[local] Open Scope Z_scope.

(** The bit fields: one bit of mirror, 31 bits of index. *)
Record rt_ringbuffer := Rb {
  buffer_ptr : list Z;
  read_mirror : bool;
  read_index : Z;
  write_mirror : bool;
  write_index : Z;
  buffer_size : Z;
}.
Inductive rt_ringbuffer_state := RT_RINGBUFFER_EMPTY | RT_RINGBUFFER_FULL | RT_RINGBUFFER_HALFFULL.
Definition u31 (z : Z) : Z := z mod 2 ^ 31.

Definition set_read (m : bool) (i : Z) (rb : rt_ringbuffer) : rt_ringbuffer :=
  Rb (buffer_ptr rb) m (u31 i) (write_mirror rb) (write_index rb) (buffer_size rb).
Definition set_write (b : list Z) (m : bool) (i : Z) (rb : rt_ringbuffer) : rt_ringbuffer :=
  Rb b (read_mirror rb) (read_index rb) m (u31 i) (buffer_size rb).

Definition rt_ringbuffer_status (rb : rt_ringbuffer) : rt_ringbuffer_state :=
  if read_index rb =? write_index rb then
    if eqb (read_mirror rb) (write_mirror rb) then RT_RINGBUFFER_EMPTY else RT_RINGBUFFER_FULL
  else RT_RINGBUFFER_HALFFULL.
Definition is_full (s : rt_ringbuffer_state) : bool :=
  match s with RT_RINGBUFFER_FULL => true | _ => false end.

Definition RT_ALIGN_DOWN (size align : Z) : Z := Z.land size (Z.lnot (align - 1)).
Definition RT_ALIGN_SIZE : Z := 8.
Definition RT_ASSERT (b : bool) : outcome unit := if b then Done () else Fault Hang.

Definition rt_ringbuffer_init (pool : list Z) (size : Z) : outcome rt_ringbuffer :=
  _ ← RT_ASSERT (0 <? size);
  Done (Rb pool false 0 false 0 (RT_ALIGN_DOWN size RT_ALIGN_SIZE)).

Definition rt_ringbuffer_data_len (rb : rt_ringbuffer) : Z :=
  match rt_ringbuffer_status rb with
  | RT_RINGBUFFER_EMPTY => 0
  | RT_RINGBUFFER_FULL => buffer_size rb
  | RT_RINGBUFFER_HALFFULL =>
    let wi := write_index rb in
    let ri := read_index rb in
    if ri <? wi then wi - ri else u32 (buffer_size rb - (ri - wi))
  end.
Definition rt_ringbuffer_space_len (rb : rt_ringbuffer) : Z :=
  u32 (buffer_size rb - rt_ringbuffer_data_len rb).
Definition rt_ringbuffer_get_size (rb : rt_ringbuffer) : Z := buffer_size rb.

(** The two ways the copies go: within the buffer, or around its end.  The result is the
    buffer, the mirror and the index. *)
Definition copy_in (rb : rt_ringbuffer) (ptr : list Z) (length : Z) : outcome (list Z * bool * Z) :=
  let room := buffer_size rb - write_index rb in
  if length <? u32 room then
    xs ← arr_read ptr 0 length;
    b ← arr_write (buffer_ptr rb) (write_index rb) xs;
    Done (b, write_mirror rb, write_index rb + length)
  else
    xs ← arr_read ptr 0 room;
    b ← arr_write (buffer_ptr rb) (write_index rb) xs;
    ys ← arr_read ptr room (u32 (length - room));
    b ← arr_write b 0 ys;
    Done (b, negb (write_mirror rb), u32 (length - room)).

Definition rt_ringbuffer_put (rb : rt_ringbuffer) (ptr : list Z) (length : Z)
    : outcome (rt_ringbuffer * Z) :=
  let size := rt_ringbuffer_space_len rb in
  if size =? 0 then Done (rb, 0) else
  let length := if size <? length then size else length in
  r ← copy_in rb ptr length;
  Done (set_write r.1.1 r.1.2 r.2 rb, length).

(** The bytes before [ptr[length - buffer_size]] are skipped. *)
Definition rt_ringbuffer_put_force (rb : rt_ringbuffer) (ptr : list Z) (length : Z)
    : outcome (rt_ringbuffer * Z) :=
  let space_length := rt_ringbuffer_space_len rb in
  let skip := if u32 (buffer_size rb) <? length then length - buffer_size rb else 0 in
  let length := length - skip in
  r ← copy_in rb (drop (Z.to_nat skip) ptr) length;
  let rb' := set_write r.1.1 r.1.2 r.2 rb in
  Done (if negb (space_length <? length) then rb'
        else if length <? u32 (buffer_size rb - write_index rb) then
          set_read (read_mirror rb') (write_index rb') rb'
        else
          set_read (if write_index rb' <=? read_index rb' then negb (read_mirror rb') else read_mirror rb')
                   (write_index rb') rb', length).

(** The bytes land in [dst]. *)
Definition rt_ringbuffer_get (rb : rt_ringbuffer) (dst : list Z) (length : Z)
    : outcome (rt_ringbuffer * list Z * Z) :=
  let size := rt_ringbuffer_data_len rb in
  if size =? 0 then Done (rb, dst, 0) else
  let length := if size <? length then size else length in
  let room := buffer_size rb - read_index rb in
  if length <? u32 room then
    xs ← arr_read (buffer_ptr rb) (read_index rb) length;
    d ← arr_write dst 0 xs;
    Done (set_read (read_mirror rb) (read_index rb + length) rb, d, length)
  else
    xs ← arr_read (buffer_ptr rb) (read_index rb) room;
    d ← arr_write dst 0 xs;
    ys ← arr_read (buffer_ptr rb) 0 (u32 (length - room));
    d ← arr_write d room ys;
    Done (set_read (negb (read_mirror rb)) (u32 (length - room)) rb, d, length).

(** The offset of [*ptr] in the buffer, or [NULL], and the number of bytes there. *)
Definition rt_ringbuffer_peek (rb : rt_ringbuffer) : rt_ringbuffer * option Z * Z :=
  let size := rt_ringbuffer_data_len rb in
  if size =? 0 then (rb, None, 0) else
  let ptr := Some (read_index rb) in
  if size <? u32 (buffer_size rb - read_index rb) then
    (set_read (read_mirror rb) (read_index rb + size) rb, ptr, size)
  else
    (set_read (negb (read_mirror rb)) 0 rb, ptr, buffer_size rb - read_index rb).

Definition rt_ringbuffer_putchar (rb : rt_ringbuffer) (ch : Z) : outcome (rt_ringbuffer * Z) :=
  if rt_ringbuffer_space_len rb =? 0 then Done (rb, 0) else
  b ← arr_set (buffer_ptr rb) (write_index rb) ch;
  Done (if write_index rb =? buffer_size rb - 1 then set_write b (negb (write_mirror rb)) 0 rb
        else set_write b (write_mirror rb) (write_index rb + 1) rb, 1).

Definition rt_ringbuffer_putchar_force (rb : rt_ringbuffer) (ch : Z) : outcome (rt_ringbuffer * Z) :=
  let old_state := rt_ringbuffer_status rb in
  b ← arr_set (buffer_ptr rb) (write_index rb) ch;
  Done (if write_index rb =? buffer_size rb - 1 then
          let rb := set_write b (negb (write_mirror rb)) 0 rb in
          if is_full old_state then set_read (negb (read_mirror rb)) (write_index rb) rb else rb
        else
          let rb := set_write b (write_mirror rb) (write_index rb + 1) rb in
          if is_full old_state then set_read (read_mirror rb) (write_index rb) rb else rb, 1).

(** The byte, when there is one. *)
Definition rt_ringbuffer_getchar (rb : rt_ringbuffer) : outcome (rt_ringbuffer * option Z * Z) :=
  if rt_ringbuffer_data_len rb =? 0 then Done (rb, None, 0) else
  ch ← arr_get (buffer_ptr rb) (read_index rb);
  Done (if read_index rb =? buffer_size rb - 1 then set_read (negb (read_mirror rb)) 0 rb
        else set_read (read_mirror rb) (read_index rb + 1) rb, Some ch, 1).

Definition rt_ringbuffer_reset (rb : rt_ringbuffer) : rt_ringbuffer :=
  Rb (buffer_ptr rb) false 0 false 0 (buffer_size rb).

(** [alloc n] is the block [rt_malloc] returns for [n] bytes, [mem] whether there is room
    for the descriptor. *)
Definition rt_ringbuffer_create (alloc : Z -> option (list Z)) (mem : bool) (size : Z)
    : outcome (option rt_ringbuffer) :=
  _ ← RT_ASSERT (0 <? size);
  let size := RT_ALIGN_DOWN size RT_ALIGN_SIZE in
  if negb mem then Done None else
  match alloc size with
  | None => Done None
  | Some pool => rb ← rt_ringbuffer_init pool size; Done (Some rb)
  end.

(** ** The queue a ring represents *)

Definition used (rb : rt_ringbuffer) : Z :=
  if eqb (read_mirror rb) (write_mirror rb) then write_index rb - read_index rb
  else buffer_size rb - read_index rb + write_index rb.

Record rb_wf (rb : rt_ringbuffer) : Prop := {
  rb_size : 0 < buffer_size rb < 2 ^ 31;
  rb_length : Z.of_nat (length (buffer_ptr rb)) = buffer_size rb;
  rb_read : 0 <= read_index rb < buffer_size rb;
  rb_write : 0 <= write_index rb < buffer_size rb;
  rb_used : 0 <= used rb <= buffer_size rb;
}.
Definition rb_rep (rb : rt_ringbuffer) (q : list Z) : Prop :=
  rb_wf rb /\ Z.of_nat (length q) = used rb /\
  forall i, (i < length q)%nat -> ring (buffer_ptr rb) (read_index rb + Z.of_nat i) = q !! i.

(** An index [n] steps further, and its mirror. *)
Definition step_index (n s i : Z) : Z := if i + n <? s then i + n else i + n - s.
Definition step_mirror (n s i : Z) (m : bool) : bool := if i + n <? s then m else negb m.
Definition advance_read (n : Z) (rb : rt_ringbuffer) : rt_ringbuffer :=
  set_read (step_mirror n (buffer_size rb) (read_index rb) (read_mirror rb))
           (step_index n (buffer_size rb) (read_index rb)) rb.
Definition advance_write (b : list Z) (n : Z) (rb : rt_ringbuffer) : rt_ringbuffer :=
  set_write b (step_mirror n (buffer_size rb) (write_index rb) (write_mirror rb))
            (step_index n (buffer_size rb) (write_index rb)) rb.

Section rep.
Context (rb : rt_ringbuffer) (Hwf : rb_wf rb).

Lemma u31_index i : 0 <= i < buffer_size rb -> u31 i = i.
Proof. destruct Hwf. intros. apply Z.mod_small. lia. Qed.
Lemma step_index_range n i : 0 <= i < buffer_size rb -> 0 <= n <= buffer_size rb ->
  0 <= step_index n (buffer_size rb) i < buffer_size rb.
Proof. intros. unfold step_index. destruct (Z.ltb_spec (i + n) (buffer_size rb)); lia. Qed.
Lemma step_index_mod n i : step_index n (buffer_size rb) i mod buffer_size rb = (i + n) mod buffer_size rb.
Proof.
  destruct Hwf. unfold step_index. destruct (Z.ltb_spec (i + n) (buffer_size rb)); [done|].
  rewrite <- (Z.mod_add (i + n - buffer_size rb) 1) by lia. by replace (i + n - _ + _) with (i + n) by lia.
Qed.
(** Reading frees, writing uses. *)
Lemma used_advance_read n : 0 <= n <= used rb -> used (advance_read n rb) = used rb - n.
Proof.
  destruct Hwf as [Hs _ Hr Hw Hu]. intros Hn.
  assert (u31 (step_index n (buffer_size rb) (read_index rb)) = step_index n (buffer_size rb) (read_index rb)) as E
    by (apply u31_index, step_index_range; lia).
  unfold used, advance_read, set_read, step_mirror in *. cbn. rewrite E. unfold step_index.
  destruct (Z.ltb_spec (read_index rb + n) (buffer_size rb)), (read_mirror rb), (write_mirror rb); cbn in *; lia.
Qed.
Lemma used_advance_write b n : 0 <= n <= buffer_size rb - used rb -> used (advance_write b n rb) = used rb + n.
Proof.
  destruct Hwf as [Hs _ Hr Hw Hu]. intros Hn.
  assert (u31 (step_index n (buffer_size rb) (write_index rb)) = step_index n (buffer_size rb) (write_index rb)) as E
    by (apply u31_index, step_index_range; lia).
  unfold used, advance_write, set_write, step_mirror in *. cbn. rewrite E. unfold step_index.
  destruct (Z.ltb_spec (write_index rb + n) (buffer_size rb)), (read_mirror rb), (write_mirror rb); cbn in *; lia.
Qed.
Lemma write_mod : (read_index rb + used rb) mod buffer_size rb = write_index rb.
Proof.
  destruct Hwf as [Hs _ Hr Hw Hu]. unfold used in *. destruct (eqb _ _).
  - rewrite Z.mod_small by lia. lia.
  - symmetry. apply Z.mod_unique_pos with 1; lia.
Qed.

Lemma data_len_used : rt_ringbuffer_data_len rb = used rb.
Proof.
  destruct Hwf as [Hs _ Hr Hw Hu]. unfold rt_ringbuffer_data_len, rt_ringbuffer_status, used in *.
  destruct (Z.eqb_spec (read_index rb) (write_index rb)), (eqb (read_mirror rb) (write_mirror rb)); try lia.
  - destruct (Z.ltb_spec (read_index rb) (write_index rb)); [lia|]. rewrite u32_id by cint. lia.
  - destruct (Z.ltb_spec (read_index rb) (write_index rb)); [lia|]. rewrite u32_id by cint. lia.
Qed.
Lemma space_len_free : rt_ringbuffer_space_len rb = buffer_size rb - used rb.
Proof.
  destruct Hwf. unfold rt_ringbuffer_space_len. rewrite data_len_used. apply u32_id. cint.
Qed.
Lemma full_used : is_full (rt_ringbuffer_status rb) = (used rb =? buffer_size rb).
Proof.
  destruct Hwf as [Hs _ Hr Hw Hu]. unfold rt_ringbuffer_status, used in *.
  destruct (Z.eqb_spec (read_index rb) (write_index rb)), (eqb (read_mirror rb) (write_mirror rb)); cbn [is_full];
    symmetry; apply Z.eqb_eq || apply Z.eqb_neq; lia.
Qed.

Lemma copy_in_ok ptr n : 0 <= n <= buffer_size rb -> n <= Z.of_nat (length ptr) ->
  exists b, copy_in rb ptr n =
      Done (b, step_mirror n (buffer_size rb) (write_index rb) (write_mirror rb),
               step_index n (buffer_size rb) (write_index rb))
    /\ length b = length (buffer_ptr rb)
    /\ forall i, 0 <= i < buffer_size rb -> ring b (write_index rb + i) =
         if i <? n then ptr !! Z.to_nat i else ring (buffer_ptr rb) (write_index rb + i).
Proof.
  destruct Hwf as [Hs Hl Hr Hw Hu]. intros Hn Hp.
  destruct (ring_write (buffer_ptr rb) (write_index rb) ptr n) as (b & He & Hlb & Hring); [lia|lia|lia|].
  rewrite Hl in *. rewrite (Z.mod_small (write_index rb)) in He by lia. exists b. split; [|done].
  unfold copy_in, step_mirror, step_index. rewrite (u32_id (buffer_size rb - _)) by cint.
  destruct (Z.ltb_spec n (buffer_size rb - write_index rb)), (Z.ltb_spec (write_index rb + n) (buffer_size rb)); try lia.
  - rewrite Z.min_l in He by lia. replay He. rewrite Z.sub_diag in He.
    apply outcome_bind_Done in He as (ys & Hys & He). rewrite arr_read_ok in Hys by lia. injection Hys as <-.
    change (Z.to_nat 0) with 0%nat in He. rewrite take_0 in He. rewrite arr_write_ok in He; [|cbn; lia..]. by injection He as <-.
  - rewrite Z.min_r in He by lia. rewrite u32_id by cint. replay He. rewrite He. cbn. do 2 f_equal. lia.
Qed.
End rep.

(** Reading drops from the queue, writing appends to it. *)
Lemma rep_read rb q n : rb_rep rb q -> 0 <= n <= Z.of_nat (length q) ->
  rb_rep (advance_read n rb) (drop (Z.to_nat n) q).
Proof.
  intros (Hwf & Hl & Hq) Hn. pose proof (used_advance_read rb Hwf n) as Hu.
  pose proof Hwf as [Hs Hlen Hr Hw Hus]. pose proof (step_index_range rb n (read_index rb)) as Hi.
  split; [|split].
  - split; [done..| |done|]; [cbn; rewrite (u31_index rb Hwf) by (apply Hi; lia); apply Hi; lia|].
    rewrite Hu by lia. cbn. lia.
  - rewrite Hu, length_drop by lia. lia.
  - intros i Hlt. rewrite length_drop in Hlt. rewrite lookup_drop, <- Hq by lia.
    cbn. rewrite (u31_index rb Hwf) by (apply Hi; lia). apply ring_mod. rewrite Hlen.
    rewrite <- Z.add_mod_idemp_l, (step_index_mod rb Hwf), Z.add_mod_idemp_l by lia. f_equal. lia.
Qed.

Lemma rep_write rb q b n ptr : rb_rep rb q -> 0 <= n <= buffer_size rb - Z.of_nat (length q) ->
  n <= Z.of_nat (length ptr) -> length b = length (buffer_ptr rb) ->
  (forall i, 0 <= i < buffer_size rb -> ring b (write_index rb + i) =
     if i <? n then ptr !! Z.to_nat i else ring (buffer_ptr rb) (write_index rb + i)) ->
  rb_rep (advance_write b n rb) (q ++ take (Z.to_nat n) ptr).
Proof.
  intros (Hwf & Hl & Hq) Hn Hp Hb Hring. pose proof (used_advance_write rb Hwf b n) as Hu.
  pose proof Hwf as [Hs Hlen Hr Hw Hus]. pose proof (step_index_range rb n (write_index rb)) as Hi.
  split; [|split].
  - split; [done|cbn; by rewrite Hb|done|cbn; rewrite (u31_index rb Hwf) by (apply Hi; lia); apply Hi; lia|].
    rewrite Hu by lia. cbn. lia.
  - rewrite Hu, length_app, length_take by lia. lia.
  - intros i Hlt. rewrite length_app, length_take in Hlt. cbn.
    (* the position counted from the write index *)
    set (j := if decide (i < length q)%nat then buffer_size rb - used rb + Z.of_nat i else Z.of_nat i - used rb).
    assert ((read_index rb + Z.of_nat i) mod buffer_size rb = (write_index rb + j) mod buffer_size rb) as Hj.
    { rewrite <- (write_mod rb Hwf) at 1. rewrite Z.add_mod_idemp_l by lia. subst j. case_decide.
      - rewrite <- (Z.mod_add _ 1) by lia. f_equal. lia.
      - f_equal. lia. }
    rewrite (ring_mod b _ (write_index rb + j)) by (rewrite Hb, Hlen; exact Hj).
    rewrite Hring by (subst j; case_decide; lia). subst j. case_decide.
    + rewrite lookup_app_l, <- Hq by done. rewrite (proj2 (Z.ltb_ge _ _)) by lia.
      apply ring_mod. by rewrite Hlen, Hj.
    + rewrite lookup_app_r, lookup_take_lt by lia. rewrite (proj2 (Z.ltb_lt _ _)) by lia. f_equal. lia.
Qed.

(** ** The calls, on the queue *)

(** The newest [n] elements. *)
Definition lastn (n : Z) (l : list Z) : list Z := drop (Z.to_nat (Z.of_nat (length l) - n)) l.

Lemma lastn_all n l : Z.of_nat (length l) <= n -> lastn n l = l.
Proof. intros. unfold lastn. by replace (Z.to_nat _) with 0%nat by lia. Qed.
Lemma lastn_overflow n q xs : n < Z.of_nat (length q + length xs) ->
  let k := Z.of_nat (length q + length xs) - n in
  lastn n (q ++ xs) = drop (Z.to_nat k) q ++ drop (Z.to_nat k - length q) xs.
Proof. intros H k. unfold lastn. by rewrite length_app, drop_app. Qed.

(** Making room for [n] bytes and writing them leaves the read index where the code
    puts it: on the write index. *)
Lemma force_reads rb b n : rb_wf rb -> n <= buffer_size rb -> buffer_size rb - used rb < n ->
  let rb' := advance_write b n rb in
  advance_write b n (advance_read (n - (buffer_size rb - used rb)) rb) =
  if n <? buffer_size rb - write_index rb then set_read (read_mirror rb') (write_index rb') rb'
  else set_read (if write_index rb' <=? read_index rb' then negb (read_mirror rb') else read_mirror rb')
                (write_index rb') rb'.
Proof.
  intros [Hs Hb Hr Hw Hu] Hn Hf rb'. subst rb'.
  unfold advance_write, advance_read, set_read, set_write, step_mirror, step_index, used, u31 in *.
  cbn [read_mirror read_index write_mirror write_index buffer_size buffer_ptr] in *.
  destruct (read_mirror rb), (write_mirror rb), (Z.ltb_spec n (buffer_size rb - write_index rb)); cbn [eqb negb] in *;
    repeat match goal with |- context [?a <? ?c] => destruct (Z.ltb_spec a c) end;
    try lia; rewrite !(Z.mod_small _ (2 ^ 31)) by lia;
    repeat match goal with |- context [?a <=? ?c] => destruct (Z.leb_spec a c) end;
    try lia; f_equal; lia.
Qed.

Section calls.
Context (rb : rt_ringbuffer) (q : list Z) (Hrep : rb_rep rb q).

Lemma put_ok ptr len : 0 <= len <= Z.of_nat (length ptr) ->
  let n := Z.min len (buffer_size rb - Z.of_nat (length q)) in
  exists rb', rt_ringbuffer_put rb ptr len = Done (rb', n) /\ buffer_size rb' = buffer_size rb /\
    rb_rep rb' (q ++ take (Z.to_nat n) ptr).
Proof.
  intros Hlen n. pose proof Hrep as (Hwf & Hl & Hq). pose proof Hwf as [Hs Hb Hr Hw Hu].
  unfold rt_ringbuffer_put. rewrite space_len_free, <- Hl by done.
  destruct (Z.eqb_spec (buffer_size rb - Z.of_nat (length q)) 0).
  { exists rb. assert (n = 0) as -> by lia. rewrite take_0, app_nil_r. done. }
  assert ((if buffer_size rb - Z.of_nat (length q) <? len then buffer_size rb - Z.of_nat (length q) else len) = n) as ->
    by (destruct (Z.ltb_spec (buffer_size rb - Z.of_nat (length q)) len); lia).
  destruct (copy_in_ok rb Hwf ptr n) as (b & -> & Hlb & Hring); [lia|lia|]. cbn [mbind outcome_bind fst snd].
  eexists. split; [done|]. split; [done|]. apply (rep_write rb q b n ptr); done || lia.
Qed.

Lemma put_force_ok ptr len : is_u32 len -> len <= Z.of_nat (length ptr) ->
  exists rb', rt_ringbuffer_put_force rb ptr len = Done (rb', Z.min len (buffer_size rb)) /\
    buffer_size rb' = buffer_size rb /\ rb_rep rb' (lastn (buffer_size rb) (q ++ take (Z.to_nat len) ptr)).
Proof.
  intros Hlen Hp. pose proof Hrep as (Hwf & Hl & Hq). pose proof Hwf as [Hs Hb Hr Hw Hu].
  unfold rt_ringbuffer_put_force. rewrite space_len_free, <- Hl, (u32_id (buffer_size rb)) by (done || cint).
  set (skip := if buffer_size rb <? len then len - buffer_size rb else 0).
  assert (skip = len - Z.min len (buffer_size rb) /\ 0 <= skip) as [Hskip Hskip0]
    by (subst skip; destruct (Z.ltb_spec (buffer_size rb) len); cint).
  replace (len - skip) with (Z.min len (buffer_size rb)) by lia. set (n := Z.min len (buffer_size rb)) in *.
  destruct (copy_in_ok rb Hwf (drop (Z.to_nat skip) ptr) n) as (b & -> & Hlb & Hring);
    [cint|rewrite length_drop; cint|]. cbn [mbind outcome_bind fst snd].
  change (set_write b _ _ rb) with (advance_write b n rb). eexists. split; [done|].
  assert (take (Z.to_nat n) (drop (Z.to_nat skip) ptr) = drop (Z.to_nat skip) (take (Z.to_nat len) ptr)) as Hnew.
  { rewrite skipn_firstn_comm. f_equal. cint. }
  assert (length (take (Z.to_nat len) ptr) = Z.to_nat len) as Hlt by (rewrite length_take; cint).
  assert (n <= Z.of_nat (length (drop (Z.to_nat skip) ptr))) as Hnp by (rewrite length_drop; cint).
  destruct (Z.ltb_spec (buffer_size rb - Z.of_nat (length q)) n) as [Hn|Hn]; cbn [negb].
  - set (k := n - (buffer_size rb - Z.of_nat (length q))).
    pose proof (force_reads rb b n Hwf) as Hx. rewrite (u32_id (buffer_size rb - _)) by cint.
    rewrite <- Hl in Hx. rewrite <- Hx by cint. split; [done|].
    rewrite lastn_overflow by (rewrite Hlt; cint).
    replace (Z.to_nat (Z.of_nat (length q + length (take (Z.to_nat len) ptr)) - buffer_size rb) - length q)%nat
      with (Z.to_nat skip) by (rewrite Hlt; cint).
    rewrite <- Hnew. replace (drop (Z.to_nat (Z.of_nat _ - _)) q) with (drop (Z.to_nat k) q).
    + apply rep_write; [apply rep_read; [done|cint]|cbn; rewrite length_drop; cint|done|done|done].
    + destruct (decide (skip = 0)); [f_equal; rewrite Hlt; cint|].
      rewrite !drop_ge by (rewrite ?Hlt; cint). done.
  - split; [done|]. assert (n = len \/ q = []) as [->| ->].
    { destruct q; [by right|left]. cbn [length] in *. cint. }
    + assert (skip = 0) as Hz by lia. rewrite Hz in Hnew, Hring, Hnp. rewrite !drop_0 in *.
      rewrite lastn_all by (rewrite length_app, Hlt; cint). by apply rep_write; [|cint|..].
    + cbn [app]. replace (lastn _ _) with (take (Z.to_nat n) (drop (Z.to_nat skip) ptr)).
      * by apply (rep_write rb []); [|cbn; cint|..].
      * rewrite Hnew. unfold lastn. rewrite Hlt. f_equal. cint.
Qed.

Lemma get_ok dst len : 0 <= len <= Z.of_nat (length dst) ->
  let n := Z.min len (Z.of_nat (length q)) in
  exists rb', rt_ringbuffer_get rb dst len =
      Done (rb', take (Z.to_nat n) q ++ drop (Z.to_nat n) dst, n) /\
    buffer_size rb' = buffer_size rb /\ rb_rep rb' (drop (Z.to_nat n) q).
Proof.
  intros Hlen n. pose proof Hrep as (Hwf & Hl & Hq). pose proof Hwf as [Hs Hb Hr Hw Hu].
  unfold rt_ringbuffer_get. rewrite data_len_used, <- Hl by done.
  destruct (Z.eqb_spec (Z.of_nat (length q)) 0).
  { exists rb. assert (n = 0) as -> by lia. rewrite take_0, !drop_0. done. }
  assert ((if Z.of_nat (length q) <? len then Z.of_nat (length q) else len) = n) as ->
    by (destruct (Z.ltb_spec (Z.of_nat (length q)) len); lia).
  destruct (ring_read (buffer_ptr rb) (read_index rb) dst n) as (d & He & Hld & H1 & H2); [lia|lia|lia|].
  rewrite Hb, (Z.mod_small (read_index rb)) in He by lia.
  assert (d = take (Z.to_nat n) q ++ drop (Z.to_nat n) dst) as <-.
  { apply list_eq. intros i. destruct (decide (i < Z.to_nat n)%nat).
    - rewrite lookup_app_l, lookup_take_lt by (rewrite ?length_take; lia).
      rewrite <- (Nat2Z.id i) at 1. rewrite H1 by lia. apply Hq. lia.
    - rewrite H2, lookup_app_r, lookup_drop, length_take by (rewrite ?length_take; lia). f_equal. lia. }
  exists (advance_read n rb). split; [|split; [done|apply rep_read; [done|lia]]].
  rewrite (u32_id (buffer_size rb - _)) by cint. unfold advance_read, step_mirror, step_index.
  destruct (Z.ltb_spec n (buffer_size rb - read_index rb)), (Z.ltb_spec (read_index rb + n) (buffer_size rb)); try lia.
  - rewrite Z.min_l in He by lia. replay He. rewrite Z.sub_diag in He.
    apply outcome_bind_Done in He as (ys & Hys & He). rewrite arr_read_ok in Hys by lia. injection Hys as <-.
    change (Z.to_nat 0) with 0%nat in He. rewrite take_0 in He. unfold arr_write in He.
    case_decide; [|done]. by injection He as <-.
  - rewrite Z.min_r in He by lia. rewrite u32_id by cint. replay He. rewrite He. cbn. do 4 f_equal. lia.
Qed.

(** The bytes at the pointer are the oldest of the queue, some of them at least. *)
Lemma ring_peek_ok : exists rb' (n : Z), rt_ringbuffer_peek rb = (rb', (if n =? 0 then None else Some (read_index rb)), n) /\
  (n = 0 <-> q = []) /\ 0 <= n <= Z.of_nat (length q) /\ buffer_size rb' = buffer_size rb /\
  arr_read (buffer_ptr rb) (read_index rb) n = Done (take (Z.to_nat n) q) /\
  rb_rep rb' (drop (Z.to_nat n) q).
Proof.
  pose proof Hrep as (Hwf & Hl & Hq). pose proof Hwf as [Hs Hb Hr Hw Hu].
  set (n := Z.min (Z.of_nat (length q)) (buffer_size rb - read_index rb)).
  assert (arr_read (buffer_ptr rb) (read_index rb) n = Done (take (Z.to_nat n) q)) as Hread.
  { rewrite arr_read_ok by lia. f_equal. apply list_eq. intros i. destruct (decide (i < Z.to_nat n)%nat).
    - rewrite !lookup_take_lt, lookup_drop by lia. rewrite <- Hq by lia. unfold ring.
      rewrite Hb, Z.mod_small by lia. f_equal. lia.
    - rewrite !lookup_take_ge by lia. done. }
  assert (n = 0 <-> q = []) as Hn0.
  { split; [|intros ->; cbn in *; lia]. intros. apply length_zero_iff_nil. lia. }
  exists (advance_read n rb), n. split; [|split_and!; [apply Hn0..|lia|lia|done|done|apply rep_read; [done|lia]]].
  unfold rt_ringbuffer_peek. rewrite data_len_used, <- Hl by done.
  destruct (Z.eqb_spec (Z.of_nat (length q)) 0), (Z.eqb_spec n 0); try lia.
  - replace n with 0 by done. unfold advance_read, set_read, step_mirror, step_index.
    rewrite !Z.add_0_r, (proj2 (Z.ltb_lt _ _)) by lia. rewrite (u31_index rb Hwf) by done. by destruct rb.
  - rewrite (u32_id (buffer_size rb - _)) by cint. unfold advance_read, step_mirror, step_index.
    destruct (Z.ltb_spec (Z.of_nat (length q)) (buffer_size rb - read_index rb)), (Z.ltb_spec (read_index rb + n) (buffer_size rb));
      try lia; do 2 f_equal; try lia; f_equal; lia.
Qed.

(** The calls on one byte are the others at length 1. *)
Lemma putchar_put ch : rt_ringbuffer_putchar rb ch = rt_ringbuffer_put rb [ch] 1.
Proof.
  pose proof Hrep as (Hwf & Hl & Hq). pose proof Hwf as [Hs Hb Hr Hw Hu].
  unfold rt_ringbuffer_putchar, rt_ringbuffer_put. rewrite space_len_free by done.
  destruct (Z.eqb_spec (buffer_size rb - used rb) 0); [done|].
  rewrite (proj2 (Z.ltb_ge _ 1)) by lia. rewrite arr_set_ok by lia. unfold copy_in.
  rewrite (u32_id (buffer_size rb - _)) by cint. cbn [mbind outcome_bind].
  destruct (Z.eqb_spec (write_index rb) (buffer_size rb - 1)), (Z.ltb_spec 1 (buffer_size rb - write_index rb)); try lia.
  - replace (buffer_size rb - write_index rb) with 1 by lia.
    change (arr_read [ch] 0 1) with (Done [ch]). cbn [mbind outcome_bind].
    rewrite arr_write_ok by (cbn; lia). cbn [mbind outcome_bind].
    change (arr_read [ch] 1 (u32 (1 - 1))) with (Done (@nil Z)). cbn [mbind outcome_bind].
    rewrite arr_write_ok by (rewrite ?length_inserts; cbn; lia). done.
  - change (arr_read [ch] 0 1) with (Done [ch]). cbn [mbind outcome_bind].
    rewrite arr_write_ok by (cbn; lia). done.
Qed.

Lemma putchar_force_put_force ch : rt_ringbuffer_putchar_force rb ch = rt_ringbuffer_put_force rb [ch] 1.
Proof.
  pose proof Hrep as (Hwf & Hl & Hq). pose proof Hwf as [Hs Hb Hr Hw Hu].
  unfold rt_ringbuffer_putchar_force, rt_ringbuffer_put_force.
  rewrite space_len_free, full_used, (u32_id (buffer_size rb)) by (done || cint).
  rewrite (proj2 (Z.ltb_ge _ 1)) by lia. change (1 - 0) with 1. change (drop (Z.to_nat 0) [ch]) with [ch].
  rewrite arr_set_ok by lia. unfold copy_in.
  rewrite (u32_id (buffer_size rb - _)) by cint. cbn [mbind outcome_bind].
  assert ((buffer_size rb - used rb <? 1) = (used rb =? buffer_size rb)) as ->
    by (destruct (Z.ltb_spec (buffer_size rb - used rb) 1), (Z.eqb_spec (used rb) (buffer_size rb)); lia).
  destruct (Z.eqb_spec (write_index rb) (buffer_size rb - 1)), (Z.ltb_spec 1 (buffer_size rb - write_index rb)); try lia.
  - replace (buffer_size rb - write_index rb) with 1 by lia.
    change (arr_read [ch] 0 1) with (Done [ch]). cbn [mbind outcome_bind].
    rewrite arr_write_ok by (cbn; lia). cbn [mbind outcome_bind].
    change (arr_read [ch] 1 (u32 (1 - 1))) with (Done (@nil Z)). cbn [mbind outcome_bind].
    rewrite arr_write_ok by (rewrite ?length_inserts; cbn; lia). cbn [mbind outcome_bind fst snd].
    cbn [write_index read_index set_write set_read]. change (u32 (1 - 1)) with 0. change (u31 0) with 0.
    rewrite (proj2 (Z.leb_le 0 _)) by lia. by destruct (used rb =? buffer_size rb).
  - change (arr_read [ch] 0 1) with (Done [ch]). cbn [mbind outcome_bind].
    rewrite arr_write_ok by (cbn; lia). cbn [mbind outcome_bind fst snd].
    by destruct (used rb =? buffer_size rb).
Qed.

Lemma getchar_get : exists ch, rt_ringbuffer_getchar rb =
  match q with [] => Done (rb, None, 0) | b :: _ => Done (ch, Some b, 1) end /\
  (q <> [] -> rb_rep ch (tail q) /\ buffer_size ch = buffer_size rb).
Proof.
  pose proof Hrep as (Hwf & Hl & Hq). pose proof Hwf as [Hs Hb Hr Hw Hu].
  exists (advance_read 1 rb). unfold rt_ringbuffer_getchar. rewrite data_len_used, <- Hl by done.
  destruct q as [|b q'] eqn:E; [by split|]. split.
  - change (Z.of_nat (length (b :: q')) =? 0) with false. cbn iota.
    specialize (Hq 0%nat ltac:(cbn; lia)). cbn in Hq. unfold ring in Hq.
    rewrite Z.add_0_r, Hb, Z.mod_small in Hq by lia. unfold arr_get. rewrite decide_True, Hq by lia.
    cbn [mbind outcome_bind]. do 3 f_equal. unfold advance_read, step_mirror, step_index.
    destruct (Z.eqb_spec (read_index rb) (buffer_size rb - 1)), (Z.ltb_spec (read_index rb + 1) (buffer_size rb)); try lia; [|done].
    f_equal. lia.
  - intros _. split; [|done]. by apply (rep_read rb (b :: q') 1); [|cbn; lia].
Qed.

Lemma reset_ok : rb_rep (rt_ringbuffer_reset rb) [].
Proof.
  pose proof Hrep as ([Hs Hb Hr Hw Hu] & _). split; [|split; [done|cbn; lia]].
  split; cbn; done || lia.
Qed.
End calls.

Lemma align_down_mod z : 0 <= z -> RT_ALIGN_DOWN z RT_ALIGN_SIZE = z - z mod 8.
Proof.
  intros Hz. unfold RT_ALIGN_DOWN, RT_ALIGN_SIZE. change (8 - 1) with (Z.ones 3).
  rewrite <- Z.ldiff_land, Z.ldiff_ones_r, Z.shiftl_mul_pow2, Z.shiftr_div_pow2 by lia. change (2 ^ 3) with 8. lia.
Qed.
Lemma ring_init_ok pool size : 8 <= size < 2 ^ 31 -> Z.of_nat (length pool) = size - size mod 8 ->
  exists rb, rt_ringbuffer_init pool size = Done rb /\ rb_rep rb [] /\ buffer_size rb = size - size mod 8.
Proof.
  intros Hs Hp. unfold rt_ringbuffer_init. rewrite (proj2 (Z.ltb_lt 0 size)) by lia. cbn.
  rewrite align_down_mod by lia. eexists. split; [done|]. split; [|done].
  split; [|split; [done|cbn; lia]]. split; cbn; lia.
Qed.

(** ** Sequences of calls *)

Inductive rb_op :=
  | RPut (ptr : list Z) (len : Z)
  | RPutForce (ptr : list Z) (len : Z)
  | RGet (dst : list Z) (len : Z)
  | RPeek
  | RPutchar (ch : Z)
  | RPutcharForce (ch : Z)
  | RGetchar
  | RReset.

(** What a call leaves: the ring, the bytes the caller gets, the returned count. *)
Definition rb_step (rb : rt_ringbuffer) (op : rb_op) : outcome (rt_ringbuffer * (list Z * Z)) :=
  match op with
  | RPut ptr len => r ← rt_ringbuffer_put rb ptr len; Done (r.1, ([], r.2))
  | RPutForce ptr len => r ← rt_ringbuffer_put_force rb ptr len; Done (r.1, ([], r.2))
  | RGet dst len => r ← rt_ringbuffer_get rb dst len; Done (r.1.1, (r.1.2, r.2))
  | RPeek =>
    let r := rt_ringbuffer_peek rb in
    xs ← match r.1.2 with None => Done [] | Some off => arr_read (buffer_ptr rb) off r.2 end;
    Done (r.1.1, (xs, r.2))
  | RPutchar ch => r ← rt_ringbuffer_putchar rb ch; Done (r.1, ([], r.2))
  | RPutcharForce ch => r ← rt_ringbuffer_putchar_force rb ch; Done (r.1, ([], r.2))
  | RGetchar => r ← rt_ringbuffer_getchar rb; Done (r.1.1, (option_list r.1.2, r.2))
  | RReset => Done (rt_ringbuffer_reset rb, ([], 0))
  end.

(** A queue of [cap] bytes: [put] drops what does not fit, the forced calls drop the
    oldest bytes instead, [peek] hands out, and takes, some of the oldest bytes. *)
Definition queue_allows (cap : Z) (q : list Z) (op : rb_op) (q' : list Z) (r : list Z * Z) : Prop :=
  match op with
  | RPut ptr len =>
    let n := Z.min len (cap - Z.of_nat (length q)) in q' = q ++ take (Z.to_nat n) ptr /\ r = ([], n)
  | RPutForce ptr len => q' = lastn cap (q ++ take (Z.to_nat len) ptr) /\ r = ([], Z.min len cap)
  | RGet dst len =>
    let n := Z.min len (Z.of_nat (length q)) in
    q' = drop (Z.to_nat n) q /\ r = (take (Z.to_nat n) q ++ drop (Z.to_nat n) dst, n)
  | RPeek => exists n, 0 <= n <= Z.of_nat (length q) /\ (n = 0 <-> q = []) /\
    q' = drop (Z.to_nat n) q /\ r = (take (Z.to_nat n) q, n)
  | RPutchar ch =>
    if decide (Z.of_nat (length q) < cap) then q' = q ++ [ch] /\ r = ([], 1) else q' = q /\ r = ([], 0)
  | RPutcharForce ch => q' = lastn cap (q ++ [ch]) /\ r = ([], 1)
  | RGetchar => q' = tail q /\ r = match q with [] => ([], 0) | b :: _ => ([b], 1) end
  | RReset => q' = [] /\ r = ([], 0)
  end.

Definition rb_op_fits (op : rb_op) : Prop :=
  match op with
  | RPut ptr len | RPutForce ptr len | RGet ptr len => is_u32 len /\ len <= Z.of_nat (length ptr)
  | _ => True
  end.

Lemma rb_step_refines rb q op : rb_rep rb q -> rb_op_fits op ->
  exists rb' q' r, rb_step rb op = Done (rb', r) /\ queue_allows (buffer_size rb) q op q' r /\
    buffer_size rb' = buffer_size rb /\ rb_rep rb' q'.
Proof.
  intros Hrep Hop. pose proof Hrep as ([Hs Hb Hr Hw Hu] & Hl & _).
  destruct op as [ptr len|ptr len|dst len| |ch|ch| |]; cbn [rb_step rb_op_fits queue_allows] in *.
  - destruct Hop. destruct (put_ok rb q Hrep ptr len) as (rb' & -> & ? & ?); [cint|]. by do 3 eexists.
  - destruct Hop. destruct (put_force_ok rb q Hrep ptr len) as (rb' & -> & ? & ?); [done..|]. by do 3 eexists.
  - destruct Hop. destruct (get_ok rb q Hrep dst len) as (rb' & -> & ? & ?); [cint|]. by do 3 eexists.
  - destruct (ring_peek_ok rb q Hrep) as (rb' & n & -> & Hn & Hle & Hsz & Hread & Hrep'). cbn [fst snd].
    exists rb', (drop (Z.to_nat n) q), (take (Z.to_nat n) q, n). split_and!; [|by exists n|done..].
    destruct (Z.eqb_spec n 0) as [->|]; [by rewrite take_0|by rewrite Hread].
  - rewrite (putchar_put rb q Hrep). destruct (put_ok rb q Hrep [ch] 1) as (rb' & -> & Hsz & Hrep'); [cbn; lia|].
    case_decide; [rewrite Z.min_l in * by lia|rewrite Z.min_r in * by lia]; do 3 eexists; [done|].
    replace (buffer_size rb - Z.of_nat (length q)) with 0 in * by lia. rewrite take_0, app_nil_r in Hrep'. done.
  - rewrite (putchar_force_put_force rb q Hrep).
    destruct (put_force_ok rb q Hrep [ch] 1) as (rb' & -> & Hsz & Hrep'); [cint|cbn; lia|].
    rewrite Z.min_l by lia. by do 3 eexists.
  - destruct (getchar_get rb q Hrep) as (rb' & -> & Hrep'). destruct q as [|b q].
    + by exists rb, [], ([], 0).
    + destruct Hrep' as [? ?]; [done|]. by exists rb', q, ([b], 1).
  - do 3 eexists. split; [done|]. split; [done|]. split; [done|]. by eapply reset_ok.
Qed.

Fixpoint rb_run (rb : rt_ringbuffer) (ops : list rb_op) : outcome (rt_ringbuffer * list (list Z * Z)) :=
  match ops with
  | [] => Done (rb, [])
  | op :: ops => r ← rb_step rb op; s ← rb_run r.1 ops; Done (s.1, r.2 :: s.2)
  end.
Fixpoint queue_run_allows (cap : Z) (q : list Z) (ops : list rb_op) (q' : list Z) (rs : list (list Z * Z)) : Prop :=
  match ops, rs with
  | [], [] => q' = q
  | op :: ops, r :: rs => exists q1, queue_allows cap q op q1 r /\ queue_run_allows cap q1 ops q' rs
  | _, _ => False
  end.

Lemma rb_run_refines ops rb q : rb_rep rb q -> Forall rb_op_fits ops ->
  exists rb' q' rs, rb_run rb ops = Done (rb', rs) /\ queue_run_allows (buffer_size rb) q ops q' rs /\
    buffer_size rb' = buffer_size rb /\ rb_rep rb' q'.
Proof.
  intros Hrep Hops. revert rb q Hrep. induction Hops as [|op ops Hop Hops IH]; intros rb q Hrep.
  { by exists rb, q, []. }
  destruct (rb_step_refines rb q op Hrep Hop) as (rb1 & q1 & r & He & Ha & Hsz & Hrep1).
  destruct (IH rb1 q1 Hrep1) as (rb' & q' & rs & He' & Ha' & Hsz' & Hrep'). rewrite Hsz in Ha', Hsz'.
  exists rb', q', (r :: rs). cbn [rb_run queue_run_allows]. rewrite He. cbn. rewrite He'.
  split_and!; [done|by exists q1|done|done].
Qed.

(** C31: From its initialisation on, the kernel's ring runs every sequence of operations
    as a bounded first-in first-out queue: put drops what does not fit, the forced puts
    drop the oldest bytes instead, get and getchar hand out the oldest bytes, peek hands
    out, and takes, the oldest contiguous ones; counts and lengths are the queue's,
    through every turn of the mirror bits. *)
Theorem ringbuffer_runs_as_queue size pool rb ops :
  8 <= size < 2 ^ 31 -> Z.of_nat (length pool) = size - size mod 8 -> Forall rb_op_fits ops ->
  rt_ringbuffer_init pool size = Done rb ->
  exists rb' q' rs, rb_run rb ops = Done (rb', rs) /\ queue_run_allows (size - size mod 8) [] ops q' rs /\
    rt_ringbuffer_data_len rb' = Z.of_nat (length q') /\
    rt_ringbuffer_data_len rb' + rt_ringbuffer_space_len rb' = size - size mod 8.
Proof.
  intros Hs Hp Hops Hi. destruct (ring_init_ok pool size Hs Hp) as (rb0 & Hi' & Hrep & Hsz).
  rewrite Hi' in Hi. injection Hi as ->.
  destruct (rb_run_refines ops rb [] Hrep Hops) as (rb' & q' & rs & He & Ha & Hsz' & Hrep'). rewrite Hsz in *.
  exists rb', q', rs. destruct Hrep' as (Hwf & Hl & _). rewrite data_len_used, space_len_free by done.
  split_and!; [done|done|done|lia].
Qed.

Lemma ringbuffer_runs_as_queue_witness :
  exists rb' q' rs,
    rb_run (Rb (replicate 8 0) false 0 false 0 8)
      [RPut [1; 2; 3; 4; 5; 6] 6; RGet [0; 0; 0; 0] 4; RPutForce [7; 8; 9; 10; 11; 12; 13] 7; RPeek; RGetchar] =
      Done (rb', rs) /\
    queue_run_allows 8 []
      [RPut [1; 2; 3; 4; 5; 6] 6; RGet [0; 0; 0; 0] 4; RPutForce [7; 8; 9; 10; 11; 12; 13] 7; RPeek; RGetchar] q' rs /\
    rt_ringbuffer_data_len rb' = Z.of_nat (length q') /\
    rt_ringbuffer_data_len rb' + rt_ringbuffer_space_len rb' = 8.
Proof.
  apply (ringbuffer_runs_as_queue 8 (replicate 8 0)); [lia|done| |done].
  repeat constructor; cbn; cint.
Defined.

(** What the example returns: the sixth put byte survives the forced put, [peek] hands out
    the three bytes before the end of the buffer. *)
Example ringbuffer_example :
  (r ← rb_run (Rb (replicate 8 0) false 0 false 0 8)
    [RPut [1; 2; 3; 4; 5; 6] 6; RGet [0; 0; 0; 0] 4; RPutForce [7; 8; 9; 10; 11; 12; 13] 7; RPeek; RGetchar];
   Done r.2) = Done [([], 6); ([1; 2; 3; 4], 4); ([], 7); ([6; 7; 8], 3); ([9], 1)].
Proof. reflexivity. Qed.
