(* ===== verification/Smem.v ===== *)
(** * [rt-thread/src/mem.c]: the heap

    The allocator behind [rt_malloc]: the heap is a sequence of blocks, each a header
    (owner and used bit, offset of the next header, offset of the previous one) and its
    payload; [lfree] is the lowest free block.  Offsets count from [heap_ptr]; a pointer
    is the offset of its payload.  The heap's memory is its 32-bit words, headers and
    payloads alike, and every access is checked against the heap's bounds. *)
From S2P Require Import Prelude.
#[local] Open Scope Z_scope.

Definition RT_ALIGN_SIZE : Z := 8.
Definition RT_ALIGN (size align : Z) : Z := Z.land (u32 (size + align - 1)) (u32 (Z.lnot (align - 1))).
Definition RT_ALIGN_DOWN (size align : Z) : Z := Z.land size (u32 (Z.lnot (align - 1))).
Definition RT_ASSERT (b : bool) : outcome unit := if b then Done () else Fault Hang.

(** The header's three words take twelve bytes. *)
Definition MIN_SIZE : Z := 12.
Definition MIN_SIZE_ALIGNED : Z := Eval compute in RT_ALIGN MIN_SIZE RT_ALIGN_SIZE.
Definition SIZEOF_STRUCT_MEM : Z := Eval compute in RT_ALIGN 12 RT_ALIGN_SIZE.

(** [self] is the address of the descriptor. *)
Record rt_small_mem := Smem {
  self : Z;
  words : Z -> Z;
  lfree : Z;
  m_used : Z;
  m_max : Z;
  mem_size_aligned : Z;
}.
Definition heap_end (m : rt_small_mem) : Z := mem_size_aligned m + SIZEOF_STRUCT_MEM.

Definition set_words (w : Z -> Z) (m : rt_small_mem) : rt_small_mem :=
  Smem (self m) w (lfree m) (m_used m) (m_max m) (mem_size_aligned m).
Definition set_lfree (o : Z) (m : rt_small_mem) : rt_small_mem :=
  Smem (self m) (words m) o (m_used m) (m_max m) (mem_size_aligned m).
Definition set_used (u : Z) (m : rt_small_mem) : rt_small_mem :=
  Smem (self m) (words m) (lfree m) (u32 u) (m_max m) (mem_size_aligned m).
Definition update_max (m : rt_small_mem) : rt_small_mem :=
  Smem (self m) (words m) (lfree m) (m_used m) (if m_max m <? m_used m then m_used m else m_max m)
    (mem_size_aligned m).

Definition in_heap (m : rt_small_mem) (a : Z) : Prop :=
  0 <= a /\ a + 4 <= heap_end m + SIZEOF_STRUCT_MEM /\ a mod 4 = 0.
#[export] Instance in_heap_dec m a : Decision (in_heap m a).
Proof. unfold in_heap. apply _. Defined.
Definition load (m : rt_small_mem) (a : Z) : outcome Z :=
  if decide (in_heap m a) then Done (words m a) else Fault OutOfBounds.
Definition store (a v : Z) (m : rt_small_mem) : outcome rt_small_mem :=
  if decide (in_heap m a) then Done (set_words (fun x => if x =? a then u32 v else words m x) m)
  else Fault OutOfBounds.

(** The fields of [struct rt_small_mem_item]. *)
Definition pool_ptr (m : rt_small_mem) (o : Z) : outcome Z := load m o.
Definition next (m : rt_small_mem) (o : Z) : outcome Z := load m (o + 4).
Definition prev (m : rt_small_mem) (o : Z) : outcome Z := load m (o + 8).
Definition set_pool_ptr (o v : Z) : rt_small_mem -> outcome rt_small_mem := store o v.
Definition set_next (o v : Z) : rt_small_mem -> outcome rt_small_mem := store (o + 4) v.
Definition set_prev (o v : Z) : rt_small_mem -> outcome rt_small_mem := store (o + 8) v.

Definition MEM_MASK : Z := Eval compute in u32 (u32 (Z.lnot 0) - 1).
Definition MEM_USED (m : rt_small_mem) : Z := Z.lor (Z.land (self m) MEM_MASK) 1.
Definition MEM_FREED (m : rt_small_mem) : Z := Z.lor (Z.land (self m) MEM_MASK) 0.
Definition MEM_ISUSED (w : Z) : bool := negb (Z.land w (u32 (Z.lnot MEM_MASK)) =? 0).
Definition MEM_POOL (w : Z) : Z := Z.land w MEM_MASK.

(** The block at [v] becomes part of the one at [mem] before it. *)
Definition merge_into (mem v : Z) (m : rt_small_mem) : outcome rt_small_mem :=
  m ← set_pool_ptr v 0 m;
  nn ← next m v;
  m ← set_next mem nn m;
  set_prev nn mem m.
(** The two halves of [plug_holes]: with the next block, and with the previous one. *)
Definition plug_forward (mem : Z) (m : rt_small_mem) : outcome rt_small_mem :=
  nmem ← next m mem;
  w ← pool_ptr m nmem;
  if negb (mem =? nmem) && negb (MEM_ISUSED w) && negb (nmem =? heap_end m) then
    merge_into mem nmem (if lfree m =? nmem then set_lfree mem m else m)
  else Done m.
Definition plug_backward (mem : Z) (m : rt_small_mem) : outcome rt_small_mem :=
  pmem ← prev m mem;
  w ← pool_ptr m pmem;
  if negb (pmem =? mem) && negb (MEM_ISUSED w) then
    merge_into pmem mem (if lfree m =? mem then set_lfree pmem m else m)
  else Done m.
Definition plug_holes (mem : Z) (m : rt_small_mem) : outcome rt_small_mem :=
  _ ← RT_ASSERT (0 <=? mem);
  _ ← RT_ASSERT (mem <? heap_end m);
  m ← plug_forward mem m;
  plug_backward mem m.

(** [descr] is the size of the descriptor, [garbage] what the memory holds.  The address
    of [heap_ptr] comes with the heap. *)
Definition rt_smem_init (descr : Z) (garbage : Z -> Z) (begin_addr size : Z) : outcome (option (Z * rt_small_mem)) :=
  let small_mem := RT_ALIGN begin_addr RT_ALIGN_SIZE in
  let start_addr := u32 (small_mem + descr) in
  let begin_align := RT_ALIGN start_addr RT_ALIGN_SIZE in
  let end_align := RT_ALIGN_DOWN (u32 (begin_addr + size)) RT_ALIGN_SIZE in
  if (2 * SIZEOF_STRUCT_MEM <? end_align) && (start_addr <=? end_align - 2 * SIZEOF_STRUCT_MEM) then
    let mem_size := u32 (end_align - begin_align - 2 * SIZEOF_STRUCT_MEM) in
    let m := Smem small_mem garbage 0 0 0 mem_size in
    m ← set_pool_ptr 0 (MEM_FREED m) m;
    m ← set_next 0 (mem_size + SIZEOF_STRUCT_MEM) m;
    m ← set_prev 0 0 m;
    m ← set_pool_ptr (heap_end m) (MEM_USED m) m;
    m ← set_next (heap_end m) (mem_size + SIZEOF_STRUCT_MEM) m;
    m ← set_prev (heap_end m) (mem_size + SIZEOF_STRUCT_MEM) m;
    Done (Some (begin_align, m))
  else Done None.

(** The search for a block; a heap has fewer blocks than [FUEL]. *)
Definition FUEL (m : rt_small_mem) : nat := S (Z.to_nat (heap_end m)).
Fixpoint alloc_loop (fuel : nat) (m : rt_small_mem) (size ptr : Z) : outcome (option Z) :=
  match fuel with
  | O => Fault Hang
  | S fuel =>
    if ptr <=? u32 (mem_size_aligned m - size) then
      w ← pool_ptr m ptr;
      nx ← next m ptr;
      if negb (MEM_ISUSED w) && (size <=? u32 (nx - (ptr + SIZEOF_STRUCT_MEM))) then Done (Some ptr)
      else alloc_loop fuel m size nx
    else Done None
  end.
(** The loop that moves [lfree] on. *)
Fixpoint lfree_loop (fuel : nat) (m : rt_small_mem) (o : Z) : outcome Z :=
  match fuel with
  | O => Fault Hang
  | S fuel =>
    w ← pool_ptr m o;
    if MEM_ISUSED w && negb (o =? heap_end m) then nx ← next m o; lfree_loop fuel m nx else Done o
  end.

(** The rest of the block at [ptr] after [size] bytes becomes a block of its own. *)
Definition split_block (ptr size : Z) (m : rt_small_mem) : outcome rt_small_mem :=
  let ptr2 := ptr + SIZEOF_STRUCT_MEM + size in
  nx ← next m ptr;
  m ← set_pool_ptr ptr2 (MEM_FREED m) m;
  m ← set_next ptr2 nx m;
  m ← set_prev ptr2 ptr m;
  m ← set_next ptr ptr2 m;
  if negb (nx =? mem_size_aligned m + SIZEOF_STRUCT_MEM) then set_prev nx ptr2 m else Done m.

Definition rt_smem_alloc (size : Z) (m : rt_small_mem) : outcome (rt_small_mem * option Z) :=
  if size =? 0 then Done (m, None) else
  let size := RT_ALIGN size RT_ALIGN_SIZE in
  let size := if size <? MIN_SIZE_ALIGNED then MIN_SIZE_ALIGNED else size in
  if mem_size_aligned m <? size then Done (m, None) else
  found ← alloc_loop (FUEL m) m size (lfree m);
  match found with
  | None => Done (m, None)
  | Some ptr =>
    nx ← next m ptr;
    m ← (if size + SIZEOF_STRUCT_MEM + MIN_SIZE_ALIGNED <=? u32 (nx - (ptr + SIZEOF_STRUCT_MEM)) then
           m ← split_block ptr size m;
           Done (update_max (set_used (m_used m + (size + SIZEOF_STRUCT_MEM)) m))
         else Done (update_max (set_used (m_used m + (nx - ptr)) m)));
    m ← set_pool_ptr ptr (MEM_USED m) m;
    m ← (if ptr =? lfree m then
           o ← lfree_loop (FUEL m) m (lfree m);
           w ← pool_ptr m o;
           _ ← RT_ASSERT ((o =? heap_end m) || negb (MEM_ISUSED w));
           Done (set_lfree o m)
         else Done m);
    _ ← RT_ASSERT (ptr + SIZEOF_STRUCT_MEM + size <=? heap_end m);
    _ ← RT_ASSERT (ptr mod RT_ALIGN_SIZE =? 0);
    Done (m, Some (ptr + SIZEOF_STRUCT_MEM))
  end.

Definition rt_smem_free (rmem : option Z) (m : rt_small_mem) : outcome rt_small_mem :=
  match rmem with
  | None => Done m
  | Some rmem =>
    _ ← RT_ASSERT (rmem mod RT_ALIGN_SIZE =? 0);
    let mem := rmem - SIZEOF_STRUCT_MEM in
    w ← pool_ptr m mem;
    _ ← RT_ASSERT (negb (MEM_POOL w =? 0));
    _ ← RT_ASSERT (MEM_ISUSED w);
    (* another descriptor is not modelled *)
    _ ← (if MEM_POOL w =? self m then Done () else Fault Undefined);
    _ ← RT_ASSERT ((0 <=? rmem) && (rmem <? heap_end m));
    nx ← next m mem;
    w' ← pool_ptr m nx;
    _ ← RT_ASSERT (MEM_POOL w' =? self m);
    m ← set_pool_ptr mem (MEM_FREED m) m;
    let m := if mem <? lfree m then set_lfree mem m else m in
    let m := set_used (m_used m - (nx - mem)) m in
    plug_holes mem m
  end.

(** [rt_memcpy] of whole words. *)
Fixpoint copy_words (n : nat) (src dst : Z) (m : rt_small_mem) : outcome rt_small_mem :=
  match n with
  | O => Done m
  | S n => v ← load m src; m ← store dst v m; copy_words n (src + 4) (dst + 4) m
  end.

Definition rt_smem_realloc (rmem : option Z) (newsize : Z) (m : rt_small_mem) : outcome (rt_small_mem * option Z) :=
  let newsize := RT_ALIGN newsize RT_ALIGN_SIZE in
  if mem_size_aligned m <? newsize then Done (m, None)
  else if newsize =? 0 then m ← rt_smem_free rmem m; Done (m, None)
  else match rmem with
  | None => rt_smem_alloc newsize m
  | Some rmem =>
    _ ← RT_ASSERT (rmem mod RT_ALIGN_SIZE =? 0);
    _ ← RT_ASSERT (0 <=? rmem);
    _ ← RT_ASSERT (rmem <? heap_end m);
    let ptr := rmem - SIZEOF_STRUCT_MEM in
    nx ← next m ptr;
    let size := u32 (nx - ptr - SIZEOF_STRUCT_MEM) in
    if size =? newsize then Done (m, Some rmem)
    else if newsize + SIZEOF_STRUCT_MEM + MIN_SIZE <? size then
      let m := set_used (m_used m - (size - newsize)) m in
      let ptr2 := ptr + SIZEOF_STRUCT_MEM + newsize in
      m ← split_block ptr newsize m;
      let m := if ptr2 <? lfree m then set_lfree ptr2 m else m in
      m ← plug_holes ptr2 m;
      Done (m, Some rmem)
    else
      r ← rt_smem_alloc newsize m;
      match r.2 with
      | None => Done (r.1, None)
      | Some nmem =>
        m ← copy_words (Z.to_nat ((if size <? newsize then size else newsize) / 4)) rmem nmem r.1;
        m ← rt_smem_free (Some rmem) m;
        Done (m, Some nmem)
      end
  end.

(** ** Blocks

    A heap is a list of blocks, sizes with their headers, used or free. *)
Definition block : Type := Z * bool.
Implicit Types (m : rt_small_mem) (bs pre post : list block) (o p n x : Z) (u : bool).

Fixpoint total bs : Z := match bs with [] => 0 | b :: bs => b.1 + total bs end.
Fixpoint used_total bs : Z :=
  match bs with [] => 0 | b :: bs => (if b.2 then b.1 else 0) + used_total bs end.
(** The offset of the first free block from [o] on, or the end. *)
Fixpoint first_free o bs : Z :=
  match bs with [] => o | b :: bs => if b.2 then first_free (o + b.1) bs else o end.
(** The offset of the last block, [p] if there is none; whether it is used. *)
Fixpoint last_off p o bs : Z := match bs with [] => p | b :: bs => last_off o (o + b.1) bs end.
Fixpoint last_used u bs : bool := match bs with [] => u | b :: bs => last_used b.2 bs end.
(** No two free blocks in a row, after a block that is used or not. *)
Fixpoint spread u bs : Prop :=
  match bs with [] => True | b :: bs => (u || b.2 = true) /\ spread b.2 bs end.
(** [x] lies in the payload of a used block. *)
Fixpoint in_used o bs x : Prop :=
  match bs with
  | [] => False
  | b :: bs => (b.2 = true /\ o + SIZEOF_STRUCT_MEM <= x < o + b.1) \/ in_used (o + b.1) bs x
  end.

Definition pool_word (s : Z) u : Z := s + if u then 1 else 0.
Definition header m o u nx pv : Prop :=
  words m o = pool_word (self m) u /\ words m (o + 4) = nx /\ words m (o + 8) = pv.
(** The headers of [bs] lie at [o] and after, the first one's previous being [p]. *)
Fixpoint chain m p o bs : Prop :=
  match bs with
  | [] => True
  | b :: bs =>
    header m o b.2 (o + b.1) p /\ 24 <= b.1 /\ b.1 mod 8 = 0 /\ chain m o (o + b.1) bs
  end.

Section lists.
Implicit Types b : block.
Lemma total_app bs bs' : total (bs ++ bs') = total bs + total bs'.
Proof. induction bs as [|b bs IH]; cbn; [done|]. rewrite IH. lia. Qed.
Lemma used_total_app bs bs' : used_total (bs ++ bs') = used_total bs + used_total bs'.
Proof. induction bs as [|b bs IH]; cbn; [done|]. rewrite IH. lia. Qed.
Lemma last_off_app p o bs bs' : last_off p o (bs ++ bs') = last_off (last_off p o bs) (o + total bs) bs'.
Proof.
  revert p o. induction bs as [|b bs IH]; intros p o; cbn; [by rewrite Z.add_0_r|].
  rewrite IH. by rewrite Z.add_assoc.
Qed.
Lemma last_used_app u bs bs' : last_used u (bs ++ bs') = last_used (last_used u bs) bs'.
Proof. revert u. induction bs; intros u; cbn; auto. Qed.
Lemma spread_app u bs bs' : spread u (bs ++ bs') <-> spread u bs /\ spread (last_used u bs) bs'.
Proof. revert u. induction bs as [|b bs IH]; intros u; cbn; [tauto|]. rewrite IH. tauto. Qed.
Lemma in_used_app o bs bs' x : in_used o (bs ++ bs') x <-> in_used o bs x \/ in_used (o + total bs) bs' x.
Proof.
  revert o. induction bs as [|b bs IH]; intros o; cbn; [rewrite Z.add_0_r; tauto|].
  rewrite IH, Z.add_assoc. tauto.
Qed.
Lemma chain_app m p o bs bs' :
  chain m p o (bs ++ bs') <-> chain m p o bs /\ chain m (last_off p o bs) (o + total bs) bs'.
Proof.
  revert p o. induction bs as [|b bs IH]; intros p o; cbn; [rewrite Z.add_0_r; tauto|].
  rewrite IH, Z.add_assoc. tauto.
Qed.
Lemma chain_sizes m p o bs : chain m p o bs -> 24 * Z.of_nat (length bs) <= total bs /\ total bs mod 8 = 0.
Proof.
  revert p o. induction bs as [|b bs IH]; intros p o; cbn [chain total length]; [done|].
  intros (_ & Hn & Hm & Hc). apply IH in Hc. lia.
Qed.
Lemma in_used_range m p o bs x : chain m p o bs -> in_used o bs x -> o + SIZEOF_STRUCT_MEM <= x < o + total bs.
Proof.
  revert p o. induction bs as [|b bs IH]; intros p o; cbn [chain in_used total]; [done|].
  intros (_ & Hn & _ & Hc) Hx. pose proof (chain_sizes _ _ _ _ Hc). destruct Hx as [[_ Hx]|Hx]; [lia|].
  apply (IH _ _ Hc) in Hx. lia.
Qed.
Lemma used_total_range m p o bs : chain m p o bs -> 0 <= used_total bs <= total bs.
Proof.
  revert p o. induction bs as [|b bs IH]; intros p o; cbn [chain used_total total]; [done|].
  intros (_ & Hn & _ & Hc). apply IH in Hc. destruct b.2; lia.
Qed.
Lemma first_free_app o bs bs' :
  first_free o (bs ++ bs') = if forallb snd bs then first_free (o + total bs) bs' else first_free o bs.
Proof.
  revert o. induction bs as [|b bs IH]; intros o; cbn; [by rewrite Z.add_0_r|].
  destruct b.2; cbn; [|done]. by rewrite IH, Z.add_assoc.
Qed.
Lemma first_free_before m p o bs : chain m p o bs -> forallb snd bs = false -> o <= first_free o bs < o + total bs.
Proof.
  revert p o. induction bs as [|b bs IH]; intros p o; cbn [chain first_free total forallb]; [done|].
  intros (_ & Hn & _ & Hc) Hf. pose proof (chain_sizes _ _ _ _ Hc). change (snd b) with b.2 in Hf.
  destruct b.2; [|lia]. cbn in Hf. apply (IH _ _ Hc) in Hf. lia.
Qed.

(** What keeps the headers keeps the chain; the first one may get another predecessor. *)
Lemma chain_frame m m' p p' o bs : self m' = self m ->
  (forall x, o <= x < o + total bs -> x <> o + 8 -> ~ in_used o bs x -> words m' x = words m x) ->
  (bs <> [] -> words m' (o + 8) = p') -> chain m p o bs -> chain m' p' o bs.
Proof.
  intros Hself. revert p p' o. induction bs as [|b bs IH]; intros p p' o Hx Hp; [done|].
  cbn [chain total in_used] in *. intros ((H1 & H2 & H3) & Hn & Hm & Hc).
  pose proof (chain_sizes _ _ _ _ Hc). change SIZEOF_STRUCT_MEM with 16 in *.
  assert (forall x, x < o + b.1 -> ~ in_used (o + b.1) bs x) as Hbelow.
  { intros x Hlt Hin. apply (in_used_range _ _ _ _ _ Hc) in Hin. change SIZEOF_STRUCT_MEM with 16 in *. lia. }
  assert (forall x, o <= x < o + 16 -> x <> o + 8 -> words m' x = words m x) as Hh.
  { intros x Hr Hne. apply Hx; [lia|done|]. intros [[_ ?]|Hin]; [lia|]. by apply (Hbelow x); [lia|]. }
  split; [|split; [done|split; [done|]]].
  - unfold header. rewrite Hself, !Hh by lia. split_and!; [done..|by apply Hp].
  - apply (IH o); [| |done].
    + intros x Hr Hne Hin. apply Hx; [lia|lia|]. intros [[_ ?]|?]; [lia|done].
    + intros Hbs. destruct bs as [|b' bs]; [done|]. cbn [chain total] in *.
      destruct Hc as ((_ & _ & H8) & Hn' & _ & Hc'). rewrite Hx, H8; [done| |lia|].
      * apply chain_sizes in Hc'. lia.
      * intros [[_ ?]|[[_ ?]|Hin]]; [lia|change SIZEOF_STRUCT_MEM with 16 in *; lia|].
        apply (in_used_range _ _ _ _ _ Hc') in Hin. change SIZEOF_STRUCT_MEM with 16 in *. lia.
Qed.
End lists.

(** ** The invariant *)

(** The headers say [bs].  The previous-offset of the end is not kept up to date by the
    code, and not used by it. *)
Record blocks m bs : Prop := {
  bl_size : 0 <= mem_size_aligned m /\ mem_size_aligned m mod 8 = 0 /\ heap_end m + 16 < 2 ^ 32;
  bl_self : 0 < self m < 2 ^ 32 /\ self m mod 8 = 0;
  bl_total : total bs = heap_end m;
  bl_chain : chain m 0 0 bs;
  bl_end : words m (heap_end m) = pool_word (self m) true /\ words m (heap_end m + 4) = heap_end m;
}.
(** And so do [lfree] and the statistics; free blocks are merged. *)
Record heap_wf m bs : Prop := {
  hw_blocks : blocks m bs;
  hw_lfree : lfree m = first_free 0 bs;
  hw_used : m_used m = used_total bs;
  hw_spread : spread true bs;
}.
(** Only memory changes. *)
Definition same_fields m m' : Prop :=
  self m' = self m /\ mem_size_aligned m' = mem_size_aligned m /\ lfree m' = lfree m /\
  m_used m' = m_used m /\ m_max m' = m_max m.

Lemma pool_word_bit s u : 0 < s < 2 ^ 32 -> s mod 8 = 0 ->
  MEM_ISUSED (pool_word s u) = u /\ MEM_POOL (pool_word s u) = s.
Proof.
  intros Hs Hm. unfold MEM_ISUSED, MEM_POOL, pool_word.
  change (u32 (Z.lnot MEM_MASK)) with (Z.ones 1). rewrite Z.land_ones by lia. change (2 ^ 1) with 2.
  assert (Z.land (s + (if u then 1 else 0)) MEM_MASK = s) as ->.
  { change MEM_MASK with (Z.land (Z.ones 32) (Z.lnot (Z.ones 1))). rewrite Z.land_assoc, <- Z.ldiff_land.
    rewrite Z.land_ones, Z.mod_small by (destruct u; lia).
    rewrite Z.ldiff_ones_r, Z.shiftl_mul_pow2, Z.shiftr_div_pow2 by lia. destruct u; lia. }
  split; [|done].
  destruct u; [rewrite (proj2 (Z.eqb_neq _ _)) by lia; done|rewrite (proj2 (Z.eqb_eq _ _)) by lia; done].
Qed.
Lemma pool_word_u32 s u : 0 < s < 2 ^ 32 -> s mod 8 = 0 -> is_u32 (pool_word s u).
Proof. intros. unfold pool_word. destruct u; cint. Qed.
Lemma mem_used_word m : 0 < self m < 2 ^ 32 -> self m mod 8 = 0 ->
  MEM_USED m = pool_word (self m) true /\ MEM_FREED m = pool_word (self m) false.
Proof.
  intros Hs Hm. destruct (pool_word_bit (self m) false Hs Hm) as [_ Hp].
  unfold MEM_POOL, pool_word in Hp. rewrite Z.add_0_r in Hp.
  unfold MEM_USED, MEM_FREED, pool_word. rewrite Hp, Z.lor_0_r. split; [|lia].
  pose proof (Z.add_lor_land (self m) 1) as Hl. change 1 with (Z.ones 1) in Hl at 2.
  rewrite Z.land_ones in Hl by lia. change (2 ^ 1) with 2 in Hl. lia.
Qed.

Lemma load_in m a : in_heap m a -> load m a = Done (words m a).
Proof. intros. unfold load. by rewrite decide_True. Qed.
(** A store and what is read afterwards. *)
Definition put_word (a v : Z) m : rt_small_mem := set_words (fun x => if x =? a then v else words m x) m.
Lemma store_in m a v : in_heap m a -> is_u32 v -> store a v m = Done (put_word a v m).
Proof. intros Ha Hv. unfold store, put_word. rewrite decide_True by done. by rewrite u32_id. Qed.
Lemma word_eq m a v : words (put_word a v m) a = v.
Proof. cbn. by rewrite Z.eqb_refl. Qed.
Lemma word_ne m a v x : x <> a -> words (put_word a v m) x = words m x.
Proof. intros. cbn. by rewrite (proj2 (Z.eqb_neq _ _)). Qed.

Ltac addr := unfold in_heap, heap_end, put_word, set_words in *; cbn [mem_size_aligned] in *;
  change SIZEOF_STRUCT_MEM with 16 in *; lia.
Ltac size := unfold heap_end in *; change SIZEOF_STRUCT_MEM with 16 in *; cint.
(** What is stored where, in a memory that was stored to. *)
Ltac word := repeat (rewrite word_eq || rewrite word_ne by addr).

(** A block in the middle, and putting one there. *)
Lemma blocks_split m pre n u post : blocks m (pre ++ (n, u) :: post) ->
  let o := total pre in
  (0 <= o /\ o mod 8 = 0 /\ 24 <= n /\ n mod 8 = 0 /\ (total post = 0 \/ 24 <= total post) /\ (o + n) + total post = heap_end m) /\
  header m o u (o + n) (last_off 0 0 pre) /\ chain m 0 0 pre /\ chain m o (o + n) post.
Proof.
  intros [_ _ Ht Hc _] o. rewrite total_app in Ht. apply chain_app in Hc as [Hpre Hc]. rewrite Z.add_0_l in Hc.
  cbn [chain fst snd total] in Hc, Ht. destruct Hc as (Hh & Hn & Hm & Hpost). fold o in Hh, Hpost, Ht.
  pose proof (chain_sizes _ _ _ _ Hpre). pose proof (chain_sizes _ _ _ _ Hpost).
  assert (total post = 0 \/ 24 <= total post) by (destruct post; [by left|right; cbn [length] in *; lia]).
  split; [lia|done].
Qed.
Lemma blocks_join m m' pre n u post : blocks m (pre ++ (n, u) :: post) ->
  self m' = self m -> mem_size_aligned m' = mem_size_aligned m ->
  forall mid, total mid = n -> chain m' (last_off 0 0 pre) (total pre) mid -> chain m' 0 0 pre ->
  chain m' (last_off (last_off 0 0 pre) (total pre) mid) (total pre + n) post ->
  (forall x, heap_end m <= x < heap_end m + 8 -> words m' x = words m x) ->
  blocks m' (pre ++ mid ++ post).
Proof.
  intros Hb Hself Hsz mid Hmid Hcm Hcp Hcpost Hend. pose proof Hb as [Hs Hsf Ht _ [He1 He2]].
  assert (heap_end m' = heap_end m) as Hee by (unfold heap_end; by rewrite Hsz).
  split; rewrite ?Hself, ?Hsz, ?Hee; [done|done| | |].
  - rewrite <- Ht, !total_app. cbn. lia.
  - rewrite !chain_app, Z.add_0_l. rewrite Hmid. done.
  - rewrite !Hend by lia. done.
Qed.
(** Below and above. *)
Lemma pre_frame m m' p bs : self m' = self m ->
  (forall x, 0 <= x < total bs -> ~ in_used 0 bs x -> words m' x = words m x) -> chain m p 0 bs -> chain m' p 0 bs.
Proof.
  intros Hself Hx Hc. destruct bs as [|b bs]; [done|].
  eapply (chain_frame m m'); [done|intros; by apply Hx| |exact Hc].
  intros _. pose proof (chain_sizes _ _ _ _ Hc). cbn [chain] in Hc. destruct Hc as ((_ & _ & H8) & Hn & _ & Hc).
  cbn [total length] in *. rewrite Hx, H8; [done|lia|]. intros [[_ ?]|Hin]; [addr|].
  apply (in_used_range _ _ _ _ _ Hc) in Hin. addr.
Qed.

(** *** Single changes to the list *)

Lemma set_pool_blocks m pre n u u' post : blocks m (pre ++ (n, u) :: post) ->
  exists m', set_pool_ptr (total pre) (pool_word (self m) u') m = Done m' /\ same_fields m m' /\
    blocks m' (pre ++ (n, u') :: post) /\ forall x, x <> total pre -> words m' x = words m x.
Proof.
  intros Hb. pose proof (blocks_split _ _ _ _ _ Hb) as (Ho & (Hp & Hn & Hv) & Hcp & Hcpost).
  pose proof Hb as [Hs Hsf _ _ _].
  exists (put_word (total pre) (pool_word (self m) u') m). split; [|split; [done|split]].
  - apply store_in; [addr|apply pool_word_u32; lia].
  - apply (blocks_join m _ pre n u post Hb) with (mid := [(n, u')]); [done|done|cbn; lia| | | |].
    + cbn [chain fst snd]. unfold header. split_and!; try lia; word; done.
    + apply (pre_frame m); [done|intros x Hx _; by word|done].
    + apply (chain_frame m _ (total pre)); [done|intros x Hx _ _; by word| |done].
      intros Hne. word. destruct post; [done|]. cbn in Hcpost. by destruct Hcpost as ((_ & _ & ?) & _).
    + intros x Hx. by word.
  - intros x Hx. by word.
Qed.

Lemma split_blocks m pre n u post size : blocks m (pre ++ (n, u) :: post) ->
  0 < size -> size mod 8 = 0 -> 40 + size <= n ->
  let o := total pre in
  exists m', split_block o size m = Done m' /\ same_fields m m' /\
    blocks m' (pre ++ (SIZEOF_STRUCT_MEM + size, u) :: (n - SIZEOF_STRUCT_MEM - size, false) :: post) /\
    forall x, in_used 0 pre x \/ in_used (o + n) post x \/ o + SIZEOF_STRUCT_MEM <= x < o + SIZEOF_STRUCT_MEM + size ->
      words m' x = words m x.
Proof.
  intros Hb Hsz Hm8 Hfit o. pose proof (blocks_split _ _ _ _ _ Hb) as (Ho & (Hp & Hn & Hv) & Hcp & Hcpost).
  pose proof Hb as [Hs Hsf _ _ _]. fold o in Ho, Hp, Hn, Hv, Hcpost. set (o2 := o + 16 + size).
  destruct (mem_used_word m (proj1 Hsf) (proj2 Hsf)) as [_ Hfree].
  set (m4 := put_word (o + 4) o2 (put_word (o2 + 8) o (put_word (o2 + 4) (o + n)
    (put_word o2 (pool_word (self m) false) m)))).
  set (m' := if negb (o + n =? heap_end m) then put_word (o + n + 8) o2 m4 else m4).
  assert (split_block o size m = Done m') as He.
  { unfold split_block, next, set_pool_ptr, set_next, set_prev. rewrite load_in, Hn, Hfree by addr.
    change (o + SIZEOF_STRUCT_MEM + size) with o2. cbn [mbind outcome_bind].
    rewrite store_in by (addr || apply pool_word_u32; lia). cbn [mbind outcome_bind].
    rewrite store_in by (addr || cint). cbn [mbind outcome_bind].
    rewrite store_in by (addr || cint). cbn [mbind outcome_bind].
    rewrite store_in by (addr || cint). cbn [mbind outcome_bind]. fold m4.
    change (mem_size_aligned m4 + SIZEOF_STRUCT_MEM) with (heap_end m). subst m'.
    destruct (Z.eqb_spec (o + n) (heap_end m)); cbn [negb]; [done|].
    apply store_in; [subst m4; addr|subst o2; cint]. }
  assert (forall x, x <> o2 -> x <> o2 + 4 -> x <> o2 + 8 -> x <> o + 4 -> x <> o + n + 8 -> words m' x = words m x) as Hw.
  { intros x ? ? ? ? ?. subst m' m4. destruct (negb _); by word. }
  assert (forall x, x <> o + n + 8 -> words m' x = words m4 x) as Hw4.
  { intros x ?. subst m'. destruct (negb _); by word. }
  exists m'. split; [done|]. split; [subst m'; by destruct (negb _)|]. split.
  - apply (blocks_join m _ pre n u post Hb) with (mid := [(16 + size, u); (n - 16 - size, false)]).
    + subst m'. by destruct (negb _).
    + subst m'. by destruct (negb _).
    + cbn. lia.
    + cbn [chain fst snd]. fold o. replace (o + (16 + size)) with o2 by (subst o2; lia).
      assert (self m' = self m) as Hself by (subst m'; by destruct (negb _)).
      unfold header. rewrite Hself, !Hw4 by (subst o2; lia). subst m4.
      split_and!; try (subst o2; lia); try (subst o2; word; done || lia).
    + apply (pre_frame m); [subst m'; by destruct (negb _)| |done].
      intros x Hx _. apply Hw; subst o2; lia.
    + replace (last_off _ _ _) with o2 by (cbn; fold o; subst o2; lia). fold o.
      apply (chain_frame m _ o); [subst m'; by destruct (negb _)| | |done].
      * intros x Hx Hx8 _. apply Hw; subst o2; lia.
      * intros Hne. subst m'. destruct (Z.eqb_spec (o + n) (heap_end m)); cbn [negb]; [|by word].
        destruct post as [|b post]; [done|]. cbn [total chain] in *. destruct Hcpost as (_ & ? & _ & Hc).
        apply chain_sizes in Hc. lia.
    + intros x Hx. apply Hw; subst o2; addr.
  - intros x Hx. change SIZEOF_STRUCT_MEM with 16 in *. destruct Hx as [Hx|[Hx|Hx]].
    + apply (in_used_range _ _ _ _ _ Hcp) in Hx. apply Hw; subst o2; addr.
    + apply (in_used_range _ _ _ _ _ Hcpost) in Hx. apply Hw; subst o2; addr.
    + apply Hw; subst o2; lia.
Qed.

Lemma merge_blocks m pre k u n u' post : blocks m (pre ++ (k, u) :: (n, u') :: post) ->
  let o := total pre in
  exists m', merge_into o (o + k) m = Done m' /\ same_fields m m' /\
    blocks m' (pre ++ (k + n, u) :: post) /\
    (forall x, in_used 0 pre x \/ in_used (o + k + n) post x -> words m' x = words m x) /\ words m' (o + k) = 0.
Proof.
  intros Hb o. pose proof (blocks_split _ _ _ _ _ Hb) as (Ho & (Hp & Hn & Hv) & Hcp & Hc).
  pose proof Hb as [Hs Hsf _ _ _]. fold o in Ho, Hp, Hn, Hv, Hc.
  cbn [chain fst snd] in Hc. destruct Hc as ((Hp2 & Hn2 & Hv2) & H24 & H8 & Hcpost).
  cbn [total fst] in Ho. pose proof (chain_sizes _ _ _ _ Hcpost) as Hsizes.
  assert (total post = 0 \/ 24 <= total post) as H0 by (destruct post; [by left|right; cbn [length] in *; lia]).
  clear Hsizes. set (v := o + k) in *. set (nn := v + n) in *.
  set (m' := put_word (nn + 8) o (put_word (o + 4) nn (put_word v 0 m))).
  assert (merge_into o v m = Done m') as He.
  { unfold merge_into, next, set_pool_ptr, set_next, set_prev.
    rewrite store_in by (addr || cint). cbn [mbind outcome_bind].
    rewrite load_in by addr. word. rewrite Hn2. cbn [mbind outcome_bind].
    rewrite store_in by (addr || (subst nn v; cint)). cbn [mbind outcome_bind].
    apply store_in; [subst nn v; addr|cint]. }
  assert (forall x, x <> v -> x <> o + 4 -> x <> nn + 8 -> words m' x = words m x) as Hw
    by (intros x ? ? ?; subst m'; by word).
  exists m'. split; [done|]. split; [done|]. split.
  - replace (pre ++ (k + n, u) :: post) with (pre ++ [(k + n, u)] ++ post) by done.
    assert (blocks m (pre ++ ([(k, u); (n, u')] ++ post))) as Hb' by done.
    destruct Hb' as [_ _ Ht _ Hend]. split; [done|done| | |].
    + change (heap_end m') with (heap_end m). rewrite <- Ht, !total_app. cbn. lia.
    + rewrite !chain_app, Z.add_0_l. fold o. split; [|split].
      * apply (pre_frame m); [done| |done]. intros x Hx _. apply Hw; subst v nn; lia.
      * cbn [chain fst snd]. unfold header. replace (o + (k + n)) with nn by (subst nn v; lia).
        split_and!; try (subst nn v; lia); subst m'; subst nn v; word; done.
      * replace (o + total [(k + n, u)]) with nn by (cbn; subst nn v; lia).
        apply (chain_frame m _ v); [done| | |done].
        -- intros x Hx Hx8 _. apply Hw; subst v nn; lia.
        -- intros _. subst m'. by word.
    + change (heap_end m') with (heap_end m). rewrite !Hw by (subst v nn; lia). done.
  - split; [intros x [Hx|Hx]|].
    + apply (in_used_range _ _ _ _ _ Hcp) in Hx. apply Hw; subst v nn; addr.
    + apply (in_used_range _ _ _ _ _ Hcpost) in Hx. apply Hw; subst v nn; addr.
    + subst m' v nn. by word.
Qed.

(** *** Merging *)

Fixpoint merge bs : list block :=
  match bs with
  | [] => []
  | (n, true) :: bs => (n, true) :: merge bs
  | (n, false) :: bs => match merge bs with (k, false) :: r => (n + k, false) :: r | r => (n, false) :: r end
  end.

Lemma merge_spread bs u : (u = true \/ head (merge bs) ≫= (fun b => Some b.2) <> Some false) -> spread u (merge bs).
Proof.
  revert u. induction bs as [|[n [|]] bs IH]; intros u Hu; cbn in *; [done| |].
  - split; [by rewrite orb_true_r|]. apply IH. by left.
  - assert (u = true) as -> by (destruct Hu as [|Hu]; [done|]; destruct (merge bs) as [|[k [|]] r]; by destruct Hu).
    destruct (merge bs) as [|[k [|]] r]; cbn; [done| |].
    + split; [done|]. split; [done|]. by apply (IH false); right.
    + split; [done|]. destruct (IH true (or_introl eq_refl)) as [_ Hs]. done.
Qed.
Lemma merge_id u bs : spread u bs -> merge bs = bs.
Proof.
  revert u. induction bs as [|[n [|]] bs IH]; intros u; cbn; [done|intros [_ Hs]; by rewrite (IH _ Hs)|].
  intros [_ Hs]. rewrite (IH _ Hs). destruct bs as [|[k [|]] bs]; [done|done|]. by destruct Hs.
Qed.
Lemma merge_total bs : total (merge bs) = total bs.
Proof. induction bs as [|[n [|]] bs IH]; cbn; [done|lia|]. destruct (merge bs) as [|[k [|]] r]; cbn in *; lia. Qed.
Lemma merge_used bs : used_total (merge bs) = used_total bs.
Proof. induction bs as [|[n [|]] bs IH]; cbn; [done|lia|]. destruct (merge bs) as [|[k [|]] r]; cbn in *; lia. Qed.
Lemma merge_first_free o bs : first_free o (merge bs) = first_free o bs.
Proof.
  revert o. induction bs as [|[n [|]] bs IH]; intros o; cbn; [done|by apply IH|].
  by destruct (merge bs) as [|[k [|]] r].
Qed.
Lemma merge_in_used o bs x : in_used o (merge bs) x <-> in_used o bs x.
Proof.
  revert o. induction bs as [|[n [|]] bs IH]; intros o; cbn; [done|by rewrite IH|].
  rewrite <- IH. destruct (merge bs) as [|[k [|]] r]; cbn; [done|done|].
  rewrite Z.add_assoc. naive_solver.
Qed.
Lemma merge_app u pre bs : spread u pre -> last_used u pre = true -> merge (pre ++ bs) = pre ++ merge bs.
Proof.
  revert u. induction pre as [|[n v] pre IH]; intros u [_ Hs] Hl || intros u Hs Hl; [done|].
  cbn in Hs, Hl. cbn [app merge]. destruct v; [by rewrite (IH true)|].
  rewrite (IH false Hs Hl). destruct pre as [|[k [|]] pre]; [done|done|by destruct Hs].
Qed.

(** Reading the header of the block after the one at [total pre]. *)
Lemma next_pool m pre n u post : blocks m (pre ++ (n, u) :: post) ->
  let o := total pre in
  next m o = Done (o + n) /\
  pool_ptr m (o + n) = Done (pool_word (self m) match post with [] => true | b :: _ => b.2 end) /\
  (o + n =? heap_end m) = match post with [] => true | _ => false end.
Proof.
  intros Hb o. pose proof (blocks_split _ _ _ _ _ Hb) as (Ho & (Hp & Hn & Hv) & _ & Hc).
  pose proof Hb as [Hs _ _ _ [He _]]. fold o in Ho, Hn, Hc.
  unfold next, pool_ptr. rewrite !load_in, Hn by addr. split; [done|].
  destruct post as [|b post]; cbn [total chain] in *.
  - assert (o + n = heap_end m) as -> by lia. rewrite He. split; [done|apply Z.eqb_refl].
  - destruct Hc as ((-> & _) & ? & _ & Hc). apply chain_sizes in Hc. split; [done|]. apply Z.eqb_neq. lia.
Qed.
Lemma first_free_le m p o pre n post : chain m p o pre -> first_free o (pre ++ (n, false) :: post) <= o + total pre.
Proof.
  intros Hc. rewrite first_free_app. destruct (forallb snd pre) eqn:Hf; [cbn; lia|].
  pose proof (first_free_before _ _ _ _ Hc Hf). lia.
Qed.

Lemma plug_forward_ok m pre n post : blocks m (pre ++ (n, false) :: post) -> spread true post ->
  lfree m <= total pre ->
  exists m', plug_forward (total pre) m = Done m' /\ blocks m' (pre ++ merge ((n, false) :: post)) /\
    same_fields m m' /\ forall x, in_used 0 (pre ++ (n, false) :: post) x -> words m' x = words m x.
Proof.
  intros Hb Hs Hf. destruct (next_pool _ _ _ _ _ Hb) as (Hn & Hp & He).
  destruct (blocks_split _ _ _ _ _ Hb) as (Ho & _). pose proof Hb as [_ [Hsf1 Hsf2] _ _ _].
  unfold plug_forward. rewrite Hn. cbn [mbind outcome_bind]. rewrite Hp. cbn [mbind outcome_bind].
  rewrite He, (proj1 (pool_word_bit _ _ Hsf1 Hsf2)).
  rewrite (proj2 (Z.eqb_neq (total pre) (total pre + n))) by lia. cbn [negb andb merge].
  rewrite (merge_id _ _ Hs). destruct post as [|[k [|]] post]; cbn [fst snd negb andb]; [by exists m..|].
  rewrite (proj2 (Z.eqb_neq (lfree m) _)) by lia.
  destruct (merge_blocks _ _ _ _ _ _ _ Hb) as (m' & Hm & Hsame & Hb' & Hw & _).
  exists m'. split; [done|]. split; [done|]. split; [done|]. intros x Hx. apply Hw.
  rewrite in_used_app in Hx. cbn in Hx. naive_solver.
Qed.

(** Not the header of a used block: the word of a free one, or of one merged into another. *)
Definition dead m o : Prop := words m o = 0 \/ words m o = pool_word (self m) false.
Lemma plug_backward_ok m pre n post : blocks m (pre ++ (n, false) :: post) -> spread true pre -> spread false post ->
  lfree m = first_free 0 (pre ++ (n, false) :: post) ->
  exists m', plug_backward (total pre) m = Done m' /\ blocks m' (merge (pre ++ (n, false) :: post)) /\
    same_fields m m' /\ (forall x, in_used 0 (pre ++ (n, false) :: post) x -> words m' x = words m x) /\
    dead m' (total pre).
Proof.
  intros Hb Hs Hspost Hf. destruct (blocks_split _ _ _ _ _ Hb) as (Ho & (Hp & _ & Hv) & Hcp & _).
  pose proof Hb as [Hsz [Hsf1 Hsf2] _ _ _].
  assert (merge ((n, false) :: post) = (n, false) :: post) as Hmerge by (apply (merge_id true); done).
  unfold plug_backward, prev. rewrite load_in, Hv by addr. cbn [mbind outcome_bind].
  destruct pre as [|[k v] pre' _] using rev_ind.
  { cbn [total last_off] in *. unfold pool_ptr. rewrite load_in by addr. rewrite Hp. cbn [mbind outcome_bind].
    exists m. rewrite Z.eqb_refl. cbn [negb andb app]. rewrite Hmerge. split_and!; try done. by right. }
  rewrite last_off_app in *. cbn [last_off] in *. rewrite Z.add_0_l in *.
  pose proof Hb as Hb2. rewrite <- app_assoc in Hb2. cbn [app] in Hb2.
  destruct (blocks_split _ _ _ _ _ Hb2) as (Ho2 & (Hp2 & _ & _) & Hcp' & _).
  unfold pool_ptr. rewrite load_in, Hp2 by addr. cbn [mbind outcome_bind].
  rewrite (proj1 (pool_word_bit _ _ Hsf1 Hsf2)). rewrite total_app. cbn [total fst].
  rewrite (proj2 (Z.eqb_neq (total pre') _)) by lia. cbn [negb andb].
  apply spread_app in Hs as [Hs Hs']. destruct v; cbn [negb].
  - exists m. rewrite (merge_app true) by (rewrite ?last_used_app; done || apply spread_app; done).
    rewrite Hmerge. split_and!; try done. right. rewrite total_app in Hp. exact Hp.
  - cbn [spread] in Hs'. destruct Hs' as [Hl _]. rewrite orb_false_r in Hl.
    rewrite Z.add_0_r. replace (lfree m =? total pre' + k) with false.
    2:{ symmetry. apply Z.eqb_neq, Z.lt_neq. rewrite Hf, <- app_assoc. cbn [app].
        eapply Z.le_lt_trans; [apply (first_free_le _ _ _ _ k _ Hcp')|lia]. }
    destruct (merge_blocks _ _ _ _ _ _ _ Hb2) as (m' & Hm & Hsame & Hb' & Hw & Hdead).
    exists m'. split; [done|]. split; [|split; [done|]].
    + rewrite <- app_assoc, (merge_app true) by done. cbn [app].
      change (merge ((k, false) :: (n, false) :: post)) with
        (match merge ((n, false) :: post) with (k', false) :: r => (k + k', false) :: r | r => (k, false) :: r end).
      by rewrite Hmerge.
    + split; [|by left].
      intros x Hx. apply Hw. rewrite <- app_assoc, in_used_app in Hx. cbn in Hx. naive_solver.
Qed.

Lemma plug_holes_ok m pre n post : blocks m (pre ++ (n, false) :: post) -> spread true pre -> spread true post ->
  lfree m = first_free 0 (pre ++ (n, false) :: post) ->
  exists m', plug_holes (total pre) m = Done m' /\ blocks m' (merge (pre ++ (n, false) :: post)) /\
    same_fields m m' /\ (forall x, in_used 0 (pre ++ (n, false) :: post) x -> words m' x = words m x) /\
    dead m' (total pre).
Proof.
  intros Hb Hs Hspost Hf. destruct (blocks_split _ _ _ _ _ Hb) as (Ho & _ & Hcp & _).
  pose proof (first_free_le _ _ _ _ n post Hcp) as Hle. rewrite <- Hf, Z.add_0_l in Hle.
  destruct (plug_forward_ok _ _ _ _ Hb Hspost Hle) as (m1 & He1 & Hb1 & Hsame1 & Hw1).
  unfold plug_holes. rewrite (proj2 (Z.leb_le _ _)), (proj2 (Z.ltb_lt _ _)) by lia.
  cbn [RT_ASSERT mbind outcome_bind]. rewrite He1. cbn [mbind outcome_bind].
  assert (exists n' post', merge ((n, false) :: post) = (n', false) :: post') as (n' & post' & Hm)
    by (cbn; destruct (merge post) as [|[k [|]] r]; eauto).
  pose proof (merge_spread ((n, false) :: post) true (or_introl eq_refl)) as Hsm. rewrite Hm in Hb1, Hsm.
  assert (lfree m1 = first_free 0 (pre ++ (n', false) :: post')) as Hf1.
  { destruct Hsame1 as (_ & _ & -> & _). rewrite Hf, <- Hm, !first_free_app. by rewrite merge_first_free. }
  destruct (plug_backward_ok _ _ _ _ Hb1 Hs (proj2 Hsm) Hf1) as (m2 & He2 & Hb2 & Hsame2 & Hw2 & Hdead).
  assert (forall x, in_used 0 (pre ++ (n, false) :: post) x <-> in_used 0 (pre ++ (n', false) :: post') x) as Hin
    by (intros x; by rewrite !(in_used_app _ pre), <- Hm, merge_in_used).
  assert (merge (pre ++ (n, false) :: post) = merge (pre ++ (n', false) :: post')) as Hmm.
  { rewrite <- Hm. clear. induction pre as [|[k [|]] pre IH]; [|cbn [app merge]; by rewrite IH..].
    symmetry. eapply (merge_id true (merge ((n, false) :: post))), merge_spread. by left. }
  exists m2. split; [done|]. rewrite Hmm. split; [done|]. split.
  - unfold same_fields in *. naive_solver congruence.
  - split; [|done]. intros x Hx. rewrite Hw2, Hw1 by (done || by apply Hin). done.
Qed.

(** Only the headers, the descriptor's address and the size count. *)
Lemma blocks_same m m' bs : self m' = self m -> words m' = words m ->
  mem_size_aligned m' = mem_size_aligned m -> blocks m bs -> blocks m' bs.
Proof.
  intros Hs Hw Hz [? ? ? Hc ?]. assert (heap_end m' = heap_end m) as He by (unfold heap_end; by rewrite Hz).
  split; rewrite ?He, ?Hs, ?Hz, ?Hw; try done. apply (pre_frame m); [done| |done]. intros x _ _. by rewrite Hw.
Qed.

(** [lfree] moves down to a block that becomes free. *)
Lemma lfree_lower m pre n u post : blocks m (pre ++ (n, u) :: post) ->
  let f := first_free 0 (pre ++ (n, true) :: post) in
  (if total pre <? f then total pre else f) = first_free 0 (pre ++ (n, false) :: post).
Proof.
  intros Hb. destruct (blocks_split _ _ _ _ _ Hb) as (Ho & _ & Hcp & Hcpost). cbv zeta.
  rewrite !first_free_app, !Z.add_0_l. cbn [first_free snd fst].
  pose proof (first_free_before _ _ _ _ Hcp) as Hbefore. destruct (forallb snd pre).
  - rewrite (proj2 (Z.ltb_lt _ _)); [done|]. destruct (forallb snd post) eqn:Hall.
    + rewrite <- (app_nil_r post), first_free_app, Hall. cbn. lia.
    + pose proof (first_free_before _ _ _ _ Hcpost Hall). lia.
  - specialize (Hbefore eq_refl). by rewrite (proj2 (Z.ltb_ge _ _)) by lia.
Qed.

(** Freeing the block after [pre]. *)
Lemma free_ok m pre n post : heap_wf m (pre ++ (n, true) :: post) ->
  exists m', rt_smem_free (Some (total pre + SIZEOF_STRUCT_MEM)) m = Done m' /\
    heap_wf m' (merge (pre ++ (n, false) :: post)) /\ mem_size_aligned m' = mem_size_aligned m /\
    (forall x, in_used 0 (pre ++ (n, false) :: post) x -> words m' x = words m x) /\ dead m' (total pre).
Proof.
  intros [Hb Hf Hu Hs]. pose proof (blocks_split _ _ _ _ _ Hb) as (Ho & (Hp & _ & _) & Hcp & Hcpost).
  destruct (next_pool _ _ _ _ _ Hb) as (Hnext & Hpool & _). pose proof Hb as [Hsz [Hsf1 Hsf2] _ _ _].
  destruct (pool_word_bit _ true Hsf1 Hsf2) as [Hbit Hself].
  unfold rt_smem_free. change SIZEOF_STRUCT_MEM with 16.
  rewrite (proj2 (Z.eqb_eq _ 0)) by (change RT_ALIGN_SIZE with 8; lia).
  replace (total pre + 16 - 16) with (total pre) by lia. cbn [RT_ASSERT mbind outcome_bind].
  assert (pool_ptr m (total pre) = Done (pool_word (self m) true)) as -> by (unfold pool_ptr; rewrite load_in, Hp by addr; done).
  cbn [mbind outcome_bind]. rewrite Hself, Hbit, (proj2 (Z.eqb_neq (self m) 0)), Z.eqb_refl by lia. cbn [negb RT_ASSERT mbind outcome_bind].
  rewrite (proj2 (Z.leb_le 0 _)), (proj2 (Z.ltb_lt _ _)) by lia. cbn [andb RT_ASSERT mbind outcome_bind].
  rewrite Hnext. cbn [mbind outcome_bind]. rewrite Hpool. cbn [mbind outcome_bind].
  rewrite (proj2 (pool_word_bit _ _ Hsf1 Hsf2)), Z.eqb_refl. cbn [RT_ASSERT mbind outcome_bind].
  destruct (mem_used_word m Hsf1 Hsf2) as [_ ->].
  destruct (set_pool_blocks _ _ _ _ false _ Hb) as (m1 & He1 & (Hs1 & Hz1 & Hf1 & Hu1 & Hx1) & Hb1 & Hw1).
  rewrite He1. cbn [mbind outcome_bind]. set (m2 := set_used _ _).
  assert (self m2 = self m /\ words m2 = words m1 /\ mem_size_aligned m2 = mem_size_aligned m /\
    lfree m2 = (if total pre <? lfree m then total pre else lfree m) /\ m_used m2 = u32 (m_used m - n))
    as (Hs2 & Hw2 & Hz2 & Hf2 & Hu2).
  { subst m2. replace (total pre + n - total pre) with n by lia. rewrite Hf1.
    destruct (total pre <? lfree m); cbn; by rewrite Hs1, Hz1, Hu1. }
  clearbody m2. apply spread_app in Hs as [Hspre Hspost]. cbn in Hspost. destruct Hspost as [_ Hspost].
  assert (lfree m2 = first_free 0 (pre ++ (n, false) :: post)) as Hf2'
    by (rewrite Hf2, Hf; exact (lfree_lower _ _ _ _ _ Hb)).
  assert (blocks m2 (pre ++ (n, false) :: post)) as Hb2.
  { apply (blocks_same m1); [by rewrite Hs1|done|by rewrite Hz1|done]. }
  destruct (plug_holes_ok m2 pre n post Hb2 Hspre Hspost Hf2') as (m' & He & Hb' & (Hs' & Hz' & Hf' & Hu' & Hx') & Hw' & Hdead).
  exists m'. split; [done|]. split; [|split; [|split; [|done]]].
  - split; [done| | |by apply merge_spread; left].
    + by rewrite Hf', merge_first_free.
    + rewrite Hu', merge_used, Hu2, Hu, !used_total_app. cbn.
      pose proof (used_total_range _ _ _ _ Hcp). pose proof (used_total_range _ _ _ _ Hcpost). rewrite u32_id; cint.
  - by rewrite Hz', Hz2.
  - intros x Hx. rewrite Hw', Hw2, Hw1; [done| |done].
    intros ->. rewrite in_used_app in Hx. cbn in Hx. destruct Hx as [Hx|[[? _]|Hx]]; [|done|].
    + apply (in_used_range _ _ _ _ _ Hcp) in Hx. addr.
    + apply (in_used_range _ _ _ _ _ Hcpost) in Hx. addr.
Qed.

(** *** Allocating *)

Fixpoint first_fit size o bs : option Z :=
  match bs with
  | [] => None
  | b :: bs => if negb b.2 && (size + SIZEOF_STRUCT_MEM <=? b.1) then Some o else first_fit size (o + b.1) bs
  end.
Definition fits size (b : block) : bool := negb b.2 && (size + SIZEOF_STRUCT_MEM <=? b.1).

Lemma first_fit_Some size o bs q : first_fit size o bs = Some q ->
  exists pre n post, bs = pre ++ (n, false) :: post /\ q = o + total pre /\ size + SIZEOF_STRUCT_MEM <= n /\
    forallb (fun b => negb (fits size b)) pre = true.
Proof.
  revert o. induction bs as [|[n u] bs IH]; intros o; cbn [first_fit fst snd]; [done|].
  destruct (negb u && (size + SIZEOF_STRUCT_MEM <=? n)) eqn:Hfit.
  - intros [= <-]. apply andb_true_iff in Hfit as [Hu Hn%Z.leb_le]. destruct u; [done|].
    exists [], n, bs. cbn. split_and!; try done. lia.
  - intros (pre & n' & post & -> & -> & Hn & Hpre)%IH. exists ((n, u) :: pre), n', post.
    cbn [app total forallb fst]. unfold fits at 1. cbn [fst snd]. rewrite Hfit, Hpre. split_and!; try done. lia.
Qed.
Lemma first_fit_None size o bs : first_fit size o bs = None -> forallb (fun b => negb (fits size b)) bs = true.
Proof.
  revert o. induction bs as [|b bs IH]; intros o; cbn [first_fit forallb]; [done|]. unfold fits at 1.
  destruct (negb b.2 && _); [done|]. intros H. by rewrite (IH _ H).
Qed.
Lemma first_fit_bound m p o bs size q : chain m p o bs -> first_fit size o bs = Some q ->
  q + size + SIZEOF_STRUCT_MEM <= o + total bs.
Proof.
  intros Hc (pre & n & post & -> & -> & Hn & _)%first_fit_Some. rewrite total_app. cbn [total fst].
  apply chain_app in Hc as [Hpre Hc]. apply chain_sizes in Hpre. cbn [chain] in Hc. destruct Hc as (_ & _ & _ & Hc).
  apply chain_sizes in Hc. lia.
Qed.

Lemma alloc_loop_ok m size fuel pre bs : blocks m (pre ++ bs) -> 16 <= size <= mem_size_aligned m ->
  (length bs < fuel)%nat -> alloc_loop fuel m size (total pre) = Done (first_fit size (total pre) bs).
Proof.
  revert pre bs. induction fuel as [|fuel IH]; intros pre bs Hb Hs Hl; [lia|]. cbn [alloc_loop].
  pose proof Hb as [Hsz [Hsf1 Hsf2] Ht Hc _]. rewrite u32_id by size.
  apply chain_app in Hc as [_ Hc]. rewrite Z.add_0_l in Hc. rewrite total_app in Ht.
  destruct (Z.leb_spec (total pre) (mem_size_aligned m - size)) as [Hle|Hgt].
  - destruct bs as [|[n u] bs]; [cbn in Ht; addr|].
    destruct (next_pool _ _ _ _ _ Hb) as (-> & _). destruct (blocks_split _ _ _ _ _ Hb) as (Ho & (Hp & _ & _) & _).
    unfold pool_ptr. rewrite load_in, Hp by addr. cbn [mbind outcome_bind first_fit fst snd].
    rewrite (proj1 (pool_word_bit _ _ Hsf1 Hsf2)). rewrite u32_id by size.
    replace (total pre + n - (total pre + SIZEOF_STRUCT_MEM)) with (n - SIZEOF_STRUCT_MEM) by lia.
    assert ((size <=? n - SIZEOF_STRUCT_MEM) = (size + SIZEOF_STRUCT_MEM <=? n)) as ->
      by (destruct (Z.leb_spec size (n - SIZEOF_STRUCT_MEM)), (Z.leb_spec (size + SIZEOF_STRUCT_MEM) n); lia).
    destruct (negb u && _); [done|]. replace (total pre + n) with (total (pre ++ [(n, u)])) by (rewrite total_app; cbn; lia).
    apply IH; [by rewrite <- app_assoc|done|cbn in Hl; lia].
  - destruct (first_fit size (total pre) bs) eqn:Hfit; [|done].
    pose proof (first_fit_Some _ _ _ _ Hfit) as (pre' & n & post & -> & -> & _).
    pose proof (first_fit_bound _ _ _ _ _ _ Hc Hfit). apply chain_app in Hc as [Hc _]. apply chain_sizes in Hc. addr.
Qed.

Lemma lfree_loop_ok m fuel pre bs : blocks m (pre ++ bs) -> (length bs < fuel)%nat ->
  let o := first_free (total pre) bs in
  lfree_loop fuel m (total pre) = Done o /\
  exists w, pool_ptr m o = Done w /\ (o =? heap_end m) || negb (MEM_ISUSED w) = true.
Proof.
  cbn. revert pre bs. induction fuel as [|fuel IH]; intros pre bs Hb Hl; [lia|]. cbn [lfree_loop].
  pose proof Hb as [Hsz [Hsf1 Hsf2] Ht _ [He _]].
  destruct bs as [|[n u] bs].
  - rewrite total_app in Ht. cbn in Ht. replace (total pre) with (heap_end m) by lia.
    unfold pool_ptr. cbn [first_free]. rewrite load_in, He by addr. cbn [mbind outcome_bind].
    rewrite Z.eqb_refl, andb_false_r. eauto.
  - destruct (next_pool _ _ _ _ _ Hb) as (-> & _). destruct (blocks_split _ _ _ _ _ Hb) as (Ho & (Hp & _ & _) & _).
    unfold pool_ptr at 1. rewrite load_in, Hp by addr. cbn [mbind outcome_bind first_free fst snd].
    rewrite (proj1 (pool_word_bit _ _ Hsf1 Hsf2)), (proj2 (Z.eqb_neq _ _)) by lia. destruct u; cbn [andb negb].
    + replace (total pre + n) with (total (pre ++ [(n, true)])) by (rewrite total_app; cbn; lia).
      apply IH; [by rewrite <- app_assoc|cbn in Hl; lia].
    + split; [done|]. exists (pool_word (self m) false). unfold pool_ptr. rewrite load_in, Hp by addr.
      split; [done|]. rewrite (proj1 (pool_word_bit _ _ Hsf1 Hsf2)). apply orb_true_r.
Qed.

(** [lfree] points behind used blocks only. *)
Lemma first_free_split o bs : exists pre bs', bs = pre ++ bs' /\ forallb snd pre = true /\ first_free o bs = o + total pre /\
  forall size, first_fit size o bs = first_fit size (o + total pre) bs'.
Proof.
  revert o. induction bs as [|[n [|]] bs IH]; intros o; cbn [first_free fst snd].
  - exists [], []. cbn. rewrite Z.add_0_r. done.
  - destruct (IH (o + n)) as (pre & bs' & -> & Hpre & -> & Hfit). exists ((n, true) :: pre), bs'.
    cbn [app forallb total fst]. split_and!; [done|done|lia|]. intros size. cbn. rewrite Hfit. f_equal. lia.
  - exists [], ((n, false) :: bs). cbn [total]. rewrite Z.add_0_r. done.
Qed.
Lemma blocks_fuel m pre bs : blocks m (pre ++ bs) -> (length bs < FUEL m)%nat.
Proof.
  intros [_ _ Ht Hc _]. apply chain_sizes in Hc. rewrite length_app in Hc. unfold FUEL. lia.
Qed.

(** What a request is rounded to; what becomes of the block of [n] bytes found for it. *)
Definition payload size : Z :=
  let size := RT_ALIGN size RT_ALIGN_SIZE in if size <? MIN_SIZE_ALIGNED then MIN_SIZE_ALIGNED else size.
Definition kept size n : Z := if size + 48 <=? n then SIZEOF_STRUCT_MEM + size else n.
Definition rest size n : list block := if size + 48 <=? n then [(n - SIZEOF_STRUCT_MEM - size, false)] else [].

Lemma RT_ALIGN_value size : RT_ALIGN size RT_ALIGN_SIZE = u32 (size + 7) / 8 * 8.
Proof.
  unfold RT_ALIGN. change RT_ALIGN_SIZE with 8. replace (size + 8 - 1) with (size + 7) by lia.
  change (u32 (Z.lnot (8 - 1))) with (Z.land (Z.ones 32) (Z.lnot (Z.ones 3))).
  rewrite Z.land_assoc, <- Z.ldiff_land, Z.land_ones by lia.
  rewrite Z.ldiff_ones_r, Z.shiftl_mul_pow2, Z.shiftr_div_pow2 by lia. cint.
Qed.
Lemma payload_range size : 16 <= payload size < 2 ^ 32 /\ payload size mod 8 = 0.
Proof.
  unfold payload. rewrite RT_ALIGN_value. change MIN_SIZE_ALIGNED with 16.
  destruct (Z.ltb_spec (u32 (size + 7) / 8 * 8) 16); cint.
Qed.
Lemma spread_after u bs : spread u bs -> spread true bs.
Proof. destruct bs; cbn; tauto. Qed.

(** The two ways to take it. *)
Lemma take_blocks m pre n post size : blocks m (pre ++ (n, false) :: post) -> 0 < size -> size mod 8 = 0 ->
  size + SIZEOF_STRUCT_MEM <= n -> 0 <= m_used m <= heap_end m - n ->
  let o := total pre in
  exists m',
    (if size + SIZEOF_STRUCT_MEM + MIN_SIZE_ALIGNED <=? u32 (o + n - (o + SIZEOF_STRUCT_MEM)) then
       m ← split_block o size m;
       Done (update_max (set_used (m_used m + (size + SIZEOF_STRUCT_MEM)) m))
     else Done (update_max (set_used (m_used m + (o + n - o)) m))) = Done m' /\
    blocks m' (pre ++ (kept size n, false) :: rest size n ++ post) /\
    self m' = self m /\ mem_size_aligned m' = mem_size_aligned m /\ lfree m' = lfree m /\
    m_used m' = m_used m + kept size n /\
    forall x, in_used 0 (pre ++ (n, false) :: post) x -> words m' x = words m x.
Proof.
  intros Hb Hs Hm Hfit Hu. cbv zeta. destruct (blocks_split _ _ _ _ _ Hb) as (Ho & _). pose proof Hb as [Hsz _ _ _ _].
  replace (total pre + n - (total pre + SIZEOF_STRUCT_MEM)) with (n - 16) by (change SIZEOF_STRUCT_MEM with 16; lia).
  change MIN_SIZE_ALIGNED with 16. rewrite u32_id by size.
  assert ((size + SIZEOF_STRUCT_MEM + 16 <=? n - 16) = (size + 48 <=? n)) as ->.
  { change SIZEOF_STRUCT_MEM with 16. destruct (Z.leb_spec (size + 16 + 16) (n - 16)), (Z.leb_spec (size + 48) n); lia. }
  unfold kept, rest. destruct (Z.leb_spec (size + 48) n) as [Hle|Hgt].
  - destruct (split_blocks _ _ _ _ _ size Hb Hs Hm) as (m' & -> & (Hself & Hz & Hl & Hu' & _) & Hb' & Hw); [lia|].
    cbn [mbind outcome_bind]. eexists. split; [done|]. split.
    + apply (blocks_same m'); done.
    + cbn [update_max set_used self mem_size_aligned lfree m_used words]. split_and!; [done..|rewrite Hu'; rewrite u32_id; [lia|size]|].
      intros x Hx. apply Hw. rewrite in_used_app in Hx. cbn in Hx. naive_solver.
  - eexists. split; [done|]. split; [by apply (blocks_same m)|].
    cbn [update_max set_used self mem_size_aligned lfree m_used words]. split_and!; [done..|rewrite u32_id; [lia|size]|done].
Qed.

(** The block found becomes used, and [lfree] moves on when it was the first. *)
Lemma take_lfree m pre n post : blocks m (pre ++ (n, false) :: post) -> lfree m = first_free 0 (pre ++ (n, false) :: post) ->
  exists m',
    (m ← set_pool_ptr (total pre) (MEM_USED m) m;
     if total pre =? lfree m then
       o ← lfree_loop (FUEL m) m (lfree m);
       w ← pool_ptr m o;
       _ ← RT_ASSERT ((o =? heap_end m) || negb (MEM_ISUSED w));
       Done (set_lfree o m)
     else Done m) = Done m' /\
    blocks m' (pre ++ (n, true) :: post) /\ lfree m' = first_free 0 (pre ++ (n, true) :: post) /\
    mem_size_aligned m' = mem_size_aligned m /\ m_used m' = m_used m /\
    forall x, x <> total pre -> words m' x = words m x.
Proof.
  intros Hb Hf. destruct (blocks_split _ _ _ _ _ Hb) as (Ho & _ & Hcp & _). pose proof Hb as [_ [Hsf1 Hsf2] _ _ _].
  rewrite (proj1 (mem_used_word m Hsf1 Hsf2)).
  destruct (set_pool_blocks _ _ _ _ true _ Hb) as (m1 & -> & (_ & Hz & Hl & Hu & _) & Hb1 & Hw).
  cbn [mbind outcome_bind]. rewrite Hl, Hf, !first_free_app, !Z.add_0_l. cbn [first_free fst snd].
  pose proof (first_free_before _ _ _ _ Hcp) as Hbefore. destruct (forallb snd pre) eqn:Hall.
  - rewrite Z.eqb_refl. destruct (lfree_loop_ok m1 (FUEL m1) pre ((n, true) :: post) Hb1) as (-> & w & Hp & Ha).
    { exact (blocks_fuel _ _ _ Hb1). }
    cbn [mbind outcome_bind]. rewrite Hp. cbn [mbind outcome_bind]. rewrite Ha. eexists. split; [done|].
    split; [by apply (blocks_same m1)|done].
  - specialize (Hbefore eq_refl). rewrite (proj2 (Z.eqb_neq (total pre) _)) by lia.
    exists m1. rewrite Hl, Hf, first_free_app, Hall. done.
Qed.

Lemma alloc_ok m bs size : heap_wf m bs -> 0 < size < 2 ^ 32 ->
  let sz := payload size in
  match first_fit sz 0 bs with
  | None => rt_smem_alloc size m = Done (m, None)
  | Some o => exists pre n post m', bs = pre ++ (n, false) :: post /\ o = total pre /\ sz + SIZEOF_STRUCT_MEM <= n /\
      forallb (fun b => negb (fits sz b)) pre = true /\
      rt_smem_alloc size m = Done (m', Some (o + SIZEOF_STRUCT_MEM)) /\
      heap_wf m' (pre ++ (kept sz n, true) :: rest sz n ++ post) /\ mem_size_aligned m' = mem_size_aligned m /\
      forall x, in_used 0 bs x -> words m' x = words m x
  end.
Proof.
  intros [Hb Hf Hu Hsp] Hsize. cbv zeta. pose proof (payload_range size) as [Hsz Hm].
  unfold rt_smem_alloc. rewrite (proj2 (Z.eqb_neq size 0)) by lia. fold (payload size).
  set (sz := payload size) in *. clearbody sz. pose proof Hb as [Hmem _ Ht Hc _].
  destruct (Z.ltb_spec (mem_size_aligned m) sz) as [Hbig|Hfits].
  { destruct (first_fit sz 0 bs) eqn:Hfit; [|done]. pose proof (first_fit_bound _ _ _ _ _ _ Hc Hfit).
    apply first_fit_Some in Hfit as (pre & n & post & -> & -> & _). apply chain_app in Hc as [Hc _]. apply chain_sizes in Hc. size. }
  destruct (first_free_split 0 bs) as (pre0 & bs' & -> & Hpre0 & Hff & Hfit). rewrite Z.add_0_l in *.
  rewrite Hf, Hff, (alloc_loop_ok m sz _ pre0 bs') by (try exact (blocks_fuel _ _ _ Hb); done || lia).
  rewrite <- Hfit. cbn [mbind outcome_bind]. clear Hff Hfit Hpre0.
  destruct (first_fit sz 0 (pre0 ++ bs')) as [o|] eqn:Hfit; [|done].
  apply first_fit_Some in Hfit as (pre & n & post & Hbs & -> & Hn & Hnofit). rewrite Z.add_0_l, Hbs in *. clear Hbs pre0 bs'.
  destruct (blocks_split _ _ _ _ _ Hb) as (Ho & _ & Hcp & Hcpost). destruct (next_pool _ _ _ _ _ Hb) as (-> & _).
  pose proof (used_total_range _ _ _ _ Hcp). pose proof (used_total_range _ _ _ _ Hcpost).
  rewrite used_total_app in Hu. cbn [used_total snd fst] in Hu. cbn [mbind outcome_bind].
  destruct (take_blocks m pre n post sz Hb) as (m1 & -> & Hb1 & _ & Hz1 & Hl1 & Hu1 & Hw1); try lia.
  cbn [mbind outcome_bind]. destruct (take_lfree m1 _ _ _ Hb1) as (m2 & Htake & Hb2 & Hl2 & Hz2 & Hu2 & Hw2).
  { rewrite Hl1, Hf, !first_free_app. done. }
  exists pre, n, post, m2. do 4 (split; [done|]).
  assert (forall x, in_used 0 (pre ++ (n, false) :: post) x -> words m2 x = words m x) as Hw.
  { intros x Hx. rewrite Hw2, Hw1; [done|done|]. intros ->. rewrite in_used_app in Hx. cbn in Hx.
    destruct Hx as [Hx|[[? _]|Hx]]; [|done|].
    - apply (in_used_range _ _ _ _ _ Hcp) in Hx. addr.
    - apply (in_used_range _ _ _ _ _ Hcpost) in Hx. addr. }
  assert (heap_wf m2 (pre ++ (kept sz n, true) :: rest sz n ++ post)) as Hwf.
  { apply spread_app in Hsp as [Hsp1 Hsp2]. cbn in Hsp2. destruct Hsp2 as [Hsp2 Hsp3].
    split; [done|done| |].
    - rewrite Hu2, Hu1, Hu, !used_total_app. cbn. rewrite used_total_app. unfold rest.
      destruct (_ <=? _); cbn; lia.
    - apply spread_app. split; [done|]. cbn. split; [by rewrite orb_true_r|]. unfold rest.
      destruct (_ <=? _); cbn; [done|]. by apply spread_after in Hsp3. }
  split; [|split; [done|split; [by rewrite Hz2|done]]].
  apply outcome_bind_Done in Htake as (m1' & -> & Htake). cbn [mbind outcome_bind]. rewrite Htake. cbn [mbind outcome_bind].
  assert (heap_end m2 = heap_end m) as -> by (unfold heap_end; by rewrite Hz2, Hz1).
  rewrite (proj2 (Z.leb_le _ _)), (proj2 (Z.eqb_eq _ 0)) by (change RT_ALIGN_SIZE with 8; lia). done.
Qed.
