(* ===== verification/SmemClients.v ===== *)
(** * The heap as its clients see it

    [rt_malloc], [rt_free] and [rt_realloc] over [Smem]: used blocks by address, the
    functions' contracts in terms of them, and clients that make any sequence of
    requests and write to what they own. *)
From S2P Require Import Prelude Smem.
#[local] Open Scope Z_scope.
Implicit Types (m : rt_small_mem) (bs pre post : list block) (o p n x : Z) (u : bool).

(** ** Used blocks

    The used blocks by the address of their payload, with their size. *)
Fixpoint block_at o bs p : option Z :=
  match bs with
  | [] => None
  | b :: bs => if b.2 && (p =? o + SIZEOF_STRUCT_MEM) then Some b.1 else block_at (o + b.1) bs p
  end.

Lemma block_at_app o bs bs' p :
  block_at o (bs ++ bs') p = match block_at o bs p with Some n => Some n | None => block_at (o + total bs) bs' p end.
Proof.
  revert o. induction bs as [|b bs IH]; intros o; cbn [block_at app total]; [by rewrite Z.add_0_r|].
  destruct (b.2 && _); [done|]. by rewrite IH, Z.add_assoc.
Qed.
Lemma block_at_merge o bs p : block_at o (merge bs) p = block_at o bs p.
Proof.
  revert o. induction bs as [|[n [|]] bs IH]; intros o; cbn; [done|by rewrite IH|].
  rewrite <- IH. destruct (merge bs) as [|[k [|]] r]; cbn; [done..|]. by rewrite Z.add_assoc.
Qed.
Lemma block_at_split o bs p n : block_at o bs p = Some n ->
  exists pre post, bs = pre ++ (n, true) :: post /\ p = o + total pre + SIZEOF_STRUCT_MEM.
Proof.
  revert o. induction bs as [|[k u] bs IH]; intros o; cbn [block_at fst snd]; [done|].
  destruct (u && (p =? o + SIZEOF_STRUCT_MEM)) eqn:Hp.
  - intros [= <-]. apply andb_true_iff in Hp as [Hu Hp%Z.eqb_eq]. destruct u; [|done]. exists [], bs. cbn. split; [done|lia].
  - intros (pre & post & -> & ->)%IH. exists ((k, u) :: pre), post. cbn. split; [done|lia].
Qed.
Lemma block_at_range m q o bs p n : chain m q o bs -> block_at o bs p = Some n ->
  o + SIZEOF_STRUCT_MEM <= p /\ 24 <= n /\ p - SIZEOF_STRUCT_MEM + n <= o + total bs /\ (p - o) mod 8 = 0 /\ n mod 8 = 0.
Proof.
  intros Hc (pre & post & -> & ->)%block_at_split. apply chain_app in Hc as [Hpre Hc]. apply chain_sizes in Hpre.
  cbn [chain fst snd] in Hc. destruct Hc as (_ & Hn & Hm & Hc). apply chain_sizes in Hc. rewrite total_app. cbn [total fst].
  change SIZEOF_STRUCT_MEM with 16. lia.
Qed.
Lemma block_at_in_used o bs p n x : block_at o bs p = Some n -> p <= x < p - SIZEOF_STRUCT_MEM + n -> in_used o bs x.
Proof.
  intros (pre & post & -> & ->)%block_at_split Hx. rewrite in_used_app. cbn [in_used fst snd]. right; left. split; [done|lia].
Qed.
(** Exactly one block has an address. *)
Lemma block_at_pre m pre n u post x : blocks m (pre ++ (n, u) :: post) ->
  block_at 0 (pre ++ (n, u) :: post) x =
    if x =? total pre + SIZEOF_STRUCT_MEM then (if u then Some n else None)
    else match block_at 0 pre x with Some k => Some k | None => block_at (total pre + n) post x end.
Proof.
  intros Hb. destruct (blocks_split _ _ _ _ _ Hb) as (Ho & _ & Hcp & Hcpost).
  rewrite block_at_app, Z.add_0_l. cbn [block_at fst snd].
  destruct (Z.eqb_spec x (total pre + SIZEOF_STRUCT_MEM)) as [->|Hne]; [|by rewrite andb_false_r].
  rewrite andb_true_r. destruct (block_at 0 pre _) eqn:Hpre.
  { apply (block_at_range _ _ _ _ _ _ Hcp) in Hpre. change SIZEOF_STRUCT_MEM with 16 in *. lia. }
  destruct u; [done|]. destruct (block_at _ post _) eqn:Hpost; [|done].
  apply (block_at_range _ _ _ _ _ _ Hcpost) in Hpost. change SIZEOF_STRUCT_MEM with 16 in *. lia.
Qed.
Lemma block_at_far m bs p n q k : blocks m bs -> block_at 0 bs p = Some n -> block_at 0 bs q = Some k ->
  p < q -> p + n <= q.
Proof.
  intros Hb (pre & post & -> & ->)%block_at_split Hq Hlt. destruct (blocks_split _ _ _ _ _ Hb) as (Ho & _ & Hcp & Hcpost).
  rewrite (block_at_pre _ _ _ _ _ _ Hb) in Hq. rewrite Z.add_0_l in *.
  rewrite (proj2 (Z.eqb_neq q _)) in Hq by lia. destruct (block_at 0 pre q) eqn:Hpre.
  - apply (block_at_range _ _ _ _ _ _ Hcp) in Hpre. change SIZEOF_STRUCT_MEM with 16 in *. lia.
  - apply (block_at_range _ _ _ _ _ _ Hcpost) in Hq. change SIZEOF_STRUCT_MEM with 16 in *. lia.
Qed.

(** The payloads of the blocks of [bs] hold in [m'] what they hold in [m]. *)
Definition keeps bs m m' : Prop :=
  mem_size_aligned m' = mem_size_aligned m /\ forall x, in_used 0 bs x -> words m' x = words m x.

Lemma free_spec m bs p n : heap_wf m bs -> block_at 0 bs p = Some n ->
  exists m' bs', rt_smem_free (Some p) m = Done m' /\ heap_wf m' bs' /\ keeps bs' m m' /\
    forall q, block_at 0 bs' q = if q =? p then None else block_at 0 bs q.
Proof.
  intros Hwf Hp. apply block_at_split in Hp as (pre & post & -> & ->). rewrite Z.add_0_l.
  destruct (free_ok _ _ _ _ Hwf) as (m' & He & Hwf' & Hz & Hw & _). exists m', (merge (pre ++ (n, false) :: post)).
  split; [done|]. split; [done|]. split; [split; [done|]|].
  - intros x Hx. apply Hw. by apply merge_in_used.
  - intros q. rewrite block_at_merge. destruct Hwf as [Hb _ _ _].
    rewrite (block_at_pre _ _ _ _ _ _ Hb), block_at_app. cbn [block_at fst snd andb]. rewrite Z.add_0_l.
    destruct (Z.eqb_spec q (total pre + SIZEOF_STRUCT_MEM)) as [->|]; [|done].
    destruct (blocks_split _ _ _ _ _ Hb) as (Ho & _ & Hcp & Hcpost). change SIZEOF_STRUCT_MEM with 16.
    destruct (block_at 0 pre _) eqn:Hpre.
    + apply (block_at_range _ _ _ _ _ _ Hcp) in Hpre. change SIZEOF_STRUCT_MEM with 16 in *. lia.
    + destruct (block_at _ post _) eqn:Hpost; [|done].
      apply (block_at_range _ _ _ _ _ _ Hcpost) in Hpost. change SIZEOF_STRUCT_MEM with 16 in *. lia.
Qed.

Lemma alloc_spec m bs size : heap_wf m bs -> 0 < size < 2 ^ 32 ->
  exists m' r bs', rt_smem_alloc size m = Done (m', r) /\ heap_wf m' bs' /\ keeps bs m m' /\
    match r with
    | None => m' = m /\ bs' = bs /\ forallb (fun b => negb (fits (payload size) b)) bs = true
    | Some p => exists n, payload size + SIZEOF_STRUCT_MEM <= n /\ block_at 0 bs p = None /\
        forall q, block_at 0 bs' q = if q =? p then Some n else block_at 0 bs q
    end.
Proof.
  intros Hwf Hs. pose proof (alloc_ok _ _ _ Hwf Hs) as H. cbv zeta in H. set (sz := payload size) in *.
  destruct (first_fit sz 0 bs) as [o|] eqn:Hfit.
  - destruct H as (pre & n & post & m' & -> & -> & Hn & _ & He & Hwf' & Hz & Hw).
    exists m', (Some (total pre + SIZEOF_STRUCT_MEM)), (pre ++ (kept sz n, true) :: rest sz n ++ post).
    split; [done|]. split; [done|]. split; [done|]. exists (kept sz n). split; [unfold kept; destruct (_ <=? _); lia|].
    pose proof (hw_blocks _ _ Hwf) as Hb. pose proof (hw_blocks _ _ Hwf') as Hb'.
    split; [by rewrite (block_at_pre _ _ _ _ _ _ Hb), Z.eqb_refl|].
    intros q. rewrite (block_at_pre _ _ _ _ _ _ Hb), (block_at_pre _ _ _ _ _ _ Hb').
    destruct (q =? _); [done|]. destruct (block_at 0 pre q); [done|]. unfold kept, rest.
    destruct (_ <=? _); cbn [app block_at fst snd andb]; [|done]. f_equal. lia.
  - exists m, None, bs. split_and!; try done. by apply first_fit_None in Hfit.
Qed.

(** A client writes to its own block. *)
Lemma write_ok m bs x v : heap_wf m bs -> in_used 0 bs x -> x mod 4 = 0 -> is_u32 v ->
  store x v m = Done (put_word x v m) /\ heap_wf (put_word x v m) bs.
Proof.
  intros [Hb Hf Hu Hs] Hx H4 Hv. pose proof Hb as [Hsz Hsf Ht Hc He]. pose proof (in_used_range _ _ _ _ _ Hc Hx).
  split; [apply store_in; [addr|done]|]. split; [|done..]. split; [done..| |].
  - apply (pre_frame m); [done| |done]. intros y _ Hy. apply word_ne. by intros ->.
  - change (heap_end (put_word x v m)) with (heap_end m). rewrite !word_ne by addr. done.
Qed.
Definition word_at m x : Z := u32 (words m x).

Lemma copy_ok bs (n : nat) src dst m : heap_wf m bs ->
  (forall i, 0 <= i < 4 * Z.of_nat n -> in_used 0 bs (src + i) /\ in_used 0 bs (dst + i)) ->
  src mod 4 = 0 -> dst mod 4 = 0 -> (src + 4 * Z.of_nat n <= dst \/ dst + 4 * Z.of_nat n <= src) ->
  exists m', copy_words n src dst m = Done m' /\ heap_wf m' bs /\ mem_size_aligned m' = mem_size_aligned m /\
    (forall i, 0 <= i < Z.of_nat n -> word_at m' (dst + 4 * i) = word_at m (src + 4 * i)) /\
    forall x, x < dst \/ dst + 4 * Z.of_nat n <= x -> words m' x = words m x.
Proof.
  revert src dst m. induction n as [|n IH]; intros src dst m Hwf Hin Hs Hd Hdis; cbn [copy_words].
  { exists m. split_and!; try done. intros. lia. }
  pose proof (hw_blocks _ _ Hwf) as [Hsz _ Ht Hc _]. destruct (Hin 0 ltac:(lia)) as [Hsrc Hdst]. rewrite Z.add_0_r in *.
  pose proof (in_used_range _ _ _ _ _ Hc Hsrc). rewrite load_in by addr. cbn [mbind outcome_bind].
  set (v := u32 (words m src)). assert (store dst (words m src) m = store dst v m) as ->.
  { unfold store. destruct (decide _); [|done]. by rewrite (u32_id v) by apply u32_range. }
  destruct (write_ok m bs dst v Hwf Hdst Hd (u32_range _)) as [-> Hwf1]. cbn [mbind outcome_bind].
  destruct (IH (src + 4) (dst + 4) _ Hwf1) as (m' & He & Hwf' & Hz & Hcp & Hrest); try lia.
  { intros i Hi. replace (src + 4 + i) with (src + (4 + i)) by lia. replace (dst + 4 + i) with (dst + (4 + i)) by lia.
    apply Hin. lia. }
  exists m'. split; [done|]. split; [done|]. split; [done|]. split.
  - intros i Hi. destruct (Z.eqb_spec i 0) as [->|].
    + unfold word_at. rewrite Z.mul_0_r, !Z.add_0_r, Hrest by lia. rewrite word_eq. apply u32_id, u32_range.
    + replace (dst + 4 * i) with (dst + 4 + 4 * (i - 1)) by lia. rewrite Hcp by lia.
      unfold word_at. rewrite word_ne by lia. do 2 f_equal. lia.
  - intros x Hx. rewrite Hrest by lia. apply word_ne. lia.
Qed.

(** Realloc within the block: the tail becomes a free block. *)
Lemma shrink_ok m pre n post a : heap_wf m (pre ++ (n, true) :: post) -> 0 < a -> a mod 8 = 0 -> 40 + a <= n ->
  let o := total pre in
  exists m',
    (m ← split_block o a (set_used (m_used m - (n - SIZEOF_STRUCT_MEM - a)) m);
     let m := if o + SIZEOF_STRUCT_MEM + a <? lfree m then set_lfree (o + SIZEOF_STRUCT_MEM + a) m else m in
     plug_holes (o + SIZEOF_STRUCT_MEM + a) m) = Done m' /\
    heap_wf m' (merge (pre ++ (SIZEOF_STRUCT_MEM + a, true) :: (n - SIZEOF_STRUCT_MEM - a, false) :: post)) /\
    mem_size_aligned m' = mem_size_aligned m /\
    forall x, in_used 0 pre x \/ in_used (o + n) post x \/ o + SIZEOF_STRUCT_MEM <= x < o + SIZEOF_STRUCT_MEM + a ->
      words m' x = words m x.
Proof.
  intros [Hb Hf Hu Hs] Ha Hm Hn. cbv zeta. pose proof (blocks_split _ _ _ _ _ Hb) as (Ho & _ & Hcp & Hcpost).
  set (m0 := set_used _ m). assert (blocks m0 (pre ++ (n, true) :: post)) as Hb0 by (by apply (blocks_same m)).
  destruct (split_blocks _ _ _ _ _ a Hb0 Ha Hm Hn) as (m1 & -> & (_ & Hz1 & Hl1 & Hu1 & _) & Hb1 & Hw1). cbn [mbind outcome_bind].
  set (pre' := pre ++ [(SIZEOF_STRUCT_MEM + a, true)]). set (n' := n - SIZEOF_STRUCT_MEM - a) in *.
  assert (pre ++ (SIZEOF_STRUCT_MEM + a, true) :: (n', false) :: post = pre' ++ (n', false) :: post) as Happ
    by (subst pre'; by rewrite <- app_assoc). rewrite Happ in *.
  assert (total pre + SIZEOF_STRUCT_MEM + a = total pre') as Hpre' by (subst pre'; rewrite total_app; cbn; lia).
  rewrite Hpre'. set (m2 := if _ <? _ then _ else m1).
  assert (words m2 = words m1 /\ self m2 = self m1 /\ mem_size_aligned m2 = mem_size_aligned m1 /\ m_used m2 = m_used m1 /\
    lfree m2 = (if total pre' <? lfree m1 then total pre' else lfree m1)) as (Hw2 & Hs2 & Hz2 & Hu2 & Hf2)
    by (subst m2; by destruct (_ <? _)). clearbody m2.
  assert (blocks m2 (pre' ++ (n', false) :: post)) as Hb2 by (by apply (blocks_same m1)).
  apply spread_app in Hs as [Hspre Hspost]. cbn in Hspost. destruct Hspost as [_ Hspost].
  assert (spread true pre') as Hspre' by (subst pre'; apply spread_app; cbn; by rewrite orb_true_r).
  assert (lfree m2 = first_free 0 (pre' ++ (n', false) :: post)) as Hff.
  { rewrite Hf2, Hl1. change (lfree m0) with (lfree m). rewrite Hf, <- (lfree_lower _ _ _ _ _ Hb1).
    replace (first_free 0 (pre ++ (n, true) :: post)) with (first_free 0 (pre' ++ (n', true) :: post)); [done|].
    subst pre'. rewrite <- app_assoc, !first_free_app. cbn [app first_free fst snd].
    destruct (forallb snd pre); [|done]. f_equal.
    change SIZEOF_STRUCT_MEM with 16 in *. subst n'. cbn. lia. }
  destruct (plug_holes_ok m2 pre' n' post Hb2 Hspre' Hspost Hff) as (m' & -> & Hb' & (_ & Hz' & Hf' & Hu' & _) & Hw' & _).
  exists m'. split; [done|]. split; [|split; [by rewrite Hz', Hz2, Hz1|]].
  - split; [done| | |by apply merge_spread; left].
    + by rewrite Hf', merge_first_free.
    + pose proof (used_total_range _ _ _ _ Hcp). pose proof (used_total_range _ _ _ _ Hcpost).
      rewrite used_total_app in Hu. cbn in Hu. pose proof Hb as [Hsz _ _ _ _].
      rewrite Hu', merge_used, Hu2, Hu1. subst pre'. rewrite !used_total_app. cbn. rewrite u32_id; [|size]. subst n'. lia.
  - intros x Hx. rewrite <- Hpre' in Hx. rewrite Hw', Hw2, Hw1; [done|exact Hx|].
    subst pre'. rewrite !in_used_app, total_app. cbn. change SIZEOF_STRUCT_MEM with 16 in *.
    destruct Hx as [Hx|[Hx|Hx]]; [by left; left|right; right|left; right; left].
    + by replace (0 + (total pre + (16 + a + 0)) + n') with (total pre + n) by (subst n'; lia).
    + split; [done|lia].
Qed.

(** [realloc] moves the contents to a block that fits. *)
Lemma move_ok m bs p n a : heap_wf m bs -> block_at 0 bs p = Some n -> 0 < a < 2 ^ 32 -> a mod 8 = 0 ->
  let l := if n - 16 <? a then n - 16 else a in
  exists m' r bs',
    (r ← rt_smem_alloc a m;
     match r.2 with
     | None => Done (r.1, None)
     | Some nmem => m ← copy_words (Z.to_nat (l / 4)) p nmem r.1; m ← rt_smem_free (Some p) m; Done (m, Some nmem)
     end) = Done (m', r) /\ heap_wf m' bs' /\ mem_size_aligned m' = mem_size_aligned m /\
    (forall y j x, block_at 0 bs y = Some j -> y <> p -> y <= x < y - 16 + j -> words m' x = words m x) /\
    match r with
    | None => m' = m /\ bs' = bs
    | Some q => exists k, a + 16 <= k /\ block_at 0 bs q = None /\
        (forall y, block_at 0 bs' y = if y =? q then Some k else if y =? p then None else block_at 0 bs y) /\
        (forall i, 0 <= i -> 4 * i < l -> word_at m' (q + 4 * i) = word_at m (p + 4 * i))
    end.
Proof.
  intros Hwf Hp Ha Ha8. cbv zeta. pose proof (hw_blocks _ _ Hwf) as Hb. pose proof (bl_chain _ _ Hb) as Hc.
  pose proof (block_at_range _ _ _ _ _ _ Hc Hp) as Hr. change SIZEOF_STRUCT_MEM with 16 in Hr.
  destruct (alloc_spec m bs a Hwf Ha) as (m1 & r & bs1 & -> & Hwf1 & [Hz1 Hw1] & Halloc). cbn [mbind outcome_bind fst snd].
  destruct r as [q|].
  2:{ destruct Halloc as (-> & -> & _). exists m, None, bs. split_and!; try done. }
  destruct Halloc as (k & Hk & Hq & Hat1). change SIZEOF_STRUCT_MEM with 16 in Hk.
  assert (a + 16 <= k) as Hak.
  { assert (a <= payload a); [|lia]. unfold payload. rewrite RT_ALIGN_value. change MIN_SIZE_ALIGNED with 16.
    destruct (Z.ltb_spec (u32 (a + 7) / 8 * 8) 16); cint. }
  assert (q <> p) as Hqp by congruence. pose proof (hw_blocks _ _ Hwf1) as Hb1. pose proof (bl_chain _ _ Hb1) as Hc1.
  assert (block_at 0 bs1 p = Some n) as Hp1 by (rewrite Hat1, (proj2 (Z.eqb_neq p q)); done).
  assert (block_at 0 bs1 q = Some k) as Hq1 by (by rewrite Hat1, Z.eqb_refl).
  pose proof (block_at_range _ _ _ _ _ _ Hc1 Hq1) as Hr1. change SIZEOF_STRUCT_MEM with 16 in Hr1.
  set (l := if n - 16 <? a then n - 16 else a).
  assert (0 < l <= n - 16 /\ l <= a /\ l mod 8 = 0) as Hl by (subst l; destruct (Z.ltb_spec (n - 16) a); lia).
  assert (4 * Z.of_nat (Z.to_nat (l / 4)) = l) as Hl4 by lia.
  pose proof (block_at_far _ _ _ _ _ _ Hb1 Hp1 Hq1). pose proof (block_at_far _ _ _ _ _ _ Hb1 Hq1 Hp1).
  destruct (copy_ok bs1 (Z.to_nat (l / 4)) p q m1 Hwf1) as (m2 & -> & Hwf2 & Hz2 & Hcopy & Hw2); try lia.
  { rewrite Hl4. intros i Hi. change SIZEOF_STRUCT_MEM with 16.
    split; [apply (block_at_in_used _ _ _ _ _ Hp1)|apply (block_at_in_used _ _ _ _ _ Hq1)]; change SIZEOF_STRUCT_MEM with 16; lia. }
  cbn [mbind outcome_bind]. rewrite Hl4 in Hw2.
  destruct (free_spec m2 bs1 p n Hwf2 Hp1) as (m3 & bs3 & -> & Hwf3 & [Hz3 Hw3] & Hat3). cbn [mbind outcome_bind].
  exists m3, (Some q), bs3. split; [done|]. split; [done|]. split; [by rewrite Hz3, Hz2|].
  assert (forall y j x, block_at 0 bs3 y = Some j -> y <= x < y - 16 + j -> words m3 x = words m2 x) as Hkeep3
    by (intros y j x Hy Hx; apply Hw3, (block_at_in_used _ _ _ _ _ Hy), Hx).
  assert (forall y, block_at 0 bs3 y = if y =? q then Some k else if y =? p then None else block_at 0 bs y) as Hat.
  { intros y. rewrite Hat3, Hat1. destruct (Z.eqb_spec y p) as [->|]; [|done]. by rewrite (proj2 (Z.eqb_neq p q)). }
  split.
  - intros y j x Hy Hyp Hx. assert (y <> q) as Hyq by congruence.
    assert (block_at 0 bs1 y = Some j) as Hy1 by (by rewrite Hat1, (proj2 (Z.eqb_neq y q))).
    rewrite (Hkeep3 y j), Hw2, Hw1; [done|exact (block_at_in_used _ _ _ _ _ Hy Hx)| |by rewrite Hat3, (proj2 (Z.eqb_neq y p))|done].
    pose proof (block_at_far _ _ _ _ _ _ Hb1 Hy1 Hq1). pose proof (block_at_far _ _ _ _ _ _ Hb1 Hq1 Hy1). lia.
  - exists k. split; [done|]. split; [done|]. split; [done|]. intros i Hi Hil.
    unfold word_at at 1. rewrite (Hkeep3 q k) by (rewrite ?Hat, ?Z.eqb_refl; done || lia).
    change (word_at m2 (q + 4 * i) = word_at m (p + 4 * i)). rewrite Hcopy by lia. unfold word_at. f_equal. apply Hw1.
    apply (block_at_in_used _ _ _ _ _ Hp). change SIZEOF_STRUCT_MEM with 16. lia.
Qed.

Lemma realloc_spec m bs p n size : heap_wf m bs -> block_at 0 bs p = Some n -> 0 < size <= 2 ^ 32 - 8 ->
  exists m' r bs', rt_smem_realloc (Some p) size m = Done (m', r) /\ heap_wf m' bs' /\
    mem_size_aligned m' = mem_size_aligned m /\
    (forall y j x, block_at 0 bs y = Some j -> y <> p -> y <= x < y - 16 + j -> words m' x = words m x) /\
    match r with
    | None => m' = m /\ bs' = bs
    | Some q => exists k, size + 16 <= k /\ (q = p \/ block_at 0 bs q = None) /\
        (forall y, block_at 0 bs' y = if y =? q then Some k else if y =? p then None else block_at 0 bs y) /\
        (forall i, 0 <= i -> 4 * i < size -> 4 * i + 16 < n -> word_at m' (q + 4 * i) = word_at m (p + 4 * i))
    end.
Proof.
  intros Hwf Hp Hsize. unfold rt_smem_realloc. rewrite RT_ALIGN_value. set (a := u32 (size + 7) / 8 * 8).
  assert (size <= a < 2 ^ 32 /\ a mod 8 = 0) as Ha by (subst a; cint). clearbody a.
  destruct (Z.ltb_spec (mem_size_aligned m) a) as [|Hfits]; [by exists m, None, bs|].
  rewrite (proj2 (Z.eqb_neq a 0)) by lia. pose proof (move_ok m bs p n a Hwf Hp ltac:(lia) ltac:(lia)) as Hmove.
  pose proof Hwf as [Hb _ _ _]. pose proof Hp as Hp'. apply block_at_split in Hp' as (pre & post & -> & Hpp). rewrite Z.add_0_l in Hpp.
  pose proof (blocks_split _ _ _ _ _ Hb) as (Ho & _ & Hcp & Hcpost). destruct (next_pool _ _ _ _ _ Hb) as (Hnext & _).
  pose proof Hb as [Hsz _ _ _ _]. change SIZEOF_STRUCT_MEM with 16 in *.
  rewrite (proj2 (Z.eqb_eq _ 0)), (proj2 (Z.leb_le 0 _)), (proj2 (Z.ltb_lt _ _)) by (change RT_ALIGN_SIZE with 8; lia).
  cbn [RT_ASSERT mbind outcome_bind]. replace (p - 16) with (total pre) by lia. rewrite Hnext. cbn [mbind outcome_bind].
  replace (total pre + n - total pre - 16) with (n - 16) by lia. rewrite (u32_id (n - 16)) by size.
  destruct (Z.eqb_spec (n - 16) a) as [Hsame|Hne].
  { exists m, (Some p), (pre ++ (n, true) :: post). do 3 (split; [done|]). split; [done|]. exists n. split; [lia|].
    split; [by left|]. split; [|done]. intros y. by destruct (Z.eqb_spec y p) as [->|]. }
  change MIN_SIZE with 12. destruct (Z.ltb_spec (a + 16 + 12) (n - 16)) as [Hshrink|Hgrow].
  - destruct (shrink_ok m pre n post a Hwf) as (m' & He & Hwf' & Hz & Hw); try lia.
    change SIZEOF_STRUCT_MEM with 16 in *. apply outcome_bind_Done in He as (m1 & -> & He). cbn [mbind outcome_bind].
    cbv zeta in He. rewrite He. cbn [mbind outcome_bind].
    exists m', (Some p), (merge (pre ++ (16 + a, true) :: (n - 16 - a, false) :: post)).
    do 3 (split; [done|]). assert (forall y, y <> p -> block_at 0 (pre ++ (n, true) :: post) y =
      match block_at 0 pre y with Some k => Some k | None => block_at (total pre + n) post y end) as Hother.
    { intros y Hy. rewrite (block_at_pre _ _ _ _ _ _ Hb). change SIZEOF_STRUCT_MEM with 16. by rewrite (proj2 (Z.eqb_neq y _)) by lia. }
    split; [|exists (16 + a); split; [lia|split; [by left|split]]].
    + intros y j x Hy Hyp Hx. rewrite Hother in Hy by done. apply Hw. destruct (block_at 0 pre y) as [j'|] eqn:Hpre.
      * injection Hy as ->. left. apply (block_at_in_used _ _ _ _ _ Hpre Hx).
      * right; left. apply (block_at_in_used _ _ _ _ _ Hy Hx).
    + intros y. rewrite block_at_merge. destruct (Z.eqb_spec y p) as [->|Hy].
      * rewrite Hpp, block_at_app. destruct (block_at 0 pre _) eqn:Hpre.
        -- apply (block_at_range _ _ _ _ _ _ Hcp) in Hpre. change SIZEOF_STRUCT_MEM with 16 in *. lia.
        -- cbn [block_at fst snd]. change SIZEOF_STRUCT_MEM with 16. by rewrite Z.eqb_refl.
      * rewrite Hother, block_at_app by done. destruct (block_at 0 pre y); [done|]. cbn [block_at fst snd].
        change SIZEOF_STRUCT_MEM with 16. rewrite (proj2 (Z.eqb_neq y _)) by lia. cbn [andb]. f_equal. lia.
    + intros i Hi Hil _. unfold word_at. rewrite Hw; [done|]. right; right. lia.
  - destruct Hmove as (m' & r & bs' & He & Hwf' & Hz & Hw & Hr). exists m', r, bs'.
    split; [exact He|]. do 3 (split; [done|]). destruct r as [q|]; [|done].
    destruct Hr as (k & Hk & Hq & Hat & Hcopy). exists k. split; [lia|]. split; [by right|]. split; [done|].
    intros i Hi Hil Hin. apply Hcopy; [done|]. destruct (Z.ltb_spec (n - 16) a); lia.
Qed.

(** *** At boot *)

Lemma RT_ALIGN_DOWN_value x : is_u32 x -> RT_ALIGN_DOWN x RT_ALIGN_SIZE = x / 8 * 8.
Proof.
  intros Hx. unfold RT_ALIGN_DOWN. change (u32 (Z.lnot (RT_ALIGN_SIZE - 1))) with (Z.land (Z.ones 32) (Z.lnot (Z.ones 3))).
  rewrite Z.land_assoc, <- Z.ldiff_land, Z.land_ones by lia.
  rewrite Z.ldiff_ones_r, Z.shiftl_mul_pow2, Z.shiftr_div_pow2 by lia. cint.
Qed.
Lemma smem_init_ok descr garbage begin_addr size : 0 < begin_addr -> 0 <= descr -> descr + 64 <= size ->
  begin_addr + size < 2 ^ 32 ->
  exists h m, rt_smem_init descr garbage begin_addr size = Done (Some (h, m)) /\ heap_wf m [(heap_end m, false)] /\
    h mod 8 = 0 /\ begin_addr + descr <= h /\ h + heap_end m + 16 <= begin_addr + size /\ 16 <= mem_size_aligned m.
Proof.
  intros H1 H2 H3 H4. unfold rt_smem_init. rewrite !RT_ALIGN_value, RT_ALIGN_DOWN_value by cint.
  set (s := u32 (begin_addr + 7) / 8 * 8). assert (begin_addr <= s <= begin_addr + 7 /\ s mod 8 = 0) as Hs by (subst s; cint).
  clearbody s. rewrite (u32_id (s + descr)) by cint.
  set (b := u32 (s + descr + 7) / 8 * 8). assert (s + descr <= b <= s + descr + 7 /\ b mod 8 = 0) as Hbegin by (subst b; cint).
  clearbody b. set (e := u32 (begin_addr + size) / 8 * 8).
  assert (begin_addr + size - 7 <= e <= begin_addr + size /\ e mod 8 = 0) as Hend by (subst e; cint). clearbody e.
  change SIZEOF_STRUCT_MEM with 16. change (2 * 16) with 32.
  rewrite (proj2 (Z.ltb_lt _ _)), (proj2 (Z.leb_le _ _)) by lia. cbn [andb]. rewrite (u32_id (e - b - 32)) by cint.
  set (m := Smem s garbage 0 0 0 (e - b - 32)). destruct (mem_used_word m ltac:(cbn; lia) ltac:(cbn; lia)) as [Hu Hf].
  rewrite Hf. unfold set_pool_ptr, set_next, set_prev.
  assert (forall u, is_u32 (pool_word (self m) u)) as Hw by (intros u; apply pool_word_u32; cbn; lia).
  do 3 (rewrite store_in; [cbn [mbind outcome_bind]|subst m; addr|done || cint]).
  match goal with |- context [MEM_USED ?x] => change (MEM_USED x) with (MEM_USED m) end. rewrite Hu.
  do 3 (rewrite store_in; [cbn [mbind outcome_bind]|subst m; addr|done || cint]).
  match goal with |- context [Done (Some (b, ?x))] => set (m' := x) end.
  exists b, m'. split; [done|]. assert (heap_end m' = e - b - 16) as He by (subst m' m; addr).
  split; [|subst m' m; cbn [put_word set_words mem_size_aligned] in *; lia]. split; [|done|done|by split]. split.
  - subst m' m. addr.
  - subst m' m. cbn. lia.
  - cbn. lia.
  - cbn [chain fst snd]. rewrite He. unfold header. subst m' m. word. split; [split; [done|lia]|lia].
  - rewrite He. replace (e - b - 16) with (e - b - 32 + 16) by lia. subst m' m. by word.
Qed.

(** ** Clients

    What is live, and the words its owner put there.  A request that breaks the rules --
    a size above 2^32 - 8, which would wrap around when it is rounded up,
    a pointer that is not live, a write outside -- is not made. *)
Record client := Client { heap : rt_small_mem; live : gmap Z (list Z) }.
Inductive request := Malloc (size : Z) | Free (p : Z) | Realloc (p size : Z) | Write (p : Z) (i : nat) (v : Z).

Definition n_words (size : Z) : nat := Z.to_nat ((size + 3) / 4).
Definition contents m p (k : nat) : list Z := (fun i : nat => word_at m (p + 4 * Z.of_nat i)) <$> seq 0 k.
Definition valid_size (size : Z) : bool := (0 <=? size) && (size <=? 2 ^ 32 - 8).
Definition valid (r : request) (c : client) : bool :=
  match r with
  | Malloc size => valid_size size
  | Free p => bool_decide (is_Some (live c !! p))
  | Realloc p size => bool_decide (is_Some (live c !! p)) && valid_size size
  | Write p i v => bool_decide (is_Some (live c !! p ≫= lookup i)) && bool_decide (is_u32 v)
  end.
Definition serve (r : request) (c : client) : outcome client :=
  match r with
  | Malloc size =>
    a ← rt_smem_alloc size (heap c);
    Done (Client a.1 (match a.2 with Some p => <[p := contents a.1 p (n_words size)]> (live c) | None => live c end))
  | Free p => m ← rt_smem_free (Some p) (heap c); Done (Client m (delete p (live c)))
  | Realloc p size =>
    a ← rt_smem_realloc (Some p) size (heap c);
    let old := take (n_words size) (default [] (live c !! p)) in
    Done (Client a.1 (match a.2 with
      | Some q => <[q := old ++ drop (length old) (contents a.1 q (n_words size))]> (delete p (live c))
      | None => if size =? 0 then delete p (live c) else live c
      end))
  | Write p i v => m ← store (p + 4 * Z.of_nat i) v (heap c); Done (Client m (alter <[i := v]> p (live c)))
  end.
Fixpoint run (rs : list request) (c : client) : outcome client :=
  match rs with
  | [] => Done c
  | r :: rs => if valid r c then c ← serve r c; run rs c else run rs c
  end.

(** The live blocks are the used ones, and hold what was put there. *)
Record client_wf (c : client) bs : Prop := {
  cw_heap : heap_wf (heap c) bs;
  cw_live p : block_at 0 bs p = None -> live c !! p = None;
  cw_block p n : block_at 0 bs p = Some n -> exists ws, live c !! p = Some ws /\
    4 * Z.of_nat (length ws) + 16 <= n /\ contents (heap c) p (length ws) = ws;
}.

Lemma contents_frame m m' p n (k : nat) : (forall x, p <= x < p - 16 + n -> words m' x = words m x) ->
  4 * Z.of_nat k + 16 <= n -> contents m' p k = contents m p k.
Proof.
  intros Hw Hk. apply list_fmap_ext. intros i j Hij%lookup_seq. unfold word_at. rewrite Hw; [done|lia].
Qed.
Lemma contents_length m p k : length (contents m p k) = k.
Proof. unfold contents. by rewrite length_fmap, length_seq. Qed.
Lemma contents_lookup m p k i : (i < k)%nat -> contents m p k !! i = Some (word_at m (p + 4 * Z.of_nat i)).
Proof. intros. unfold contents. rewrite list_lookup_fmap, lookup_seq_lt by done. done. Qed.
Lemma n_words_bound size : 0 <= size -> size <= 4 * Z.of_nat (n_words size) < size + 4.
Proof. intros. unfold n_words. lia. Qed.

(** Each address: as before, gone, or a block with new contents. *)
Definition holds m bs (ws : list Z) p : Prop :=
  exists n, block_at 0 bs p = Some n /\ 4 * Z.of_nat (length ws) + 16 <= n /\ contents m p (length ws) = ws.
Lemma client_step c bs m' bs' L : client_wf c bs -> heap_wf m' bs' ->
  (forall y,
    (block_at 0 bs' y = block_at 0 bs y /\ L !! y = live c !! y /\
      (forall j x, block_at 0 bs y = Some j -> y <= x < y - 16 + j -> words m' x = words (heap c) x)) \/
    (block_at 0 bs' y = None /\ L !! y = None) \/ (exists ws, L !! y = Some ws /\ holds m' bs' ws y)) ->
  client_wf (Client m' L) bs'.
Proof.
  intros [_ Hlive Hblock] Hwf H. split; [done| |]; cbn [heap live]; intros y.
  - intros Hy. destruct (H y) as [(He & -> & _)|[[_ ?]|(ws & _ & n & ? & _)]]; [|done|congruence].
    apply Hlive. congruence.
  - intros n Hy. destruct (H y) as [(He & -> & Hw)|[[? _]|(ws & HL & n' & ? & Hws)]]; [|congruence|exists ws; naive_solver congruence].
    rewrite He in Hy. destruct (Hblock _ _ Hy) as (ws & ? & ? & Hws). exists ws. split_and!; [done..|].
    by rewrite (contents_frame (heap c) _ y n) by eauto.
Qed.
Lemma live_block c bs p ws : client_wf c bs -> live c !! p = Some ws -> exists n, block_at 0 bs p = Some n /\
  4 * Z.of_nat (length ws) + 16 <= n /\ contents (heap c) p (length ws) = ws.
Proof.
  intros [_ Hlive Hblock] Hp. destruct (block_at 0 bs p) as [n|] eqn:Hn.
  - destruct (Hblock _ _ Hn) as (ws' & ? & ?). exists n. naive_solver.
  - apply Hlive in Hn. congruence.
Qed.

Lemma serve_malloc size c bs : client_wf c bs -> valid_size size = true ->
  exists c' bs', serve (Malloc size) c = Done c' /\ client_wf c' bs' /\ mem_size_aligned (heap c') = mem_size_aligned (heap c).
Proof.
  intros Hc Hs. unfold valid_size in Hs. cbn [serve].
  destruct (Z.eqb_spec size 0) as [->|Hne]; [by exists (Client (heap c) (live c)), bs; destruct c|].
  destruct (alloc_spec _ _ size (cw_heap _ _ Hc)) as (m' & r & bs' & -> & Hwf' & [Hz Hw] & Hr); [lia|].
  cbn [mbind outcome_bind fst snd]. eexists _, bs'. split; [done|]. split; [|done].
  apply (client_step c bs); [done..|]. intros y. destruct r as [p|]; [|destruct Hr as (-> & -> & _); by left].
  destruct Hr as (n & Hn & _ & Hat). destruct (decide (y = p)) as [->|Hy].
  - right; right. exists (contents m' p (n_words size)). rewrite lookup_insert_eq. split; [done|].
    unfold holds. exists n. rewrite Hat, Z.eqb_refl, contents_length. split; [done|]. split; [|done].
    pose proof (n_words_bound size). pose proof (payload_range size). unfold payload in *. rewrite RT_ALIGN_value in *.
    change SIZEOF_STRUCT_MEM with 16 in *. change MIN_SIZE_ALIGNED with 16 in *.
    destruct (Z.ltb_spec (u32 (size + 7) / 8 * 8) 16); cint.
  - left. rewrite Hat, (proj2 (Z.eqb_neq y p)), lookup_insert_ne by done. split_and!; [done..|].
    intros j x Hj Hx. apply Hw, (block_at_in_used _ _ _ _ _ Hj Hx).
Qed.
Lemma serve_free p c bs : client_wf c bs -> is_Some (live c !! p) ->
  exists c' bs', serve (Free p) c = Done c' /\ client_wf c' bs' /\ mem_size_aligned (heap c') = mem_size_aligned (heap c).
Proof.
  intros Hc [ws Hp]. destruct (live_block _ _ _ _ Hc Hp) as (n & Hn & _). cbn [serve].
  destruct (free_spec _ _ _ _ (cw_heap _ _ Hc) Hn) as (m' & bs' & -> & Hwf' & [Hz Hw] & Hat). cbn [mbind outcome_bind].
  eexists _, bs'. split; [done|]. split; [|done]. apply (client_step c bs); [done..|]. intros y.
  destruct (decide (y = p)) as [->|Hy].
  - right; left. by rewrite Hat, Z.eqb_refl, lookup_delete_eq.
  - left. rewrite Hat, (proj2 (Z.eqb_neq y p)), lookup_delete_ne by done. split_and!; [done..|].
    intros j x Hj Hx. apply Hw, (block_at_in_used _ _ y j); [|done]. by rewrite Hat, (proj2 (Z.eqb_neq y p)).
Qed.
Lemma serve_write p i v c bs : client_wf c bs -> is_Some (live c !! p ≫= lookup i) -> is_u32 v ->
  exists c' bs', serve (Write p i v) c = Done c' /\ client_wf c' bs' /\ mem_size_aligned (heap c') = mem_size_aligned (heap c).
Proof.
  intros Hc Hi Hv. destruct (live c !! p) as [ws|] eqn:Hp; [|by destruct Hi]. cbn in Hi. apply lookup_lt_is_Some in Hi.
  destruct (live_block _ _ _ _ Hc Hp) as (n & Hn & Hlen & Hws). cbn [serve]. pose proof (cw_heap _ _ Hc) as Hwf.
  pose proof (hw_blocks _ _ Hwf) as Hb. pose proof (block_at_range _ _ _ _ _ _ (bl_chain _ _ Hb) Hn) as Hr.
  destruct (write_ok (heap c) bs (p + 4 * Z.of_nat i) v Hwf) as [-> Hwf']; [|lia|done|].
  { apply (block_at_in_used _ _ _ _ _ Hn). change SIZEOF_STRUCT_MEM with 16. lia. }
  cbn [mbind outcome_bind]. eexists _, bs. split; [done|]. split; [|done]. apply (client_step c bs); [done..|]. intros y.
  destruct (decide (y = p)) as [->|Hy].
  - right; right. exists (<[i := v]> ws). rewrite lookup_alter_eq, Hp. split; [done|].
    exists n. rewrite length_insert. split_and!; [done..|]. apply list_eq. intros k.
    destruct (decide (k < length ws)%nat) as [Hk|Hk].
    2:{ rewrite !lookup_ge_None_2; rewrite ?contents_length, ?length_insert; (done || lia). }
    rewrite contents_lookup by done. unfold word_at. destruct (decide (k = i)) as [->|Hki].
    + rewrite word_eq, list_lookup_insert_eq by done. by rewrite u32_id.
    + rewrite word_ne, list_lookup_insert_ne by lia. rewrite <- Hws at 1. by rewrite contents_lookup.
  - left. rewrite lookup_alter_ne by done. split_and!; [done..|]. intros j x Hj Hx. apply word_ne.
    pose proof (block_at_far _ _ _ _ _ _ Hb Hj Hn). pose proof (block_at_far _ _ _ _ _ _ Hb Hn Hj). lia.
Qed.
Lemma serve_realloc p size c bs : client_wf c bs -> is_Some (live c !! p) -> valid_size size = true ->
  exists c' bs', serve (Realloc p size) c = Done c' /\ client_wf c' bs' /\ mem_size_aligned (heap c') = mem_size_aligned (heap c).
Proof.
  intros Hc Hp Hs. unfold valid_size in Hs. destruct (Z.eqb_spec size 0) as [->|Hne].
  { destruct (serve_free p c bs Hc Hp) as (c' & bs' & He & ?). exists c', bs'. split; [|done]. cbn [serve] in *.
    unfold rt_smem_realloc. change (RT_ALIGN 0 RT_ALIGN_SIZE) with 0. pose proof (bl_size _ _ (hw_blocks _ _ (cw_heap _ _ Hc))).
    rewrite (proj2 (Z.ltb_ge _ 0)) by lia. cbn [Z.eqb].
    apply outcome_bind_Done in He as (m & -> & [= <-]). done. }
  destruct Hp as [ws Hp]. destruct (live_block _ _ _ _ Hc Hp) as (n & Hn & Hlen & Hws). cbn [serve]. rewrite Hp.
  change (default [] (Some ws)) with ws.
  destruct (realloc_spec _ _ _ _ size (cw_heap _ _ Hc) Hn) as (m' & r & bs' & -> & Hwf' & Hz & Hw & Hr); [lia|].
  cbn [mbind outcome_bind fst snd]. eexists _, bs'. split; [done|]. split; [|done]. apply (client_step c bs); [done..|]. intros y.
  destruct r as [q|]; [|destruct Hr as (-> & ->); left; by rewrite (proj2 (Z.eqb_neq size 0))].
  destruct Hr as (k & Hk & Hq & Hat & Hcopy). destruct (decide (y = q)) as [->|Hy].
  - right; right. rewrite lookup_insert_eq. eexists. split; [done|]. exists k. rewrite Hat, Z.eqb_refl. split; [done|].
    pose proof (n_words_bound size ltac:(lia)). set (old := take _ _). assert (length old <= n_words size)%nat as Hold by (subst old; rewrite length_take; lia).
    assert (length (old ++ drop (length old) (contents m' q (n_words size))) = n_words size) as ->
      by (rewrite length_app, length_drop, contents_length; lia).
    assert (k mod 8 = 0) by (apply (block_at_range m' 0 0 bs' q); [apply bl_chain, hw_blocks, Hwf'|by rewrite Hat, Z.eqb_refl]).
    split; [lia|]. rewrite <- (take_drop (length old) (contents m' q (n_words size))) at 1. f_equal.
    apply list_eq. intros i. destruct (decide (i < length old)%nat) as [Hi|Hi].
    2:{ rewrite !lookup_ge_None_2; rewrite ?length_take; (done || lia). }
    rewrite lookup_take_lt, contents_lookup by lia. subst old. rewrite length_take in Hi. rewrite lookup_take_lt by lia.
    rewrite Hcopy by lia. rewrite <- Hws at 1. rewrite contents_lookup by lia. done.
  - destruct (decide (y = p)) as [->|Hyp].
    + right; left. rewrite Hat, (proj2 (Z.eqb_neq p q)), Z.eqb_refl, lookup_insert_ne by done. split; [done|apply lookup_delete_eq].
    + left. rewrite Hat, (proj2 (Z.eqb_neq y q)), (proj2 (Z.eqb_neq y p)), lookup_insert_ne, lookup_delete_ne by done.
      split_and!; [done..|]. intros j x Hj Hx. by apply (Hw y j).
Qed.

Lemma run_ok rs c bs : client_wf c bs ->
  exists c' bs', run rs c = Done c' /\ client_wf c' bs' /\ mem_size_aligned (heap c') = mem_size_aligned (heap c).
Proof.
  revert c bs. induction rs as [|r rs IH]; intros c bs Hc; cbn [run]; [by exists c, bs|].
  destruct (valid r c) eqn:Hv; [|by eapply IH].
  assert (exists c' bs', serve r c = Done c' /\ client_wf c' bs' /\ mem_size_aligned (heap c') = mem_size_aligned (heap c))
    as (c1 & bs1 & -> & Hc1 & Hz1).
  { destruct r as [size|p|p size|p i v]; cbn [valid] in Hv.
    - by apply (serve_malloc _ _ bs).
    - apply bool_decide_eq_true in Hv. by apply (serve_free _ _ bs).
    - apply andb_true_iff in Hv as [Hv%bool_decide_eq_true ?]. by apply (serve_realloc _ _ _ bs).
    - apply andb_true_iff in Hv as [Hv%bool_decide_eq_true ?%bool_decide_eq_true]. by apply (serve_write _ _ _ _ bs). }
  destruct (IH c1 bs1 Hc1) as (c' & bs' & He & Hc' & Hz). exists c', bs'. cbn [mbind outcome_bind]. split; [done|].
  split; [done|]. by rewrite Hz.
Qed.

(** No request, no block used. *)
Lemma none_used o bs : (forall p, block_at o bs p = None) -> forallb (fun b => negb b.2) bs = true.
Proof.
  revert o. induction bs as [|[n [|]] bs IH]; intros o H; cbn in *; [done| |].
  - specialize (H (o + 16)). change SIZEOF_STRUCT_MEM with 16 in H. by rewrite Z.eqb_refl in H.
  - by apply (IH (o + n)).
Qed.
Lemma all_free u bs : forallb (fun b => negb b.2) bs = true -> spread u bs -> 0 < total bs -> bs = [(total bs, false)].
Proof.
  destruct bs as [|[n [|]] [|[k [|]] bs]]; try done; intros H Hs Ht; [cbn [total fst]; by rewrite Z.add_0_r|].
  by destruct Hs as (_ & ? & _).
Qed.
Lemma client_disjoint c bs p q ws vs : client_wf c bs -> live c !! p = Some ws -> live c !! q = Some vs -> p < q ->
  p + 4 * Z.of_nat (length ws) + 16 <= q.
Proof.
  intros Hc Hp Hq Hlt. destruct (live_block _ _ _ _ Hc Hp) as (n & Hn & ? & _).
  destruct (live_block _ _ _ _ Hc Hq) as (k & Hk & _).
  pose proof (block_at_far _ _ _ _ _ _ (hw_blocks _ _ (cw_heap _ _ Hc)) Hn Hk Hlt). lia.
Qed.
(** A client that has nothing has given everything back. *)
Lemma client_idle c bs : client_wf c bs -> live c = ∅ -> bs = [(heap_end (heap c), false)].
Proof.
  intros Hc Hlive. pose proof (cw_heap _ _ Hc) as [Hb _ _ Hs]. pose proof (bl_total _ _ Hb) as Ht.
  pose proof (bl_size _ _ Hb). rewrite <- Ht. apply (all_free true); [|done|rewrite Ht; size].
  apply (none_used 0). intros p. destruct (block_at 0 bs p) as [n|] eqn:Hp; [|done].
  destruct (cw_block _ _ Hc _ _ Hp) as (ws & HL & _). by rewrite Hlive in HL.
Qed.

(** ** The allocator as its clients see it *)

(** C10: From its initialisation on, no sequence of malloc and realloc calls of sizes up
    to 2^32 - 8, of frees and of writes, by clients that pass only pointers they hold
    and write only within their blocks, makes the heap fault, fail an assertion or loop:
    every live block is aligned to eight bytes, lies within the memory the heap was
    given, is disjoint from the others and from every header, and holds the words its
    owner wrote, also across a realloc that moves it; when nothing is live the used
    count is zero and the whole memory is one block again, so that any request up to its
    size succeeds. *)
Theorem smem_clients_safe descr garbage begin_addr size rs : 0 < begin_addr -> 0 <= descr -> descr + 64 <= size ->
  begin_addr + size < 2 ^ 32 ->
  exists h m c, rt_smem_init descr garbage begin_addr size = Done (Some (h, m)) /\ run rs (Client m ∅) = Done c /\
    (forall p ws, live c !! p = Some ws ->
      (h + p) mod 8 = 0 /\ begin_addr + descr + 16 <= h + p /\ h + p + 4 * Z.of_nat (length ws) <= begin_addr + size - 16 /\
      contents (heap c) p (length ws) = ws) /\
    (forall p q ws vs, live c !! p = Some ws -> live c !! q = Some vs -> p < q -> p + 4 * Z.of_nat (length ws) + 16 <= q) /\
    (live c = ∅ -> m_used (heap c) = 0 /\
      forall request, 0 < request <= mem_size_aligned m -> exists m', rt_smem_alloc request (heap c) = Done (m', Some 16)).
Proof.
  intros H1 H2 H3 H4. destruct (smem_init_ok descr garbage begin_addr size H1 H2 H3 H4) as (h & m & He & Hwf & Hh & Hlo & Hhi & H16).
  assert (client_wf (Client m ∅) [(heap_end m, false)]) as Hc0 by (split; cbn; done).
  destruct (run_ok rs _ _ Hc0) as (c & bs & Hrun & Hc & Hz). cbn [heap] in Hz. exists h, m, c. do 2 (split; [done|]).
  pose proof (cw_heap _ _ Hc) as Hwfc. pose proof (hw_blocks _ _ Hwfc) as Hb. pose proof (bl_total _ _ Hb) as Ht.
  assert (heap_end (heap c) = heap_end m) as Hend by (unfold heap_end; by rewrite Hz). split; [|split].
  - intros p ws Hp. destruct (live_block _ _ _ _ Hc Hp) as (n & Hn & Hlen & Hws).
    pose proof (block_at_range _ _ _ _ _ _ (bl_chain _ _ Hb) Hn) as Hr. change SIZEOF_STRUCT_MEM with 16 in Hr. split_and!; (done || lia).
  - intros. by eapply client_disjoint.
  - intros Hlive. pose proof (client_idle _ _ Hc Hlive) as ->. split; [by rewrite (hw_used _ _ Hwfc)|].
    intros request Hreq. pose proof (bl_size _ _ Hb) as Hsz.
    pose proof (alloc_ok _ _ request Hwfc ltac:(size)) as Ha. cbv zeta in Ha. cbn [first_fit fst snd negb andb] in Ha.
    rewrite (proj2 (Z.leb_le _ _)) in Ha.
    + destruct Ha as (? & ? & ? & m' & _ & _ & _ & _ & Ha & _). by exists m'.
    + change SIZEOF_STRUCT_MEM with 16 in *. unfold payload. rewrite RT_ALIGN_value. change MIN_SIZE_ALIGNED with 16.
      destruct (Z.ltb_spec (u32 (request + 7) / 8 * 8) 16); size.
Qed.

(** C32: For every request from 1 byte to 2^32 - 8, rt_malloc is first fit: the size is
    rounded up to eight bytes and to sixteen at least; it fails, and changes nothing,
    only when every free block is too small; otherwise it takes the lowest free block
    that fits, splits it when the rest can be a block of its own, and leaves the
    invariant and the contents of every used block. *)
Theorem smem_alloc_first_fit m bs size : heap_wf m bs -> 0 < size <= 2 ^ 32 - 8 ->
  let sz := Z.max 16 ((size + 7) / 8 * 8) in
  (rt_smem_alloc size m = Done (m, None) /\ forall n, In (n, false) bs -> n < sz + 16) \/
  exists pre n post m', bs = pre ++ (n, false) :: post /\ sz + 16 <= n /\ (forall k, In (k, false) pre -> k < sz + 16) /\
    rt_smem_alloc size m = Done (m', Some (total pre + 16)) /\
    heap_wf m' (pre ++ (if sz + 48 <=? n then [(16 + sz, true); (n - 16 - sz, false)] else [(n, true)]) ++ post) /\
    keeps bs m m'.
Proof.
  intros Hwf Hsize. cbv zeta. pose proof (alloc_ok _ _ size Hwf ltac:(lia)) as H. cbv zeta in H.
  assert (payload size = Z.max 16 ((size + 7) / 8 * 8)) as Hsz.
  { unfold payload. rewrite RT_ALIGN_value, u32_id by cint. change MIN_SIZE_ALIGNED with 16.
    destruct (Z.ltb_spec ((size + 7) / 8 * 8) 16); lia. }
  rewrite Hsz in H. clear Hsz. set (sz := Z.max _ _) in *.
  assert (forall l, forallb (fun b => negb (fits sz b)) l = true -> forall k, In (k, false) l -> k < sz + 16) as Hno.
  { intros l Hl k Hk. rewrite forallb_forall in Hl. apply Hl in Hk. unfold fits in Hk. cbn [fst snd negb andb] in Hk.
    change SIZEOF_STRUCT_MEM with 16 in Hk. destruct (Z.leb_spec (sz + 16) k); [done|lia]. }
  destruct (first_fit sz 0 bs) as [o|] eqn:Hfit.
  - destruct H as (pre & n & post & m' & -> & -> & Hn & Hpre & He & Hwf' & Hz & Hw). right. exists pre, n, post, m'.
    split; [done|]. split; [exact Hn|]. split; [by apply Hno|]. split; [exact He|]. split; [|done].
    revert Hwf'. unfold kept, rest. by destruct (sz + 48 <=? n).
  - left. split; [done|]. apply Hno. by apply first_fit_None in Hfit.
Qed.

(** C33: Freeing a used block makes it free and merges it with its free neighbours, the
    contents of every other block unchanged; freeing the same pointer again right after
    stops at an assertion and never corrupts the heap, whether or not the block was
    merged into the one before it. *)
Theorem smem_double_free_caught m pre n post : heap_wf m (pre ++ (n, true) :: post) ->
  exists m', rt_smem_free (Some (total pre + 16)) m = Done m' /\ heap_wf m' (merge (pre ++ (n, false) :: post)) /\
    keeps (pre ++ (n, false) :: post) m m' /\ rt_smem_free (Some (total pre + 16)) m' = Fault Hang.
Proof.
  intros Hwf. destruct (blocks_split _ _ _ _ _ (hw_blocks _ _ Hwf)) as (Ho & _).
  destruct (free_ok _ _ _ _ Hwf) as (m' & He & Hwf' & Hz & Hw & Hdead). exists m'. do 3 (split; [done|]).
  pose proof (hw_blocks _ _ Hwf') as [_ [Hsf1 Hsf2] _ _ _].
  assert (heap_end m' = heap_end m) as Hend by (unfold heap_end; by rewrite Hz).
  unfold rt_smem_free. rewrite (proj2 (Z.eqb_eq _ 0)) by (change RT_ALIGN_SIZE with 8; lia). cbn [RT_ASSERT mbind outcome_bind].
  replace (total pre + 16 - SIZEOF_STRUCT_MEM) with (total pre) by (change SIZEOF_STRUCT_MEM with 16; lia).
  unfold pool_ptr. rewrite load_in by (unfold in_heap; rewrite Hend; addr). cbn [mbind outcome_bind].
  destruct Hdead as [->| ->]; [done|]. rewrite (proj2 (pool_word_bit _ _ Hsf1 Hsf2)), (proj1 (pool_word_bit _ _ Hsf1 Hsf2)).
  rewrite (proj2 (Z.eqb_neq (self m') 0)) by lia. done.
Qed.

(** The last seven sizes wrap around when they are rounded up: [malloc] then hands out the
    smallest block, and [realloc] frees the one it was given. *)
Lemma smem_alloc_wraps m size : 2 ^ 32 - 7 <= size < 2 ^ 32 -> rt_smem_alloc size m = rt_smem_alloc 16 m.
Proof.
  intros Hs. unfold rt_smem_alloc. rewrite (proj2 (Z.eqb_neq size 0)) by lia. change (16 =? 0) with false.
  fold (payload size). fold (payload 16). replace (payload size) with (payload 16); [done|].
  unfold payload. rewrite (RT_ALIGN_value size). replace (u32 (size + 7) / 8 * 8) with 0 by cint. done.
Qed.
Lemma smem_realloc_wraps p m size : 2 ^ 32 - 7 <= size < 2 ^ 32 -> 0 <= mem_size_aligned m ->
  rt_smem_realloc (Some p) size m = (m ← rt_smem_free (Some p) m; Done (m, None)).
Proof.
  intros Hs Hm. unfold rt_smem_realloc. rewrite RT_ALIGN_value. replace (u32 (size + 7) / 8 * 8) with 0 by cint.
  by rewrite (proj2 (Z.ltb_ge _ 0)) by done.
Qed.

(** *** A heap of a kilobyte *)

Definition demo : rt_small_mem :=
  match (r ← rt_smem_init 52 (fun _ => 0) 536870913 1024;
         match r with Some (_, m) => a ← rt_smem_alloc 20 m; b ← rt_smem_alloc 1 a.1; rt_smem_free (Some 16) b.1 | None => Fault Hang end)
  with Done m => m | Fault _ => Smem 0 (fun _ => 0) 0 0 0 0 end.
Lemma demo_wf : heap_wf demo [(40, false); (32, true); (872, false)].
Proof.
  split; [split|vm_compute; reflexivity..|cbn; tauto].
  all: cbn [chain fst snd]; unfold header; split_and?; vm_compute; (reflexivity || exact I || intros [=]).
Qed.

Lemma smem_clients_safe_witness : 0 < 536870913 /\ 0 <= 52 /\ 52 + 64 <= 1024 /\ 536870913 + 1024 < 2 ^ 32 /\
  exists h m c, rt_smem_init 52 (fun _ => 0) 536870913 1024 = Done (Some (h, m)) /\
    run [Malloc 10; Write 16 2 7; Malloc 40; Realloc 16 64; Free 48] (Client m ∅) = Done c /\
    (live c = ∅ -> m_used (heap c) = 0).
Proof.
  do 4 (split; [lia|]).
  destruct (smem_clients_safe 52 (fun _ => 0) 536870913 1024 [Malloc 10; Write 16 2 7; Malloc 40; Realloc 16 64; Free 48])
    as (h & m & c & He & Hr & _ & _ & Hidle); [lia..|]. exists h, m, c. split; [done|]. split; [done|]. intros H. by destruct (Hidle H).
Defined.
(** The contents follow the block when it moves. *)
Example moved : match rt_smem_init 52 (fun _ => 0) 536870913 1024 with
  | Done (Some (_, m)) =>
    match run [Malloc 10; Write 16 2 7; Malloc 40; Realloc 16 12; Realloc 16 64; Free 48] (Client m ∅) with
    | Done c => map_to_list (live c) = [(104, [0; 0; 7; 0; 0; 0; 0; 0; 0; 0; 0; 0; 0; 0; 0; 0])]
    | Fault _ => False
    end
  | _ => False
  end.
Proof. vm_compute. reflexivity. Qed.
Lemma smem_alloc_first_fit_witness : heap_wf demo [(40, false); (32, true); (872, false)] /\ 0 < 30 <= 2 ^ 32 - 8 /\
  exists m' p, rt_smem_alloc 30 demo = Done (m', Some p).
Proof.
  split; [apply demo_wf|]. split; [lia|].
  destruct (smem_alloc_first_fit demo _ 30 demo_wf) as [[_ H]|(pre & n & post & m' & Hbs & Hn & Hpre & He & _)]; [lia| |].
  - specialize (H 872 ltac:(cbn; tauto)). lia.
  - by exists m', (total pre + 16).
Defined.
Lemma smem_double_free_caught_witness : heap_wf demo ([(40, false)] ++ (32, true) :: [(872, false)]) /\
  exists m', rt_smem_free (Some 56) demo = Done m' /\ heap_wf m' [(944, false)] /\ rt_smem_free (Some 56) m' = Fault Hang.
Proof.
  split; [apply demo_wf|].
  destruct (smem_double_free_caught demo [(40, false)] 32 [(872, false)] demo_wf) as (m' & He & Hwf & _ & Hf).
  exists m'. split; [exact He|]. split; [exact Hwf|exact Hf].
Defined.
