(* ===== verification/Afifo.v ===== *)
(** * [abus/afifo.c], [abus/afifo.h]: the byte ring buffer

    The indices [in] and [out] are [unsigned int]s that only ever grow and wrap
    at 2^32; the byte of index [i] sits at [i & (size - 1)], so the size has to be
    a power of two.  [smp_wmb] and friends are commented out in the source and the
    spin lock does nothing, so an operation is one step.  [memcpy] checks the
    bounds of both objects. *)
From S2P Require Import Prelude Ring.

Record afifo := Afifo {
  buffer : list Z;
  size : Z;
  in_ : Z;
  out : Z;
}.

Definition min (a b : Z) : Z := if a <? b then a else b.

Definition BUG_ON (b : bool) : outcome unit := if b then Fault Hang else Done ().

(** The halving loop of [is_power_of_2]; 31 rounds cover every positive [int]. *)
Fixpoint halve (fuel : nat) (n : Z) : bool :=
  match fuel with
  | O => false
  | S k => if n =? 1 then true else if n mod 2 =? 0 then halve k (n / 2) else false
  end.

(** The argument is an [int]. *)
Definition is_power_of_2 (n : Z) : bool :=
  if n <=? 0 then false else if n =? 1 then true else halve 32 n.

(** The counting loop of [fls]. *)
Fixpoint fls_loop (fuel : nat) (i position : Z) : Z :=
  match fuel with
  | O => position
  | S k => if i =? 0 then position else fls_loop k (Z.shiftr i 1) (u32 (position + 1))
  end.

Definition fls (x : Z) : Z :=
  u32 ((if x =? 0 then u32 (-1) else fls_loop 32 (Z.shiftr x 1) 0) + 1).

(** [1UL << fls(size - 1)]: shifting a 32-bit word by 32 or more is undefined. *)
Definition roundup_pow_of_two (size : Z) : outcome Z :=
  let s := fls (u32 (size - 1)) in
  if 32 <=? s then Fault Undefined else Done (u32 (Z.shiftl 1 s)).

(** [mem] says whether the heap can provide the descriptor. *)
Definition afifo_init (mem : bool) (buf : list Z) (size : Z) : outcome (option afifo) :=
  _ ← BUG_ON (negb (is_power_of_2 (s32 size)));
  Done (if mem then Some (Afifo buf size 0 0) else None).

(** [alloc n] is the block [rt_malloc] returns for [n] bytes, if any. *)
Definition afifo_alloc (alloc : Z -> option (list Z)) (mem : bool) (size : Z)
    : outcome (option afifo) :=
  size ← (if negb (is_power_of_2 (s32 size)) then
            _ ← BUG_ON (0x80000000 <? size);
            roundup_pow_of_two size
          else Done size);
  match alloc size with
  | None => Done None
  | Some b => afifo_init mem b size
  end.

Definition afifo_get_used (f : afifo) : Z := u32 (in_ f - out f).
Definition afifo_get_free (f : afifo) : Z := u32 (size f - afifo_get_used f).
Definition mask (f : afifo) (i : Z) : Z := Z.land i (u32 (size f - 1)).

(** Into the ring: [l] bytes up to the end of the buffer, the rest at its start. *)
Definition __afifo_in (f : afifo) (buf : list Z) (len : Z) : outcome (afifo * Z) :=
  let len := min len (u32 (size f - in_ f + out f)) in
  let l := min len (u32 (size f - mask f (in_ f))) in
  xs ← arr_read buf 0 l;
  b1 ← arr_write (buffer f) (mask f (in_ f)) xs;
  ys ← arr_read buf l (u32 (len - l));
  b2 ← arr_write b1 0 ys;
  Done (Afifo b2 (size f) (u32 (in_ f + len)) (out f), len).

(** Out of the ring, without moving [out]: the bytes land in [dst]. *)
Definition __afifo_out_data (f : afifo) (dst : list Z) (len : Z) : outcome (list Z * Z) :=
  let len := min len (u32 (in_ f - out f)) in
  let l := min len (u32 (size f - mask f (out f))) in
  xs ← arr_read (buffer f) (mask f (out f)) l;
  d1 ← arr_write dst 0 xs;
  ys ← arr_read (buffer f) 0 (u32 (len - l));
  d2 ← arr_write d1 l ys;
  Done (d2, len).

Definition __afifo_out (f : afifo) (dst : list Z) (len : Z) : outcome (afifo * list Z * Z) :=
  let len := min len (u32 (in_ f - out f)) in
  let l := min len (u32 (size f - mask f (out f))) in
  xs ← arr_read (buffer f) (mask f (out f)) l;
  d1 ← arr_write dst 0 xs;
  ys ← arr_read (buffer f) 0 (u32 (len - l));
  d2 ← arr_write d1 l ys;
  Done (Afifo (buffer f) (size f) (in_ f) (u32 (out f + len)), d2, len).

(** The same body as [__afifo_in]. *)
Definition __afifo_in_data (f : afifo) (buf : list Z) (len : Z) : outcome (afifo * Z) :=
  let len := min len (u32 (size f - in_ f + out f)) in
  let l := min len (u32 (size f - mask f (in_ f))) in
  xs ← arr_read buf 0 l;
  b1 ← arr_write (buffer f) (mask f (in_ f)) xs;
  ys ← arr_read buf l (u32 (len - l));
  b2 ← arr_write b1 0 ys;
  Done (Afifo b2 (size f) (u32 (in_ f + len)) (out f), len).

(** The lock is a no-op. *)
Definition afifo_in (f : afifo) (buf : list Z) (len : Z) := __afifo_in f buf len.
Definition afifo_in_data (f : afifo) (buf : list Z) (len : Z) := __afifo_in_data f buf len.
Definition afifo_out (f : afifo) (dst : list Z) (len : Z) := __afifo_out f dst len.
Definition afifo_out_data (f : afifo) (dst : list Z) (len : Z) := __afifo_out_data f dst len.

Definition afifo_add_in (f : afifo) (len : Z) : afifo * Z :=
  let len := min len (u32 (size f - in_ f + out f)) in
  (Afifo (buffer f) (size f) (u32 (in_ f + len)) (out f), len).
Definition afifo_add_out (f : afifo) (len : Z) : afifo * Z :=
  let len := min len (u32 (in_ f - out f)) in
  (Afifo (buffer f) (size f) (in_ f) (u32 (out f + len)), len).

Definition afifo_get_in_pointer (f : afifo) : Z := mask f (in_ f).
Definition afifo_get_out_pointer (f : afifo) : Z := mask f (out f).
Definition afifo_get_free_block (f : afifo) : Z := u32 (size f - mask f (out f)).
Definition afifo_size (f : afifo) : Z := size f.
Definition afifo_reset (f : afifo) : afifo := Afifo (buffer f) (size f) 0 0.

(** ** Well-formedness and the queue a ring represents *)

Record af_wf (f : afifo) : Prop := {
  af_pow : exists k, 0 <= k <= 30 /\ size f = 2 ^ k;
  af_len : Z.of_nat (length (buffer f)) = size f;
  af_in : is_u32 (in_ f);
  af_out : is_u32 (out f);
  af_used : afifo_get_used f <= size f;
}.

Definition af_rep (f : afifo) (q : list Z) : Prop :=
  af_wf f /\ Z.of_nat (length q) = afifo_get_used f /\
  forall i, (i < length q)%nat -> ring (buffer f) (out f + Z.of_nat i) = q !! i.

Lemma min_eq a b : min a b = Z.min a b.
Proof. unfold min. destruct (Z.ltb_spec a b); lia. Qed.

Lemma u32_mod k z : 0 <= k <= 32 -> u32 z mod 2 ^ k = z mod 2 ^ k.
Proof.
  intros Hk. unfold u32. apply Z.mod_mod_divide.
  exists (2 ^ (32 - k)). rewrite <- Z.pow_add_r by lia. f_equal. lia.
Qed.

Section wf.
Context (f : afifo) (Hwf : af_wf f).

Lemma size_bounds : 1 <= size f <= 2 ^ 30.
Proof.
  destruct (af_pow f Hwf) as (k & Hk & ->).
  split; [apply (Z.pow_le_mono_r 2 0 k)|apply (Z.pow_le_mono_r 2 k 30)]; lia.
Qed.

Lemma mask_mod i : mask f i = i mod size f.
Proof.
  pose proof size_bounds as Hs. unfold mask. rewrite u32_id by cint.
  destruct (af_pow f Hwf) as (k & Hk & ->).
  rewrite <- Z.land_ones by lia. rewrite Z.ones_equiv. by rewrite <- Z.sub_1_r.
Qed.

Lemma size_mod z : u32 z mod size f = z mod size f.
Proof. destruct (af_pow f Hwf) as (k & Hk & ->). apply u32_mod. lia. Qed.

Lemma congr_mod p p' : u32 p = u32 p' -> p mod size f = p' mod size f.
Proof. intros H. by rewrite <- size_mod, H, size_mod. Qed.

Lemma mask_range i : 0 <= i mod size f < size f.
Proof. apply Z.mod_pos_bound. pose proof size_bounds. lia. Qed.
End wf.

(** ** The abstract queue *)

Inductive fifo_op :=
  | FIn (buf : list Z) (len : Z)
  | FOut (dst : list Z) (len : Z)
  | FPeek (dst : list Z) (len : Z)
  | FSkip (len : Z)
  | FReset.

(** What a call leaves: the fifo, the caller's buffer, the returned count. *)
Definition fifo_step (f : afifo) (op : fifo_op) : outcome (afifo * (list Z * Z)) :=
  match op with
  | FIn buf len => r ← afifo_in f buf len; Done (r.1, ([], r.2))
  | FOut dst len => r ← afifo_out f dst len; Done (r.1.1, (r.1.2, r.2))
  | FPeek dst len => r ← afifo_out_data f dst len; Done (f, (r.1, r.2))
  | FSkip len => Done ((afifo_add_out f len).1, ([], (afifo_add_out f len).2))
  | FReset => Done (afifo_reset f, ([], 0))
  end.

(** A bounded queue: what does not fit is dropped, and the count says so. *)
Definition queue_step (cap : Z) (q : list Z) (op : fifo_op) : list Z * (list Z * Z) :=
  match op with
  | FIn buf len =>
    let n := Z.min len (cap - Z.of_nat (length q)) in (q ++ take (Z.to_nat n) buf, ([], n))
  | FOut dst len =>
    let n := Z.min len (Z.of_nat (length q)) in
    (drop (Z.to_nat n) q, (take (Z.to_nat n) q ++ drop (Z.to_nat n) dst, n))
  | FPeek dst len =>
    let n := Z.min len (Z.of_nat (length q)) in
    (q, (take (Z.to_nat n) q ++ drop (Z.to_nat n) dst, n))
  | FSkip len =>
    let n := Z.min len (Z.of_nat (length q)) in (drop (Z.to_nat n) q, ([], n))
  | FReset => ([], ([], 0))
  end.

Definition op_fits (op : fifo_op) : Prop :=
  match op with
  | FIn buf len | FOut buf len | FPeek buf len => is_u32 len /\ len <= Z.of_nat (length buf)
  | FSkip len => is_u32 len
  | FReset => True
  end.

Section refinement.
Context (f : afifo) (q : list Z) (Hrep : af_rep f q).

Lemma rep_wf : af_wf f.
Proof. apply Hrep. Qed.

Lemma rep_used : u32 (in_ f - out f) = Z.of_nat (length q) /\ Z.of_nat (length q) <= size f.
Proof. destruct Hrep as (Hwf & Hl & _). pose proof (af_used f Hwf). unfold afifo_get_used in *. lia. Qed.

Lemma rep_free : u32 (size f - in_ f + out f) = size f - Z.of_nat (length q).
Proof.
  pose proof rep_used. pose proof (size_bounds f rep_wf). cint.
Qed.

Lemma buffer_nonempty : (0 < length (buffer f))%nat.
Proof. pose proof (size_bounds f rep_wf). pose proof (af_len f rep_wf). lia. Qed.

(** Dropping the first [n] bytes of the queue is moving [out]. *)
Lemma rep_skip n : 0 <= n <= Z.of_nat (length q) ->
  af_rep (Afifo (buffer f) (size f) (in_ f) (u32 (out f + n))) (drop (Z.to_nat n) q).
Proof.
  intros Hn. pose proof rep_used as [Hu Hs]. pose proof (size_bounds f rep_wf) as Hsz.
  assert (u32 (in_ f - u32 (out f + n)) = Z.of_nat (length q) - n) as Hu' by cint.
  destruct Hrep as ([Hpow Hlen Hin Hout Hus] & Hl & Hq).
  split; [|split].
  - split; cbn; auto with cint. unfold afifo_get_used. cbn. rewrite Hu'. lia.
  - unfold afifo_get_used. cbn. rewrite Hu', length_drop. lia.
  - cbn. intros i Hi. rewrite length_drop in Hi. rewrite lookup_drop.
  rewrite <- Hq by lia. apply ring_mod. rewrite Hlen.
  rewrite <- Z.add_mod_idemp_l, (size_mod f rep_wf), Z.add_mod_idemp_l by lia. f_equal. lia.
Qed.

Lemma read_spec dst len : is_u32 len -> len <= Z.of_nat (length dst) ->
  let n := Z.min len (Z.of_nat (length q)) in
  __afifo_out_data f dst len = Done (take (Z.to_nat n) q ++ drop (Z.to_nat n) dst, n).
Proof.
  intros Hlen Hdst n. pose proof rep_used as [Hu Hs]. pose proof buffer_nonempty as Hb.
  pose proof rep_wf as Hwf. pose proof (size_bounds f Hwf) as Hsz. pose proof (mask_range f Hwf (out f)).
  unfold __afifo_out_data. rewrite !mask_mod, !min_eq, Hu by done.
  rewrite (u32_id (size f - _)) by cint. fold n.
  rewrite (u32_id (n - _)) by cint.
  rewrite <- (af_len f Hwf).
  destruct (ring_read (buffer f) (out f) dst n) as (d & He & Hld & H1 & H2);
  [done|rewrite (af_len f Hwf); cint|cint|].
  replay He. rewrite He. cbn. do 2 f_equal. apply list_eq. intros i.
  destruct (decide (i < Z.to_nat n)%nat).
  - rewrite lookup_app_l by (rewrite length_take; lia). rewrite lookup_take_lt by done.
  rewrite <- (Nat2Z.id i) at 1. rewrite H1 by lia. apply Hrep. lia.
  - rewrite H2 by lia. rewrite lookup_app_r by (rewrite length_take; lia).
  rewrite lookup_drop, length_take. f_equal. lia.
Qed.

Lemma in_spec buf len : is_u32 len -> len <= Z.of_nat (length buf) ->
  let n := Z.min len (size f - Z.of_nat (length q)) in
  exists f', __afifo_in f buf len = Done (f', n) /\ size f' = size f
  /\ af_rep f' (q ++ take (Z.to_nat n) buf).
Proof.
  intros Hlen Hbuf n. pose proof rep_used as [Hu Hs]. pose proof buffer_nonempty as Hb.
  pose proof rep_wf as Hwf. pose proof (size_bounds f Hwf) as Hsz. pose proof (mask_range f Hwf (in_ f)).
  unfold __afifo_in. rewrite !mask_mod, !min_eq, rep_free by done. fold n.
  rewrite (u32_id (size f - _)) by cint. rewrite (u32_id (n - _)) by cint.
  destruct (ring_write (buffer f) (in_ f) buf n) as (b' & He & Hlb & Hring);
    [done|rewrite (af_len f Hwf); cint|cint|].
  rewrite (af_len f Hwf) in He, Hring.
  replay He. rewrite He. cbn. eexists. split; [done|]. split; [done|].
  assert (u32 (u32 (in_ f + n) - out f) = Z.of_nat (length q) + n) as Hu' by cint.
  assert (0 <= n <= Z.of_nat (length buf)) as Hn by cint.
  destruct Hrep as ([Hpow Hblen Hin Hout Hus] & Hl & Hq). split; [|split].
  - split; cbn; [done|lia|auto with cint|done|]. unfold afifo_get_used. cbn. rewrite Hu'. lia.
  - unfold afifo_get_used. cbn. rewrite Hu', length_app, length_take. lia.
  - cbn. intros i Hi. rewrite length_app, length_take in Hi.
    set (j := size f - Z.of_nat (length q) + Z.of_nat i).
    assert ((out f + Z.of_nat i) mod size f = (in_ f + j) mod size f) as Hj.
    { rewrite <- (Z.mod_add (out f + Z.of_nat i) 1) by lia. apply congr_mod; [done|]. unfold j. cint. }
    destruct (decide (i < length q)%nat).
    + rewrite lookup_app_l, <- Hq by done.
      rewrite (ring_mod _ _ (in_ f + j)) by (rewrite Hlb, Hblen; exact Hj).
      rewrite Hring by lia. destruct (Z.ltb_spec j n); [lia|].
      apply ring_mod. rewrite Hblen. by rewrite Hj.
    + rewrite lookup_app_r by lia. rewrite lookup_take_lt by lia.
      rewrite (ring_mod _ _ (in_ f + (Z.of_nat i - Z.of_nat (length q)))).
      2:{ rewrite Hlb, Hblen. apply congr_mod; [done|]. cint. }
      rewrite Hring by lia. destruct (Z.ltb_spec (Z.of_nat i - Z.of_nat (length q)) n); [|lia].
      f_equal. lia.
Qed.

Lemma step_refines op : op_fits op ->
  exists f', fifo_step f op = Done (f', (queue_step (size f) q op).2)
  /\ size f' = size f /\ af_rep f' (queue_step (size f) q op).1.
Proof.
  pose proof rep_used as [Hu Hs]. pose proof (size_bounds f rep_wf) as Hsz.
  destruct op as [buf len|dst len|dst len|len|]; cbn [op_fits fifo_step queue_step fst snd].
  - intros [Hlen Hbuf]. destruct (in_spec buf len Hlen Hbuf) as (f' & He & Hsz' & Hr).
    unfold afifo_in. rewrite He. exists f'. done.
  - intros [Hlen Hdst]. exists (Afifo (buffer f) (size f) (in_ f)
    (u32 (out f + Z.min len (Z.of_nat (length q))))).
    split; [|split; [done|apply rep_skip; cint]].
    pose proof (read_spec dst len Hlen Hdst) as He. unfold afifo_out, __afifo_out, __afifo_out_data in *.
    rewrite !min_eq, Hu in *.
    replay He. by simplify_eq.
  - intros [Hlen Hdst]. exists f. unfold afifo_out_data. by rewrite read_spec.
  - intros Hlen. eexists. split; [|split; [|apply (rep_skip (Z.min len (Z.of_nat (length q)))); cint]].
    + unfold afifo_add_out. cbn. by rewrite min_eq, Hu.
    + done.
  - intros _. eexists. split; [done|]. split; [done|].
    destruct Hrep as ([Hpow Hblen Hin Hout Hus] & Hl & Hq). split; [|split; cbn; [done|lia]].
    split; cbn; [done|done|cint|cint|cbn]. unfold afifo_get_used. cbn. cint.
Qed.
End refinement.

(** ** Sequences of calls *)

Fixpoint fifo_run (f : afifo) (ops : list fifo_op) : outcome (afifo * list (list Z * Z)) :=
  match ops with
  | [] => Done (f, [])
  | op :: ops' =>
    r ← fifo_step f op;
    s ← fifo_run r.1 ops';
    Done (s.1, r.2 :: s.2)
  end.

Fixpoint queue_run (cap : Z) (q : list Z) (ops : list fifo_op) : list Z * list (list Z * Z) :=
  match ops with
  | [] => (q, [])
  | op :: ops' =>
    let r := queue_step cap q op in
    let s := queue_run cap r.1 ops' in (s.1, r.2 :: s.2)
  end.

Lemma run_refines ops f q : af_rep f q -> Forall op_fits ops ->
  exists f', fifo_run f ops = Done (f', (queue_run (size f) q ops).2)
    /\ af_rep f' (queue_run (size f) q ops).1 /\ size f' = size f.
Proof.
  intros Hrep Hops. revert f q Hrep. induction Hops as [|op ops Hop Hops IH]; intros f q Hrep.
  { by exists f. }
  destruct (step_refines f q Hrep op Hop) as (f1 & He & Hsz & Hr1).
  destruct (IH _ _ Hr1) as (f2 & He2 & Hr2 & Hsz2). rewrite Hsz in He2, Hr2, Hsz2.
  exists f2. cbn [fifo_run queue_run]. rewrite He. cbn. rewrite He2. done.
Qed.

Lemma halve_pow k (fuel : nat) : 0 <= k < Z.of_nat fuel -> halve fuel (2 ^ k) = true.
Proof.
  revert k. induction fuel as [|fuel IH]; intros k Hk; [lia|]. cbn [halve].
  destruct (Z.eqb_spec (2 ^ k) 1) as [|Hn]; [done|].
  assert (0 < k) as Hk0. { destruct (decide (k = 0)); [by subst|lia]. }
  replace (2 ^ k) with (2 ^ (k - 1) * 2) in *.
  2:{ rewrite Z.mul_comm, <- Z.pow_succ_r by lia. f_equal. lia. }
  rewrite Z.mod_mul, Z.div_mul by lia. apply IH. lia.
Qed.

Lemma is_power_of_2_pow k : 0 <= k <= 30 -> is_power_of_2 (s32 (2 ^ k)) = true.
Proof.
  intros Hk. assert (1 <= 2 ^ k <= 2 ^ 30).
  { split; [apply (Z.pow_le_mono_r 2 0 k)|apply (Z.pow_le_mono_r 2 k 30)]; lia. }
  rewrite s32_id by cint. unfold is_power_of_2.
  rewrite (proj2 (Z.leb_gt _ _)) by lia. destruct (_ =? 1); [done|]. apply halve_pow. lia.
Qed.

Lemma init_rep k buf f : 0 <= k <= 30 -> Z.of_nat (length buf) = 2 ^ k ->
  afifo_init true buf (2 ^ k) = Done (Some f) -> af_rep f [] /\ size f = 2 ^ k.
Proof.
  intros Hk Hbuf. unfold afifo_init. rewrite is_power_of_2_pow by done. cbn. intros [= <-].
  split; [|done]. split; [|split; cbn; [done|lia]]. split; cbn; [by exists k|done|cint|cint|].
  unfold afifo_get_used. cbn. apply (Z.pow_nonneg 2 k). lia.
Qed.

(** C9: From a freshly initialised fifo of any power-of-two size up to 2^30, every
    sequence of in, out, peek, skip and reset calls returns exactly what a bounded
    first-in first-out queue of that capacity returns (bytes and counts), including
    after the indices wrap at 2^32, and used plus free space stays the capacity. *)
Theorem afifo_runs_as_queue k buf f ops :
  0 <= k <= 30 -> Z.of_nat (length buf) = 2 ^ k -> Forall op_fits ops ->
  afifo_init true buf (2 ^ k) = Done (Some f) ->
  exists f', fifo_run f ops = Done (f', (queue_run (2 ^ k) [] ops).2)
    /\ af_rep f' (queue_run (2 ^ k) [] ops).1
    /\ afifo_get_used f' + afifo_get_free f' = 2 ^ k.
Proof.
  intros Hk Hbuf Hops [Hrep Hsz]%init_rep; [|done..].
  destruct (run_refines ops f [] Hrep Hops) as (f' & He & Hr & Hsz'). rewrite Hsz in He, Hr, Hsz'.
  exists f'. split; [done|]. split; [done|].
  destruct (rep_used f' _ Hr) as [Hu Hle]. pose proof (size_bounds f' (proj1 Hr)).
  unfold afifo_get_free, afifo_get_used. rewrite Hu, Hsz' in *. cint.
Qed.

Lemma afifo_runs_as_queue_witness :
  exists f', fifo_run (Afifo (replicate 4 0) 4 0 0)
      [FIn [1; 2; 3] 3; FOut [0; 0] 2; FIn [4; 5; 6; 7] 4; FPeek [0; 0; 0; 0; 0] 5] =
    Done (f', [([], 3); ([1; 2], 2); ([], 3); ([3; 4; 5; 6; 0], 4)])
    /\ af_rep f' [3; 4; 5; 6] /\ afifo_get_used f' + afifo_get_free f' = 4.
Proof.
  apply (afifo_runs_as_queue 2 (replicate 4 0)); [lia|done| |done].
  repeat constructor; cbn; cint.
Defined.

(** ** The capacity [afifo_alloc] asks for *)

Lemma fls_loop_spec fuel i p :
  0 <= i < 2 ^ Z.of_nat fuel -> 0 <= p -> p + Z.of_nat fuel <= 64 ->
  fls_loop fuel i p = p + Z.log2 (2 * i + 1).
Proof.
  revert i p. induction fuel as [|fuel IH]; intros i p Hi Hp Hf.
  { change (2 ^ Z.of_nat 0) with 1 in Hi. replace i with 0 by lia.
    change (Z.log2 (2 * 0 + 1)) with 0. cbn [fls_loop]. lia. }
  cbn [fls_loop]. destruct (Z.eqb_spec i 0) as [->|Hne]; [by rewrite Z.add_0_r|].
  rewrite u32_id by cint. rewrite Z.shiftr_div_pow2 by lia. change (2 ^ 1) with 2.
  rewrite IH; [|rewrite Nat2Z.inj_succ, Z.pow_succ_r in Hi by lia; lia|lia|lia].
  assert (Z.log2 (2 * i + 1) = Z.succ (Z.log2 i)) as -> by (apply Z.log2_succ_double; lia).
  destruct (Z.eq_dec (i mod 2) 1).
  - replace (2 * (i / 2) + 1) with i by lia. lia.
  - rewrite (Z.log2_succ_double (i / 2)), <- (Z.log2_double (i / 2)) by lia.
    replace (2 * (i / 2)) with i by lia. lia.
Qed.

Lemma fls_log2 x : 0 < x < 2 ^ 32 -> fls x = Z.log2 x + 1.
Proof.
  intros Hx. unfold fls. rewrite (proj2 (Z.eqb_neq _ _)) by lia.
  rewrite Z.shiftr_div_pow2 by lia. change (2 ^ 1) with 2.
  rewrite fls_loop_spec by (change (Z.of_nat 32) with 32; lia).
  assert (Z.log2 x < 32) by (apply Z.log2_lt_pow2; lia). pose proof (Z.log2_nonneg x).
  assert (Z.log2 (2 * (x / 2) + 1) = Z.log2 x) as ->; [|rewrite u32_id by cint; lia].
  destruct (Z.eq_dec (x mod 2) 1).
  - f_equal. lia.
  - destruct (Z.eq_dec (x / 2) 0); [lia|].
    rewrite (Z.log2_succ_double (x / 2)), <- (Z.log2_double (x / 2)) by lia. f_equal. lia.
Qed.

Lemma roundup_least n : 2 <= n <= 2 ^ 31 ->
  exists k, 0 <= k <= 31 /\ roundup_pow_of_two n = Done (2 ^ k) /\ 2 ^ (k - 1) < n <= 2 ^ k.
Proof.
  intros Hn. unfold roundup_pow_of_two. rewrite u32_id by cint. rewrite fls_log2 by lia.
  pose proof (Z.log2_spec (n - 1)). pose proof (Z.log2_nonneg (n - 1)).
  assert (Z.log2 (n - 1) < 31) by (apply Z.log2_lt_pow2; lia).
  exists (Z.log2 (n - 1) + 1). split; [lia|].
  rewrite (proj2 (Z.leb_gt _ _)) by lia. rewrite Z.shiftl_1_l.
  assert (2 ^ (Z.log2 (n - 1) + 1) <= 2 ^ 31) by (apply Z.pow_le_mono_r; lia).
  assert (0 <= 2 ^ (Z.log2 (n - 1) + 1)) by (apply Z.pow_nonneg; lia).
  rewrite u32_id by cint. split; [done|].
  rewrite Z.add_simpl_r. change (Z.log2 (n - 1) + 1) with (Z.succ (Z.log2 (n - 1))) in *. lia.
Qed.

Lemma halve_true fuel n : 0 < n -> halve fuel n = true -> exists k, 0 <= k /\ n = 2 ^ k.
Proof.
  revert n. induction fuel as [|fuel IH]; intros n Hn; [done|]. cbn [halve].
  destruct (Z.eqb_spec n 1) as [->|]; [by exists 0|].
  destruct (Z.eqb_spec (n mod 2) 0); [|done].
  intros (k & Hk & Hkn)%IH; [|lia]. exists (k + 1). split; [lia|].
  change (k + 1) with (Z.succ k). rewrite Z.pow_succ_r by lia. lia.
Qed.

(** afifo_alloc gives an empty fifo whose capacity is the least power of two that
    is at least the requested size, for every size from 1 to 2^30. *)
Theorem afifo_alloc_capacity alloc n :
  1 <= n <= 2 ^ 30 ->
  (forall m, 0 <= m <= 2 ^ 30 -> exists b, alloc m = Some b /\ Z.of_nat (length b) = m) ->
  exists f, afifo_alloc alloc true n = Done (Some f) /\ af_rep f []
    /\ n <= afifo_size f < 2 * n.
Proof.
  intros Hn Halloc. unfold afifo_alloc, afifo_size.
  assert (exists k, 0 <= k <= 30 /\ n <= 2 ^ k < 2 * n /\
    (if negb (is_power_of_2 (s32 n)) then _ ← BUG_ON (0x80000000 <? n); roundup_pow_of_two n
     else Done n) = Done (2 ^ k)) as (k & Hk & Hkn & ->).
  { rewrite s32_id by cint. unfold is_power_of_2. rewrite (proj2 (Z.leb_gt _ _)) by lia.
    destruct (Z.eqb_spec n 1) as [->|]; [by exists 0|].
    destruct (halve 32 n) eqn:Hh; cbn [negb].
    - apply halve_true in Hh as (k & Hk & ->); [|lia]. exists k.
      split_and!; [lia| |lia|lia|done].
      apply (Z.pow_le_mono_r_iff 2); lia.
    - rewrite (proj2 (Z.ltb_ge _ _)) by lia. cbn.
      destruct (roundup_least n) as (k & Hk & -> & Hle); [lia|]. exists k.
      assert (2 ^ (k - 1) < 2 ^ 30) as Hlt by lia. apply Z.pow_lt_mono_r_iff in Hlt; [|lia..].
      split_and!; [lia|lia|lia| |done].
      replace (2 ^ k) with (2 * 2 ^ (k - 1)); [lia|].
      destruct (Z.eq_dec k 0) as [->|]; [cbn in *; lia|].
      rewrite <- Z.pow_succ_r by lia. f_equal. lia. }
  assert (2 ^ k <= 2 ^ 30) by (apply Z.pow_le_mono_r; lia).
  destruct (Halloc (2 ^ k)) as (b & Hb & Hlen); [lia|].
  cbn [mbind outcome_bind]. rewrite Hb.
  assert (afifo_init true b (2 ^ k) = Done (Some (Afifo b (2 ^ k) 0 0))) as Hi.
  { unfold afifo_init. by rewrite is_power_of_2_pow by lia. }
  exists (Afifo b (2 ^ k) 0 0). split; [done|]. split; [by eapply init_rep|]. cbn. lia.
Qed.

Lemma afifo_alloc_capacity_witness :
  exists f, afifo_alloc (fun m => Some (replicate (Z.to_nat m) 0)) true 100 = Done (Some f)
    /\ af_rep f [] /\ 100 <= afifo_size f < 200.
Proof.
  apply (afifo_alloc_capacity (fun m => Some (replicate (Z.to_nat m) 0)) 100); [lia|].
  intros m Hm. eexists. split; [done|]. rewrite length_replicate. lia.
Defined.

(** [afifo_get_free_block] is documented as the contiguous space left, but is
    computed from [out]: on a full ring it still reports room. *)
Lemma free_block_from_out f q : af_rep f q -> Z.of_nat (length q) = size f ->
  afifo_get_free f = 0 /\ 1 <= afifo_get_free_block f.
Proof.
  intros Hr Hl. destruct (rep_used f q Hr) as [Hu _]. pose proof (rep_wf f q Hr) as Hwf.
  pose proof (size_bounds f Hwf). pose proof (mask_range f Hwf (out f)).
  unfold afifo_get_free, afifo_get_used, afifo_get_free_block. rewrite Hu, mask_mod by done. cint.
Qed.
