(* ===== verification/Alist.v ===== *)
(** * [abus/alist.h]: the intrusive circular doubly linked list

    A list node is a pair of pointers inside a larger object; the heap maps the
    address of every such pair to its contents.  [LIST_POISON1] and
    [LIST_POISON2] are [NULL] in this port.  Each macro that walks a list is the
    loop it expands to. *)
From S2P Require Import Prelude.

Abbreviation addr := nat (only parsing).

Record list_head := ListHead {
  prev : option addr;
  next : option addr;
}.

Abbreviation heap := (gmap nat list_head) (only parsing).

Definition get_next (h : heap) (a : option addr) : outcome (option addr) :=
  n ← deref h a; Done (next n).
Definition get_prev (h : heap) (a : option addr) : outcome (option addr) :=
  n ← deref h a; Done (prev n).

Arguments get_next : simpl never.
Arguments get_prev : simpl never.

(** [a->next = v] and [a->prev = v]. *)
Definition set_next (h : heap) (a v : option addr) : outcome heap :=
  match a with
  | Some a => n ← deref h (Some a); Done (<[a := ListHead (prev n) v]> h)
  | None => Fault NullDeref
  end.
Definition set_prev (h : heap) (a v : option addr) : outcome heap :=
  match a with
  | Some a => n ← deref h (Some a); Done (<[a := ListHead v (next n)]> h)
  | None => Fault NullDeref
  end.

Definition INIT_LIST_HEAD (h : heap) (l : option addr) : outcome heap :=
  h ← set_next h l l; set_prev h l l.

(** The order of the two stores is the only difference. *)
Definition init_list_head (h : heap) (l : option addr) : outcome heap :=
  h ← set_prev h l l; set_next h l l.

Definition __list_add (h : heap) (_new prev next : option addr) : outcome heap :=
  h ← set_prev h next _new;
  h ← set_next h _new next;
  h ← set_prev h _new prev;
  set_next h prev _new.

Definition list_add (h : heap) (_new head : option addr) : outcome heap :=
  n ← get_next h head; __list_add h _new head n.

Definition list_add_tail (h : heap) (_new head : option addr) : outcome heap :=
  p ← get_prev h head; __list_add h _new p head.

Definition __list_del (h : heap) (prev next : option addr) : outcome heap :=
  h ← set_next h prev next; set_prev h next prev.

Definition LIST_POISON1 : option addr := None.
Definition LIST_POISON2 : option addr := None.

Definition list_del (h : heap) (entry : option addr) : outcome heap :=
  p ← get_prev h entry;
  n ← get_next h entry;
  h ← __list_del h p n;
  h ← set_next h entry LIST_POISON1;
  set_prev h entry LIST_POISON2.

Definition __list_splice (h : heap) (list head : option addr) : outcome heap :=
  first ← get_next h list;
  last ← get_prev h list;
  at_ ← get_next h head;
  h ← set_prev h first head;
  h ← set_next h head first;
  h ← set_next h last at_;
  set_prev h at_ last.

Definition list_empty (h : heap) (head : option addr) : outcome bool :=
  n ← get_next h head; Done (bool_decide (n = head)).

Definition list_splice (h : heap) (list head : option addr) : outcome heap :=
  e ← list_empty h list;
  if (e : bool) then Done h else __list_splice h list head.

Definition list_replace (h : heap) (old _new : option addr) : outcome heap :=
  n ← get_next h old;
  h ← set_next h _new n;
  n' ← get_next h _new;
  h ← set_prev h n' _new;
  p ← get_prev h old;
  h ← set_prev h _new p;
  p' ← get_prev h _new;
  set_next h p' _new.

Definition list_replace_init (h : heap) (old _new : option addr) : outcome heap :=
  h ← list_replace h old _new; INIT_LIST_HEAD h old.

Definition list_move (h : heap) (list head : option addr) : outcome heap :=
  p ← get_prev h list; n ← get_next h list;
  h ← __list_del h p n; list_add h list head.

Definition list_move_tail (h : heap) (list head : option addr) : outcome heap :=
  p ← get_prev h list; n ← get_next h list;
  h ← __list_del h p n; list_add_tail h list head.

(** [list_for_each]: the cursors visited, for a body that leaves the heap alone;
    [None] when [fuel] rounds do not end the walk. *)
Fixpoint list_for_each (fuel : nat) (h : heap) (pos head : option addr) : outcome (option (list addr)) :=
  match fuel with
  | O => Done None
  | S k =>
    if bool_decide (pos = head) then Done (Some [])
    else match pos with
         | None => Fault NullDeref
         | Some a =>
           n ← get_next h pos;
           r ← list_for_each k h n head;
           Done (option_map (cons a) r)
         end
  end.

(** The loop of [list_length] never moves its cursor: [fuel] rounds of it. *)
Fixpoint list_length (fuel : nat) (h : heap) (l : option addr) (cnt : Z) : outcome (option Z) :=
  match fuel with
  | O => Done None
  | S k =>
    n ← get_next h l;
    if bool_decide (n = l) then Done (Some cnt) else list_length k h l (s32 (cnt + 1))
  end.

(** ** Rings of nodes *)

Definition nxt (h : heap) (a : addr) : option addr := h !! a ≫= next.
Definition prv (h : heap) (a : addr) : option addr := h !! a ≫= prev.
Definition linked (h : heap) (a b : addr) : Prop := nxt h a = Some b /\ prv h b = Some a.

Fixpoint path (h : heap) (a : addr) (l : list addr) (b : addr) : Prop :=
  match l with
  | [] => linked h a b
  | x :: l' => linked h a x /\ path h x l' b
  end.

(** [head] is the sentinel of a ring whose entries are [l], in order. *)
Definition dll (h : heap) (head : addr) (l : list addr) : Prop :=
  path h head l head /\ NoDup (head :: l).

Lemma path_app h a l1 x l2 b : path h a (l1 ++ x :: l2) b <-> path h a l1 x /\ path h x l2 b.
Proof. revert a. induction l1 as [|y l1 IH]; intros a; cbn; [done|]. rewrite IH. tauto. Qed.

(** A path reads [nxt] of its sources and [prv] of its targets. *)
Lemma path_frame h h' a l b :
  (forall c, c ∈ a :: l -> nxt h' c = nxt h c) -> (forall c, c ∈ l ++ [b] -> prv h' c = prv h c) ->
  path h a l b -> path h' a l b.
Proof.
  revert a. induction l as [|x l IH]; cbn; intros a Hn Hp.
  - unfold linked. rewrite Hn, Hp by set_solver. done.
  - unfold linked at 1 2. rewrite Hn, Hp by set_solver. intros [? ?]; split; [done|].
    apply IH; [..|done]; intros; [apply Hn|apply Hp]; set_solver.
Qed.

Lemma nxt_None h a : h !! a = None -> nxt h a = None.
Proof. unfold nxt. by intros ->. Qed.

Lemma linked_dom h a b : linked h a b -> is_Some (h !! a) /\ is_Some (h !! b).
Proof.
  unfold linked, nxt, prv. intros [Ha Hb].
  destruct (h !! a), (h !! b); cbn in *; naive_solver.
Qed.

Lemma get_next_nxt h a b : nxt h a = Some b -> get_next h (Some a) = Done (Some b).
Proof. unfold nxt, get_next, deref. cbn. destruct (h !! a); cbn; congruence. Qed.
Lemma get_prev_prv h a b : prv h a = Some b -> get_prev h (Some a) = Done (Some b).
Proof. unfold prv, get_prev, deref. cbn. destruct (h !! a); cbn; congruence. Qed.

(** A store changes one field of one node. *)
Lemma set_next_ok h a v : is_Some (h !! a) -> exists h', set_next h (Some a) v = Done h'
  /\ (forall c, nxt h' c = if decide (c = a) then v else nxt h c)
  /\ (forall c, prv h' c = prv h c) /\ (forall c, is_Some (h' !! c) <-> is_Some (h !! c)).
Proof.
  intros [n Hn]. unfold set_next. rewrite (deref_ok _ _ _ Hn). cbn [mbind outcome_bind]. eexists. split; [done|]. unfold nxt, prv.
  split_and!; intros c; rewrite lookup_insert; repeat case_decide; subst; try done;
    rewrite ?Hn; cbn; naive_solver.
Qed.
Lemma set_prev_ok h a v : is_Some (h !! a) -> exists h', set_prev h (Some a) v = Done h'
  /\ (forall c, prv h' c = if decide (c = a) then v else prv h c)
  /\ (forall c, nxt h' c = nxt h c) /\ (forall c, is_Some (h' !! c) <-> is_Some (h !! c)).
Proof.
  intros [n Hn]. unfold set_prev. rewrite (deref_ok _ _ _ Hn). cbn [mbind outcome_bind]. eexists. split; [done|]. unfold nxt, prv.
  split_and!; intros c; rewrite lookup_insert; repeat case_decide; subst; try done;
    rewrite ?Hn; cbn; naive_solver.
Qed.

(** *** Cutting a ring at one link *)

Definition pred_of (a : addr) (l1 : list addr) : addr := default a (list.last l1).
Definition succ_of (b : addr) (l2 : list addr) : addr := default b (list.head l2).
Definition left_ok (h : heap) (a : addr) (l1 : list addr) : Prop :=
  forall l p, l1 = l ++ [p] -> path h a l p.
Definition right_ok (h : heap) (l2 : list addr) (b : addr) : Prop :=
  forall n l, l2 = n :: l -> path h n l b.

Lemma path_cut h a l1 l2 b : path h a (l1 ++ l2) b ->
  left_ok h a l1 /\ right_ok h l2 b /\ linked h (pred_of a l1) (succ_of b l2).
Proof.
  unfold pred_of, succ_of, left_ok, right_ok.
  destruct l1 as [|p l1 _] using rev_ind.
  - destruct l2 as [|n l2]; cbn; intros H; split_and!; try done; try naive_solver;
      intros; by destruct l.
  - rewrite <- app_assoc. cbn. rewrite path_app, last_snoc. intros [H1 H2]. split_and!.
    + by intros ? ? [-> [= ->]]%app_inj_2.
    + intros n l ->. apply H2.
    + by destruct l2; [|destruct H2].
Qed.

Lemma path_join h a l1 l2 b : left_ok h a l1 -> right_ok h l2 b ->
  linked h (pred_of a l1) (succ_of b l2) -> path h a (l1 ++ l2) b.
Proof.
  unfold pred_of, succ_of. intros Hl Hr.
  assert (forall p, linked h p (default b (list.head l2)) -> path h p l2 b) as Hr'.
  { intros p Hp. destruct l2 as [|n l2]; [done|]. split; [done|by apply Hr]. }
  destruct l1 as [|p l1 _] using rev_ind; cbn; [by apply Hr'|].
  rewrite last_snoc, <- app_assoc. cbn. rewrite path_app. split; [by apply Hl|by apply Hr'].
Qed.

Lemma halves_frame h h' a l1 l2 b :
  NoDup (a :: l1 ++ l2) -> b ∉ l1 ++ l2 ->
  (forall c, c ∈ a :: l1 ++ l2 -> c <> pred_of a l1 -> nxt h' c = nxt h c) ->
  (forall c, c ∈ l1 ++ l2 ++ [b] -> c <> succ_of b l2 -> prv h' c = prv h c) ->
  left_ok h a l1 -> right_ok h l2 b -> left_ok h' a l1 /\ right_ok h' l2 b.
Proof.
  unfold pred_of, succ_of. intros Hnd Hb Hn Hp Hl Hr. split.
  - intros l p ->. apply (path_frame h); [| |by apply Hl]; rewrite last_snoc in Hn; cbn in *;
      rewrite <- app_assoc in *; cbn in *.
    + intros c Hc. apply Hn; [set_solver|].
      intros ->. change (a :: l ++ p :: l2) with ((a :: l) ++ p :: l2) in Hnd.
      apply NoDup_app in Hnd as (_ & Hd & _). specialize (Hd _ Hc). set_solver.
    + intros c Hc. apply Hp; [set_solver|]. intros ->.
      apply NoDup_cons in Hnd as [_ Hnd]. destruct l2 as [|n l2]; cbn in *; [set_solver|].
      change (p :: n :: l2) with ([p] ++ n :: l2) in Hnd. rewrite app_assoc in Hnd.
      apply NoDup_app in Hnd as (_ & Hd & _). specialize (Hd _ Hc). set_solver.
  - intros n l ->. apply (path_frame h); [| |by apply Hr]; cbn in *.
    + intros c Hc. apply Hn; [set_solver|]. intros ->.
      change (a :: l1 ++ n :: l) with ((a :: l1) ++ n :: l) in Hnd.
      apply NoDup_app in Hnd as (_ & Hd & _). apply (Hd (default a (list.last l1))); [|done].
      destruct (list.last l1) eqn:E; cbn; [|set_solver].
      apply last_Some in E as [l' ->]. set_solver.
    + intros c Hc. apply Hp; [set_solver|]. intros ->.
      apply NoDup_cons in Hnd as [_ Hnd]. apply NoDup_app in Hnd as (_ & _ & Hd).
      apply NoDup_cons in Hd as [Hd _]. set_solver.
Qed.

(** *** The stores of the operations *)

Ltac store :=
  match goal with
  | |- context [set_next ?h (Some ?a) ?v] =>
    let h' := fresh "h" in let Hn := fresh "Hn" in let Hp := fresh "Hp" in let Hd := fresh "Hd" in
    destruct (set_next_ok h a v) as (h' & -> & Hn & Hp & Hd);
    [by repeat match goal with H : forall c, is_Some _ <-> _ |- _ => apply H; clear H end
    |cbn [mbind outcome_bind]]
  | |- context [set_prev ?h (Some ?a) ?v] =>
    let h' := fresh "h" in let Hn := fresh "Hn" in let Hp := fresh "Hp" in let Hd := fresh "Hd" in
    destruct (set_prev_ok h a v) as (h' & -> & Hn & Hp & Hd);
    [by repeat match goal with H : forall c, is_Some _ <-> _ |- _ => apply H; clear H end
    |cbn [mbind outcome_bind]]
  end.

(** Read the fields through all the stores. *)
Ltac through := repeat match goal with
  | H : forall c, nxt _ c = _ |- _ => rewrite H; clear H
  | H : forall c, prv _ c = _ |- _ => rewrite H; clear H
  end.

Lemma list_add_stores h x p n :
  is_Some (h !! x) -> is_Some (h !! p) -> is_Some (h !! n) ->
  exists h', __list_add h (Some x) (Some p) (Some n) = Done h'
  /\ (forall c, nxt h' c = if decide (c = p) then Some x else if decide (c = x) then Some n else nxt h c)
  /\ (forall c, prv h' c = if decide (c = x) then Some p else if decide (c = n) then Some x else prv h c)
  /\ (forall c, is_Some (h' !! c) <-> is_Some (h !! c)).
Proof.
  intros Hx Hp Hn. unfold __list_add. do 4 store. eexists. split; [done|].
  split_and!; intros c; [by through..|]. naive_solver.
Qed.

Lemma list_del_stores h x p n :
  prv h x = Some p -> nxt h x = Some n -> is_Some (h !! p) -> is_Some (h !! n) ->
  exists h', list_del h (Some x) = Done h'
  /\ (forall c, nxt h' c = if decide (c = x) then None else if decide (c = p) then Some n else nxt h c)
  /\ (forall c, prv h' c = if decide (c = x) then None else if decide (c = n) then Some p else prv h c)
  /\ (forall c, is_Some (h' !! c) <-> is_Some (h !! c)).
Proof.
  intros Hpx Hnx Hp Hn. assert (is_Some (h !! x)).
  { unfold nxt in Hnx. destruct (h !! x); [eauto|done]. }
  unfold list_del, __list_del, LIST_POISON1, LIST_POISON2.
  rewrite (get_prev_prv _ _ _ Hpx), (get_next_nxt _ _ _ Hnx). cbn [mbind outcome_bind].
  do 4 store. eexists. split; [done|].
  split_and!; intros c; [by through..|]. naive_solver.
Qed.

(** ** The operations on a ring are operations on its list of entries *)

Lemma path_dom h a l b c : path h a l b -> c ∈ a :: l ++ [b] -> is_Some (h !! c).
Proof.
  revert a. induction l as [|x l IH]; intros a; cbn.
  - intros [Ha Hb]%linked_dom Hc. set_solver.
  - intros [[Ha Hx]%linked_dom Hp] [->|Hc]%elem_of_cons; [done|]. by apply (IH x).
Qed.

Lemma pred_of_in a l : pred_of a l ∈ a :: l.
Proof.
  unfold pred_of. destruct (last l) eqn:E; cbn; [|set_solver].
  apply last_Some in E as [l' ->]. set_solver.
Qed.
Lemma succ_of_in b l : succ_of b l ∈ b :: l.
Proof. destruct l; set_solver. Qed.

Section ring.
Context (h : heap) (head : addr).
Implicit Types (l : list addr) (x : addr).

Lemma dll_dom l c : dll h head l -> c ∈ head :: l -> is_Some (h !! c).
Proof. intros [Hp _] Hc. apply (path_dom _ _ _ _ _ Hp). set_solver. Qed.

(** Any heap that links [x] between the two halves holds the longer ring. *)
Lemma dll_link h' l1 l2 x :
  left_ok h head l1 -> right_ok h l2 head -> NoDup (head :: l1 ++ l2) -> x ∉ head :: l1 ++ l2 ->
  (forall c, nxt h' c = if decide (c = pred_of head l1) then Some x
              else if decide (c = x) then Some (succ_of head l2) else nxt h c) ->
  (forall c, prv h' c = if decide (c = x) then Some (pred_of head l1)
              else if decide (c = succ_of head l2) then Some x else prv h c) ->
  dll h' head (l1 ++ x :: l2).
Proof.
  intros Hl Hr Hnd Hx Hn Hpv.
  pose proof (pred_of_in head l1) as Hp. pose proof (succ_of_in head l2) as Hs.
  destruct (halves_frame h h' head l1 l2 head) as [Hl' Hr']; try done.
  - apply NoDup_cons in Hnd as [? _]. done.
  - intros c Hc Hne. rewrite Hn. rewrite !decide_False; [done|set_solver..].
  - intros c Hc Hne. rewrite Hpv. rewrite !decide_False; [done|set_solver..].
  - split.
    + apply path_join; [done| |].
      * intros ? ? [= <- <-]. apply (path_join _ _ []); [by intros []|done|].
        split; [rewrite Hn|rewrite Hpv]; cbn;
          (rewrite decide_False, decide_True by set_solver; done).
      * split; [rewrite Hn|rewrite Hpv]; by rewrite decide_True.
    + rewrite <- Permutation_middle. rewrite Permutation_swap. by constructor.
Qed.

(** Inserting [x] between [l1] and [l2]. *)
Lemma dll_insert l1 l2 x : dll h head (l1 ++ l2) -> x ∉ head :: l1 ++ l2 -> is_Some (h !! x) ->
  exists h', __list_add h (Some x) (Some (pred_of head l1)) (Some (succ_of head l2)) = Done h'
  /\ dll h' head (l1 ++ x :: l2) /\ (forall c, is_Some (h' !! c) <-> is_Some (h !! c)).
Proof.
  intros Hd Hx Hxd. pose proof (pred_of_in head l1) as Hp. pose proof (succ_of_in head l2) as Hs.
  destruct (list_add_stores h x (pred_of head l1) (succ_of head l2)) as (h' & He & Hn & Hpv & Hdom);
  [done|eapply dll_dom; [done|set_solver]..|].
  exists h'. split; [done|]. split; [|done]. destruct Hd as [Hpath Hnd].
  destruct (path_cut _ _ _ _ _ Hpath) as (Hl & Hr & _). by apply dll_link.
Qed.

(** Unlinking [x]; [dll_cut] gives its neighbours. *)
Lemma dll_neighbours l1 x l2 : dll h head (l1 ++ x :: l2) ->
  prv h x = Some (pred_of head l1) /\ nxt h x = Some (succ_of head l2).
Proof.
  intros [Hp _]. split.
  - apply path_cut in Hp as (_ & _ & _ & H). done.
  - replace (l1 ++ x :: l2) with ((l1 ++ [x]) ++ l2) in Hp by by rewrite <- app_assoc.
  apply path_cut in Hp as (_ & _ & H & _). unfold pred_of in H. by rewrite last_snoc in H.
Qed.

Lemma dll_halves l1 x l2 : dll h head (l1 ++ x :: l2) ->
  left_ok h head l1 /\ right_ok h l2 head /\ NoDup (head :: l1 ++ l2) /\ x ∉ head :: l1 ++ l2.
Proof.
  intros [Hpath Hnd]. destruct (path_cut _ _ _ _ _ Hpath) as (Hl & _ & _).
  replace (l1 ++ x :: l2) with ((l1 ++ [x]) ++ l2) in Hpath by by rewrite <- app_assoc.
  destruct (path_cut _ _ _ _ _ Hpath) as (_ & Hr & _).
  rewrite <- Permutation_middle, Permutation_swap in Hnd. apply NoDup_cons in Hnd. tauto.
Qed.

(** Any heap whose two neighbours of [x] were joined holds the ring without it. *)
Lemma dll_unlink h' l1 x l2 : dll h head (l1 ++ x :: l2) ->
  (forall c, c <> x -> nxt h' c = if decide (c = pred_of head l1) then Some (succ_of head l2) else nxt h c) ->
  (forall c, c <> x -> prv h' c = if decide (c = succ_of head l2) then Some (pred_of head l1) else prv h c) ->
  dll h' head (l1 ++ l2) /\ x ∉ head :: l1 ++ l2.
Proof.
  intros Hd Hn Hpv. destruct (dll_halves _ _ _ Hd) as (Hl & Hr & Hnd' & Hx).
  split; [|done]. split; [|done].
  pose proof (pred_of_in head l1). pose proof (succ_of_in head l2).
  destruct (halves_frame h h' head l1 l2 head) as [Hl' Hr']; try done.
  - by apply NoDup_cons in Hnd' as [? _].
  - intros c Hc Hne. rewrite Hn by set_solver. by rewrite decide_False.
  - intros c Hc Hne. rewrite Hpv by set_solver. by rewrite decide_False.
  - apply path_join; [done..|].
  split; [rewrite Hn by set_solver|rewrite Hpv by set_solver]; by rewrite decide_True.
Qed.

Lemma dll_del l1 x l2 : dll h head (l1 ++ x :: l2) ->
  exists h', list_del h (Some x) = Done h' /\ dll h' head (l1 ++ l2)
  /\ nxt h' x = None /\ prv h' x = None /\ (forall c, is_Some (h' !! c) <-> is_Some (h !! c)).
Proof.
  intros Hd. destruct (dll_neighbours _ _ _ Hd) as [Hpx Hnx].
  pose proof (pred_of_in head l1). pose proof (succ_of_in head l2).
  destruct (list_del_stores h x _ _ Hpx Hnx) as (h' & He & Hn & Hpv & Hdom);
  [eapply dll_dom; [done|set_solver]..|].
  exists h'. split; [done|]. split_and!; [..|done].
  - apply (dll_unlink h' l1 x l2 Hd); intros c Hc; [rewrite Hn|rewrite Hpv]; by rewrite decide_False.
  - by rewrite Hn, decide_True.
  - by rewrite Hpv, decide_True.
Qed.

(** [__list_del] alone leaves the fields of the entry as they were. *)
Lemma dll_raw_del l1 x l2 : dll h head (l1 ++ x :: l2) ->
  exists h', __list_del h (Some (pred_of head l1)) (Some (succ_of head l2)) = Done h'
  /\ dll h' head (l1 ++ l2) /\ x ∉ head :: l1 ++ l2
  /\ (forall c, is_Some (h' !! c) <-> is_Some (h !! c)).
Proof.
  intros Hd. pose proof (pred_of_in head l1). pose proof (succ_of_in head l2).
  assert (is_Some (h !! pred_of head l1)) by (eapply dll_dom; [done|set_solver]).
  assert (is_Some (h !! succ_of head l2)) by (eapply dll_dom; [done|set_solver]).
  unfold __list_del. do 2 store. eexists. split; [done|].
  assert (forall c, nxt h1 c = if decide (c = pred_of head l1) then Some (succ_of head l2) else nxt h c) as Hn'
  by (intros; by through).
  assert (forall c, prv h1 c = if decide (c = succ_of head l2) then Some (pred_of head l1) else prv h c) as Hp'
  by (intros; by through).
  destruct (dll_unlink h1 l1 x l2 Hd) as [Hdll Hnotin]; [by auto..|].
  split_and!; [done|done|]. naive_solver.
Qed.
End ring.

(** *** A reference semantics *)

Inductive alist_op :=
  | AAdd (x : addr)
  | AAddTail (x : addr)
  | ADel (x : addr)
  | AMove (x : addr)
  | AMoveTail (x : addr)
  | AReplace (old _new : addr).

Definition alist_step (h : heap) (head : addr) (op : alist_op) : outcome heap :=
  match op with
  | AAdd x => list_add h (Some x) (Some head)
  | AAddTail x => list_add_tail h (Some x) (Some head)
  | ADel x => list_del h (Some x)
  | AMove x => list_move h (Some x) (Some head)
  | AMoveTail x => list_move_tail h (Some x) (Some head)
  | AReplace old _new => list_replace h (Some old) (Some _new)
  end.

Definition alist_spec (l : list addr) (op : alist_op) : list addr :=
  match op with
  | AAdd x => x :: l
  | AAddTail x => l ++ [x]
  | ADel x => filter (.≠ x) l
  | AMove x => x :: filter (.≠ x) l
  | AMoveTail x => filter (.≠ x) l ++ [x]
  | AReplace old _new => (fun a => if decide (a = old) then _new else a) <$> l
  end.

Definition alist_pre (h : heap) (head : addr) (l : list addr) (op : alist_op) : Prop :=
  match op with
  | AAdd x | AAddTail x => x ∉ head :: l /\ is_Some (h !! x)
  | ADel x | AMove x | AMoveTail x => x ∈ l
  | AReplace old _new => old ∈ l /\ _new ∉ head :: l /\ is_Some (h !! _new)
  end.

Lemma filter_notin (x : addr) (l : list addr) : x ∉ l -> filter (.≠ x) l = l.
Proof.
  induction l as [|a l IH]; [done|]. intros Hx.
  rewrite filter_cons_True by set_solver. by rewrite IH by set_solver.
Qed.

Lemma filter_split (x : addr) l1 l2 : NoDup (l1 ++ x :: l2) -> filter (.≠ x) (l1 ++ x :: l2) = l1 ++ l2.
Proof.
  intros Hnd. rewrite filter_app, filter_cons_False by tauto.
  rewrite <- Permutation_middle in Hnd. apply NoDup_cons in Hnd as [Hx _].
  by rewrite !filter_notin by set_solver.
Qed.

Lemma dll_NoDup h head l : dll h head l -> NoDup l.
Proof. by intros [_ [_ ?]%NoDup_cons]. Qed.

Lemma list_add_spec h head l x : dll h head l -> x ∉ head :: l -> is_Some (h !! x) ->
  exists h', list_add h (Some x) (Some head) = Done h' /\ dll h' head (x :: l)
    /\ (forall c, is_Some (h' !! c) <-> is_Some (h !! c)).
Proof.
  intros Hd Hx Hxd. unfold list_add.
  destruct (path_cut h head [] l head (proj1 Hd)) as (_ & _ & Hn & _).
  cbn in Hn. rewrite (get_next_nxt _ _ _ Hn). cbn [mbind outcome_bind].
  by apply (dll_insert h head [] l x).
Qed.

Lemma list_add_tail_spec h head l x : dll h head l -> x ∉ head :: l -> is_Some (h !! x) ->
  exists h', list_add_tail h (Some x) (Some head) = Done h' /\ dll h' head (l ++ [x])
    /\ (forall c, is_Some (h' !! c) <-> is_Some (h !! c)).
Proof.
  intros Hd Hx Hxd. unfold list_add_tail.
  pose proof (proj1 Hd) as Hp. rewrite <- (app_nil_r l) in Hp.
  destruct (path_cut h head l [] head Hp) as (_ & _ & _ & Hpv).
  cbn in Hpv. rewrite (get_prev_prv _ _ _ Hpv). cbn [mbind outcome_bind].
  apply (dll_insert h head l [] x); by rewrite ?app_nil_r.
Qed.

Lemma replace_notin (old new : addr) (l : list addr) : old ∉ l ->
  (fun a => if decide (a = old) then new else a) <$> l = l.
Proof.
  induction l as [|a l IH]; [done|]. intros Hx. cbn.
  rewrite decide_False by set_solver. by rewrite IH by set_solver.
Qed.

Lemma list_replace_spec h head l1 old l2 new :
  dll h head (l1 ++ old :: l2) -> new ∉ head :: l1 ++ old :: l2 -> is_Some (h !! new) ->
  exists h', list_replace h (Some old) (Some new) = Done h'
    /\ dll h' head ((fun a => if decide (a = old) then new else a) <$> l1 ++ old :: l2)
    /\ (forall c, is_Some (h' !! c) <-> is_Some (h !! c)).
Proof.
  intros Hd Hnew Hnd. destruct (dll_neighbours _ _ _ _ _ Hd) as [Hpx Hnx].
  destruct (dll_halves _ _ _ _ _ Hd) as (Hl & Hr & Hnd' & Hx).
  pose proof (pred_of_in head l1) as Hp. pose proof (succ_of_in head l2) as Hs.
  assert (is_Some (h !! pred_of head l1)) by (eapply dll_dom; [done|set_solver]).
  assert (is_Some (h !! succ_of head l2)) by (eapply dll_dom; [done|set_solver]).
  assert (is_Some (h !! old)) by (eapply dll_dom; [done|set_solver]).
  unfold list_replace. rewrite (get_next_nxt _ _ _ Hnx). cbn [mbind outcome_bind].
  store. rewrite (get_next_nxt _ _ (succ_of head l2)) by (through; by rewrite decide_True).
  cbn [mbind outcome_bind]. store.
  rewrite (get_prev_prv _ _ (pred_of head l1)) by (through; by rewrite decide_False by set_solver).
  cbn [mbind outcome_bind]. store.
  rewrite (get_prev_prv _ _ (pred_of head l1)) by (through; by rewrite decide_True).
  cbn [mbind outcome_bind]. store.
  eexists. split; [done|]. split; [|naive_solver].
  rewrite fmap_app, fmap_cons, decide_True by done.
  rewrite !replace_notin by set_solver.
  apply (dll_link h); [done..|set_solver| |]; intros c; through; repeat case_decide; congruence.
Qed.

(** C35: On a well-formed ring, list_add, list_add_tail, list_del, list_move,
    list_move_tail and list_replace never dereference a bad pointer and leave a
    well-formed ring whose entries are the list operation's result. *)
Theorem alist_refines_list h head l op :
  dll h head l -> alist_pre h head l op ->
  exists h', alist_step h head op = Done h' /\ dll h' head (alist_spec l op)
    /\ (forall c, is_Some (h' !! c) <-> is_Some (h !! c)).
Proof.
  intros Hd. destruct op as [x|x|x|x|x|old new]; cbn.
  - intros [Hx Hxd]. by apply list_add_spec.
  - intros [Hx Hxd]. by apply list_add_tail_spec.
  - intros (l1 & l2 & ->)%list_elem_of_split. rewrite filter_split by by eapply dll_NoDup.
    destruct (dll_del h head l1 x l2 Hd) as (h' & ? & ? & _ & _ & ?). by exists h'.
  - intros (l1 & l2 & ->)%list_elem_of_split. rewrite filter_split by by eapply dll_NoDup.
    destruct (dll_neighbours _ _ _ _ _ Hd) as [Hpx Hnx].
    destruct (dll_raw_del h head l1 x l2 Hd) as (h1 & He & Hd1 & Hx1 & Hdom).
    unfold list_move. rewrite (get_prev_prv _ _ _ Hpx), (get_next_nxt _ _ _ Hnx).
    cbn [mbind outcome_bind]. rewrite He. cbn [mbind outcome_bind].
    destruct (list_add_spec h1 head (l1 ++ l2) x Hd1 Hx1) as (h2 & ? & ? & Hdom2).
    { apply Hdom. eapply dll_dom; [done|set_solver]. }
    exists h2. split_and!; [done..|]. naive_solver.
  - intros (l1 & l2 & ->)%list_elem_of_split. rewrite filter_split by by eapply dll_NoDup.
    destruct (dll_neighbours _ _ _ _ _ Hd) as [Hpx Hnx].
    destruct (dll_raw_del h head l1 x l2 Hd) as (h1 & He & Hd1 & Hx1 & Hdom).
    unfold list_move_tail. rewrite (get_prev_prv _ _ _ Hpx), (get_next_nxt _ _ _ Hnx).
    cbn [mbind outcome_bind]. rewrite He. cbn [mbind outcome_bind].
    destruct (list_add_tail_spec h1 head (l1 ++ l2) x Hd1 Hx1) as (h2 & ? & ? & Hdom2).
    { apply Hdom. eapply dll_dom; [done|set_solver]. }
    exists h2. split_and!; [done..|]. naive_solver.
  - intros ((l1 & l2 & ->)%list_elem_of_split & Hnew & Hnd). by apply list_replace_spec.
Qed.

(** A ring with sentinel 0 and entries 1, 2, and a loose node 3. *)
Definition ex_ring : heap :=
  {[ 0%nat := ListHead (Some 2%nat) (Some 1%nat); 1%nat := ListHead (Some 0%nat) (Some 2%nat);
     2%nat := ListHead (Some 1%nat) (Some 0%nat); 3%nat := ListHead None None ]}.

Lemma ex_ring_dll : dll ex_ring 0%nat [1; 2]%nat.
Proof. split; [repeat split|]. apply (bool_decide_unpack _). reflexivity. Qed.

Lemma alist_refines_list_witness :
  exists h', alist_step ex_ring 0%nat (AReplace 1%nat 3%nat) = Done h' /\ dll h' 0%nat [3; 2]%nat
    /\ (forall c, is_Some (h' !! c) <-> is_Some (ex_ring !! c)).
Proof.
  apply (alist_refines_list ex_ring 0%nat [1; 2]%nat (AReplace 1%nat 3%nat) ex_ring_dll).
  cbn. split_and!; [set_solver|set_solver|]. eexists. reflexivity.
Defined.

(** ** Walking the ring *)

Lemma list_for_each_spec h head l a (fuel : nat) :
  path h a l head -> NoDup (head :: l) -> (length l < fuel)%nat ->
  list_for_each fuel h (nxt h a) (Some head) = Done (Some l).
Proof.
  revert a fuel. induction l as [|x l IH]; intros a [|fuel] Hp Hnd Hf; cbn in Hf; [lia| |lia|].
  - destruct Hp as [-> _]. cbn. by rewrite bool_decide_true.
  - destruct Hp as [[-> _] Hp]. cbn.
    apply NoDup_cons in Hnd as [Hh [Hx Hnd]%NoDup_cons].
    rewrite bool_decide_false by set_solver.
    assert (exists b, nxt h x = Some b) as [b Hb].
    { destruct l; destruct Hp as [Hq _]; eauto. destruct Hq. eauto. }
    rewrite (get_next_nxt _ _ _ Hb), <- Hb. cbn [mbind outcome_bind].
    rewrite IH; [done|done| |lia]. apply NoDup_cons. split; [set_solver|done].
Qed.

(** list_for_each visits the entries of a ring once each in order and ends, while
    list_length ends only on an empty ring: its loop never moves the cursor, so no
    number of rounds finishes it on a non-empty one. *)
Theorem list_length_hangs h head l (fuel : nat) cnt :
  dll h head l ->
  (l = [] -> list_length (S fuel) h (Some head) cnt = Done (Some cnt))
  /\ (l <> [] -> list_length fuel h (Some head) cnt = Done None)
  /\ list_for_each (S (length l)) h (nxt h head) (Some head) = Done (Some l).
Proof.
  intros [Hp Hnd]. split_and!.
  - intros ->. destruct Hp as [Hn _]. cbn. rewrite (get_next_nxt _ _ _ Hn). cbn.
    by rewrite bool_decide_true.
  - destruct l as [|x l]; [done|]. intros _. destruct Hp as [[Hn _] _].
    apply NoDup_cons in Hnd as [Hh _].
    revert cnt. induction fuel as [|fuel IH]; intros cnt; [done|].
    cbn [list_length]. rewrite (get_next_nxt _ _ _ Hn). cbn [mbind outcome_bind].
    rewrite bool_decide_false by set_solver. apply IH.
  - apply list_for_each_spec; [done|done|lia].
Qed.

Lemma list_length_hangs_witness :
  list_length 1000 ex_ring (Some 0%nat) 0 = Done None
  /\ list_for_each 3 ex_ring (nxt ex_ring 0%nat) (Some 0%nat) = Done (Some [1; 2]%nat).
Proof. split; by apply (list_length_hangs ex_ring 0%nat [1; 2]%nat 1000 0 ex_ring_dll). Defined.
