(* ===== verification/Abus.v ===== *)
(** * [abus/abus_topic.c], [abus/abus_port.c]: publish and subscribe

    A topic owns a ring of synchronous subscribers; publishing stores the message
    in the topic's fifo, walks the ring, copies the message to every subscriber
    that has a fifo of its own and calls its callback.  The list node of a
    subscriber is a member of it, so both have one address here.  Callbacks are
    user code: a parameter that may change the bus and a world [W] of its own.
    Names are compared by address. *)
From S2P Require Import Prelude Afifo Alist.

Abbreviation fnptr := nat (only parsing).

Definition ABUS_ACCS_NUM : nat := 128.
Definition ABUS_TOPICS_NUM : nat := 32.

Record abus_sub_flag := SubFlag { is_async : Z; is_self_fifo : Z }.

Record abus_accounter := Accounter {
  acc_name : Z;
  acc_datafifo : option addr;
  acc_callback : option fnptr;
  acc_flag : abus_sub_flag;
  acc_topic : option addr;
}.

Record abus_acc_init_t := AccInit {
  ai_name : Z;
  ai_datafifo : option addr;
  ai_callback : option fnptr;
}.

Record abus_topic := Topic {
  tp_name : Z;
  tp_sync : addr;
  tp_async : addr;
  tp_datafifo : option addr;
  tp_msg_size : Z;
}.

Record abus_topic_init_t := TopicInit {
  ti_name : Z;
  ti_buf : list Z;
  ti_buf_size : Z;
  ti_msg_size : Z;
}.

(** The two static tables hold the addresses below their index. *)
Record bus := Bus {
  nodes : heap;
  accounters : gmap nat abus_accounter;
  topics_mem : gmap nat abus_topic;
  fifos : gmap nat afifo;
  accs : list addr;
  topics : list addr;
}.

Definition set_nodes (n : heap) (b : bus) : bus :=
  Bus n (accounters b) (topics_mem b) (fifos b) (accs b) (topics b).
Definition upd_acc (a : addr) (x : abus_accounter) (b : bus) : bus :=
  Bus (nodes b) (<[a := x]> (accounters b)) (topics_mem b) (fifos b) (accs b) (topics b).
Definition upd_topic (t : addr) (x : abus_topic) (b : bus) : bus :=
  Bus (nodes b) (accounters b) (<[t := x]> (topics_mem b)) (fifos b) (accs b) (topics b).
Definition upd_fifo (f : addr) (x : afifo) (b : bus) : bus :=
  Bus (nodes b) (accounters b) (topics_mem b) (<[f := x]> (fifos b)) (accs b) (topics b).

(** [if (!x) while (1)]. *)
Definition ABUS_ASSERT (x : bool) : outcome unit := if x then Done () else Fault Hang.

(** [fnew] is the address of the descriptor [afifo_init] allocates, when the heap
    has room for it. *)
Definition abus_topic_init (mem : bool) (fnew t : addr) (init : abus_topic_init_t) (b : bus)
    : outcome bus :=
  tp ← deref (topics_mem b) (Some t);
  f ← afifo_init mem (ti_buf init) (ti_buf_size init);
  n ← INIT_LIST_HEAD (nodes b) (Some (tp_sync tp));
  n ← INIT_LIST_HEAD n (Some (tp_async tp));
  let tp' := Topic (ti_name init) (tp_sync tp) (tp_async tp)
               (match f with Some _ => Some fnew | None => None end) (ti_msg_size init) in
  let b := upd_topic t tp' (set_nodes n b) in
  let b := match f with Some f => upd_fifo fnew f b | None => b end in
  _ ← ABUS_ASSERT (bool_decide (length (topics b) < ABUS_TOPICS_NUM)%nat);
  Done (Bus (nodes b) (accounters b) (topics_mem b) (fifos b) (accs b) (topics b ++ [t])).

Definition abus_acc_init (a : addr) (init : abus_acc_init_t) (b : bus) : outcome bus :=
  acc ← deref (accounters b) (Some a);
  let b := upd_acc a (Accounter (ai_name init) (ai_datafifo init) (ai_callback init)
                        (acc_flag acc) (acc_topic acc)) b in
  _ ← ABUS_ASSERT (bool_decide (length (accs b) < ABUS_ACCS_NUM)%nat);
  Done (Bus (nodes b) (accounters b) (topics_mem b) (fifos b) (accs b ++ [a]) (topics b)).

(** The search loops, over the registered addresses. *)
Fixpoint find_acc (b : bus) (l : list addr) (name : Z) : outcome (option addr) :=
  match l with
  | [] => Done None
  | a :: l' =>
    acc ← deref (accounters b) (Some a);
    if acc_name acc =? name then Done (Some a) else find_acc b l' name
  end.
Definition abus_accounter_find (b : bus) (name : Z) : outcome (option addr) :=
  find_acc b (accs b) name.

Fixpoint find_topic (b : bus) (l : list addr) (name : Z) : outcome (option addr) :=
  match l with
  | [] => Done None
  | t :: l' =>
    tp ← deref (topics_mem b) (Some t);
    if tp_name tp =? name then Done (Some t) else find_topic b l' name
  end.
Definition abus_topic_find (b : bus) (name : Z) : outcome (option addr) :=
  find_topic b (topics b) name.

Definition abus_topic_subscribe (t a : addr) (flag : abus_sub_flag) (b : bus) : outcome bus :=
  acc ← deref (accounters b) (Some a);
  let b := upd_acc a (Accounter (acc_name acc) (acc_datafifo acc) (acc_callback acc) flag (Some t)) b in
  tp ← deref (topics_mem b) (Some t);
  n ← list_add (nodes b) (Some a)
        (Some (if is_async flag =? 0 then tp_sync tp else tp_async tp));
  Done (set_nodes n b).

Definition abus_topic_unsubscribe (a : addr) (b : bus) : outcome bus :=
  acc ← deref (accounters b) (Some a);
  let b := upd_acc a (Accounter (acc_name acc) (acc_datafifo acc) (acc_callback acc)
                        (acc_flag acc) None) b in
  n ← list_del (nodes b) (Some a);
  Done (set_nodes n b).

(** The variants by name answer -1 when a name is unknown. *)
Definition abus_topic_subscribe_name (topic acc : Z) (flag : abus_sub_flag) (b : bus)
    : outcome (bus * Z) :=
  a ← abus_accounter_find b acc;
  t ← abus_topic_find b topic;
  match a, t with
  | Some a, Some t => b ← abus_topic_subscribe t a flag b; Done (b, 0)
  | _, _ => Done (b, -1)
  end.

Definition abus_topic_unsubscribe_name (topic acc : Z) (b : bus) : outcome (bus * Z) :=
  a ← abus_accounter_find b acc;
  t ← abus_topic_find b topic;
  match a, t with
  | Some a, Some t => b ← abus_topic_unsubscribe a b; Done (b, 0)
  | _, _ => Done (b, -1)
  end.

(** [afifo_in] through a pointer. *)
Definition fifo_in (b : bus) (f : option addr) (msg : list Z) (n : Z) : outcome (bus * Z) :=
  match f with
  | Some f => x ← deref (fifos b) (Some f); r ← afifo_in x msg n; Done (upd_fifo f r.1 b, r.2)
  | None => Fault NullDeref
  end.

Section publish.
Context {W : Type} (callback : fnptr -> addr -> bus -> W -> outcome (bus * W)).

(** [acc->topic], read again at each use: a callback may have changed it. *)
Definition topic_of (b : bus) (a : addr) : outcome addr :=
  acc ← deref (accounters b) (Some a);
  match acc_topic acc with Some t => Done t | None => Fault NullDeref end.
Definition topic_obj (b : bus) (a : addr) : outcome abus_topic :=
  t ← topic_of b a; deref (topics_mem b) (Some t).

(** The body of the loop of [abus_public], published by [a], for the subscriber
  [pos]. *)
Definition deliver (a pos : addr) (msg : list Z) (b : bus) (w : W) : outcome (bus * W) :=
  sync ← deref (accounters b) (Some pos);
  if is_async (acc_flag sync) =? 0 then
  b1 ← match acc_datafifo sync with
   | Some _ =>
   tp ← topic_obj b a;
   r ← fifo_in b (acc_datafifo sync) msg (tp_msg_size tp);
   stp ← deref (topics_mem b) (acc_topic sync);
   if negb (r.2 =? tp_msg_size stp) then Fault Hang else Done r.1
   | None => Done b
   end;
  match acc_callback sync with
  | Some f => t ← topic_of b1 a; callback f t b1 w
  | None => Done (b1, w)
  end
  else Done (b, w).

(** [list_for_each]: the condition reads [acc->topic], and [pos->next] is read
  after the body, from the heap it left.  [None] when the fuel runs out. *)
Fixpoint public_loop (fuel : nat) (a : addr) (pos : option addr) (msg : list Z)
  (b : bus) (w : W) : outcome (option (bus * W)) :=
  match fuel with
  | O => Done None
  | S k =>
  tp ← topic_obj b a;
  if bool_decide (pos = Some (tp_sync tp)) then Done (Some (b, w))
  else match pos with
   | None => Fault NullDeref
   | Some p =>
   r ← deliver a p msg b w;
   n ← get_next (nodes r.1) (Some p);
   public_loop k a n msg r.1 r.2
   end
  end.

Definition abus_public (fuel : nat) (a : addr) (msg : list Z) (b : bus) (w : W)
  : outcome (option (bus * W)) :=
  tp ← topic_obj b a;
  r ← fifo_in b (tp_datafifo tp) msg (tp_msg_size tp);
  if negb (r.2 =? tp_msg_size tp) then Fault Hang
  else
  pos ← get_next (nodes r.1) (Some (tp_sync tp));
  o ← public_loop fuel a pos msg r.1 w;
  match o with
  | None => Done None
  | Some (b, w) =>
  tp ← topic_obj b a;
  match tp_datafifo tp with
  | Some fa =>
  f ← deref (fifos b) (Some fa);
  Done (Some (upd_fifo fa (afifo_add_out f (tp_msg_size tp)).1 b, w))
  | None => Fault NullDeref
  end
  end.

Definition abus_public_name (fuel : nat) (name : Z) (msg : list Z) (b : bus) (w : W)
  : outcome (option (bus * W * Z)) :=
  a ← abus_accounter_find b name;
  match a with
  | Some a =>
  o ← abus_public fuel a msg b w;
  Done (match o with Some (b, w) => Some (b, w, 0) | None => None end)
  | None => Done (Some (b, w, -1))
  end.
End publish.

(** ** What publishing promises *)

(** The queue behind a fifo pointer. *)
Definition fifo_holds (b : bus) (f : addr) (q : list Z) : Prop :=
  exists x, fifos b !! f = Some x /\ af_rep x q.

Definition fifo_room (b : bus) (f : addr) (n : Z) : Prop :=
  exists x q, fifos b !! f = Some x /\ af_rep x q /\ Z.of_nat (length q) + n <= size x.

Lemma af_rep_inj x q1 q2 : af_rep x q1 -> af_rep x q2 -> q1 = q2.
Proof.
  intros (_ & Hl1 & H1) (_ & Hl2 & H2). apply list_eq_same_length with (length q1); [lia|lia|].
  intros i y z Hi Hy Hz. rewrite <- H1 in Hy by lia. rewrite <- H2 in Hz by lia. congruence.
Qed.

(** Only fifos differ between the buses of one publication. *)
Definition same_wiring (b b' : bus) : Prop :=
  nodes b' = nodes b /\ accounters b' = accounters b /\ topics_mem b' = topics_mem b
  /\ accs b' = accs b /\ topics b' = topics b.

Lemma same_wiring_trans b1 b2 b3 : same_wiring b1 b2 -> same_wiring b2 b3 -> same_wiring b1 b3.
Proof. intros (?&?&?&?&?) (?&?&?&?&?). repeat split; congruence. Qed.

Lemma same_wiring_sym b1 b2 : same_wiring b1 b2 -> same_wiring b2 b1.
Proof. intros (?&?&?&?&?). repeat split; congruence. Qed.

Lemma same_wiring_fifo b f x : same_wiring b (upd_fifo f x b).
Proof. done. Qed.

(** The fifos that a publication on a topic with fifo [tf] and subscribers [l] uses. *)
Definition own_fifo (tf : addr) (l : list addr) (b : bus) (g : addr) : Prop :=
  g = tf \/ exists s acc, s ∈ l /\ accounters b !! s = Some acc /\ acc_datafifo acc = Some g.

(** The callbacks of [l]. *)
Definition called (l : list addr) (b : bus) (f : fnptr) : Prop :=
  exists s acc, s ∈ l /\ accounters b !! s = Some acc /\ acc_callback acc = Some f.
Lemma called_wiring l b b' f : same_wiring b b' -> called l b f <-> called l b' f.
Proof. intros (_ & Ha & _). unfold called. by rewrite Ha. Qed.

(** A callback may use the bus, but leaves the wiring and those fifos alone. *)
Definition leaves (tf : addr) (l : list addr) (b b' : bus) : Prop :=
  same_wiring b b' /\ forall g, own_fifo tf l b g -> fifos b' !! g = fifos b !! g.

Lemma own_fifo_wiring tf l b b' g : same_wiring b b' -> own_fifo tf l b g <-> own_fifo tf l b' g.
Proof. intros (_ & Ha & _). unfold own_fifo. by rewrite Ha. Qed.
Lemma leaves_refl tf l b : leaves tf l b b.
Proof. by split. Qed.
Lemma leaves_holds tf l b b' g q : leaves tf l b b' -> own_fifo tf l b g ->
  fifo_holds b g q -> fifo_holds b' g q.
Proof. intros [_ Hk] Hg (x & Hx & Hr). exists x. by rewrite Hk. Qed.

Section publish_spec.
Context {W : Type} (callback : fnptr -> addr -> bus -> W -> outcome (bus * W)).
Context (react : fnptr -> addr -> list Z -> W -> W).
Context (a t tf : addr) (tp : abus_topic) (msg : list Z) (l : list addr).
Implicit Types (b : bus) (w : W).

(** What callbacks may rely on and keep, whatever becomes of the fifos in use. *)
Context (I : bus -> Prop).
Hypothesis I_fifo : forall b g x y, own_fifo tf l b g -> fifos b !! g = Some y -> size x = size y ->
  I b -> I (upd_fifo g x b).
Hypothesis callback_ok : forall f b w q', called l b f -> I b -> fifo_holds b tf q' ->
  exists b', callback f t b w = Done (b', react f t q' w) /\ I b' /\ leaves tf l b b'.
Hypothesis msg_fits : is_u32 (tp_msg_size tp) /\ Z.of_nat (length msg) = tp_msg_size tp.
Hypothesis topic_fifo : tp_datafifo tp = Some tf.

(** A subscriber of [t]: synchronous, with at most a fifo of its own. *)
Record subscribed b (s : addr) (acc : abus_accounter) : Prop := {
  sub_acc : accounters b !! s = Some acc;
  sub_sync : is_async (acc_flag acc) = 0;
  sub_topic : acc_topic acc = Some t;
  sub_fifo : forall f, acc_datafifo acc = Some f -> f <> tf /\ fifo_room b f (tp_msg_size tp);
}.

Record bus_ready b : Prop := {
  ready_pub : exists acc, accounters b !! a = Some acc /\ acc_topic acc = Some t;
  ready_topic : topics_mem b !! t = Some tp;
  ready_ring : dll (nodes b) (tp_sync tp) l;
  ready_subs : forall s, s ∈ l -> exists acc, subscribed b s acc;
  ready_apart : forall s1 s2 acc1 acc2 f, s1 ∈ l -> s2 ∈ l ->
  accounters b !! s1 = Some acc1 -> accounters b !! s2 = Some acc2 ->
  acc_datafifo acc1 = Some f -> acc_datafifo acc2 = Some f -> s1 = s2;
}.

(** The reaction of one subscriber, and of all of them in ring order. *)
Definition react_one b (q' : list Z) w (s : addr) : W :=
  match accounters b !! s ≫= acc_callback with Some f => react f t q' w | None => w end.
Definition react_all b (q' : list Z) w : W := foldl (react_one b q') w l.

Lemma react_one_wiring b b' q' w s : same_wiring b b' -> react_one b' q' w s = react_one b q' w s.
Proof. intros (_ & Ha & _). unfold react_one. by rewrite Ha. Qed.

Lemma topic_obj_ready b b' : bus_ready b -> same_wiring b b' ->
  topic_of b' a = Done t /\ topic_obj b' a = Done tp.
Proof.
  intros [(acc & Ha & Ht) Htp _ _ _] (_ & Hacc & Hto & _).
  assert (topic_of b' a = Done t) as H.
  { unfold topic_of. rewrite Hacc, (deref_ok _ _ _ Ha). cbn. by rewrite Ht. }
  split; [done|]. unfold topic_obj. rewrite H. cbn [mbind outcome_bind].
  rewrite Hto. by apply deref_ok.
Qed.

(** A whole message goes into a fifo with room for it. *)
Lemma fifo_in_fits b f x q0 : fifos b !! f = Some x -> af_rep x q0 ->
  Z.of_nat (length q0) + tp_msg_size tp <= size x ->
  exists x', fifo_in b (Some f) msg (tp_msg_size tp) = Done (upd_fifo f x' b, tp_msg_size tp)
  /\ af_rep x' (q0 ++ msg) /\ size x' = size x.
Proof.
  intros Hf Hr Hroom. destruct msg_fits as [Hn Hlen].
  destruct (in_spec x q0 Hr msg (tp_msg_size tp) Hn) as (x' & He & Hs & Hr'); [lia|].
  rewrite Z.min_l in He, Hr' by lia. rewrite take_ge in Hr' by lia.
  exists x'. split; [|done]. unfold fifo_in. rewrite (deref_ok _ _ _ Hf). cbn [mbind outcome_bind].
  unfold afifo_in. by rewrite He.
Qed.

(** What delivering changes: of the fifos in use those of [ss], each by the message. *)
Definition delivered (ss : list addr) b b' : Prop :=
  same_wiring b b'
  /\ (forall s acc f x0 q0, s ∈ ss -> accounters b !! s = Some acc -> acc_datafifo acc = Some f ->
  fifos b !! f = Some x0 -> af_rep x0 q0 -> fifo_holds b' f (q0 ++ msg))
  /\ (forall f, own_fifo tf l b f ->
  (forall s acc, s ∈ ss -> accounters b !! s = Some acc -> acc_datafifo acc <> Some f) ->
  fifos b' !! f = fifos b !! f).

Lemma own_sub b s acc f : s ∈ l -> accounters b !! s = Some acc -> acc_datafifo acc = Some f ->
  own_fifo tf l b f.
Proof. intros. right. eauto. Qed.
Lemma own_topic b : own_fifo tf l b tf.
Proof. by left. Qed.

Lemma delivered_leaves ss b b1 b2 : (forall s, s ∈ ss -> s ∈ l) ->
  delivered ss b b1 -> leaves tf l b1 b2 -> delivered ss b b2.
Proof.
  intros Hss (Hw & Hf & Hu) Hl. pose proof Hl as [Hw2 Hk]. split; [by eapply same_wiring_trans|]. split.
  - intros s acc f x0 q0 Hs Ha Hacc Hx Hr. eapply leaves_holds; [done| |by eapply Hf].
    apply (own_fifo_wiring tf l b b1 f Hw). eapply own_sub; eauto.
  - intros f Ho Hn. rewrite Hk; [by apply Hu|]. by apply (own_fifo_wiring tf l b b1 f Hw).
Qed.

Lemma deliver_spec b0 b s q' w : bus_ready b0 -> same_wiring b0 b -> I b -> fifo_holds b tf q' ->
  s ∈ l -> (exists acc, subscribed b s acc) ->
  exists b', deliver callback a s msg b w = Done (b', react_one b q' w s)
    /\ delivered [s] b b' /\ I b' /\ fifo_holds b' tf q'.
Proof.
  intros Hready Hsame HI Htf Hsl (acc & [Hacc Hsync Htop Hfifo]).
  destruct (topic_obj_ready b0 b Hready Hsame) as [_ Hobj].
  unfold deliver, react_one. rewrite (deref_ok _ _ _ Hacc), Hacc. cbn [mbind outcome_bind option_bind].
  rewrite Hsync. cbn [Z.eqb].
  assert (exists b1, match acc_datafifo acc with
    | Some _ => tp0 ← topic_obj b a; r ← fifo_in b (acc_datafifo acc) msg (tp_msg_size tp0);
    stp ← deref (topics_mem b) (acc_topic acc);
    if negb (r.2 =? tp_msg_size stp) then Fault Hang else Done r.1
    | None => Done b end = Done b1 /\ delivered [s] b b1 /\ I b1 /\ fifo_holds b1 tf q')
    as (b1 & -> & Hdel & HI1 & Htf1).
  { destruct (acc_datafifo acc) as [f|] eqn:Hf.
    - destruct (Hfifo f eq_refl) as [Hne (x & q0 & Hx & Hr & Hroom)].
      destruct (fifo_in_fits b f x q0 Hx Hr Hroom) as (x' & He & Hr' & Hsz).
      rewrite Hobj. cbn [mbind outcome_bind]. rewrite He. cbn [mbind outcome_bind].
      rewrite Htop, (deref_ok _ _ tp).
      2:{ destruct Hsame as (_ & _ & -> & _). apply Hready. }
      cbn. rewrite Z.eqb_refl. cbn. eexists. split; [done|].
      split; [split; [done|split]|split].
      + intros s' acc' f' x0 q0' ->%list_elem_of_singleton Ha' Hf' Hx' Hr0. simplify_eq.
        rewrite <- (af_rep_inj _ _ _ Hr Hr0). exists x'. split; [apply lookup_insert_eq|done].
      + intros f' _ Hf'. cbn. apply lookup_insert_ne. intros ->.
        by apply (Hf' s acc); [set_solver|..].
      + by apply (I_fifo b f x' x); [eapply own_sub|..].
      + destruct Htf as (y & Hy & Hyr). exists y. cbn. by rewrite lookup_insert_ne.
    - exists b. split; [done|]. split; [|done]. split; [done|]. split; [|done].
      intros s' acc' f' x0 q0' ->%list_elem_of_singleton Ha' Hf'. simplify_eq. }
  cbn [mbind outcome_bind].
  destruct (topic_obj_ready b0 b1 Hready) as [-> _].
  { eapply same_wiring_trans; [done|]. apply Hdel. }
  destruct (acc_callback acc) as [f|] eqn:Hcb; cbn [mbind outcome_bind option_bind].
  - assert (called l b1 f) as Hcd by (apply (called_wiring l b b1 f (proj1 Hdel)); by exists s, acc).
    destruct (callback_ok f b1 w q' Hcd HI1 Htf1) as (b2 & -> & HI2 & Hl). exists b2. split; [done|].
    split; [|split; [done|by apply (leaves_holds tf l b1); [|apply own_topic|]]].
    apply (delivered_leaves [s] b b1); [|done..]. by intros s' ->%list_elem_of_singleton.
  - by exists b1.
Qed.

Lemma foldl_react b b1 q' w l' : same_wiring b b1 ->
  foldl (react_one b1 q') w l' = foldl (react_one b q') w l'.
Proof.
  intros Hw. revert w. induction l' as [|s l' IH]; intros w; [done|]. cbn.
  by rewrite (react_one_wiring b b1), IH.
Qed.

(** One subscriber, then the others, when no two share a fifo. *)
Lemma delivered_cons s l2 b b1 b2 : s ∈ l -> (forall s', s' ∈ l2 -> s' ∈ l) ->
  (forall s' acc' acc f, s' ∈ l2 -> accounters b !! s' = Some acc' -> accounters b !! s = Some acc ->
    acc_datafifo acc' = Some f -> acc_datafifo acc <> Some f) ->
  delivered [s] b b1 -> delivered l2 b1 b2 -> delivered (s :: l2) b b2.
Proof.
  intros Hsl Hl2 Hapart (Hw1 & Hf1 & Hu1) (Hw2 & Hf2 & Hu2).
  assert (forall s' acc' f, s' ∈ l2 -> accounters b !! s' = Some acc' -> acc_datafifo acc' = Some f ->
    fifos b1 !! f = fifos b !! f) as Hkeep.
  { intros s' acc' f Hs' Ha' Hf. apply Hu1; [by apply (own_sub b s' acc'); auto|].
    intros s'' acc'' ->%list_elem_of_singleton Ha''. by eapply Hapart. }
  split; [by eapply same_wiring_trans|]. pose proof Hw1 as (_ & Ha1 & _). split.
  - intros s' acc' f x0 q0 [->|Hs']%elem_of_cons Ha' Hf' Hx0 Hr0.
    + destruct (Hf1 s acc' f x0 q0) as (x1 & Hx1 & Hr1); [set_solver|done..|].
      exists x1. split; [|done]. rewrite Hu2; [done|apply (own_fifo_wiring tf l b b1 f Hw1); by eapply own_sub|].
      intros s'' acc'' Hs'' Ha'' Hf''. rewrite Ha1 in Ha''. by eapply (Hapart s'' acc'' acc' f).
    + apply (Hf2 s' acc' f x0); [done|by rewrite Ha1|done| |done].
      by rewrite (Hkeep s' acc' f).
  - intros f Ho Hf. rewrite Hu2, Hu1; [done|done|..].
    + intros s' acc' ->%list_elem_of_singleton. apply Hf. set_solver.
    + by apply (own_fifo_wiring tf l b b1 f Hw1).
    + intros s' acc' Hs'. rewrite Ha1. apply Hf. set_solver.
Qed.

Lemma loop_spec b0 l2 b p q' w (fuel : nat) :
  bus_ready b0 -> same_wiring b0 b -> I b -> fifo_holds b tf q' ->
  path (nodes b0) p l2 (tp_sync tp) -> NoDup l2 -> tp_sync tp ∉ l2 -> (forall s, s ∈ l2 -> s ∈ l) ->
  (forall s, s ∈ l2 -> exists acc, subscribed b s acc) -> (length l2 < fuel)%nat ->
  exists b', public_loop callback fuel a (nxt (nodes b0) p) msg b w
  = Done (Some (b', foldl (react_one b q') w l2))
  /\ delivered l2 b b' /\ I b' /\ fifo_holds b' tf q'.
Proof.
  intros Hready. revert b p w fuel. induction l2 as [|s l2 IH];
    intros b p w [|fuel] Hsame HI Htf Hp Hnd Hh Hin Hsub Hfuel; cbn in Hfuel; [lia| |lia|];
    destruct (topic_obj_ready b0 b Hready Hsame) as [_ Hobj];
    cbn [public_loop]; rewrite Hobj; cbn [mbind outcome_bind].
  { destruct Hp as [-> _]. rewrite bool_decide_true by done. exists b.
    split; [done|]. split; [|done]. split; [done|]. split; [|done]. intros s acc f x0 q0 Hs. set_solver. }
  destruct Hp as [[-> _] Hp]. rewrite bool_decide_false by set_solver.
  assert (s ∈ l) as Hsl by (apply Hin; set_solver).
  destruct (deliver_spec b0 b s q' w Hready Hsame HI Htf Hsl) as (b1 & -> & Hdel & HI1 & Htf1);
    [by apply Hsub; set_solver|].
  cbn [mbind outcome_bind fst snd].
  pose proof Hdel as (Hw1 & Hf1 & Hu1). pose proof (same_wiring_trans _ _ _ Hsame Hw1) as Hsame1.
  assert (nodes b1 = nodes b0) as -> by apply Hsame1.
  assert (exists n, nxt (nodes b0) s = Some n) as [n Hn].
  { destruct l2; destruct Hp as [Hq _]; eauto. destruct Hq. eauto. }
  rewrite (get_next_nxt _ _ _ Hn), <- Hn. cbn [mbind outcome_bind].
  apply NoDup_cons in Hnd as [Hs Hnd].
  assert (forall s' acc' acc f, s' ∈ l2 -> accounters b !! s' = Some acc' -> accounters b !! s = Some acc ->
    acc_datafifo acc' = Some f -> acc_datafifo acc <> Some f) as Hapart.
  { intros s' acc' acc f Hs' Ha' Ha Hf Hf'. destruct Hsame as (_ & Heq & _). rewrite Heq in *.
    assert (s' = s) as -> by (eapply (ready_apart b0 Hready); eauto; set_solver). done. }
  assert (forall s' acc' f, s' ∈ l2 -> accounters b !! s' = Some acc' -> acc_datafifo acc' = Some f ->
    fifos b1 !! f = fifos b !! f) as Hkeep.
  { intros s' acc' f Hs' Ha' Hf. apply Hu1; [eapply own_sub; [|done..]; set_solver|].
    intros s'' acc'' ->%list_elem_of_singleton Ha''. by eapply Hapart. }
  destruct (IH b1 s (react_one b q' w s) fuel) as (b2 & He & Hdel2 & HI2 & Htf2); try done.
  - set_solver.
  - intros s' Hs'. apply Hin. set_solver.
  - intros s' Hs'. destruct (Hsub s') as [acc' Hacc']; [set_solver|]. exists acc'.
    pose proof Hacc' as [H1 H2 H3 H4]. destruct Hw1 as (_ & Ha1 & _). split; [by rewrite Ha1|done|done|].
    intros f Hf. destruct (H4 f Hf) as [Hne Hroom]. split; [done|].
    unfold fifo_room. by rewrite (Hkeep s' acc' f).
  - lia.
  - exists b2. rewrite He. cbn [foldl]. split; [|split; [|done]].
    + by rewrite (foldl_react b b1).
    + apply (delivered_cons s l2 b b1 b2); try done. intros s' Hs'. apply Hin. set_solver.
Qed.

(** The whole of a publication. *)
Lemma public_spec q b w (fuel : nat) : (length l < fuel)%nat -> I b -> bus_ready b -> fifo_holds b tf q -> fifo_room b tf (tp_msg_size tp) ->
  exists b', abus_public callback fuel a msg b w
      = Done (Some (b', foldl (react_one b (q ++ msg)) w l))
    /\ same_wiring b b' /\ I b'
    /\ (forall s acc f q0, s ∈ l -> accounters b !! s = Some acc -> acc_datafifo acc = Some f ->
          fifo_holds b f q0 -> fifo_holds b' f (q0 ++ msg))
    /\ fifo_holds b' tf (drop (length msg) (q ++ msg)).
Proof.
  intros Hfuel HI Hready (x & Hx & Hr) (x' & q'' & Hx' & Hr' & Hroom). simplify_eq.
  rewrite (af_rep_inj _ _ _ Hr' Hr) in Hroom.
  destruct (topic_obj_ready b b Hready) as [_ Hobj]; [done|].
  unfold abus_public. rewrite Hobj. cbn [mbind outcome_bind]. rewrite topic_fifo.
  destruct (fifo_in_fits b tf x q Hx Hr Hroom) as (x1 & -> & Hr1 & Hs1).
  cbn [mbind outcome_bind fst snd]. rewrite Z.eqb_refl. cbn [negb].
  set (b1 := upd_fifo tf x1 b).
  assert (fifo_holds b1 tf (q ++ msg)) as Htf1.
  { exists x1. split; [apply lookup_insert_eq|done]. }
  assert (forall f, f <> tf -> fifos b1 !! f = fifos b !! f) as Hother.
  { intros f Hf. by apply lookup_insert_ne. }
  pose proof Hready as [_ _ [Hpath Hnd] Hsubs _]. pose proof Hnd as [Hhead Hndl]%NoDup_cons.
  change (nodes b1) with (nodes b).
  assert (exists n, nxt (nodes b) (tp_sync tp) = Some n) as [n Hn].
  { destruct l; destruct Hpath as [Hq _]; eauto. destruct Hq. eauto. }
  rewrite (get_next_nxt _ _ _ Hn), <- Hn. cbn [mbind outcome_bind].
  destruct (loop_spec b l b1 (tp_sync tp) (q ++ msg) w fuel)
    as (b2 & -> & (Hw & Hf & Hu) & HI2 & (y & Hy & Hyr)); try done.
  { by apply (I_fifo b tf x1 x); [apply own_topic|..]. }
  { intros s Hs. destruct (Hsubs s Hs) as [acc [H1 H2 H3 H4]]. exists acc. split; [done..|].
    intros f Hf. destruct (H4 f Hf) as [Hne Hro]. split; [done|].
    unfold fifo_room. by rewrite Hother. }
  cbn [mbind outcome_bind].
  destruct (topic_obj_ready b b2 Hready) as [_ ->]; [done|].
  cbn [mbind outcome_bind]. rewrite topic_fifo, (deref_ok _ _ _ Hy). cbn [mbind outcome_bind].
  eexists. split; [done|]. split; [done|]. split; [by apply (I_fifo b2 tf _ y); [apply own_topic|..]|]. split.
  - intros s acc f q0 Hs Ha Hfa (z & Hz & Hzr).
    destruct (Hsubs s Hs) as [acc' [H1 _ _ H4]]. simplify_eq.
    destruct (H4 f Hfa) as [Hne _].
    destruct (Hf s acc f z q0) as (z' & Hz' & Hzr'); [done|done|done|by rewrite Hother|done|].
    exists z'. split; [|done]. cbn. by rewrite lookup_insert_ne.
  - eexists. split; [apply lookup_insert_eq|].
    destruct (step_refines y (q ++ msg) Hyr (FSkip (tp_msg_size tp))) as (y' & He & _ & Hy'); [apply msg_fits|].
    cbn in He. injection He as <-. cbn [queue_step fst] in Hy'.
    destruct msg_fits as [_ Hlen]. rewrite Z.min_l in Hy' by (rewrite length_app; lia).
    replace (Z.to_nat (tp_msg_size tp)) with (length msg) in Hy' by lia. done.
Qed.
End publish_spec.

(** C28: Publishing on a topic whose synchronous subscribers have room delivers the
    message exactly once to each, also when the callbacks publish on other topics: every
    subscriber's own fifo gains the message, every callback runs once in ring order
    (newest subscriber first) and sees the topic's fifo with the message in it, the
    wiring is unchanged, and the topic's fifo then drops as many bytes as were added.
    [I] is what the callbacks rely on of the rest of the bus, and keep. *)
Theorem abus_public_delivers {W} callback react (I : bus -> Prop) (a t tf : addr) tp msg q l b (w : W) (fuel : nat) :
  (length l < fuel)%nat ->
  (forall b g x y, own_fifo tf l b g -> fifos b !! g = Some y -> size x = size y ->
     I b -> I (upd_fifo g x b)) ->
  (forall f b w q', called l b f -> I b -> fifo_holds b tf q' -> exists b',
     callback f t b w = Done (b', react f t q' w) /\ I b' /\ leaves tf l b b') ->
  is_u32 (tp_msg_size tp) /\ Z.of_nat (length msg) = tp_msg_size tp ->
  tp_datafifo tp = Some tf -> I b ->
  bus_ready a t tf tp l b -> fifo_holds b tf q -> fifo_room b tf (tp_msg_size tp) ->
  exists b', abus_public callback fuel a msg b w
      = Done (Some (b', foldl (react_one react t b (q ++ msg)) w l))
    /\ same_wiring b b' /\ I b'
    /\ (forall s acc f q0, s ∈ l -> accounters b !! s = Some acc -> acc_datafifo acc = Some f ->
          fifo_holds b f q0 -> fifo_holds b' f (q0 ++ msg))
    /\ fifo_holds b' tf (drop (length msg) (q ++ msg)).
Proof.
  intros. eapply public_spec; eauto.
Qed.

(** A callback that unsubscribes its own subscriber crashes the publication:
    list_del poisons the node with NULL and the loop of abus_public then follows it. *)
Theorem abus_unsubscribe_in_callback {W} callback (a t tf s : addr) f tp msg l b (w : W) (fuel : nat) :
  is_u32 (tp_msg_size tp) /\ Z.of_nat (length msg) = tp_msg_size tp ->
  tp_datafifo tp = Some tf -> bus_ready a t tf tp (s :: l) b -> s <> a ->
  fifo_room b tf (tp_msg_size tp) ->
  (exists acc, accounters b !! s = Some acc /\ acc_callback acc = Some f /\ acc_datafifo acc = None) ->
  (forall b w, callback f t b w = (b' ← abus_topic_unsubscribe s b; Done (b', w))) ->
  abus_public callback (S (S (S fuel))) a msg b w = Fault NullDeref.
Proof.
  intros Hmsg Htf Hready Hsa (x & q & Hx & Hr & Hroom) (acc & Hacc & Hcbk & Hnof) Hcb.
  destruct (topic_obj_ready a t tf tp (s :: l) b b Hready) as [_ Hobj]; [done|].
  unfold abus_public. rewrite Hobj. cbn [mbind outcome_bind]. rewrite Htf.
  destruct (fifo_in_fits tp msg Hmsg b tf x q Hx Hr) as (x1 & -> & _); [done|].
  cbn [mbind outcome_bind fst snd]. rewrite Z.eqb_refl. cbn [negb].
  set (b1 := upd_fifo tf x1 b). pose proof Hready as [(pa & Hpa & Hpt) Htp [Hpath Hnd] Hsubs _].
  change (nodes b1) with (nodes b). pose proof Hpath as [[Hn _] _].
  rewrite (get_next_nxt _ _ _ Hn). cbn [mbind outcome_bind].
  cbn [public_loop]. destruct (topic_obj_ready a t tf tp (s :: l) b b1 Hready) as [Hto Hob1]; [done|].
  rewrite Hob1. cbn [mbind outcome_bind]. apply NoDup_cons in Hnd as [Hh Hnd'].
  rewrite bool_decide_false by set_solver. unfold deliver.
  destruct (Hsubs s) as [acc' [H1 H2 H3 _]]; [set_solver|]. simplify_eq.
  rewrite (deref_ok (accounters b1) s acc) by done. cbn [mbind outcome_bind].
  rewrite H2, Hnof, Hcbk. cbn [Z.eqb mbind outcome_bind]. rewrite Hto. cbn [mbind outcome_bind].
  rewrite Hcb. unfold abus_topic_unsubscribe. rewrite (deref_ok (accounters b1) s acc) by done.
  cbn [mbind outcome_bind].
  destruct (dll_del (nodes b) (tp_sync tp) [] s l) as (h' & He & _ & Hns & _ & Hdom); [by apply Hready|].
  change (nodes (upd_acc _ _ b1)) with (nodes b). rewrite He. cbn [mbind outcome_bind fst snd].
  change (nodes (set_nodes h' _)) with h'.
  assert (get_next h' (Some s) = Done None) as ->.
  { assert (is_Some (h' !! s)) as [nd Hnd2] by (apply Hdom; eapply dll_dom; [by apply Hready|set_solver]).
    unfold get_next. rewrite (deref_ok _ _ _ Hnd2). cbn [mbind outcome_bind]. f_equal.
    unfold nxt in Hns. by rewrite Hnd2 in Hns. }
  cbn [mbind outcome_bind]. unfold topic_obj, topic_of.
  rewrite (deref_ok _ a pa).
  2:{ cbn. by rewrite lookup_insert_ne. }
  cbn [mbind outcome_bind]. rewrite Hpt. cbn [mbind outcome_bind].
  rewrite (deref_ok _ t tp) by done. done.
Qed.

(** ** A concrete bus

    Topic 10 (ring heads 20 and 21, fifo 30) with the publisher 1 and the
    subscribers 2, which has the fifo 31, and 3. *)
Definition ex_fifo : afifo := Afifo (replicate 16 0) 16 0 0.
Definition ex_topic : abus_topic := Topic 7 20 21 (Some 30%nat) 4.
Definition ex_acc (f : option addr) (cb : option fnptr) : abus_accounter :=
  Accounter 0 f cb (SubFlag 0 0) (Some 10%nat).
Definition ex_bus : bus :=
  Bus {[ 20%nat := ListHead (Some 3%nat) (Some 2%nat); 2%nat := ListHead (Some 20%nat) (Some 3%nat);
         3%nat := ListHead (Some 2%nat) (Some 20%nat) ]}
      {[ 1%nat := ex_acc None None; 2%nat := ex_acc (Some 31%nat) (Some 5%nat);
         3%nat := ex_acc None (Some 6%nat) ]}
      {[ 10%nat := ex_topic ]}
      {[ 30%nat := ex_fifo; 31%nat := ex_fifo ]} [1; 2; 3]%nat [10]%nat.

(** A callback that logs the first four bytes it peeks at. *)
Definition ex_callback (f : fnptr) (t : addr) (b : bus) (w : list (fnptr * list Z))
    : outcome (bus * list (fnptr * list Z)) :=
  x ← deref (fifos b) (Some 30%nat);
  r ← afifo_out_data x (replicate 4 0) 4;
  Done (b, w ++ [(f, r.1)]).
Definition ex_react (f : fnptr) (t : addr) (q : list Z) (w : list (fnptr * list Z)) :=
  let n := Z.to_nat (Z.min 4 (Z.of_nat (length q))) in
  w ++ [(f, take n q ++ drop n (replicate 4 0))].

Lemma ex_fifo_rep : af_rep ex_fifo [].
Proof. by apply (init_rep 4 (replicate 16 0) ex_fifo). Qed.

Lemma ex_ready : bus_ready 1 10 30 ex_topic [2; 3]%nat ex_bus.
Proof.
  split.
  - eexists. by split.
  - done.
  - split; [repeat split|]. apply (bool_decide_unpack _). reflexivity.
  - assert (fifo_room ex_bus 31%nat 4) as Hroom.
    { exists ex_fifo, []. split; [done|]. split; [apply ex_fifo_rep|done]. }
    intros s Hs. assert (s = 2%nat \/ s = 3%nat) as [-> | ->] by set_solver; eexists; split; try reflexivity; cbn.
    + intros f [= <-]. done.
    + done.
  - intros s1 s2 acc1 acc2 f H1 H2.
    assert (s1 = 2%nat \/ s1 = 3%nat) as [-> | ->] by set_solver;
      assert (s2 = 2%nat \/ s2 = 3%nat) as [-> | ->] by set_solver; by intros [= <-] [= <-].
Qed.

Lemma abus_public_delivers_witness :
  exists b', abus_public ex_callback 3 1 [1; 2; 3; 4] ex_bus []
      = Done (Some (b', [(5%nat, [1; 2; 3; 4]); (6%nat, [1; 2; 3; 4])]))
    /\ fifo_holds b' 31 [1; 2; 3; 4] /\ fifo_holds b' 30 [].
Proof.
  destruct (abus_public_delivers ex_callback ex_react (fun _ => True) 1 10 30 ex_topic [1; 2; 3; 4] []
    [2; 3]%nat ex_bus [] 3) as (b' & He & _ & _ & Hs & Ht).
  - cbn. lia.
  - done.
  - intros f b w q' _ _ (x & Hx & Hr). exists b. split; [|by split; [|apply leaves_refl]]. unfold ex_callback. rewrite (deref_ok _ _ _ Hx). cbn [mbind outcome_bind].
    unfold afifo_out_data. rewrite (read_spec x q' Hr) by (cbn; cint). done.
  - split; [cbn; cint|done].
  - done.
  - done.
  - apply ex_ready.
  - exists ex_fifo. split; [done|apply ex_fifo_rep].
  - exists ex_fifo, []. split; [done|]. split; [apply ex_fifo_rep|done].
  - exists b'. split; [exact He|]. split; [|exact Ht].
    apply (Hs 2%nat (ex_acc (Some 31%nat) (Some 5%nat)) 31%nat []); [set_solver|done|done|].
    exists ex_fifo. split; [done|apply ex_fifo_rep].
Defined.

Lemma ex_ready_3 : bus_ready 1 10 30 ex_topic [3]%nat
  (Bus {[ 20%nat := ListHead (Some 3%nat) (Some 3%nat); 3%nat := ListHead (Some 20%nat) (Some 20%nat) ]}
     (accounters ex_bus) (topics_mem ex_bus) (fifos ex_bus) [] []).
Proof.
  split.
  - eexists. by split.
  - done.
  - split; [repeat split|]. apply (bool_decide_unpack _). reflexivity.
  - intros s ->%list_elem_of_singleton. eexists; split; try reflexivity; done.
  - intros s1 s2 acc1 acc2 f ->%list_elem_of_singleton ->%list_elem_of_singleton. done.
Qed.

Lemma abus_unsubscribe_in_callback_witness :
  abus_public (fun _ _ b (w : unit) => b' ← abus_topic_unsubscribe 3 b; Done (b', w)) 1000 1 [1; 2; 3; 4]
    (Bus {[ 20%nat := ListHead (Some 3%nat) (Some 3%nat); 3%nat := ListHead (Some 20%nat) (Some 20%nat) ]}
       (accounters ex_bus) (topics_mem ex_bus) (fifos ex_bus) [] []) () = Fault NullDeref.
Proof.
  apply (abus_unsubscribe_in_callback _ 1 10 30 3 6%nat ex_topic [1; 2; 3; 4] [] _ () 997).
  - split; [cbn; cint|done].
  - done.
  - apply ex_ready_3.
  - done.
  - exists ex_fifo, []. split; [done|]. split; [apply ex_fifo_rep|done].
  - eexists. by split_and!.
  - done.
Defined.

(** ** [abus_port.c]: the topics and accounters of the robot *)

(** Addresses of the objects, and of the string literals that name them. *)
Definition line_error_topic : addr := 100.
Definition line_special_topic : addr := 101.
Definition line_dir_topic : addr := 102.
Definition chassis_ctrl_topic : addr := 103.
Definition line_error_acc : addr := 1.
Definition line_dir_acc : addr := 2.
Definition line_spacial_point_acc : addr := 3.
Definition chassis_acc : addr := 4.
Definition rbmg_error_acc : addr := 5.
Definition rbmg_dir_acc : addr := 6.
Definition rbmg_special_point_acc : addr := 7.
Definition rbmg_chassis_acc : addr := 8.

Inductive literal := L_line_error_topic | L_line_special_topic | L_line_dir_topic | L_chassis_ctrl
  | L_line_error_acc | L_line_dir_acc | L_line_special_acc | L_chassis_acc
  | L_rbmg_error_acc | L_rbmg_dir_acc | L_rbmg_special_point_acc | L_rbmg_chassis_acc.
Definition lit (l : literal) : Z :=
  match l with
  | L_line_error_topic => 1 | L_line_special_topic => 2 | L_line_dir_topic => 3 | L_chassis_ctrl => 4
  | L_line_error_acc => 5 | L_line_dir_acc => 6 | L_line_special_acc => 7 | L_chassis_acc => 8
  | L_rbmg_error_acc => 9 | L_rbmg_dir_acc => 10 | L_rbmg_special_point_acc => 11
  | L_rbmg_chassis_acc => 12
  end.

Definition line_dir_sub_callback : fnptr := 1.
Definition chassis_sub_callback : fnptr := 2.
Definition rbmg_error_callback : fnptr := 3.
Definition rbmg_dir_callback : fnptr := 4.
Definition rbmg_special_point_callback : fnptr := 5.
Definition rbmg_chassis_ctrl_callback : fnptr := 6.

(** The objects are static storage, hence zero: their ring heads are members at
    addresses of their own. *)
Definition topic_obj0 (sync async : addr) : abus_topic := Topic 0 sync async None 0.
Definition acc_obj0 : abus_accounter := Accounter 0 None None (SubFlag 0 0) None.
Definition port_bus : bus :=
  Bus (list_to_map ((fun k => (k, ListHead None None)) <$> seq 1 8 ++ seq 200 8))
      (list_to_map ((fun k => (k, acc_obj0)) <$> seq 1 8))
      (list_to_map ((fun k => ((100 + k)%nat, topic_obj0 (200 + 2 * k) (201 + 2 * k))) <$> seq 0 4))
      ∅ [] [].

(** [sizeof(chassis_ctrl_t)] is the compiler's; [buf] is the block [malloc]
    returned (its contents are unspecified). *)
Definition abus_all_init (sizeof_chassis_ctrl : Z) (buf : list Z) (b : bus) : outcome bus :=
  b ← abus_topic_init true 50 line_error_topic (TopicInit (lit L_line_error_topic) buf 1024 4) b;
  b ← abus_topic_init true 51 line_special_topic (TopicInit (lit L_line_special_topic) buf 1024 1) b;
  b ← abus_topic_init true 52 line_dir_topic (TopicInit (lit L_line_dir_topic) buf 1024 1) b;
  b ← abus_topic_init true 53 chassis_ctrl_topic
        (TopicInit (lit L_chassis_ctrl) buf 1024 sizeof_chassis_ctrl) b;
  let acc_init := AccInit (lit L_line_error_acc) None None in
  b ← abus_acc_init line_error_acc acc_init b;
  b ← abus_topic_subscribe line_error_topic line_error_acc (SubFlag 0 0) b;
  acc ← deref (accounters b) (Some line_dir_acc);
  let b := upd_acc line_dir_acc (Accounter (lit L_line_dir_acc) None (Some line_dir_sub_callback)
             (SubFlag 0 (is_self_fifo (acc_flag acc))) (acc_topic acc)) b in
  b ← abus_acc_init line_dir_acc acc_init b;
  b ← abus_topic_subscribe line_dir_topic line_dir_acc (SubFlag 0 0) b;
  b ← abus_acc_init line_spacial_point_acc (AccInit (lit L_line_special_acc) None None) b;
  b ← abus_topic_subscribe line_special_topic line_spacial_point_acc (SubFlag 0 0) b;
  b ← abus_acc_init chassis_acc (AccInit (lit L_chassis_acc) None (Some chassis_sub_callback)) b;
  b ← abus_topic_subscribe chassis_ctrl_topic chassis_acc (SubFlag 0 0) b;
  b ← abus_acc_init rbmg_error_acc (AccInit (lit L_rbmg_error_acc) None (Some rbmg_error_callback)) b;
  b ← abus_topic_subscribe line_error_topic rbmg_error_acc (SubFlag 0 0) b;
  b ← abus_acc_init rbmg_dir_acc (AccInit (lit L_rbmg_dir_acc) None (Some rbmg_dir_callback)) b;
  b ← abus_topic_subscribe line_dir_topic rbmg_dir_acc (SubFlag 0 0) b;
  b ← abus_acc_init rbmg_special_point_acc
        (AccInit (lit L_rbmg_special_point_acc) None (Some rbmg_special_point_callback)) b;
  b ← abus_topic_subscribe line_special_topic rbmg_special_point_acc (SubFlag 0 0) b;
  b ← abus_acc_init rbmg_chassis_acc
        (AccInit (lit L_rbmg_chassis_acc) None (Some rbmg_chassis_ctrl_callback)) b;
  abus_topic_subscribe chassis_ctrl_topic rbmg_chassis_acc (SubFlag 0 0) b.

(** The subscribers of a topic in delivery order, with their callbacks. *)
Definition subscribers (b : bus) (t : addr) : outcome (option (list (addr * option fnptr))) :=
  tp ← deref (topics_mem b) (Some t);
  n ← get_next (nodes b) (Some (tp_sync tp));
  l ← list_for_each 16 (nodes b) n (Some (tp_sync tp));
  Done (option_map (map (fun a => (a, accounters b !! a ≫= acc_callback))) l).

(** The boot-time wiring: which accounters are subscribed to which topic, in which
    delivery order and with which callback. The line direction accounter of the sensor
    module ends without a callback and under the name of another accounter. *)
Theorem abus_all_init_wiring n buf :
  exists b, abus_all_init n buf port_bus = Done b
  /\ subscribers b line_error_topic =
       Done (Some [(rbmg_error_acc, Some rbmg_error_callback); (line_error_acc, None)])
  /\ subscribers b line_special_topic =
       Done (Some [(rbmg_special_point_acc, Some rbmg_special_point_callback);
                   (line_spacial_point_acc, None)])
  /\ subscribers b chassis_ctrl_topic =
       Done (Some [(rbmg_chassis_acc, Some rbmg_chassis_ctrl_callback);
                   (chassis_acc, Some chassis_sub_callback)])
  /\ subscribers b line_dir_topic =
       Done (Some [(rbmg_dir_acc, Some rbmg_dir_callback); (line_dir_acc, None)])
  /\ abus_accounter_find b (lit L_line_dir_acc) = Done None
  /\ abus_accounter_find b (lit L_line_error_acc) = Done (Some line_error_acc).
Proof. eexists. split; [vm_compute; reflexivity|]. repeat split; vm_compute; reflexivity. Qed.
