(* ===== verification/AbusWf.v ===== *)
(** * Well-typed buses

    What the C types promise and the code must keep: pointers that are not [NULL] point
    to objects of their type, the fifos are well formed, the two tables hold registered
    objects and stay within their bounds.  The lists are intrusive, so the types do not
    tell a subscriber's node from a topic's head: what keeps a walk over one topic's ring
    from taking the head of another for a subscriber is that every subscriber is only
    ever subscribed to one list.  Under this discipline every operation of
    [abus_topic.c], publications with arbitrary well-typed callbacks included, keeps the
    types, and can only fail by following a [NULL] pointer or in one of its own endless
    loops. *)
From S2P Require Import Prelude Afifo Alist Abus.

(** A computation that keeps [P], or stops there; it never leaves an object. *)
Definition sound {A} (P : A -> Prop) (m : outcome A) : Prop :=
  match m with Done a => P a | Fault e => e = NullDeref \/ e = Hang end.

Lemma sound_bind {A B} (P : A -> Prop) (Q : B -> Prop) (m : outcome A) (k : A -> outcome B) :
  sound P m -> (forall a, P a -> sound Q (k a)) -> sound Q (m ≫= k).
Proof. destruct m; cbn; auto. Qed.
Lemma sound_mono {A} (P Q : A -> Prop) m : sound P m -> (forall a, P a -> Q a) -> sound Q m.
Proof. destruct m; cbn; auto. Qed.
(** Only [NULL] may stop an access. *)
Lemma sound_deref {A} (P : A -> Prop) (m : gmap nat A) p :
  (forall a, p = Some a -> exists x, m !! a = Some x /\ P x) -> sound P (deref m p).
Proof. intros Hp. destruct p as [a|]; [|by left]. destruct (Hp a eq_refl) as (x & Hx & HP). by rewrite (deref_ok _ _ _ Hx). Qed.
Lemma sound_assert x : sound (fun _ => x = true) (ABUS_ASSERT x).
Proof. destruct x; cbn; auto. Qed.

(** ** The list nodes *)

(** The list a node is for: its topic, and whether it is the synchronous one. *)
Abbreviation list_of := (addr -> addr * bool) (only parsing).

Section lists.
Context (D : gset nat) (cls : list_of).

Definition ptr_ok (k : addr * bool) (p : option addr) : Prop := forall c, p = Some c -> c ∈ D /\ cls c = k.
Record heap_ok (h : heap) : Prop := {
  hp_dom : dom h = D;
  hp_closed : forall a n, h !! a = Some n -> ptr_ok (cls a) (prev n) /\ ptr_ok (cls a) (next n);
}.

Lemma ptr_ok_None k : ptr_ok k None. Proof. done. Qed.
Lemma ptr_ok_Some a : a ∈ D -> ptr_ok (cls a) (Some a). Proof. by intros ? ? [= <-]. Qed.
Lemma deref_node h k p : heap_ok h -> ptr_ok k p ->
  sound (fun n => ptr_ok k (prev n) /\ ptr_ok k (next n)) (deref h p).
Proof.
  intros [Hd Hc] Hp. apply sound_deref. intros a ->. destruct (Hp a eq_refl) as [Ha <-].
  rewrite <- Hd in Ha. apply elem_of_dom in Ha as [n Hn]. exists n. split; [done|]. by apply Hc.
Qed.

Lemma get_next_sound h k p : heap_ok h -> ptr_ok k p -> sound (ptr_ok k) (get_next h p).
Proof. intros. eapply sound_bind; [by eapply deref_node|]. by intros n [_ ?]. Qed.
Lemma get_prev_sound h k p : heap_ok h -> ptr_ok k p -> sound (ptr_ok k) (get_prev h p).
Proof. intros. eapply sound_bind; [by eapply deref_node|]. by intros n [? _]. Qed.
Lemma heap_ok_insert h a n' : heap_ok h -> a ∈ D ->
  ptr_ok (cls a) (prev n') -> ptr_ok (cls a) (next n') -> heap_ok (<[a := n']> h).
Proof.
  intros [Hd Hc] Ha Hp Hn. split.
  - rewrite dom_insert_lookup_L; [done|]. apply elem_of_dom. by rewrite Hd.
  - intros a' x. rewrite lookup_insert. case_decide; [by intros [= <-]; subst|apply Hc].
Qed.
Lemma set_next_sound h k p v : heap_ok h -> ptr_ok k p -> ptr_ok k v -> sound heap_ok (set_next h p v).
Proof.
  intros Hh Hp Hv. unfold set_next. destruct p as [a|]; [|by left]. destruct (Hp a eq_refl) as [Ha <-].
  eapply sound_bind; [by eapply deref_node|]. intros n [? ?]. by apply heap_ok_insert.
Qed.
Lemma set_prev_sound h k p v : heap_ok h -> ptr_ok k p -> ptr_ok k v -> sound heap_ok (set_prev h p v).
Proof.
  intros Hh Hp Hv. unfold set_prev. destruct p as [a|]; [|by left]. destruct (Hp a eq_refl) as [Ha <-].
  eapply sound_bind; [by eapply deref_node|]. intros n [? ?]. by apply heap_ok_insert.
Qed.
End lists.

Create HintDb sound.
#[export] Hint Resolve ptr_ok_None ptr_ok_Some get_next_sound get_prev_sound set_next_sound set_prev_sound : sound.

(** One call after another. *)
Ltac sound_step := eapply sound_bind; [solve [eauto with sound]|intros; cbv beta in *].

Section list_calls.
Context (D : gset nat) (cls : list_of).
Implicit Types (h : heap) (a : addr).
Abbreviation ptr_ok := (ptr_ok D cls).
Abbreviation heap_ok := (heap_ok D cls).

Lemma init_sound h a : heap_ok h -> a ∈ D -> sound heap_ok (INIT_LIST_HEAD h (Some a)).
Proof. intros. unfold INIT_LIST_HEAD. sound_step. eauto with sound. Qed.
Lemma list_add_sound h a head : heap_ok h -> a ∈ D -> ptr_ok (cls a) head ->
  sound heap_ok (list_add h (Some a) head).
Proof. intros. unfold list_add, __list_add. do 4 sound_step. eauto with sound. Qed.
Lemma list_del_sound h a : heap_ok h -> a ∈ D -> sound heap_ok (list_del h (Some a)).
Proof. intros. unfold list_del, __list_del, LIST_POISON1, LIST_POISON2.
  do 2 sound_step. eapply sound_bind; [sound_step; eauto with sound|intros]. sound_step. eauto with sound. Qed.
End list_calls.
#[export] Hint Resolve init_sound list_add_sound list_del_sound : sound.

(** ** The bus *)

Section wf.
Context (D A T Fs : gset nat) (cls : list_of) (M : Z).
Implicit Types (b : bus) (a t f : addr).
Abbreviation ptr_ok := (ptr_ok D cls).
Abbreviation heap_ok := (heap_ok D cls).

(** [D] are the list nodes there are, [A], [T] and [Fs] accounters, topics and fifos that
    exist, [M] bounds the size of messages. *)
Definition fifo_ptr b (p : option addr) : Prop := forall f, p = Some f -> is_Some (fifos b !! f).
Definition size_ok (n : Z) : Prop := is_u32 n /\ n <= M.
Record acc_wf b a (acc : abus_accounter) : Prop := {
  aw_node : a ∈ D;
  aw_fifo : fifo_ptr b (acc_datafifo acc);
  aw_topic : forall t, acc_topic acc = Some t -> is_Some (topics_mem b !! t) /\ (cls a).1 = t;
}.
Record topic_wf b t (tp : abus_topic) : Prop := {
  tw_sync : tp_sync tp ∈ D /\ cls (tp_sync tp) = (t, true);
  tw_async : tp_async tp ∈ D /\ cls (tp_async tp) = (t, false);
  tw_fifo : fifo_ptr b (tp_datafifo tp);
  tw_size : size_ok (tp_msg_size tp);
}.
(** A node is a subscriber's or the head of its list. *)
Definition head_of (tp : abus_topic) (sync : bool) : addr := if sync then tp_sync tp else tp_async tp.
Definition member b (c : addr) : Prop :=
  is_Some (accounters b !! c) \/ exists tp, topics_mem b !! (cls c).1 = Some tp /\ c = head_of tp (cls c).2.
Record bus_wf b : Prop := {
  wf_nodes : heap_ok (nodes b);
  wf_members : forall c, c ∈ D -> member b c;
  wf_fifos : forall f x, fifos b !! f = Some x -> exists q, af_rep x q;
  wf_accs : forall a acc, accounters b !! a = Some acc -> acc_wf b a acc;
  wf_topics : forall t tp, topics_mem b !! t = Some tp -> topic_wf b t tp;
  wf_acc_table : Forall (.∈ A) (accs b) /\ (length (accs b) <= ABUS_ACCS_NUM)%nat;
  wf_topic_table : Forall (.∈ T) (topics b) /\
    (length (topics b) <= ABUS_TOPICS_NUM)%nat;
  wf_objects : (forall a, a ∈ A -> is_Some (accounters b !! a)) /\
    (forall t, t ∈ T -> is_Some (topics_mem b !! t)) /\ (forall f, f ∈ Fs -> is_Some (fifos b !! f));
}.

Lemma insert_is_Some {X} (m : gmap nat X) i k x : is_Some (m !! k) -> is_Some (<[i := x]> m !! k).
Proof. intros. rewrite lookup_insert. case_decide; [by eexists|done]. Qed.

(** What types depend on: which objects there are, and the heads of the topics. *)
Record grows b b' : Prop := {
  gr_fifos : forall f, is_Some (fifos b !! f) -> is_Some (fifos b' !! f);
  gr_accs : forall a, is_Some (accounters b !! a) -> is_Some (accounters b' !! a);
  gr_topics : forall t tp, topics_mem b !! t = Some tp ->
    exists tp', topics_mem b' !! t = Some tp' /\ tp_sync tp' = tp_sync tp /\ tp_async tp' = tp_async tp;
}.
Lemma grows_topic b b' t : grows b b' -> is_Some (topics_mem b !! t) -> is_Some (topics_mem b' !! t).
Proof. intros Hg [tp Ht]. destruct (gr_topics _ _ Hg t tp Ht) as (tp' & ? & _). by exists tp'. Qed.
Lemma grows_same b b' : (forall f, is_Some (fifos b !! f) -> is_Some (fifos b' !! f)) ->
  (forall a, is_Some (accounters b !! a) -> is_Some (accounters b' !! a)) -> topics_mem b' = topics_mem b -> grows b b'.
Proof. intros Hf Ha Ht. split; [done..|]. rewrite Ht. eauto. Qed.
Lemma acc_wf_grows b b' a acc : grows b b' -> acc_wf b a acc -> acc_wf b' a acc.
Proof.
  intros Hg [H1 H2 H3]. split; [done|intros f Hp; by apply (gr_fifos _ _ Hg), H2|].
  intros t Ht. destruct (H3 t Ht). split; [by eapply grows_topic|done].
Qed.
Lemma topic_wf_grows b b' t tp : grows b b' -> topic_wf b t tp -> topic_wf b' t tp.
Proof. intros Hg [H1 H2 H3 H4]. split; [done|done|intros f Hp; by apply (gr_fifos _ _ Hg), H3|done]. Qed.
Lemma member_grows b b' c : grows b b' -> member b c -> member b' c.
Proof.
  intros Hg [Ha|(tp & Ht & Hc)]; [left; by apply (gr_accs _ _ Hg)|right].
  destruct (gr_topics _ _ Hg _ tp Ht) as (tp' & Ht' & Hs & Has). exists tp'. split; [done|].
  unfold head_of in *. by rewrite Hs, Has.
Qed.
Hint Resolve acc_wf_grows topic_wf_grows member_grows grows_topic : core.

Lemma set_nodes_wf b h : bus_wf b -> heap_ok h -> bus_wf (set_nodes h b).
Proof.
  intros [Hn Hmb Hf Ha Ht Hat Htt Ho] Hh. assert (grows b (set_nodes h b)) as Hg by by apply grows_same.
  split; try done; eauto.
Qed.
Lemma upd_fifo_wf b f x q : bus_wf b -> af_rep x q -> bus_wf (upd_fifo f x b).
Proof.
  intros [Hn Hmb Hf Ha Ht Hat Htt Ho] Hx.
  assert (grows b (upd_fifo f x b)) as Hg by (apply grows_same; [intros; by apply insert_is_Some|done..]).
  split; try done; eauto.
  - intros g y. cbn. rewrite lookup_insert. case_decide; [intros [= <-]; by exists q|apply Hf].
  - destruct Ho as (H1 & H2 & H3). do 2 (split; [done|]). intros k Hk. by apply insert_is_Some, H3.
Qed.
Lemma upd_acc_wf b a acc : bus_wf b -> acc_wf b a acc -> bus_wf (upd_acc a acc b).
Proof.
  intros [Hn Hmb Hf Ha Ht [Hat Hal] Htt (H1 & H2 & H3)] Hacc.
  assert (grows b (upd_acc a acc b)) as Hg by (apply grows_same; [done|intros; by apply insert_is_Some|done]).
  split; try done; eauto.
  - intros a' acc'. cbn. rewrite lookup_insert. case_decide; [intros [= <-]; subst a'|intros Hl]; eauto.
  - split; [|done]. intros k Hk. by apply insert_is_Some, H1.
Qed.
Lemma upd_topic_wf b t tp tp' : bus_wf b -> topics_mem b !! t = Some tp ->
  tp_sync tp' = tp_sync tp -> tp_async tp' = tp_async tp -> topic_wf b t tp' -> bus_wf (upd_topic t tp' b).
Proof.
  intros [Hn Hmb Hf Ha Ht Hat [Htt Htl] (H1 & H2 & H3)] Hl Hs Has Htp.
  assert (grows b (upd_topic t tp' b)) as Hg.
  { split; [done..|]. intros t2 tp2 Ht2. cbn. rewrite lookup_insert. case_decide; [subst t2|eauto].
    exists tp'. replace tp2 with tp by congruence. done. }
  split; try done; eauto.
  - intros t2 tp2. cbn. rewrite lookup_insert. case_decide; [intros [= <-]; subst t2|intros ?]; eauto.
Qed.
Lemma tables_wf b la lt : bus_wf b -> Forall (.∈ A) la -> (length la <= ABUS_ACCS_NUM)%nat ->
  Forall (.∈ T) lt -> (length lt <= ABUS_TOPICS_NUM)%nat ->
  bus_wf (Bus (nodes b) (accounters b) (topics_mem b) (fifos b) la lt).
Proof.
  intros [Hn Hmb Hf Ha Ht Hat Htt Ho] ? ? ? ?. set (b' := Bus _ _ _ _ _ _).
  assert (grows b b') as Hg by by apply grows_same. split; try done; eauto.
Qed.

(** ** The operations *)

Lemma deref_acc b a : bus_wf b -> is_Some (accounters b !! a) ->
  sound (fun acc => acc_wf b a acc /\ accounters b !! a = Some acc) (deref (accounters b) (Some a)).
Proof.
  intros Hb [acc Ha]. apply sound_deref. intros ? [= <-]. exists acc. split; [done|]. by split; [apply (wf_accs b Hb)|].
Qed.
Lemma deref_topic b p : bus_wf b -> (forall t, p = Some t -> is_Some (topics_mem b !! t)) ->
  sound (fun tp => exists t, p = Some t /\ topics_mem b !! t = Some tp /\ topic_wf b t tp) (deref (topics_mem b) p).
Proof.
  intros Hb Hp. apply sound_deref. intros t ->. destruct (Hp t eq_refl) as [tp Ht]. exists tp. split; [done|].
  exists t. split_and!; [done..|]. by apply (wf_topics b Hb).
Qed.
Lemma deref_fifo b p : bus_wf b -> fifo_ptr b p -> sound (fun x => exists q, af_rep x q) (deref (fifos b) p).
Proof.
  intros Hb Hp. apply sound_deref. intros f ->. destruct (Hp f eq_refl) as [x Hx]. exists x. split; [done|].
  by apply (wf_fifos b Hb f).
Qed.
Lemma cls_head b t tp sync : topic_wf b t tp -> head_of tp sync ∈ D /\ cls (head_of tp sync) = (t, sync).
Proof. intros [? ? _ _]. by destruct sync. Qed.

(** A fresh fifo, on a block of its size. *)
Lemma afifo_init_sound mem buf n : 0 < n <= 2 ^ 30 -> Z.of_nat (length buf) = n ->
  sound (fun o => match o with Some x => af_rep x [] | None => True end) (afifo_init mem buf n).
Proof.
  intros Hn Hb. destruct (afifo_init mem buf n) as [o|e] eqn:E.
  - destruct o as [x|]; [|done]. destruct mem.
    + assert (exists k, 0 <= k <= 30 /\ n = 2 ^ k) as (k & Hk & ->).
      { unfold afifo_init in E. destruct (is_power_of_2 (s32 n)) eqn:Ep; [|done]. rewrite s32_id in Ep by cint.
        unfold is_power_of_2 in Ep. destruct (n <=? 0); [done|].
        assert (exists k, 0 <= k /\ n = 2 ^ k) as (k & Hk & Hnk).
        { destruct (n =? 1) eqn:E1; [exists 0; split; [done|]; by apply Z.eqb_eq|]. apply (halve_true 32 n); [lia|done]. }
        exists k. split; [|done]. split; [done|]. subst n. apply (Z.pow_le_mono_r_iff 2); lia. }
      by apply (init_rep k buf x).
    + unfold afifo_init in E. by destruct (BUG_ON _).
  - unfold afifo_init in E. destruct (is_power_of_2 _); cbn in E; [done|]. injection E as <-. by right.
Qed.

Definition block_ok (init : abus_topic_init_t) : Prop :=
  0 < ti_buf_size init <= 2 ^ 30 /\ Z.of_nat (length (ti_buf init)) = ti_buf_size init.

Lemma topic_init_sound mem fnew t init b : t ∈ T -> block_ok init ->
  size_ok (ti_msg_size init) -> bus_wf b -> sound bus_wf (abus_topic_init mem fnew t init b).
Proof.
  intros Hex [Hs Hl] Hm Hb. unfold abus_topic_init.
  eapply sound_bind; [apply (deref_topic b (Some t) Hb); intros ? [= <-]; by apply (wf_objects b Hb)|].
  intros tp (? & [= <-] & Htp & Hw). apply (sound_bind _ _ _ _ (afifo_init_sound mem _ _ Hs Hl)).
  intros o Ho. pose proof (wf_nodes b Hb). pose proof (proj1 (tw_sync _ _ _ Hw)). pose proof (proj1 (tw_async _ _ _ Hw)).
  sound_step. sound_step.
  eapply sound_bind; [apply sound_assert|]. intros [] Hlt%bool_decide_eq_true. cbn [sound].
  set (b1 := match o with Some f => upd_fifo fnew f b | None => b end).
  assert (bus_wf b1 /\ topics_mem b1 = topics_mem b /\ (length (topics b1) < ABUS_TOPICS_NUM)%nat) as (Hb1 & Htm & Hlt1)
    by (unfold b1; destruct o; [split; [by eapply upd_fifo_wf|done]|done]).
  set (tp' := Topic _ _ _ _ _).
  assert (topic_wf b1 t tp') as Htp'.
  { destruct Hw as [Hsy Has _ _]. split; [done|done| |done]. unfold b1, tp'. cbn. destruct o as [f|]; [|done].
    intros g [= <-]. exists f. apply lookup_insert_eq. }
  rewrite <- Htm in Htp. pose proof (upd_topic_wf b1 t tp tp' Hb1 Htp eq_refl eq_refl Htp') as Hb2.
  assert (bus_wf (set_nodes a0 (upd_topic t tp' b1))) as Hb3 by by apply set_nodes_wf.
  pose proof (wf_topic_table _ Hb3) as [Htt Htl]. pose proof (wf_acc_table _ Hb3) as [Hat Hal].
  replace (Bus _ _ _ _ _ _) with (let b := set_nodes a0 (upd_topic t tp' b1) in
    Bus (nodes b) (accounters b) (topics_mem b) (fifos b) (accs b) (topics b ++ [t])) by (unfold b1; by destruct o).
  apply tables_wf; [done..| |rewrite length_app; cbn; lia].
  apply Forall_app. split; [done|]. by apply Forall_singleton.
Qed.

Lemma acc_init_sound a init b : a ∈ A -> fifo_ptr b (ai_datafifo init) -> bus_wf b ->
  sound bus_wf (abus_acc_init a init b).
Proof.
  intros Ha Hi Hb. unfold abus_acc_init. assert (is_Some (accounters b !! a)) as Hex by by apply (wf_objects b Hb).
  apply (sound_bind _ _ _ _ (deref_acc b a Hb Hex)). intros acc [[H1 H2 H3] Hl].
  eapply sound_bind; [apply sound_assert|]. intros [] Hlt%bool_decide_eq_true. cbn [sound].
  set (acc' := Accounter _ _ _ _ _). assert (acc_wf b a acc') as Hacc' by by split.
  pose proof (upd_acc_wf b a acc' Hb Hacc') as Hb1.
  pose proof (wf_topic_table _ Hb1) as [Htt Htl]. pose proof (wf_acc_table _ Hb1) as [Hat Hal].
  apply (tables_wf (upd_acc a acc' b)); [done| |rewrite length_app; cbn in *; lia|done..].
  apply Forall_app. split; [done|]. by apply Forall_singleton.
Qed.

(** A subscription has to be to the list its subscriber is for. *)
Definition sub_ok (t a : addr) (flag : abus_sub_flag) : Prop := cls a = (t, is_async flag =? 0).
Lemma subscribe_sound t a flag b : t ∈ T -> a ∈ A -> sub_ok t a flag ->
  bus_wf b -> sound bus_wf (abus_topic_subscribe t a flag b).
Proof.
  intros HT HA Hk Hb. destruct (wf_objects b Hb) as (Hacs & Htos & _). pose proof (Hacs a HA) as Hex. pose proof (Htos t HT) as Ht.
  unfold abus_topic_subscribe. apply (sound_bind _ _ _ _ (deref_acc b a Hb Hex)). intros acc [[H1 H2 H3] Hl].
  set (acc' := Accounter _ _ _ _ _).
  assert (acc_wf b a acc') as Hacc' by (split; [done|done|intros ? [= <-]; by rewrite Hk]).
  pose proof (upd_acc_wf b a acc' Hb Hacc') as Hb1.
  eapply sound_bind; [apply (deref_topic _ (Some t) Hb1); by intros ? [= <-]|]. intros tp (? & [= <-] & _ & Hw).
  pose proof (wf_nodes _ Hb1). destruct (cls_head _ _ _ (is_async flag =? 0) Hw) as [Hin Hc].
  change (if is_async flag =? 0 then tp_sync tp else tp_async tp) with (head_of tp (is_async flag =? 0)).
  eapply sound_bind; [apply list_add_sound; [done|done|]|].
  { intros c [= <-]. split; [done|]. by rewrite Hc. }
  intros h Hh. by apply set_nodes_wf.
Qed.

Lemma unsubscribe_sound a b : a ∈ A -> bus_wf b -> sound bus_wf (abus_topic_unsubscribe a b).
Proof.
  intros HA Hb. pose proof (proj1 (wf_objects b Hb) a HA) as Hex. unfold abus_topic_unsubscribe. apply (sound_bind _ _ _ _ (deref_acc b a Hb Hex)). intros acc [[H1 H2 H3] Hl].
  set (acc' := Accounter _ _ _ _ _). assert (acc_wf b a acc') as Hacc' by (split; [done|done|by intros ? [= <-]]).
  pose proof (upd_acc_wf b a acc' Hb Hacc') as Hb1. pose proof (wf_nodes _ Hb1).
  eapply sound_bind; [by apply list_del_sound|]. intros h Hh. by apply set_nodes_wf.
Qed.

(** ** The searches *)

Lemma find_acc_sound b l name : Forall (fun a => is_Some (accounters b !! a)) l ->
  exists o, find_acc b l name = Done o /\ forall a, o = Some a -> a ∈ l.
Proof.
  induction 1 as [|a l [acc Ha] _ IH]; cbn [find_acc]; [by exists None|].
  rewrite (deref_ok _ _ _ Ha). cbn [mbind outcome_bind]. destruct (acc_name acc =? name).
  - exists (Some a). split; [done|]. intros ? [= <-]. set_solver.
  - destruct IH as (o & -> & Ho). exists o. split; [done|]. intros a' ->. specialize (Ho a' eq_refl). set_solver.
Qed.
Lemma find_topic_sound b l name : Forall (fun t => is_Some (topics_mem b !! t)) l ->
  exists o, find_topic b l name = Done o /\ forall t, o = Some t -> t ∈ l.
Proof.
  induction 1 as [|a l [acc Ha] _ IH]; cbn [find_topic]; [by exists None|].
  rewrite (deref_ok _ _ _ Ha). cbn [mbind outcome_bind]. destruct (tp_name acc =? name).
  - exists (Some a). split; [done|]. intros ? [= <-]. set_solver.
  - destruct IH as (o & -> & Ho). exists o. split; [done|]. intros a' ->. specialize (Ho a' eq_refl). set_solver.
Qed.
Lemma find_both b topic acc : bus_wf b -> exists oa ot,
  abus_accounter_find b acc = Done oa /\ abus_topic_find b topic = Done ot /\
  (forall a, oa = Some a -> a ∈ A) /\ (forall t, ot = Some t -> t ∈ T).
Proof.
  intros Hb. destruct (wf_objects b Hb) as (HA & HT & _).
  pose proof (proj1 (wf_acc_table b Hb)) as Hacc. pose proof (proj1 (wf_topic_table b Hb)) as Ht.
  destruct (find_acc_sound b (accs b) acc) as (oa & Ha & Hia); [exact (Forall_impl _ _ _ Hacc HA)|].
  destruct (find_topic_sound b (topics b) topic) as (ot & Hto & Hin); [exact (Forall_impl _ _ _ Ht HT)|].
  rewrite Forall_forall in Hacc, Ht. exists oa, ot. split_and!; [done..| |].
  - intros a ->. by apply Hacc, Hia.
  - intros t ->. by apply Ht, Hin.
Qed.

Definition sub_name_ok b (topic acc : Z) (flag : abus_sub_flag) : Prop :=
  match abus_accounter_find b acc, abus_topic_find b topic with
  | Done (Some a), Done (Some t) => sub_ok t a flag
  | _, _ => True
  end.
Lemma subscribe_name_sound topic acc flag b : sub_name_ok b topic acc flag -> bus_wf b ->
  sound (fun r => bus_wf r.1) (abus_topic_subscribe_name topic acc flag b).
Proof.
  unfold sub_name_ok. intros Hk Hb. unfold abus_topic_subscribe_name.
  destruct (find_both b topic acc Hb) as (oa & ot & Hoa & Hot & Ha & Ht). rewrite Hoa, Hot in *.
  cbn [mbind outcome_bind]. destruct oa as [a|]; [|done]. destruct ot as [t|]; [|done].
  eapply sound_bind; [apply subscribe_sound; auto|]. done.
Qed.
Lemma unsubscribe_name_sound topic acc b : bus_wf b ->
  sound (fun r => bus_wf r.1) (abus_topic_unsubscribe_name topic acc b).
Proof.
  intros Hb. unfold abus_topic_unsubscribe_name. destruct (find_both b topic acc Hb) as (oa & ot & -> & -> & Ha & Ht).
  cbn [mbind outcome_bind]. destruct oa as [a|]; [|done]. destruct ot as [t|]; [|done].
  eapply sound_bind; [apply unsubscribe_sound; auto|]. done.
Qed.

(** ** Publications *)

Lemma afifo_in_sound x q buf n : af_rep x q -> is_u32 n -> n <= Z.of_nat (length buf) ->
  exists x' k q', afifo_in x buf n = Done (x', k) /\ af_rep x' q'.
Proof.
  intros Hr Hn Hl. destruct (in_spec x q Hr buf n Hn Hl) as (x' & He & _ & Hr'). eauto 6.
Qed.
Lemma fifo_in_sound b p msg n : bus_wf b -> fifo_ptr b p -> size_ok n -> M <= Z.of_nat (length msg) ->
  sound (fun r => bus_wf r.1) (fifo_in b p msg n).
Proof.
  intros Hb Hp [Hn Hm] Hl. unfold fifo_in. destruct p as [f|]; [|by left].
  apply (sound_bind _ _ _ _ (deref_fifo b (Some f) Hb Hp)). intros x [q Hr].
  destruct (afifo_in_sound x q msg n Hr Hn) as (x' & k & q' & -> & Hr'); [lia|]. by eapply upd_fifo_wf.
Qed.
Lemma add_out_rep x q n : af_rep x q -> is_u32 n -> exists q', af_rep (afifo_add_out x n).1 q'.
Proof.
  intros Hr Hn. destruct (step_refines x q Hr (FSkip n) Hn) as (x' & He & _ & Hr').
  cbn [fifo_step] in He. destruct (afifo_add_out x n) as [y k]. injection He as <-. eauto.
Qed.

Section publish.
Context {W : Type} (callback : fnptr -> addr -> bus -> W -> outcome (bus * W)).
Hypothesis callback_sound : forall f t b w, bus_wf b -> sound (fun r => bus_wf r.1) (callback f t b w).
Context (msg : list Z).
Hypothesis msg_long : M <= Z.of_nat (length msg).

(** The topic of an accounter is the one its list belongs to, as long as it has one. *)
Lemma topic_of_sound b a : bus_wf b -> is_Some (accounters b !! a) ->
  sound (fun t => t = (cls a).1 /\ is_Some (topics_mem b !! t)) (topic_of b a).
Proof.
  intros Hb Ha. unfold topic_of. apply (sound_bind _ _ _ _ (deref_acc b a Hb Ha)). intros acc [[_ _ Ht] _].
  destruct (acc_topic acc) as [t|]; cbn; [|by left]. destruct (Ht t eq_refl) as [? <-]. done.
Qed.
Lemma topic_obj_sound b a : bus_wf b -> is_Some (accounters b !! a) ->
  sound (fun tp => topics_mem b !! (cls a).1 = Some tp /\ topic_wf b (cls a).1 tp) (topic_obj b a).
Proof.
  intros Hb Ha. unfold topic_obj. apply (sound_bind _ _ _ _ (topic_of_sound b a Hb Ha)). intros t [-> Ht].
  eapply sound_mono; [apply (deref_topic b (Some (cls a).1) Hb); by intros ? [= <-]|].
  by intros tp (? & [= <-] & ? & ?).
Qed.
Lemma deliver_sound a pos b w : bus_wf b -> a ∈ A -> is_Some (accounters b !! pos) ->
  sound (fun r => bus_wf r.1) (deliver callback a pos msg b w).
Proof.
  intros Hb Ha Hpos. assert (is_Some (accounters b !! a)) as Hex by by apply (wf_objects b Hb).
  unfold deliver. apply (sound_bind _ _ _ _ (deref_acc b pos Hb Hpos)). intros acc [[H1 H2 H3] Hl].
  destruct (_ =? 0); [|done].
  apply (sound_bind bus_wf).
  - destruct (acc_datafifo acc) as [f|]; [|done].
    apply (sound_bind _ _ _ _ (topic_obj_sound b a Hb Hex)). intros tp [_ [_ _ _ Hs]].
    eapply sound_bind; [by apply fifo_in_sound|]. intros r Hr.
    eapply sound_bind; [apply (deref_topic b _ Hb); intros t Ht; by apply H3|]. intros stp _. destruct (negb _); cbn; auto.
  - intros b1 Hb1. destruct (acc_callback acc); [|done].
    eapply sound_bind; [apply (topic_of_sound b1 a Hb1); by apply (wf_objects b1 Hb1)|]. intros t _. by apply callback_sound.
Qed.

Definition wf_opt (o : option (bus * W)) : Prop := match o with Some r => bus_wf r.1 | None => True end.
Lemma loop_sound (fuel : nat) a pos b w : bus_wf b -> a ∈ A -> ptr_ok ((cls a).1, true) pos ->
  sound wf_opt (public_loop callback fuel a pos msg b w).
Proof.
  revert pos b w. induction fuel as [|fuel IH]; intros pos b w Hb Ha Hpos; cbn [public_loop]; [done|].
  assert (is_Some (accounters b !! a)) as Hex by by apply (wf_objects b Hb).
  apply (sound_bind _ _ _ _ (topic_obj_sound b a Hb Hex)). intros tp [Htp _]. case_bool_decide as Hne; [done|].
  destruct pos as [p|]; [|by left]. destruct (Hpos p eq_refl) as [Hp Hc].
  assert (is_Some (accounters b !! p)) as Hacc.
  { destruct (wf_members b Hb p Hp) as [|(tp' & Ht' & Hh)]; [done|]. rewrite Hc in Ht', Hh. cbn in Ht', Hh.
    rewrite Htp in Ht'. injection Ht' as <-. by rewrite Hh in Hne. }
  apply (sound_bind _ _ _ _ (deliver_sound a p b w Hb Ha Hacc)). intros r Hr.
  eapply sound_bind; [by eapply get_next_sound, Hpos; apply wf_nodes|]. intros n Hn. by apply IH.
Qed.
Lemma public_sound (fuel : nat) a b w : bus_wf b -> a ∈ A -> sound wf_opt (abus_public callback fuel a msg b w).
Proof.
  intros Hb Ha. unfold abus_public.
  eapply sound_bind; [apply (topic_obj_sound b a Hb); by apply (wf_objects b Hb)|]. intros tp [_ [Hsy _ Hfi Hs]].
  eapply sound_bind; [by apply fifo_in_sound|]. intros r Hr. destruct (negb _); [by right|].
  eapply sound_bind; [eapply get_next_sound; [by apply wf_nodes|]|].
  { intros c [= <-]. exact Hsy. }
  intros n Hn. apply (sound_bind _ _ _ _ (loop_sound fuel a n r.1 w Hr Ha Hn)). intros [[b' w']|] Hb'; [|done]. cbn in Hb'.
  eapply sound_bind; [apply (topic_obj_sound b' a Hb'); by apply (wf_objects b' Hb')|]. intros tp' [_ [_ _ Hf' [Hs' _]]].
  destruct (tp_datafifo tp') as [fa|]; [|by left].
  apply (sound_bind _ _ _ _ (deref_fifo b' (Some fa) Hb' Hf')). intros x [q Hq].
  destruct (add_out_rep x q _ Hq Hs') as [q' Hq']. by eapply upd_fifo_wf.
Qed.
Lemma public_name_sound (fuel : nat) name b w : bus_wf b ->
  sound (fun o => match o with Some (b, _, _) => bus_wf b | None => True end)
    (abus_public_name callback fuel name msg b w).
Proof.
  intros Hb. unfold abus_public_name. destruct (find_both b 0 name Hb) as (o & _ & -> & _ & Ha & _).
  cbn [mbind outcome_bind]. destruct o as [a|]; [|done].
  apply (sound_bind _ _ _ _ (public_sound fuel a b w Hb (Ha a eq_refl))). by intros [[b' w']|].
Qed.
End publish.
End wf.

(** ** Programs of bus operations *)

Inductive bus_op :=
  | OpTopicInit (mem : bool) (fnew t : addr) (init : abus_topic_init_t)
  | OpAccInit (a : addr) (init : abus_acc_init_t)
  | OpSubscribe (t a : addr) (flag : abus_sub_flag)
  | OpUnsubscribe (a : addr)
  | OpSubscribeName (topic acc : Z) (flag : abus_sub_flag)
  | OpUnsubscribeName (topic acc : Z)
  | OpPublic (a : addr) (msg : list Z)
  | OpPublicName (acc : Z) (msg : list Z).

Section programs.
Context {W : Type} (callback : fnptr -> addr -> bus -> W -> outcome (bus * W)) (fuel : nat).

Definition bus_op_run (o : bus_op) (b : bus) (w : W) : outcome (option (bus * W)) :=
  let plain m := b ← m; Done (Some (b, w)) in
  match o with
  | OpTopicInit mem fnew t init => plain (abus_topic_init mem fnew t init b)
  | OpAccInit a init => plain (abus_acc_init a init b)
  | OpSubscribe t a flag => plain (abus_topic_subscribe t a flag b)
  | OpUnsubscribe a => plain (abus_topic_unsubscribe a b)
  | OpSubscribeName topic acc flag => r ← abus_topic_subscribe_name topic acc flag b; Done (Some (r.1, w))
  | OpUnsubscribeName topic acc => r ← abus_topic_unsubscribe_name topic acc b; Done (Some (r.1, w))
  | OpPublic a msg => abus_public callback fuel a msg b w
  | OpPublicName acc msg =>
    o ← abus_public_name callback fuel acc msg b w;
    Done (match o with Some (b, w, _) => Some (b, w) | None => None end)
  end.
Fixpoint bus_ops_run (os : list bus_op) (b : bus) (w : W) : outcome (option (bus * W)) :=
  match os with
  | [] => Done (Some (b, w))
  | o :: os => r ← bus_op_run o b w; match r with Some (b, w) => bus_ops_run os b w | None => Done None end
  end.

Context (D A T Fs : gset nat) (cls : list_of) (M : Z).

(** The arguments have the C types, the objects they point to exist, and a subscription
    is to the list its subscriber is for; a name stands for what it finds in [b]. *)
Definition bus_op_ok (o : bus_op) (b : bus) : Prop :=
  match o with
  | OpTopicInit _ _ t init => t ∈ T /\ block_ok init /\ size_ok M (ti_msg_size init)
  | OpAccInit a init => a ∈ A /\ forall f, ai_datafifo init = Some f -> f ∈ Fs
  | OpSubscribe t a flag => t ∈ T /\ a ∈ A /\ sub_ok cls t a flag
  | OpUnsubscribe a => a ∈ A
  | OpSubscribeName topic acc flag => sub_name_ok cls b topic acc flag
  | OpUnsubscribeName _ _ => True
  | OpPublic a msg => a ∈ A /\ M <= Z.of_nat (length msg)
  | OpPublicName _ msg => M <= Z.of_nat (length msg)
  end.
(** Every call of a program, at the time it is made. *)
Fixpoint bus_ops_ok (os : list bus_op) (b : bus) (w : W) : Prop :=
  match os with
  | [] => True
  | o :: os => bus_op_ok o b /\ match bus_op_run o b w with Done (Some (b, w)) => bus_ops_ok os b w | _ => True end
  end.

Abbreviation bus_wf := (bus_wf D A T Fs cls M).
Abbreviation wf_opt := (wf_opt D A T Fs cls M).
Lemma bus_op_sound o b w :
  (forall f t b w, bus_wf b -> sound (fun r => bus_wf r.1) (callback f t b w)) ->
  bus_op_ok o b -> bus_wf b -> sound wf_opt (bus_op_run o b w).
Proof.
  intros Hc Ho Hb. destruct o; cbn [bus_op_run bus_op_ok] in *.
  - destruct Ho as (? & ? & ?). eapply sound_bind; [by apply topic_init_sound|]. done.
  - destruct Ho as [? Hf]. eapply sound_bind; [apply acc_init_sound|done]; [done| |done].
    intros f Hp. by apply (wf_objects _ _ _ _ _ _ b Hb), Hf.
  - destruct Ho as (? & ? & ?). eapply sound_bind; [by apply subscribe_sound|done].
  - eapply sound_bind; [by apply unsubscribe_sound|]. done.
  - eapply sound_bind; [by apply subscribe_name_sound|]. done.
  - eapply sound_bind; [by apply unsubscribe_name_sound|]. done.
  - destruct Ho as [? ?]. by apply public_sound.
  - eapply sound_bind; [by apply public_name_sound|]. by intros [[[b' w'] ?]|].
Qed.
End programs.

(** C29: Types are kept where every accounter is only ever subscribed to one list, one
    topic's synchronous or asynchronous one: from a well-typed bus, every program of
    registrations, subscriptions, removals and publications that keeps to this, with
    arguments of their C types and existing objects, by pointer or by name and with any
    callbacks that keep types and this themselves, leaves a well-typed bus (no pointer
    dangles, a walk over a topic's list meets only its subscribers and its own head,
    every fifo is one, both tables stay within their bounds), and stops early only at a
    NULL pointer or in one of the code's endless loops: it never reads or writes outside
    an object, nor through a head taken for a subscriber, and meets no undefined
    behaviour. *)
Theorem bus_programs_typed {W} callback (fuel : nat) D A T Fs cls M os b (w : W) :
  (forall f t b w, bus_wf D A T Fs cls M b -> sound (fun r => bus_wf D A T Fs cls M r.1) (callback f t b w)) ->
  bus_ops_ok callback fuel A T Fs cls M os b w -> bus_wf D A T Fs cls M b ->
  sound (wf_opt D A T Fs cls M) (bus_ops_run callback fuel os b w).
Proof.
  intros Hc. revert b w. induction os as [|o os IH]; intros b w Hos Hb; cbn [bus_ops_run bus_ops_ok] in *; [done|].
  destruct Hos as [Ho Hos]. pose proof (bus_op_sound callback fuel D A T Fs cls M o b w Hc Ho Hb) as Hs.
  destruct (bus_op_run callback fuel o b w) as [[[b' w']|]|]; cbn [mbind outcome_bind]; [by apply IH|done..].
Qed.

(** ** The port's objects are a well-typed bus *)

Definition port_nodes : gset nat := list_to_set (seq 1 8 ++ seq 200 8).
Definition port_accs : gset nat := list_to_set (seq 1 8).
Definition port_topics : gset nat := list_to_set (seq 100 4).
(** Every accounter for the first topic's synchronous list. *)
Definition port_lists : list_of := fun c =>
  if decide (c < 200)%nat then (100%nat, true) else ((100 + (c - 200) / 2)%nat, Nat.even c).

Lemma map_all {A} (P : nat -> A -> Prop) `{forall k x, Decision (P k x)} (m : gmap nat A) :
  forallb (fun kx => bool_decide (P kx.1 kx.2)) (map_to_list m) = true -> forall k x, m !! k = Some x -> P k x.
Proof.
  rewrite forallb_forall. intros Hm k x Hx. apply (bool_decide_unpack (P k x)), Is_true_true_2.
  apply (Hm (k, x)). by apply list_elem_of_In, elem_of_map_to_list.
Qed.

Lemma port_wf : bus_wf port_nodes port_accs port_topics ∅ port_lists 4 port_bus.
Proof.
  pose proof (map_all (fun _ n => prev n = None /\ next n = None) (nodes port_bus)) as Hn.
  pose proof (map_all (fun a acc => a ∈ port_nodes /\ acc_datafifo acc = None /\ acc_topic acc = None)
    (accounters port_bus)) as Ha.
  pose proof (map_all (fun t tp => (tp_sync tp ∈ port_nodes /\ port_lists (tp_sync tp) = (t, true)) /\
    (tp_async tp ∈ port_nodes /\ port_lists (tp_async tp) = (t, false)) /\ tp_datafifo tp = None
    /\ tp_msg_size tp = 0) (topics_mem port_bus)) as Ht.
  specialize (Hn ltac:(vm_compute; reflexivity)). specialize (Ha ltac:(vm_compute; reflexivity)).
  specialize (Ht ltac:(vm_compute; reflexivity)). cbv beta in Hn, Ha, Ht.
  split.
  - split; [apply (bool_decide_unpack _); vm_compute; exact I|]. intros a n Hl. by destruct (Hn a n Hl) as [-> ->].
  - intros c Hc%elem_of_list_to_set%elem_of_app. unfold member. rewrite !elem_of_seq in Hc. destruct Hc as [Hc|Hc].
    + left. do 9 (destruct c as [|c]; [first [lia|by vm_compute; eexists]|]). lia.
    + right. remember (c - 200)%nat as k eqn:Hk. assert (c = 200 + k)%nat as -> by lia.
      do 8 (destruct k as [|k]; [eexists; split; vm_compute; reflexivity|]). lia.
  - done.
  - intros a acc Hl. destruct (Ha a acc Hl) as (H1 & H2 & H3). split; [done|by rewrite H2|by rewrite H3].
  - intros t tp Hl. destruct (Ht t tp Hl) as (H1 & H2 & H3 & H4).
    split; [done|done|by rewrite H3|]. rewrite H4. split; [cint|done].
  - split; [constructor|cbn; lia].
  - split; [constructor|cbn; lia].
  - split; [|split; [|done]]; intros k Hin%elem_of_list_to_set%elem_of_seq.
    + do 9 (destruct k as [|k]; [first [lia|by vm_compute; eexists]|]). lia.
    + assert (k = 100 \/ k = 101 \/ k = 102 \/ k = 103)%nat as [-> | [-> | [-> | ->]]] by lia; vm_compute; by eexists.
Qed.

Definition ex_program : list bus_op :=
  [OpTopicInit true 50 100 (TopicInit 1 (replicate 16 0) 16 4); OpAccInit 1 (AccInit 7 None (Some 9%nat));
   OpAccInit 2 (AccInit 8 None (Some 9%nat)); OpSubscribe 100 1 (SubFlag 0 0); OpSubscribeName 1 8 (SubFlag 0 0);
   OpPublic 1 (replicate 4 5); OpUnsubscribe 2; OpPublicName 7 (replicate 4 6)].

Lemma bus_programs_typed_witness :
  exists b w, bus_ops_run (fun _ _ b n => Done (b, n + 1)) 10 ex_program port_bus 0 = Done (Some (b, w)) /\
    w = 3 /\ bus_wf port_nodes port_accs port_topics ∅ port_lists 4 b.
Proof.
  assert (sound (wf_opt port_nodes port_accs port_topics ∅ port_lists 4)
    (bus_ops_run (fun _ _ b n => Done (b, n + 1)) 10 ex_program port_bus 0)) as Hs.
  { apply (bus_programs_typed _ 10 port_nodes port_accs port_topics ∅ port_lists 4).
    - intros f t b w Hb. exact Hb.
    - vm_compute. repeat split; intros; discriminate.
    - exact port_wf. }
  assert (match bus_ops_run (fun _ _ b n => Done (b, n + 1)) 10 ex_program port_bus 0 with
    | Done (Some (_, w)) => w = 3 | _ => False end) as Hw by (vm_compute; reflexivity).
  destruct (bus_ops_run _ _ _ _ _) as [[[b w]|]|e]; [|destruct Hw..].
  exists b, w. exact (conj eq_refl (conj Hw Hs)).
Defined.

(** What the discipline is for: an accounter subscribed to a second topic leads a walk
    over the first topic's ring to the head of the second, which is no subscriber. *)
Example two_lists_confused :
  bus_ops_run (fun _ _ b n => Done (b, n + 1)) 10
    [OpTopicInit true 50 100 (TopicInit 1 (replicate 16 0) 16 4);
     OpTopicInit true 51 101 (TopicInit 2 (replicate 16 0) 16 4);
     OpSubscribe 100 1 (SubFlag 0 0); OpSubscribe 101 1 (SubFlag 0 0); OpSubscribe 100 2 (SubFlag 0 0);
     OpPublic 2 (replicate 4 5)] port_bus 0 = Fault OutOfBounds.
Proof. vm_compute. reflexivity. Qed.
