(* ===== verification/Emm.v ===== *)
(** * [Emm_V5.c]: the command builders of the closed-loop stepper drivers

    Every function fills a zeroed [cmd] array, takes the motor mutex, records
    what kind of answer to expect, writes the frame to the serial port, releases
    the mutex and wakes the receiving thread.  A function is the list of those
    actions; [Stepper] runs them against the receiving thread.  Arguments are
    already converted to the parameter's type; [rt_bool_t] is an [int], cut to a
    byte by the store. *)
From S2P Require Import Prelude.

(** [SysParams_t], also the values of [stepper_motor_cmd_state]. *)
Definition S_VER : Z := 0.
Definition S_RL : Z := 1.
Definition S_PID : Z := 2.
Definition S_VBUS : Z := 3.
Definition S_CPHA : Z := 5.
Definition S_ENCL : Z := 7.
Definition S_TPOS : Z := 8.
Definition S_VEL : Z := 9.
Definition S_CPOS : Z := 10.
Definition S_PERR : Z := 11.
Definition S_FLAG : Z := 13.
Definition S_Conf : Z := 14.
Definition S_State : Z := 15.
Definition S_ORG : Z := 16.
Definition S_IDLE : Z := 17.
Definition S_Ans : Z := 18.

Inductive emm_action :=
  | TakeMutex
  | SetCmdState (s : Z)
  | Transmit (data : list Z)
  | ReleaseMutex
  | ReleaseStepSem.

(** The tail common to all functions: [n] bytes of the array [cmd] of [size]
    bytes that starts with [bytes]. *)
Definition send (size : Z) (bytes : list Z) (n state : Z) : outcome (list emm_action) :=
  cmd ← arr_write (replicate (Z.to_nat size) 0) 0 bytes;
  data ← arr_read cmd 0 n;
  Done [TakeMutex; SetCmdState state; Transmit data; ReleaseMutex; ReleaseStepSem].

Definition Emm_V5_Reset_CurPos_To_Zero (addr : Z) :=
  send 16 [addr; 0x0A; 0x6D; 0x6B] 4 S_Ans.

Definition Emm_V5_Reset_Clog_Pro (addr : Z) :=
  send 16 [addr; 0x0E; 0x52; 0x6B] 4 S_Ans.

(** The [switch] on the parameter: the bytes it appends. *)
Definition sys_param_code (s : Z) : list Z :=
  if s =? S_VER then [0x1F]
  else if s =? S_RL then [0x20]
  else if s =? S_PID then [0x21]
  else if s =? S_VBUS then [0x24]
  else if s =? S_CPHA then [0x27]
  else if s =? S_ENCL then [0x31]
  else if s =? S_TPOS then [0x33]
  else if s =? S_VEL then [0x35]
  else if s =? S_CPOS then [0x36]
  else if s =? S_PERR then [0x37]
  else if s =? S_FLAG then [0x3A]
  else if s =? S_ORG then [0x3B]
  else if s =? S_Conf then [0x42; 0x6C]
  else if s =? S_State then [0x43; 0x7A]
  else [].

Definition Emm_V5_Read_Sys_Params (addr s : Z) :=
  let bytes := addr :: sys_param_code s ++ [0x6B] in
  send 16 bytes (Z.of_nat (length bytes)) (u8 s).

Definition Emm_V5_Modify_Ctrl_Mode (addr svF ctrl_mode : Z) :=
  send 16 [addr; 0x46; 0x69; u8 svF; ctrl_mode; 0x6B] 6 S_Ans.

Definition Emm_V5_En_Control (addr state snF : Z) :=
  send 16 [addr; 0xF3; 0xAB; u8 state; u8 snF; 0x6B] 6 S_Ans.

Definition Emm_V5_Vel_Control (addr dir vel acc snF : Z) :=
  send 16 [addr; 0xF6; dir; byte_at 1 vel; byte_at 0 vel; acc; u8 snF; 0x6B] 8 S_Ans.

Definition Emm_V5_Pos_Control (addr dir vel acc clk raF snF : Z) :=
  send 16 [addr; 0xFD; dir; byte_at 1 vel; byte_at 0 vel; acc;
           byte_at 3 clk; byte_at 2 clk; byte_at 1 clk; byte_at 0 clk;
           u8 raF; u8 snF; 0x6B] 13 S_Ans.

Definition Emm_V5_Stop_Now (addr snF : Z) :=
  send 16 [addr; 0xFE; 0x98; u8 snF; 0x6B] 5 S_Ans.

Definition Emm_V5_Synchronous_motion (addr : Z) :=
  send 16 [addr; 0xFF; 0x66; 0x6B] 4 S_Ans.

Definition Emm_V5_Origin_Set_O (addr svF : Z) :=
  send 16 [addr; 0x93; 0x88; u8 svF; 0x6B] 5 S_Ans.

Definition Emm_V5_Origin_Modify_Params
    (addr svF o_mode o_dir o_vel o_tm sl_vel sl_ma sl_ms potF : Z) :=
  send 32 [addr; 0x4C; 0xAE; u8 svF; o_mode; o_dir; byte_at 1 o_vel; byte_at 0 o_vel;
           byte_at 3 o_tm; byte_at 2 o_tm; byte_at 1 o_tm; byte_at 0 o_tm;
           byte_at 1 sl_vel; byte_at 0 sl_vel; byte_at 1 sl_ma; byte_at 0 sl_ma;
           byte_at 1 sl_ms; byte_at 0 sl_ms; u8 potF; 0x6B] 20 S_Ans.

Definition Emm_V5_Origin_Trigger_Return (addr o_mode snF : Z) :=
  send 16 [addr; 0x9A; o_mode; u8 snF; 0x6B] 5 S_Ans.

Definition Emm_V5_Origin_Interrupt (addr : Z) :=
  send 16 [addr; 0x9C; 0x48; 0x6B] 4 S_Ans.

(** ** The commands, and the reader at the other end of the wire *)

Inductive emm_cmd :=
  | ResetCurPos
  | ResetClog
  | ReadSysParams (s : Z)
  | ModifyCtrlMode (svF ctrl_mode : Z)
  | EnControl (state snF : Z)
  | VelControl (dir vel acc snF : Z)
  | PosControl (dir vel acc clk raF snF : Z)
  | StopNow (snF : Z)
  | SynchronousMotion
  | OriginSetO (svF : Z)
  | OriginModify (svF o_mode o_dir o_vel o_tm sl_vel sl_ma sl_ms potF : Z)
  | OriginTrigger (o_mode snF : Z)
  | OriginInterrupt.

Definition emm_send (addr : Z) (c : emm_cmd) : outcome (list emm_action) :=
  match c with
  | ResetCurPos => Emm_V5_Reset_CurPos_To_Zero addr
  | ResetClog => Emm_V5_Reset_Clog_Pro addr
  | ReadSysParams s => Emm_V5_Read_Sys_Params addr s
  | ModifyCtrlMode svF m => Emm_V5_Modify_Ctrl_Mode addr svF m
  | EnControl st snF => Emm_V5_En_Control addr st snF
  | VelControl dir vel acc snF => Emm_V5_Vel_Control addr dir vel acc snF
  | PosControl dir vel acc clk raF snF => Emm_V5_Pos_Control addr dir vel acc clk raF snF
  | StopNow snF => Emm_V5_Stop_Now addr snF
  | SynchronousMotion => Emm_V5_Synchronous_motion addr
  | OriginSetO svF => Emm_V5_Origin_Set_O addr svF
  | OriginModify svF om od ov ot sv sma sms pf =>
    Emm_V5_Origin_Modify_Params addr svF om od ov ot sv sma sms pf
  | OriginTrigger om snF => Emm_V5_Origin_Trigger_Return addr om snF
  | OriginInterrupt => Emm_V5_Origin_Interrupt addr
  end.

(** The answer the receiving thread is told to expect. *)
Definition expected_answer (c : emm_cmd) : Z :=
  match c with ReadSysParams s => s | _ => S_Ans end.

(** The parameters the protocol has a function code for. *)
Definition readable : list Z :=
  [S_VER; S_RL; S_PID; S_VBUS; S_CPHA; S_ENCL; S_TPOS; S_VEL; S_CPOS; S_PERR; S_FLAG; S_ORG; S_Conf; S_State].

(** Arguments within the C types, a flag any [int]; a read asks for a parameter the
    protocol has. *)
Definition cmd_wf (c : emm_cmd) : Prop :=
  match c with
  | ResetCurPos | ResetClog | SynchronousMotion | OriginInterrupt | EnControl _ _ | StopNow _ | OriginSetO _ => True
  | ReadSysParams s => s ∈ readable
  | ModifyCtrlMode _ m | OriginTrigger m _ => is_u8 m
  | VelControl dir vel acc _ => is_u8 dir /\ is_u16 vel /\ is_u8 acc
  | PosControl dir vel acc clk _ _ => is_u8 dir /\ is_u16 vel /\ is_u8 acc /\ is_u32 clk
  | OriginModify _ om od ov ot sv sma sms _ =>
    is_u8 om /\ is_u8 od /\ is_u16 ov /\ is_u32 ot /\ is_u16 sv /\ is_u16 sma /\ is_u16 sms
  end.

(** The command with each flag cut to the byte that is sent of it. *)
Definition cut_flags (c : emm_cmd) : emm_cmd :=
  match c with
  | ModifyCtrlMode svF m => ModifyCtrlMode (svF mod 256) m
  | EnControl st snF => EnControl (st mod 256) (snF mod 256)
  | VelControl dir vel acc snF => VelControl dir vel acc (snF mod 256)
  | PosControl dir vel acc clk raF snF => PosControl dir vel acc clk (raF mod 256) (snF mod 256)
  | StopNow snF => StopNow (snF mod 256)
  | OriginSetO svF => OriginSetO (svF mod 256)
  | OriginModify svF om od ov ot sv sma sms pf => OriginModify (svF mod 256) om od ov ot sv sma sms (pf mod 256)
  | OriginTrigger m snF => OriginTrigger m (snF mod 256)
  | c => c
  end.

Definition word16 (h l : Z) : Z := 256 * h + l.
Definition word32 (b3 b2 b1 b0 : Z) : Z := 16777216 * b3 + 65536 * b2 + 256 * b1 + b0.

Definition read_param (fn : Z) (aux : list Z) : option emm_cmd :=
  match aux with
  | [] =>
    ReadSysParams <$>
      (if fn =? 0x1F then Some S_VER else if fn =? 0x20 then Some S_RL
       else if fn =? 0x21 then Some S_PID else if fn =? 0x24 then Some S_VBUS
       else if fn =? 0x27 then Some S_CPHA else if fn =? 0x31 then Some S_ENCL
       else if fn =? 0x33 then Some S_TPOS else if fn =? 0x35 then Some S_VEL
       else if fn =? 0x36 then Some S_CPOS else if fn =? 0x37 then Some S_PERR
       else if fn =? 0x3A then Some S_FLAG else if fn =? 0x3B then Some S_ORG else None)
  | [x] =>
    if fn =? 0x42 then if x =? 0x6C then Some (ReadSysParams S_Conf) else None
    else if fn =? 0x43 then if x =? 0x7A then Some (ReadSysParams S_State) else None
    else if fn =? 0x0A then if x =? 0x6D then Some ResetCurPos else None
    else if fn =? 0x0E then if x =? 0x52 then Some ResetClog else None
    else if fn =? 0xFF then if x =? 0x66 then Some SynchronousMotion else None
    else if fn =? 0x9C then if x =? 0x48 then Some OriginInterrupt else None
    else None
  | _ => None
  end.

(** The motor's reader: address, function code, arguments, checksum byte 0x6B. *)
Definition emm_body (fn : Z) (args : list Z) : option emm_cmd :=
  match args with
  | [a; b] =>
    if fn =? 0xFE then if a =? 0x98 then Some (StopNow b) else None
    else if fn =? 0x93 then if a =? 0x88 then Some (OriginSetO b) else None
    else if fn =? 0x9A then Some (OriginTrigger a b)
    else None
  | [x; a; b] =>
    if fn =? 0x46 then if x =? 0x69 then Some (ModifyCtrlMode a b) else None
    else if fn =? 0xF3 then if x =? 0xAB then Some (EnControl a b) else None
    else None
  | [dir; vh; vl; acc; snF] =>
    if fn =? 0xF6 then Some (VelControl dir (word16 vh vl) acc snF) else None
  | [dir; vh; vl; acc; c3; c2; c1; c0; raF; snF] =>
    if fn =? 0xFD then Some (PosControl dir (word16 vh vl) acc (word32 c3 c2 c1 c0) raF snF)
    else None
  | [x; svF; om; od; vh; vl; t3; t2; t1; t0; sh; sl; ah; al; mh; ml; pf] =>
    if fn =? 0x4C then
      if x =? 0xAE then
        Some (OriginModify svF om od (word16 vh vl) (word32 t3 t2 t1 t0) (word16 sh sl)
                (word16 ah al) (word16 mh ml) pf)
      else None
    else None
  | _ => read_param fn args
  end.

Definition emm_parse (f : list Z) : option (Z * emm_cmd) :=
  match f with
  | addr :: fn :: rest =>
    match last rest with
    | Some e => if e =? 0x6B then pair addr <$> emm_body fn (removelast rest) else None
    | None => None
    end
  | _ => None
  end.

Lemma word16_byte v : is_u16 v -> word16 (byte_at 1 v) (byte_at 0 v) = v.
Proof. apply word16_join. Qed.
Lemma word32_byte v : is_u32 v ->
  word32 (byte_at 3 v) (byte_at 2 v) (byte_at 1 v) (byte_at 0 v) = v.
Proof. apply word32_join. Qed.

(** A frame that fits is sent as it is. *)
Lemma send_ok size bytes n state :
  n = Z.of_nat (length bytes) -> n <= size ->
  send size bytes n state =
    Done [TakeMutex; SetCmdState state; Transmit bytes; ReleaseMutex; ReleaseStepSem].
Proof.
  intros -> Hle. unfold send.
  rewrite arr_write_ok by (rewrite ?length_replicate; lia). cbn [mbind outcome_bind].
  rewrite arr_read_ok by (rewrite ?length_inserts, ?length_replicate; lia).
  cbn [mbind outcome_bind]. rewrite Nat2Z.id, drop_0.
  rewrite list_inserts_app by (rewrite length_replicate; lia).
  change (Z.to_nat 0) with 0%nat. rewrite take_0, app_nil_l.
  by rewrite take_app_length.
Qed.

Lemma emm_frame addr c :
  cmd_wf c ->
  exists f, emm_send addr c =
      Done [TakeMutex; SetCmdState (expected_answer c); Transmit f; ReleaseMutex; ReleaseStepSem]
    /\ emm_parse f = Some (addr, cut_flags c) /\ (3 <= length f <= 20)%nat /\ last f = Some 0x6B.
Proof.
  destruct c; cbn [cmd_wf].
  3:{ unfold readable. rewrite !elem_of_cons, elem_of_nil.
      intros Hs. exists (addr :: sys_param_code s ++ [0x6B]).
      repeat (destruct Hs as [->|Hs];
        [split; [reflexivity|split; [reflexivity|split; [cbn; lia|reflexivity]]]|]). done. }
  all: intros Hwf; destruct_and?; eexists; split; [by apply send_ok|];
    split; [|split; [cbn; lia|done]];
    cbn [emm_parse emm_body read_param last removelast Z.eqb fmap option_fmap option_map];
    rewrite ?word16_byte, ?word32_byte by done; reflexivity.
Qed.

Lemma emm_frame_parses addr c : cmd_wf c ->
  exists f, emm_send addr c =
      Done [TakeMutex; SetCmdState (expected_answer c); Transmit f; ReleaseMutex; ReleaseStepSem]
    /\ emm_parse f = Some (addr, cut_flags c).
Proof. intros Hc. destruct (emm_frame addr c Hc) as (f & ? & ? & _). by exists f. Qed.

(** A parameter outside the table gives a frame with no function code. *)
Lemma read_unknown_param addr s : s ∉ readable ->
  Emm_V5_Read_Sys_Params addr s =
    Done [TakeMutex; SetCmdState (u8 s); Transmit [addr; 0x6B]; ReleaseMutex; ReleaseStepSem].
Proof.
  intros Hs. assert (sys_param_code s = []) as Hc.
  { unfold sys_param_code. repeat case_match; try done; exfalso; apply Hs;
      match goal with H : (s =? _) = true |- _ => apply Z.eqb_eq in H as -> end;
      unfold readable; set_solver. }
  unfold Emm_V5_Read_Sys_Params. rewrite Hc. by apply send_ok.
Qed.

(** C24: Every command builder, for arguments of its C types and, for a read, one of the
    fourteen parameters that have a function code, takes the mutex, records the expected
    answer, transmits one frame of 3 to 20 bytes ending in the checksum byte, releases
    the mutex and signals; a reader of the protocol gets the address, the command and
    the arguments back from the frame, of each int flag its low byte, so commands that
    differ in more than that never share a frame. For any other parameter, S_IDLE and
    S_Ans among them, the read sends a frame of two bytes with no function code, which
    the reader refuses. *)
Theorem emm_roundtrip addr :
  (forall c, cmd_wf c ->
    exists f, emm_send addr c =
      Done [TakeMutex; SetCmdState (expected_answer c); Transmit f; ReleaseMutex; ReleaseStepSem]
    /\ emm_parse f = Some (addr, cut_flags c) /\ (3 <= length f <= 20)%nat /\ last f = Some 0x6B
    /\ forall addr' c', cmd_wf c' -> (addr', cut_flags c') <> (addr, cut_flags c) ->
         emm_send addr' c' <> emm_send addr c) /\
  (forall s, s ∉ [0; 1; 2; 3; 5; 7; 8; 9; 10; 11; 13; 14; 15; 16] ->
    emm_send addr (ReadSysParams s) =
      Done [TakeMutex; SetCmdState (s mod 256); Transmit [addr; 0x6B]; ReleaseMutex; ReleaseStepSem]
    /\ emm_parse [addr; 0x6B] = None).
Proof.
  split.
  - intros c Hc. destruct (emm_frame addr c Hc) as (f & He & Hp & Hl & Ht). exists f.
    split_and!; try done; [lia..|]. intros addr' c' Hc' Hne.
    destruct (emm_frame addr' c' Hc') as (f' & He' & Hp' & _). rewrite He, He'. congruence.
  - intros s Hs. split; [|done]. apply read_unknown_param. unfold readable. set_solver.
Qed.

Lemma emm_roundtrip_witness :
  exists f, emm_send 1 (PosControl 0 100 20 3200 1 256) =
      Done [TakeMutex; SetCmdState S_Ans; Transmit f; ReleaseMutex; ReleaseStepSem]
    /\ emm_parse f = Some (1, PosControl 0 100 20 3200 1 0) /\ (3 <= length f <= 20)%nat
    /\ last f = Some 0x6B
    /\ forall addr' c', cmd_wf c' -> (addr', cut_flags c') <> (1, PosControl 0 100 20 3200 1 0) ->
         emm_send addr' c' <> emm_send 1 (PosControl 0 100 20 3200 1 256).
Proof. apply (proj1 (emm_roundtrip 1) (PosControl 0 100 20 3200 1 256)). split_and!; cint. Defined.
