(* ===== verification/Stepper.v ===== *)
(** * [drv_stepper_motor.c]: the arm's stepper motors

    The driver thread sends commands (the action lists of [Emm]); the serial
    interrupt counts the bytes that came back; the processing thread reads the
    answer and stores it in the motor it names.  The three share the expected
    answer, the mutex [mutex_step] and two semaphores.  The kernel's objects are
    modelled as RT-Thread documents them: a mutex is recursive (its hold count
    saturates at 255), a semaphore counts up to 65535. *)
From S2P Require Import Prelude CFloat Emm.

Definition sem_max : Z := 65535.
Definition hold_max : Z := 255.

Section stepper.
Context {F : Type} `{FloatOps F}.
(** Whether the log level compiles [LOG_D] and [LOG_E] in: their arguments read
  the serial port. *)
Context (log_d log_e : bool).

Record stepper_motor := StepperMotor {
  stepper_motor_id : Z;
  stepper_motor_speed : Z;
  stepper_motor_angle : F;
  stepper_motor_err : F;
  stepper_motor_reachflag : Z;
  stepper_motor_stallflag : Z;
  stepper_motor_enflag : Z;
  stepper_motor_encokflag : Z;
  stepper_motor_calibrationflag : Z;
  stepper_motor_returnzeroingflag : Z;
  stepper_motor_returnzero_failflag : Z;
  stepper_motor_current : Z;
}.

(** The data shared by the threads; [rx] is the serial port's receive buffer. *)
Record shared := Shared {
  cmd_state : Z;
  rxCmd : list Z;
  rxCount : Z;
  rx : list Z;
  big_arm : stepper_motor;
  small_arm : stepper_motor;
}.

Definition set_cmd_state (s : Z) (sh : shared) : shared :=
  Shared s (rxCmd sh) (rxCount sh) (rx sh) (big_arm sh) (small_arm sh).

(** [rt_device_read] into a scratch buffer. *)
Definition read_discard (n : nat) (sh : shared) : shared :=
  Shared (cmd_state sh) (rxCmd sh) (rxCount sh) (drop n (rx sh)) (big_arm sh) (small_arm sh).

(** [Emm_V5_Receive(rxCmd, len)]: what there is of [len] bytes. *)
Definition Emm_V5_Receive (len : nat) (sh : shared) : shared * Z :=
  let got := take len (rx sh) in
  (Shared (cmd_state sh) (list_inserts 0 got (rxCmd sh)) (rxCount sh) (drop len (rx sh))
   (big_arm sh) (small_arm sh), if (length got =? len)%nat then 1 else 0).

Definition rxb (sh : shared) (i : nat) : Z := nth i (rxCmd sh) 0.

Definition stepper_motor_Init (id : Z) (m : stepper_motor) : stepper_motor :=
  StepperMotor id (stepper_motor_speed m) (stepper_motor_angle m) (stepper_motor_err m)
  (stepper_motor_reachflag m) (stepper_motor_stallflag m) (stepper_motor_enflag m)
  (stepper_motor_encokflag m) (stepper_motor_calibrationflag m)
  (stepper_motor_returnzeroingflag m) (stepper_motor_returnzero_failflag m)
  (stepper_motor_current m).

(** Which motor the answer in [rxCmd] names: [true] for the big arm. *)
Definition Emm_V5_ID_judge (sh : shared) : option bool :=
  if rxb sh 0 =? 1 then Some true else if rxb sh 0 =? 3 then Some false else None.

Definition upd_motor (big : bool) (f : stepper_motor -> stepper_motor) (sh : shared) : shared :=
  if big then Shared (cmd_state sh) (rxCmd sh) (rxCount sh) (rx sh) (f (big_arm sh)) (small_arm sh)
  else Shared (cmd_state sh) (rxCmd sh) (rxCount sh) (rx sh) (big_arm sh) (f (small_arm sh)).

Definition set_speed (v : Z) (m : stepper_motor) : stepper_motor :=
  StepperMotor (stepper_motor_id m) v (stepper_motor_angle m) (stepper_motor_err m)
  (stepper_motor_reachflag m) (stepper_motor_stallflag m) (stepper_motor_enflag m)
  (stepper_motor_encokflag m) (stepper_motor_calibrationflag m)
  (stepper_motor_returnzeroingflag m) (stepper_motor_returnzero_failflag m)
  (stepper_motor_current m).
Definition set_angle (v : F) (m : stepper_motor) : stepper_motor :=
  StepperMotor (stepper_motor_id m) (stepper_motor_speed m) v (stepper_motor_err m)
  (stepper_motor_reachflag m) (stepper_motor_stallflag m) (stepper_motor_enflag m)
  (stepper_motor_encokflag m) (stepper_motor_calibrationflag m)
  (stepper_motor_returnzeroingflag m) (stepper_motor_returnzero_failflag m)
  (stepper_motor_current m).
Definition set_err (v : F) (m : stepper_motor) : stepper_motor :=
  StepperMotor (stepper_motor_id m) (stepper_motor_speed m) (stepper_motor_angle m) v
  (stepper_motor_reachflag m) (stepper_motor_stallflag m) (stepper_motor_enflag m)
  (stepper_motor_encokflag m) (stepper_motor_calibrationflag m)
  (stepper_motor_returnzeroingflag m) (stepper_motor_returnzero_failflag m)
  (stepper_motor_current m).
Definition set_current (v : Z) (m : stepper_motor) : stepper_motor :=
  StepperMotor (stepper_motor_id m) (stepper_motor_speed m) (stepper_motor_angle m)
  (stepper_motor_err m) (stepper_motor_reachflag m) (stepper_motor_stallflag m)
  (stepper_motor_enflag m) (stepper_motor_encokflag m) (stepper_motor_calibrationflag m)
  (stepper_motor_returnzeroingflag m) (stepper_motor_returnzero_failflag m) v.
Definition set_state_flags (reach stall en : Z) (m : stepper_motor) : stepper_motor :=
  StepperMotor (stepper_motor_id m) (stepper_motor_speed m) (stepper_motor_angle m)
  (stepper_motor_err m) reach stall en (stepper_motor_encokflag m)
  (stepper_motor_calibrationflag m) (stepper_motor_returnzeroingflag m)
  (stepper_motor_returnzero_failflag m) (stepper_motor_current m).
Definition set_origin_flags (calibration zeroing encok fail : Z) (m : stepper_motor) : stepper_motor :=
  StepperMotor (stepper_motor_id m) (stepper_motor_speed m) (stepper_motor_angle m)
  (stepper_motor_err m) (stepper_motor_reachflag m) (stepper_motor_stallflag m)
  (stepper_motor_enflag m) encok calibration zeroing fail (stepper_motor_current m).

(** Bytes 3 to 6 of the answer, most significant first. *)
Definition rx_word (sh : shared) : Z :=
  Z.lor (Z.lor (Z.lor (Z.shiftl (rxb sh 3) 24) (Z.shiftl (rxb sh 4) 16)) (Z.shiftl (rxb sh 5) 8))
  (rxb sh 6).

(** [(float)pos * 360.0f / 65536.0f], negated when the sign byte is set. *)
Definition rx_degrees (sh : shared) : F :=
  let a := (f_of_Z (rx_word sh) * f_of_Z 360 / f_of_Z 65536)%F in
  if rxb sh 2 =? 0 then a else (- a)%F.

(** [LOG_E("...", rt_device_read(Emm_serial1, 0, tmp, 60))]. *)
Definition log_error_read (sh : shared) : shared := if log_e then read_discard 60 sh else sh.

(** The common head of the cases: with at least [len] bytes counted, read the
  answer and find the motor it names.  A case that breaks off leaves the mutex
  taken, which the flag says. *)
Definition answer (len : nat) (k : bool -> shared -> shared * bool) (sh : shared) : shared * bool :=
  if Z.of_nat len <=? rxCount sh then
    let sh1 := (Emm_V5_Receive len sh).1 in
    match Emm_V5_ID_judge sh1 with
    | None => (sh1, false)
    | Some big => k big sh1
    end
  else (log_error_read sh, false).

Definition process_idle (sh : shared) : shared * bool :=
  (if log_d then read_discard 60 sh else sh, false).

Definition process_cpha : shared -> shared * bool :=
  answer 5 (fun big sh1 =>
  if rxb sh1 1 =? 0x27 then
  (set_cmd_state S_IDLE
   (upd_motor big (set_current (u16 (Z.lor (Z.shiftl (rxb sh1 2) 8) (rxb sh1 3)))) sh1), true)
  else (sh1, false)).

Definition process_vel : shared -> shared * bool :=
  answer 6 (fun big sh1 =>
  if rxb sh1 1 =? 0x35 then
  let v := u16 (Z.lor (Z.shiftl (rxb sh1 3) 8) (rxb sh1 4)) in
  (set_cmd_state S_IDLE
   (upd_motor big (set_speed (if rxb sh1 2 =? 0 then v else u16 (- v))) sh1), true)
  else (sh1, false)).

Definition process_cpos : shared -> shared * bool :=
  answer 8 (fun big sh1 =>
  if rxb sh1 1 =? 0x36 then
  (set_cmd_state S_IDLE (upd_motor big (set_angle (rx_degrees sh1)) sh1), true)
  else (sh1, false)).

Definition process_perr : shared -> shared * bool :=
  answer 8 (fun big sh1 =>
  (set_cmd_state S_IDLE (upd_motor big (set_err (rx_degrees sh1)) sh1), true)).

Definition process_flag : shared -> shared * bool :=
  answer 4 (fun big sh1 =>
  let flag := rxb sh1 2 in
  (set_cmd_state S_IDLE
   (upd_motor big (set_state_flags (Z.land flag 2) (Z.land flag 4) (Z.land flag 1)) sh1), true)).

Definition process_org : shared -> shared * bool :=
  answer 4 (fun big sh1 =>
  let flag := rxb sh1 2 in
  (set_cmd_state S_IDLE
   (upd_motor big (set_origin_flags (Z.land flag 2) (Z.land flag 4) (Z.land flag 1)
                 (Z.land flag 8)) sh1), true)).

(** The [switch] of [drv_process_steppermotor]; the flag says whether the case
  reached [rt_mutex_release]. *)
Definition process_switch (sh : shared) : shared * bool :=
  let s := cmd_state sh in
  if s =? S_IDLE then process_idle sh
  else if s =? S_CPHA then process_cpha sh
  else if s =? S_VEL then process_vel sh
  else if s =? S_CPOS then process_cpos sh
  else if s =? S_PERR then process_perr sh
  else if s =? S_FLAG then process_flag sh
  else if s =? S_ORG then process_org sh
  else if s =? S_Ans then (set_cmd_state S_IDLE (read_discard 60 sh), true)
  else if bool_decide (s ∈ [S_VER; S_RL; S_PID; S_VBUS; S_ENCL; S_TPOS; S_Conf; S_State]) then (sh, false)
  else (log_error_read sh, true).

(** The answer length each expected answer waits for; [None] for the cases that
  never signal. *)
Definition callback_threshold (s : Z) : option Z :=
  if s =? S_CPHA then Some 5
  else if s =? S_VEL then Some 6
  else if (s =? S_CPOS) || (s =? S_PERR) then Some 8
  else if (s =? S_FLAG) || (s =? S_ORG) || (s =? S_Ans) then Some 4
  else if s =? S_IDLE then Some 0
  else None.

(** The receive interrupt: [bs] arrived and [size] bytes wait in the port.  The
  flag says whether [cmp_sem] is released; an unknown expected answer spins. *)
Definition Emm_uart_receive_callback (bs : list Z) (size : Z) (sh : shared) : outcome (shared * bool) :=
  let sh' := Shared (cmd_state sh) (rxCmd sh) (u8 size) (rx sh ++ bs) (big_arm sh) (small_arm sh) in
  let s := cmd_state sh in
  match callback_threshold s with
  | Some n => Done (sh', n <=? size)
  | None =>
    if bool_decide (s ∈ [S_VER; S_RL; S_PID; S_VBUS; S_ENCL; S_TPOS; S_Conf; S_State])
    then Done (sh', false) else Fault Hang
  end.

(** ** The threads *)

Inductive thread := Driver | Process.

Definition mutex := option (thread * Z).

#[local] Instance thread_eq_dec : EqDecision thread.
Proof. solve_decision. Defined.

(** [rt_mutex_take] with no time limit; [None] while another thread owns it. *)
Definition mutex_take (t : thread) (m : mutex) : option mutex :=
  match m with
  | None => Some (Some (t, 1))
  | Some (o, h) =>
    if decide (o = t) then Some (Some (t, if h <? hold_max then h + 1 else h)) else None
  end.

Definition mutex_release (t : thread) (m : mutex) : mutex :=
  match m with
  | Some (o, h) => if decide (o = t) then (if h =? 1 then None else Some (o, h - 1)) else m
  | None => None
  end.

Definition sem_release (n : Z) : Z := Z.min sem_max (n + 1).

(** Where the processing thread is in its loop. *)
Inductive pc := WaitStep | WaitMutex | WaitAnswer.

Record sys := Sys {
  sh : shared;
  mtx : mutex;
  step_sem : Z;
  cmp_sem : Z;
  drv : list emm_action;
  proc : pc;
  wire : list (list Z);
}.

(** One action of the driver thread; [None] when it has to wait. *)
Definition drv_step (s : sys) : option sys :=
  match drv s with
  | [] => None
  | TakeMutex :: k =>
    m ← mutex_take Driver (mtx s); Some (Sys (sh s) m (step_sem s) (cmp_sem s) k (proc s) (wire s))
  | SetCmdState x :: k =>
    Some (Sys (set_cmd_state x (sh s)) (mtx s) (step_sem s) (cmp_sem s) k (proc s) (wire s))
  | Transmit d :: k =>
    Some (Sys (sh s) (mtx s) (step_sem s) (cmp_sem s) k (proc s) (wire s ++ [d]))
  | ReleaseMutex :: k =>
    Some (Sys (sh s) (mutex_release Driver (mtx s)) (step_sem s) (cmp_sem s) k (proc s) (wire s))
  | ReleaseStepSem :: k =>
    Some (Sys (sh s) (mtx s) (sem_release (step_sem s)) (cmp_sem s) k (proc s) (wire s))
  end.

(** One blocking call of the processing thread; the last runs the [switch]. *)
Definition proc_step (s : sys) : option sys :=
  match proc s with
  | WaitStep =>
    if 0 <? step_sem s
    then Some (Sys (sh s) (mtx s) (step_sem s - 1) (cmp_sem s) (drv s) WaitMutex (wire s)) else None
  | WaitMutex =>
    m ← mutex_take Process (mtx s);
    Some (Sys (sh s) m (step_sem s) (cmp_sem s) (drv s) WaitAnswer (wire s))
  | WaitAnswer =>
    if 0 <? cmp_sem s then
      let '(sh', rel) := process_switch (sh s) in
      Some (Sys sh' (if rel then mutex_release Process (mtx s) else mtx s)
          (step_sem s) (cmp_sem s - 1) (drv s) WaitStep (wire s))
    else None
  end.

Inductive step : sys -> sys -> Prop :=
  | step_issue addr c acts s :
  drv s = [] -> emm_send addr c = Done acts ->
  step s (Sys (sh s) (mtx s) (step_sem s) (cmp_sem s) acts (proc s) (wire s))
  | step_drv s s' : drv_step s = Some s' -> step s s'
  | step_proc s s' : proc_step s = Some s' -> step s s'
  | step_irq bs size s sh' signal :
  Emm_uart_receive_callback bs size (sh s) = Done (sh', signal) ->
  step s (Sys sh' (mtx s) (step_sem s) (if signal then sem_release (cmp_sem s) else cmp_sem s)
      (drv s) (proc s) (wire s)).

(** ** Answers of the motors *)

(** What a motor can be asked for, and the frame it answers with. *)
Inductive reading :=
  | RCurrent (v : Z)
  | RSpeed (sign v : Z)
  | RAngle (sign v : Z)
  | RError (sign v : Z)
  | RState (flags : Z)
  | ROrigin (flags : Z).

Definition reading_wf (r : reading) : Prop :=
  match r with
  | RCurrent v => is_u16 v
  | RSpeed sg v => is_u8 sg /\ is_u16 v
  | RAngle sg v | RError sg v => is_u8 sg /\ is_u32 v
  | RState f | ROrigin f => is_u8 f
  end.

Definition reading_asked (r : reading) : Z :=
  match r with
  | RCurrent _ => S_CPHA
  | RSpeed _ _ => S_VEL
  | RAngle _ _ => S_CPOS
  | RError _ _ => S_PERR
  | RState _ => S_FLAG
  | ROrigin _ => S_ORG
  end.

Definition answer_frame (id : Z) (r : reading) : list Z :=
  match r with
  | RCurrent v => [id; 0x27; byte_at 1 v; byte_at 0 v; 0x6B]
  | RSpeed sg v => [id; 0x35; sg; byte_at 1 v; byte_at 0 v; 0x6B]
  | RAngle sg v => [id; 0x36; sg; byte_at 3 v; byte_at 2 v; byte_at 1 v; byte_at 0 v; 0x6B]
  | RError sg v => [id; 0x37; sg; byte_at 3 v; byte_at 2 v; byte_at 1 v; byte_at 0 v; 0x6B]
  | RState f => [id; 0x3A; f; 0x6B]
  | ROrigin f => [id; 0x3B; f; 0x6B]
  end.

Definition degrees (sg v : Z) : F :=
  let a := (f_of_Z v * f_of_Z 360 / f_of_Z 65536)%F in if sg =? 0 then a else (- a)%F.

Definition reading_store (r : reading) : stepper_motor -> stepper_motor :=
  match r with
  | RCurrent v => set_current v
  | RSpeed sg v => set_speed (if sg =? 0 then v else u16 (- v))
  | RAngle sg v => set_angle (degrees sg v)
  | RError sg v => set_err (degrees sg v)
  | RState f => set_state_flags (Z.land f 2) (Z.land f 4) (Z.land f 1)
  | ROrigin f => set_origin_flags (Z.land f 2) (Z.land f 4) (Z.land f 1) (Z.land f 8)
  end.

Lemma receive_frame f rest sh1 : rx sh1 = f ++ rest -> (length f <= length (rxCmd sh1))%nat ->
  Emm_V5_Receive (length f) sh1 =
  (Shared (cmd_state sh1) (f ++ drop (length f) (rxCmd sh1)) (rxCount sh1) rest
   (big_arm sh1) (small_arm sh1), 1).
Proof.
  intros Hrx Hlen. unfold Emm_V5_Receive. rewrite Hrx, take_app_length, drop_app_length.
  rewrite Nat.eqb_refl, list_inserts_app by (cbn; done). by rewrite take_0.
Qed.

Lemma join16 v : is_u16 v -> Z.lor (Z.shiftl (byte_at 1 v) 8) (byte_at 0 v) = v.
Proof.
  intros Hv. pose proof (byte_at_range 0 v). rewrite lor_shiftl_add by cint.
  pose proof (word16_join v Hv). change (2 ^ 8) with 256. lia.
Qed.

Lemma join32 v : is_u32 v ->
  Z.lor (Z.lor (Z.lor (Z.shiftl (byte_at 3 v) 24) (Z.shiftl (byte_at 2 v) 16))
  (Z.shiftl (byte_at 1 v) 8)) (byte_at 0 v) = v.
Proof.
  intros Hv. pose proof (byte_at_range 0 v). pose proof (byte_at_range 1 v).
  pose proof (byte_at_range 2 v). pose proof (word32_join v Hv).
  replace (Z.shiftl (byte_at 3 v) 24) with (Z.shiftl (Z.shiftl (byte_at 3 v) 8) 16)
  by by rewrite Z.shiftl_shiftl by lia.
  rewrite <- Z.shiftl_lor, (lor_shiftl_add (byte_at 3 v) (byte_at 2 v)) by cint.
  replace (Z.shiftl (byte_at 3 v * 2 ^ 8 + byte_at 2 v) 16)
  with (Z.shiftl (Z.shiftl (byte_at 3 v * 2 ^ 8 + byte_at 2 v) 8) 8)
  by by rewrite Z.shiftl_shiftl by lia.
  rewrite <- Z.shiftl_lor, (lor_shiftl_add _ (byte_at 1 v)), lor_shiftl_add by cint.
  change (2 ^ 8) with 256. lia.
Qed.

(** ** The mutex is lost after a bad answer *)

Definition answer_len (s : Z) : option nat :=
  if s =? S_CPHA then Some 5%nat
  else if s =? S_VEL then Some 6%nat
  else if (s =? S_CPOS) || (s =? S_PERR) then Some 8%nat
  else if (s =? S_FLAG) || (s =? S_ORG) then Some 4%nat
  else None.

(** Too short, or from a motor with an identifier other than 1 and 3. *)
Definition bad_answer (sh1 : shared) : Prop :=
  length (rxCmd sh1) = 128%nat /\
  match answer_len (cmd_state sh1) with
  | Some n => rxCount sh1 < Z.of_nat n \/ (exists a bs, rx sh1 = a :: bs /\ a <> 1 /\ a <> 3)
  | None => False
  end.

Lemma judge_other len a bs sh1 : rx sh1 = a :: bs -> a <> 1 -> a <> 3 -> (0 < len)%nat ->
  length (rxCmd sh1) = 128%nat -> Emm_V5_ID_judge (Emm_V5_Receive len sh1).1 = None.
Proof.
  intros Hrx H1 H3 Hlen Hcmd. unfold Emm_V5_ID_judge, rxb, Emm_V5_Receive. cbn [fst rxCmd].
  destruct len as [|len]; [lia|]. rewrite Hrx. cbn [take list_inserts].
  destruct (rxCmd sh1) as [|c cs]; [done|].
  assert (forall xs (l : list Z), nth 0 (<[0%nat := a]> (list_inserts 1 xs (c :: l))) 0 = a) as ->.
  { intros xs l. assert (length (list_inserts 1 xs (c :: l)) = S (length l)) as Hl
  by by rewrite length_inserts.
  by destruct (list_inserts 1 xs (c :: l)). }
  by rewrite (proj2 (Z.eqb_neq a 1)), (proj2 (Z.eqb_neq a 3)) by done.
Qed.

Lemma bad_answer_keeps_mutex sh1 : bad_answer sh1 -> (process_switch sh1).2 = false.
Proof.
  intros [Hlen Hbad]. unfold answer_len in Hbad.
  unfold process_switch, process_cpha, process_vel, process_cpos, process_perr, process_flag, process_org, answer.
  destruct (Z.eqb_spec (cmd_state sh1) S_IDLE) as [Hi|Hi]; [done|].
  repeat match type of Hbad with
  | context [cmd_state sh1 =? ?x] =>
  let E := fresh "E" in destruct (cmd_state sh1 =? x) eqn:E; cbn [orb] in Hbad
  end; try done;
  (case_match eqn:Hle; [|done]; apply Z.leb_le in Hle; destruct Hbad as [Hb|(a & bs & Hrx & H1 & H3)]; [lia|];
   by rewrite (judge_other _ a bs) by (done || lia)).
Qed.

(** The driver waits for a mutex the processing thread holds for good. *)
Definition locked_out (k : list emm_action) (w : list (list Z)) (s : sys) : Prop :=
  drv s = TakeMutex :: k /\ wire s = w /\
  exists h, mtx s = Some (Process, h) /\ 1 <= h /\ (proc s = WaitAnswer -> 2 <= h).

Lemma locked_out_step k w s s' : locked_out k w s -> step s s' -> locked_out k w s'.
Proof.
  intros (Hd & Hw & h & Hm & Hh & Hp) Hs. destruct Hs as [ad c acts s Hdrv _|s s' Hst|s s' Hst|bs n s sh1 sg Hcb].
  - by rewrite Hd in Hdrv.
  - unfold drv_step in Hst. rewrite Hd, Hm in Hst. unfold mutex_take in Hst.
    by rewrite decide_False in Hst by done.
  - unfold proc_step in Hst. unfold locked_out. destruct (proc s) eqn:Hpc.
    + case_match; [|done]. simplify_eq. cbn. split_and!; [done..|]. exists h. done.
    + rewrite Hm in Hst. unfold mutex_take in Hst. rewrite decide_True in Hst by done.
      cbn in Hst. simplify_eq. cbn. split_and!; [done..|].
      eexists. split; [done|]. unfold hold_max. case_match; lia.
    + case_match; [|done]. destruct (process_switch (sh s)) as [sh1 []]; simplify_eq; cbn;
      (split_and!; [done..|]).
      * rewrite Hm. unfold mutex_release. rewrite decide_True by done.
        specialize (Hp eq_refl). rewrite (proj2 (Z.eqb_neq _ _)) by lia.
        eexists. split; [done|]. split; [lia|done].
      * exists h. done.
  - unfold locked_out. cbn. split_and!; [done..|]. exists h. done.
Qed.

Lemma locked_out_steps k w s s' : locked_out k w s -> rtc step s s' -> locked_out k w s'.
Proof. intros Hl. induction 1 as [|s1 s2 s3 Hs _ IH]; [done|]. apply IH. by eapply locked_out_step. Qed.
End stepper.

(** C26: A well-formed answer to the request in progress, from motor 1 or 3, is decoded
    into exactly the field asked for of exactly that motor (current, signed speed, angle
    and position error in degrees, state flags, origin flags), the expected answer
    returns to idle, the bytes are consumed and the mutex is released. *)
Theorem stepper_answer_stored `{FloatOps F} log_d log_e (sh0 : shared (F := F)) (big : bool) r rest :
  reading_wf r -> cmd_state sh0 = reading_asked r ->
  length (rxCmd sh0) = 128%nat ->
  rx sh0 = answer_frame (if big then 1 else 3) r ++ rest ->
  Z.of_nat (length (answer_frame 1 r)) <= rxCount sh0 ->
  exists sh1, process_switch log_d log_e sh0 = (sh1, true)
    /\ cmd_state sh1 = S_IDLE /\ rx sh1 = rest
    /\ big_arm sh1 = (if big then reading_store r (big_arm sh0) else big_arm sh0)
    /\ small_arm sh1 = (if big then small_arm sh0 else reading_store r (small_arm sh0)).
Proof.
  intros Hwf Hcs Hcmd Hrx Hcnt. set (id := if big then 1 else 3) in *.
  assert (length (answer_frame id r) = length (answer_frame 1 r)) as Hlen by by destruct r.
  pose proof (receive_frame (answer_frame id r) rest sh0 Hrx) as Hrec.
  rewrite Hlen in Hrec. specialize (Hrec ltac:(destruct r; cbn; lia)).
  unfold process_switch. rewrite Hcs.
  destruct r; cbn [reading_asked answer_frame length] in *;
    unfold S_IDLE, S_CPHA, S_VEL, S_CPOS, S_PERR, S_FLAG, S_ORG in *;
    cbn [Z.eqb Pos.eqb];
    unfold process_cpha, process_vel, process_cpos, process_perr, process_flag, process_org, answer;
    unfold S_IDLE; (rewrite (proj2 (Z.leb_le _ _)) by done); rewrite Hrec; cbn [fst];
    unfold Emm_V5_ID_judge, rx_degrees, rx_word, rxb; cbn [rxCmd app nth];
    cbn [reading_wf] in Hwf; destruct_and?;
    rewrite ?join16, ?join32, ?(u16_id v) by done;
    unfold id; destruct big; cbn [Z.eqb Pos.eqb upd_motor]; eexists; (split; [reflexivity|]); done.
Qed.

Lemma stepper_answer_stored_witness :
  let m := StepperMotor (F := f32) 1 0 0%F 0%F 0 0 0 0 0 0 0 0 in
  exists sh1, process_switch true true
      (Shared S_CPOS (replicate 128 0) 8 [3; 0x36; 1; 0; 1; 0; 0; 0x6B] m m) = (sh1, true)
    /\ cmd_state sh1 = S_IDLE /\ rx sh1 = []
    /\ big_arm sh1 = m /\ small_arm sh1 = set_angle (f_of_Z (-360)) m.
Proof.
  intros m.
  destruct (stepper_answer_stored true true
    (Shared S_CPOS (replicate 128 0) 8 [3; 0x36; 1; 0; 1; 0; 0; 0x6B] m m) false (RAngle 1 65536) [])
    as (sh1 & H1 & H2 & H3 & H4 & H5).
  - split; cint.
  - reflexivity.
  - reflexivity.
  - reflexivity.
  - cbn. lia.
  - exists sh1. split_and!; [done..|]. rewrite H5. vm_compute. reflexivity.
Defined.

(** C11: After an answer that is too short or names an unknown motor the processing
    thread keeps mutex_step for good: from that moment, in every state any interleaving
    of the threads and the interrupt can reach, the driver thread is still blocked at
    its next command and nothing more is ever transmitted. *)
Theorem stepper_bad_answer_deadlock `{FloatOps F} log_d log_e (s : sys (F := F)) h k :
  bad_answer (sh s) -> proc s = WaitAnswer -> 0 < cmp_sem s ->
  mtx s = Some (Process, h) -> 1 <= h -> drv s = TakeMutex :: k ->
  exists s1, proc_step log_d log_e s = Some s1 /\ drv_step s1 = None /\
  forall s2, rtc (step log_d log_e) s1 s2 ->
    drv s2 = TakeMutex :: k /\ drv_step s2 = None /\ wire s2 = wire s.
Proof.
  intros Hbad Hpc Hcmp Hm Hh Hd. unfold proc_step. rewrite Hpc, (proj2 (Z.ltb_lt _ _)) by done.
  pose proof (bad_answer_keeps_mutex log_d log_e _ Hbad) as Hsw.
  destruct (process_switch log_d log_e (sh s)) as [sh1 rel]. cbn in Hsw. subst rel.
  assert (forall s2 : sys (F := F), locked_out k (wire s) s2 -> drv_step s2 = None) as Hblocked.
  { intros s2 (Hd2 & _ & h2 & Hm2 & _). unfold drv_step. rewrite Hd2, Hm2. unfold mutex_take.
    by rewrite decide_False by done. }
  eexists. split; [done|].
  assert (locked_out k (wire s)
    (Sys sh1 (mtx s) (step_sem s) (cmp_sem s - 1) (drv s) WaitStep (wire s))) as Hl.
  { split; [done|]. split; [done|]. exists h. done. }
  split; [by apply Hblocked|]. intros s2 Hs2.
  pose proof (locked_out_steps log_d log_e k (wire s) _ _ Hl Hs2) as Hl2.
  split; [apply Hl2|]. split; [by apply Hblocked|apply Hl2].
Qed.

(** The bad state is reached from boot: the driver asks motor 1 for its position,
    eight bytes come back from motor 2, and the driver turns to its next command. *)
Definition ex_motor : stepper_motor (F := f32) := StepperMotor 1 0 0%F 0%F 0 0 0 0 0 0 0 0.
Definition ex_boot : sys (F := f32) :=
  Sys (Shared S_IDLE (replicate 128 0) 0 [] ex_motor ex_motor) None 0 0 [] WaitStep [].
Definition ex_bad : sys (F := f32) :=
  Sys (Shared S_CPOS (replicate 128 0) 8 [2; 0x36; 0; 0; 0; 0; 0; 0x6B] ex_motor ex_motor)
  (Some (Process, 1)) 0 1
  [TakeMutex; SetCmdState S_Ans; Transmit [1; 0xF3; 0xAB; 1; 0; 0x6B]; ReleaseMutex; ReleaseStepSem]
  WaitAnswer [[1; 0x36; 0x6B]].

Lemma ex_bad_reached : rtc (step false false) ex_boot ex_bad.
Proof.
  eapply rtc_l.
  { apply (step_issue false false 1 (ReadSysParams S_CPOS)); [done|].
    apply (send_ok 16 [1; 0x36; 0x6B]); [done|cbn; lia]. }
  do 5 (eapply rtc_l; [apply step_drv; vm_compute; reflexivity|]).
  do 2 (eapply rtc_l; [apply step_proc; vm_compute; reflexivity|]).
  eapply rtc_l; [apply (step_irq false false [2; 0x36; 0; 0; 0; 0; 0; 0x6B] 8); vm_compute; reflexivity|].
  eapply rtc_l.
  { apply (step_issue false false 1 (EnControl 1 0)); [done|].
    apply (send_ok 16 [1; 0xF3; 0xAB; 1; 0; 0x6B]); [done|lia]. }
  apply rtc_refl.
Qed.

Lemma stepper_bad_answer_deadlock_witness :
  rtc (step false false) ex_boot ex_bad /\
  exists s1, proc_step false false ex_bad = Some s1 /\ drv_step s1 = None /\
  forall s2, rtc (step false false) s1 s2 ->
    drv s2 = drv ex_bad /\ drv_step s2 = None /\ wire s2 = [[1; 0x36; 0x6B]].
Proof.
  split; [apply ex_bad_reached|].
  apply (stepper_bad_answer_deadlock false false ex_bad 1).
  - split; [reflexivity|]. right. by exists 2, [0x36; 0; 0; 0; 0; 0; 0x6B].
  - reflexivity.
  - reflexivity.
  - reflexivity.
  - lia.
  - reflexivity.
Defined.

(** ** The driver thread's own program *)

#[export] Instance emm_cmd_eq_dec : EqDecision emm_cmd.
Proof. solve_decision. Defined.

Definition count (c : Z * emm_cmd) (l : list (Z * emm_cmd)) : nat := length (filter (c =.) l).

Lemma count_app c l1 l2 : count c (l1 ++ l2) = (count c l1 + count c l2)%nat.
Proof. unfold count. by rewrite filter_app, length_app. Qed.

Definition enable_big : Z * emm_cmd := (1, EnControl 1 0).
Definition enable_small : Z * emm_cmd := (3, EnControl 1 0).
Definition zero_big : Z * emm_cmd := (1, ResetCurPos).
Definition zero_small : Z * emm_cmd := (3, ResetCurPos).

Ltac count_closed :=
  rewrite ?count_app;
  repeat match goal with
  | |- context [count ?c ?l] =>
    lazymatch l with
    | [] => idtac
    | _ :: _ => idtac
    end;
    let n := eval vm_compute in (count c l) in change (count c l) with n
  end.

Section driver.
Context {F : Type} `{FloatOps F}.

Definition f_abs (x : F) : F := if (x <? 0)%F then (- x)%F else x.

(** [big_arm_pulse] and its direction: the positive direction is 0 for the big
  arm and 1 for the small one.  Negating [INT32_MIN] overflows. *)
Definition arm_pulse (positive p : Z) : outcome (Z * Z) :=
  if 0 <? p then Done (positive, p)
  else if p =? - 2 ^ 31 then Fault Undefined else Done (1 - positive, - p).

(** The parameters read from a motor in every round. *)
Definition param_reads (addr : Z) : list (Z * emm_cmd) :=
  pair addr ∘ ReadSysParams <$> [S_CPOS; S_VEL; S_PERR; S_FLAG; S_ORG; S_CPHA].

(** One round of the second loop of [drv_stepper_motor]. *)
Definition drv_loop (abig_arm_pulse asmall_arm_pulse : Z) : outcome (list (Z * emm_cmd)) :=
  b ← arm_pulse 0 abig_arm_pulse;
  s ← arm_pulse 1 asmall_arm_pulse;
  Done ([(1, PosControl (u8 b.1) 100 20 (u32 b.2) 1 0); (3, PosControl (u8 s.1) 100 20 (u32 s.2) 1 0)]
  ++ param_reads 1 ++ param_reads 3).

(** One round of the homing loop, on the angles it sees: the commands, the two
  flags and whether the loop ends. *)
Definition big_in_place (a : F) : bool := (f_abs (a - f_lit 2527 10) <? 1)%F.
Definition small_in_place (a : F) : bool := (f_abs (a - f_lit (-452) 10) <? 1)%F.

Definition homing_round (a1 a3 : F) (f1 f3 : bool) : list (Z * emm_cmd) * bool * bool * bool :=
  let '(c1, f1) := if big_in_place a1 && negb f1 then ([(1, EnControl 1 0)], true) else ([], f1) in
  let '(c3, f3) := if small_in_place a3 && negb f3 then ([(3, EnControl 1 0)], true) else ([], f3) in
  let fin := f1 && f3 in
  ([(1, ReadSysParams S_CPOS); (3, ReadSysParams S_CPOS)] ++ c1 ++ c3
   ++ (if fin then [(1, ResetCurPos); (3, ResetCurPos)] else []), f1, f3, fin).

(** The loop over the angles observed, round by round. *)
Fixpoint homing_loop (obs : list (F * F)) (f1 f3 : bool) : list (Z * emm_cmd) * bool :=
  match obs with
  | [] => ([], false)
  | (a1, a3) :: obs' =>
    let '(cs, f1', f3', fin) := homing_round a1 a3 f1 f3 in
    if fin then (cs, true) else let r := homing_loop obs' f1' f3' in (cs ++ r.1, r.2)
  end.

(** From the start of [drv_stepper_motor]: both motors are released first. *)
Definition drv_homing (obs : list (F * F)) : list (Z * emm_cmd) * bool :=
  let r := homing_loop obs false false in
  ([(1, EnControl 0 0); (3, EnControl 0 0)] ++ r.1, r.2).

(** What the commands of a homing run look like, from flags [f1] and [f3]. *)
Definition homing_ok (f1 f3 fin : bool) (cs : list (Z * emm_cmd)) : Prop :=
  (count enable_big cs + Nat.b2n f1 <= 1)%nat
  /\ (count enable_small cs + Nat.b2n f3 <= 1)%nat
  /\ (fin = true -> (count enable_big cs + Nat.b2n f1 = 1 /\ count enable_small cs + Nat.b2n f3 = 1)%nat)
  /\ (count zero_big cs = Nat.b2n fin)%nat /\ (count zero_small cs = Nat.b2n fin)%nat.

Lemma homing_loop_spec obs f1 f3 : f1 && f3 = false ->
  homing_ok f1 f3 (homing_loop obs f1 f3).2 (homing_loop obs f1 f3).1
  /\ (homing_loop obs f1 f3).2 =
   (f1 || existsb (fun o => big_in_place o.1) obs) && (f3 || existsb (fun o => small_in_place o.2) obs).
Proof.
  revert f1 f3. induction obs as [|[a1 a3] obs IH]; intros f1 f3 Hf.
  { unfold homing_ok. cbn [homing_loop fst snd existsb]. rewrite !orb_false_r, Hf. split; [|done].
    count_closed. destruct f1, f3; cbn; try done; split_and!; (done || lia). }
  cbn [homing_loop existsb fst snd]. unfold homing_round.
  destruct (big_in_place a1), (small_in_place a3), f1, f3; try done;
    cbn [andb negb orb];
    try match goal with |- context [homing_loop obs ?x ?y] =>
    specialize (IH x y eq_refl); destruct (homing_loop obs x y) as [cs fin] end;
    unfold homing_ok in *; cbn [fst snd andb negb orb] in *; count_closed;
    try (destruct IH as [(I1 & I2 & I3 & I4 & I5) I6]; rewrite I6 in *);
    cbn [Nat.b2n] in *; (split; [|reflexivity]);
    split_and!; try (intros E; specialize (I3 E)); lia.
Qed.
End driver.

(** C39: Whatever sequence of angles the homing loop sees, it enables each motor at most
    once; it ends exactly when each arm has been seen within one degree of its place,
    each in some round, and then each motor has been enabled once and both positions are
    zeroed once; before that nothing is zeroed. *)
Theorem homing_enables_once `{FloatOps F} (obs : list (F * F)) :
  let '(cs, fin) := drv_homing obs in
  fin = existsb (fun o => big_in_place o.1) obs && existsb (fun o => small_in_place o.2) obs
  /\ (count enable_big cs <= 1 /\ count enable_small cs <= 1)%nat
  /\ (fin = true -> (count enable_big cs = 1 /\ count enable_small cs = 1
        /\ count zero_big cs = 1 /\ count zero_small cs = 1)%nat)
  /\ (fin = false -> (count zero_big cs = 0 /\ count zero_small cs = 0)%nat).
Proof.
  unfold drv_homing. destruct (homing_loop_spec obs false false eq_refl) as [(H1 & H2 & H3 & H4 & H5) H6].
  destruct (homing_loop obs false false) as [cs fin]. cbn [fst snd Nat.b2n orb] in *.
  count_closed. split; [done|]. split; [lia|]. split.
  - intros ->. specialize (H3 eq_refl). cbn in *. lia.
  - intros ->. cbn in *. lia.
Qed.

(** The signed pulse count a position frame asks of a motor whose positive
    direction is [positive]. *)
Definition frame_pulse (positive : Z) (f : list Z) : option (Z * Z) :=
  match emm_parse f with
  | Some (a, PosControl dir _ _ clk 1 _) => Some (a, if dir =? positive then clk else - clk)
  | _ => None
  end.

Lemma arm_pulse_spec positive p :
  0 <= positive <= 1 -> is_s32 p -> p <> - 2 ^ 31 ->
  exists d n, arm_pulse positive p = Done (d, n) /\ is_u8 (u8 d) /\ is_u32 (u32 n)
    /\ (if u8 d =? positive then u32 n else - u32 n) = p.
Proof.
  intros Hpos Hp Hmin. unfold arm_pulse. rewrite (proj2 (Z.eqb_neq p _)) by done.
  destruct (Z.ltb_spec 0 p); eexists _, _; (split; [done|]); (split; [apply u8_range|]);
    (split; [apply u32_range|]).
  - rewrite u8_id, u32_id, Z.eqb_refl by cint. done.
  - rewrite u8_id, u32_id, (proj2 (Z.eqb_neq _ _)) by cint. lia.
Qed.

Lemma emm_pos_frame addr d n : is_u8 d -> is_u32 n ->
  exists f, emm_send addr (PosControl d 100 20 n 1 0) =
      Done [TakeMutex; SetCmdState S_Ans; Transmit f; ReleaseMutex; ReleaseStepSem]
    /\ emm_parse f = Some (addr, PosControl d 100 20 n 1 0).
Proof. intros. apply emm_frame_parses. split_and!; cint. Qed.

(** The driver's main loop turns the two signed pulse targets into direction and
    magnitude so that the frames on the wire ask motor 1 and motor 3 for exactly those
    signed targets (the small arm with the opposite direction bit), followed only by
    parameter reads. *)
Lemma arm_targets_on_the_wire big small :
  is_s32 big -> is_s32 small -> big <> - 2 ^ 31 -> small <> - 2 ^ 31 ->
  exists c1 c3 f1 f3,
    drv_loop big small = Done (c1 :: c3 :: param_reads 1 ++ param_reads 3)
    /\ emm_send c1.1 c1.2 = Done [TakeMutex; SetCmdState S_Ans; Transmit f1; ReleaseMutex; ReleaseStepSem]
    /\ emm_send c3.1 c3.2 = Done [TakeMutex; SetCmdState S_Ans; Transmit f3; ReleaseMutex; ReleaseStepSem]
    /\ frame_pulse 0 f1 = Some (1, big) /\ frame_pulse 1 f3 = Some (3, small).
Proof.
  intros Hb Hs Hb' Hs'. unfold drv_loop.
  destruct (arm_pulse_spec 0 big) as (db & pb & -> & Hdb & Hpb & Hsb); [lia|done..|].
  destruct (arm_pulse_spec 1 small) as (ds & ps & -> & Hds & Hps & Hss); [lia|done..|].
  cbn [mbind outcome_bind fst snd app].
  destruct (emm_pos_frame 1 (u8 db) (u32 pb)) as (f1 & He1 & Hp1); [done..|].
  destruct (emm_pos_frame 3 (u8 ds) (u32 ps)) as (f3 & He3 & Hp3); [done..|].
  eexists _, _, f1, f3. split; [done|]. cbn [fst snd].
  split; [done|]. split; [done|]. unfold frame_pulse. rewrite Hp1, Hp3.
  split; [by rewrite Hsb|by rewrite Hss].
Qed.
