(* ===== verification/Fsus.v ===== *)
(** * [FasionStar/fashion_star_uart_servo.c]: the bus servo

    Requests and responses are packages: a two-byte header, a command, a size, the
    content and a checksum, little endian.  A call works on the servo's port and
    mutex, which is a small state monad: the bytes and wake-ups the receiver will
    see, the frames written, how often this thread holds the mutex, whether the
    next attempts to take it succeed, and the stack garbage that
    [FSUS_CalcChecksum], which does not initialise its accumulator, will find. *)
From S2P Require Import Prelude CFloat.

Definition FSUS_PACK_RESPONSE_MAX_SIZE : Z := 50.
Definition FSUS_PACK_REQUEST_HEADER : Z := 0x4c12.
Definition FSUS_PACK_RESPONSE_HEADER : Z := 0x1c05.
Definition FSUS_CMD_NUM : Z := 17.
Definition FSUS_CMD_PING : Z := 1.
Definition FSUS_CMD_RESET_USER_DATA : Z := 2.
Definition FSUS_CMD_READ_DATA : Z := 3.
Definition FSUS_CMD_WRITE_DATA : Z := 4.
Definition FSUS_CMD_SPIN : Z := 7.
Definition FSUS_CMD_ROTATE : Z := 8.
Definition FSUS_CMD_DAMPING : Z := 9.
Definition FSUS_CMD_READ_ANGLE : Z := 10.
Definition FSUS_CMD_SET_SERVO_ANGLE_BY_INTERVAL : Z := 11.
Definition FSUS_CMD_SET_SERVO_ANGLE_BY_VELOCITY : Z := 12.
Definition FSUS_CMD_SET_SERVO_ANGLE_MTURN : Z := 13.
Definition FSUS_CMD_SET_SERVO_ANGLE_MTURN_BY_INTERVAL : Z := 14.
Definition FSUS_CMD_SET_SERVO_ANGLE_MTURN_BY_VELOCITY : Z := 15.
Definition FSUS_CMD_QUERY_SERVO_ANGLE_MTURN : Z := 16.

Definition FSUS_STATUS_SUCCESS : Z := 0.
Definition FSUS_STATUS_FAIL : Z := 1.
Definition FSUS_STATUS_TIMEOUT : Z := 2.
Definition FSUS_STATUS_WRONG_RESPONSE_HEADER : Z := 3.
Definition FSUS_STATUS_UNKOWN_CMD_ID : Z := 4.
Definition FSUS_STATUS_SIZE_TOO_BIG : Z := 5.
Definition FSUS_STATUS_CHECKSUM_ERROR : Z := 6.
Definition FSUS_STATUS_ID_NOT_MATCH : Z := 7.

Definition FSUS_RECV_FLAG_HEADER : Z := 0x01.
Definition FSUS_RECV_FLAG_CMD_ID : Z := 0x02.
Definition FSUS_RECV_FLAG_SIZE : Z := 0x04.
Definition FSUS_RECV_FLAG_CONTENT : Z := 0x08.
Definition FSUS_RECV_FLAG_CHECKSUM : Z := 0x10.

Definition FSUS_WAIT_COUNT_MAX : Z := 10000.

Record PackageTypeDef := Package {
  header : Z;
  cmdId : Z;
  size : Z;
  content : list Z;
  checksum : Z;
  status : Z;
}.

(** What the receiver meets when it polls the port: a byte, or none and then the
    semaphore; the end of the list is a timeout too. *)
Inductive event := Byte (b : Z) | Signal | Timeout.

Record servo_t := Servo {
  w_rx : list event;
  w_tx : list (list Z);
  w_hold : Z;
  w_locks : list bool;
  w_junk : list Z;
}.

(** ** The monad of a call *)
Definition M (A : Type) : Type := servo_t -> outcome (servo_t * A).
#[export] Instance M_ret : MRet M := fun A a w => Done (w, a).
#[export] Instance M_bind : MBind M := fun A B f m w =>
  match m w with Done (w', a) => f a w' | Fault e => Fault e end.
Definition lift {A} (o : outcome A) : M A := fun w =>
  match o with Done a => Done (w, a) | Fault e => Fault e end.

Definition put_tx (d : list Z) : M unit := fun w =>
  Done (Servo (w_rx w) (w_tx w ++ [d]) (w_hold w) (w_locks w) (w_junk w), ()).
Definition mutex_take : M bool := fun w =>
  match w_locks w with
  | false :: ls => Done (Servo (w_rx w) (w_tx w) (w_hold w) ls (w_junk w), false)
  | _ => Done (Servo (w_rx w) (w_tx w) (w_hold w + 1) (tail (w_locks w)) (w_junk w), true)
  end.
Definition mutex_release : M unit := fun w =>
  Done (Servo (w_rx w) (w_tx w) (w_hold w - 1) (w_locks w) (w_junk w), ()).
Definition garbage : M Z := fun w =>
  Done (Servo (w_rx w) (w_tx w) (w_hold w) (w_locks w) (tail (w_junk w)), default 0 (head (w_junk w))).

(** [if (rt_mutex_take(...) != RT_EOK) return FSUS_STATUS_TIMEOUT;] *)
Definition with_mutex (k : M Z) : M Z :=
  ok ← mutex_take;
  if (ok : bool) then k else mret FSUS_STATUS_TIMEOUT.

(** ** Packages *)

(** The sum [FSUS_CalcChecksum] adds up, from what its accumulator holds. *)
Definition checksum_from (junk : Z) (p : PackageTypeDef) : outcome Z :=
  c ← arr_read (content p) 0 (size p);
  Done (u8 (foldl Z.add (junk + u8 (header p) + u8 (Z.shiftr (header p) 8) + cmdId p + size p) c)).

Definition FSUS_CalcChecksum (p : PackageTypeDef) : M Z :=
  j ← garbage; lift (checksum_from j p).

Definition FSUS_IsValidResponsePackage (p : PackageTypeDef) : M Z :=
  if negb (header p =? FSUS_PACK_RESPONSE_HEADER) then mret FSUS_STATUS_WRONG_RESPONSE_HEADER
  else if FSUS_CMD_NUM <? cmdId p then mret FSUS_STATUS_UNKOWN_CMD_ID
  else if FSUS_PACK_RESPONSE_MAX_SIZE - 5 <? size p then mret FSUS_STATUS_SIZE_TOO_BIG
  else
    c ← FSUS_CalcChecksum p;
    mret (if negb (c =? checksum p) then FSUS_STATUS_CHECKSUM_ERROR else FSUS_STATUS_SUCCESS).

(** The bytes as [rt_memcpy] lays them out in [tx_buf], 55 bytes long. *)
Definition FSUS_UART_Send (p : PackageTypeDef) : M unit :=
  body ← lift (arr_read (content p) 0 (size p));
  tx ← lift (arr_write (replicate 55 0) 0
               ([byte_at 0 (header p); byte_at 1 (header p); cmdId p; size p] ++ body ++ [checksum p]));
  d ← lift (arr_read tx 0 (size p + 5));
  put_tx d.

Section calls.
Context {F : Type} `{FloatOps F} `{DoubleOf F}.
(** A package on the stack before anything is stored in it. *)
Context (stack : PackageTypeDef).

Definition FSUS_SendPackage (cmd sz : Z) (bytes : list Z) : M unit :=
  xs ← lift (arr_read bytes 0 sz);
  c ← lift (arr_write (content stack) 0 xs);
  let p := Package FSUS_PACK_REQUEST_HEADER cmd sz c (checksum stack) (status stack) in
  sum ← FSUS_CalcChecksum p;
  FSUS_UART_Send (Package (header p) cmd sz c sum (status p)).

Definition set_status (s : Z) (p : PackageTypeDef) : PackageTypeDef :=
  Package (header p) (cmdId p) (size p) (content p) (checksum p) s.
Definition flag_set (p : PackageTypeDef) (f : Z) : bool := negb (Z.land (status p) f =? 0).
Definition add_flag (f : Z) (p : PackageTypeDef) : PackageTypeDef :=
  set_status (Z.lor (status p) f) p.

(** Where the receiver is: the package, [bIdx] and the local [header]; or the
  code it returned with. *)
Inductive recv_result :=
  | Going (p : PackageTypeDef) (bIdx hdr : Z)
  | Returned (p : PackageTypeDef) (code : Z).

(** One byte; [junk] is what the checksum accumulator holds. *)
Definition recv_byte (junk : Z) (p : PackageTypeDef) (bIdx hdr b : Z) : outcome recv_result :=
  if flag_set p FSUS_RECV_FLAG_CONTENT then
    let p := add_flag FSUS_RECV_FLAG_CHECKSUM
               (Package (header p) (cmdId p) (size p) (content p) b (status p)) in
    c ← checksum_from junk p;
    Done (Returned p (if negb (c =? checksum p) then FSUS_STATUS_CHECKSUM_ERROR
                      else FSUS_STATUS_SUCCESS))
  else if flag_set p FSUS_RECV_FLAG_SIZE then
    c ← arr_set (content p) bIdx b;
    let p := Package (header p) (cmdId p) (size p) c (checksum p) (status p) in
    let bIdx := u8 (bIdx + 1) in
    Done (Going (if bIdx =? size p then add_flag FSUS_RECV_FLAG_CONTENT p else p) bIdx hdr)
  else if flag_set p FSUS_RECV_FLAG_CMD_ID then
    let p := Package (header p) (cmdId p) b (content p) (checksum p) (status p) in
    Done (if FSUS_PACK_RESPONSE_MAX_SIZE - 5 <? b then Returned p FSUS_STATUS_SIZE_TOO_BIG
      else Going (add_flag FSUS_RECV_FLAG_SIZE p) bIdx hdr)
  else if flag_set p FSUS_RECV_FLAG_HEADER then
    let p := Package (header p) b (size p) (content p) (checksum p) (status p) in
    Done (if FSUS_CMD_NUM <? b then Returned p FSUS_STATUS_UNKOWN_CMD_ID
      else Going (add_flag FSUS_RECV_FLAG_CMD_ID p) bIdx hdr)
  else if hdr =? 0 then
    Done (Going p bIdx (if b =? Z.land FSUS_PACK_RESPONSE_HEADER 0x0F then b else 0))
  else if hdr =? Z.land FSUS_PACK_RESPONSE_HEADER 0x0F then
    let hdr := Z.lor hdr (Z.shiftl b 8) in
    Done (if hdr =? FSUS_PACK_RESPONSE_HEADER then
        Going (add_flag FSUS_RECV_FLAG_HEADER
                 (Package hdr (cmdId p) (size p) (content p) (checksum p) (status p))) bIdx hdr
      else Going p bIdx 0)
  else Done (Going p bIdx 0).

(** The receive loop over the events; what is left of them comes back. *)
Fixpoint recv_loop (junk : Z) (rx : list event) (p : PackageTypeDef) (bIdx hdr : Z)
  : outcome (list event * PackageTypeDef * Z) :=
  match rx with
  | [] => Done ([], p, FSUS_STATUS_TIMEOUT)
  | Timeout :: rx' => Done (rx', p, FSUS_STATUS_TIMEOUT)
  | Signal :: rx' => recv_loop junk rx' p bIdx hdr
  | Byte b :: rx' =>
    r ← recv_byte junk p bIdx hdr b;
    match r with
    | Returned p code => Done (rx', p, code)
    | Going p bIdx hdr => recv_loop junk rx' p bIdx hdr
    end
  end.

Definition FSUS_RecvPackage : M (PackageTypeDef * Z) := fun w =>
  let junk := default 0 (head (w_junk w)) in
  match recv_loop junk (w_rx w) (set_status 0 stack) 0 0 with
  | Done (rx', p, code) =>
      Done (Servo rx' (w_tx w) (w_hold w) (w_locks w) (tail (w_junk w)), (p, code))
  | Fault e => Fault e
  end.

Definition content_at (p : PackageTypeDef) (i : Z) : M Z := lift (arr_get (content p) i).

Definition FSUS_Ping (servo_id : Z) : M Z :=
  with_mutex (
  _ ← FSUS_SendPackage FSUS_CMD_PING 1 [servo_id];
  r ← FSUS_RecvPackage;
  _ ← mutex_release;
  if r.2 =? FSUS_STATUS_SUCCESS then
    echo ← content_at r.1 0;
    mret (if negb (echo =? servo_id) then FSUS_STATUS_ID_NOT_MATCH else r.2)
  else mret r.2).

Definition FSUS_ResetUserData (servo_id : Z) : M Z :=
  with_mutex (
  _ ← FSUS_SendPackage FSUS_CMD_RESET_USER_DATA 1 [servo_id];
  r ← FSUS_RecvPackage;
  _ ← mutex_release;
  if r.2 =? FSUS_STATUS_SUCCESS then
    result ← content_at r.1 1;
    mret (if result =? 1 then FSUS_STATUS_SUCCESS else FSUS_STATUS_FAIL)
  else mret r.2).

(** The status, the bytes stored in [value] and the new [*size]; no mutex. *)
Definition FSUS_ReadData (servo_id address : Z) (value : list Z) (sz : Z) : M (Z * list Z * Z) :=
  _ ← FSUS_SendPackage FSUS_CMD_READ_DATA 2 [servo_id; address];
  r ← FSUS_RecvPackage;
  if r.2 =? FSUS_STATUS_SUCCESS then
    let n := u8 (size r.1 - 2) in
    xs ← lift (arr_read (content r.1) 2 n);
    v ← lift (arr_write value 0 xs);
    mret (r.2, v, n)
  else mret (r.2, value, sz).

Definition FSUS_WriteData (servo_id address : Z) (value : list Z) (sz : Z) : M Z :=
  xs ← lift (arr_read value 0 sz);
  _ ← FSUS_SendPackage FSUS_CMD_WRITE_DATA (u8 (sz + 2)) (servo_id :: address :: xs);
  r ← FSUS_RecvPackage;
  if r.2 =? FSUS_STATUS_SUCCESS then
    result ← content_at r.1 2;
    mret (if result =? 1 then FSUS_STATUS_SUCCESS else FSUS_STATUS_FAIL)
  else mret r.2.

(** Setters: the mutex is held just for the write. *)
Definition send_locked (cmd sz : Z) (buffer : list Z) (after : M Z) : M Z :=
  with_mutex (
  _ ← FSUS_SendPackage cmd sz buffer;
  _ ← mutex_release;
  after).

Definition FSUS_WheelMove (servo_id method speed value : Z) : M Z :=
  send_locked FSUS_CMD_SPIN 6
  [servo_id; method; Z.land speed 0xFF; Z.land (Z.shiftr speed 8) 0xFF;
   Z.land value 0xFF; Z.land (Z.shiftr value 8) 0xFF] (mret FSUS_STATUS_SUCCESS).

Definition FSUS_WheelStop (servo_id : Z) : M Z := FSUS_WheelMove servo_id 0x00 0 0.
Definition wheel_method (base is_cw : Z) : Z := if is_cw =? 0 then base else Z.lor base 0x80.
Definition FSUS_WheelKeepMove (servo_id is_cw speed : Z) : M Z :=
  FSUS_WheelMove servo_id (wheel_method 0x01 is_cw) speed 0.
Definition FSUS_WheelMoveTime (servo_id is_cw speed nTime : Z) : M Z :=
  FSUS_WheelMove servo_id (wheel_method 0x03 is_cw) speed nTime.
Definition FSUS_WheelMoveNCircle (servo_id is_cw speed nCircle : Z) : M Z :=
  FSUS_WheelMove servo_id (wheel_method 0x02 is_cw) speed nCircle.

(** The gripper's two canned motions; both arm frames of the first are the same. *)
Definition up_buf : list Z :=
  [0x01; 0x00; 0x69; 0x12; 0x4C; 0x06; 0x21; 0x00; 0x01; 0x00; 0x00; 0x01; 0x05; 0x01; 0x01;
   0x00; 0xD3; 0x14; 0x8E; 0x23; 0x22; 0x04; 0x01; 0x00; 0x50; 0x00; 0x00; 0x00; 0x00; 0x00;
   0x00; 0x00; 0x95; 0x02; 0xBC; 0x02; 0x40; 0xFC; 0x00; 0x00; 0x2E; 0x12; 0x4C; 0x05; 0x01;
   0x00; 0x64; 0x12; 0x4C; 0x0A].
Definition pick_buf : list Z :=
  [0x01; 0x00; 0x69; 0x12; 0x4C; 0x06; 0x21; 0x00; 0x01; 0x00; 0x00; 0x01; 0x05; 0x01; 0x90;
   0x01; 0xD3; 0x14; 0x8E; 0x23; 0x22; 0x04; 0x2C; 0x01; 0x50; 0x00; 0x00; 0x00; 0x00; 0x00;
   0x00; 0x00; 0x95; 0x02; 0xBC; 0x02; 0x40; 0xFC; 0x00; 0x00; 0xEA; 0x12; 0x4C; 0x05; 0x01;
   0x00; 0x64; 0x12; 0x4C; 0x0A].
Definition pick_buf1 : list Z :=
  [0x01; 0x00; 0x69; 0x12; 0x4C; 0x06; 0x21; 0x00; 0x01; 0x00; 0x00; 0x01; 0x05; 0x01; 0x01;
   0x00; 0xD3; 0x14; 0x8E; 0x23; 0x22; 0x04; 0x2c; 0x01; 0x50; 0x00; 0x00; 0x00; 0x00; 0x00;
   0x00; 0x00; 0x95; 0x02; 0xBC; 0x02; 0x40; 0xFC; 0x00; 0x00; 0xBE; 0x12; 0x4C; 0x05; 0x01;
   0x00; 0x64; 0x12; 0x4C; 0x0A].

Definition My_FSUS_up : M unit :=
  _ ← put_tx up_buf; _ ← put_tx up_buf; _ ← FSUS_WheelMoveTime 0 1 500 3800; mret ().
Definition My_FSUS_pick : M unit :=
  _ ← put_tx pick_buf; _ ← put_tx pick_buf1; _ ← FSUS_WheelMoveTime 0 0 500 3800; mret ().

(** [if (angle > lim) angle = lim; else if (angle < -lim) angle = -lim;] *)
Definition clamp_angle (lim : Z) (angle : F) : F :=
  if (angle >? f_of_Z lim)%F then f_of_Z lim
  else if (angle <? f_of_Z (- lim))%F then f_of_Z (- lim) else angle.
Definition clamp_velocity (v : F) : F :=
  if (v <? 1)%F then 1%F else if (v >? f_of_Z 750)%F then f_of_Z 750 else v.
Definition at_least_20 (t : Z) : Z := if t <? 20 then 20 else t.

(** [x & 0xFF, (x >> 8) & 0xFF] and the four-byte variant. *)
Definition le16 (x : Z) : list Z := [Z.land x 0xFF; Z.land (Z.shiftr x 8) 0xFF].
Definition le32 (x : Z) : list Z :=
  [Z.land x 0xFF; Z.land (Z.shiftr x 8) 0xFF; Z.land (Z.shiftr x 16) 0xFF;
   Z.land (Z.shiftr x 24) 0xFF].

(** The angle both queries read back: [(float)(echo / 10.0)], the division in
  [double]. *)
Definition of_double_tenths (z : Z) : F := narrow (f_of_Z z / f_of_Z 10)%F.

(** The status and [*angle]. *)
Definition FSUS_QueryServoAngle (servo_id : Z) (angle : F) : M (Z * F) :=
  ok ← mutex_take;
  if (ok : bool) then
    _ ← FSUS_SendPackage FSUS_CMD_READ_ANGLE 1 [servo_id];
    r ← FSUS_RecvPackage;
    _ ← mutex_release;
    if r.2 =? FSUS_STATUS_SUCCESS then
      echo ← content_at r.1 0;
      if negb (echo =? servo_id) then mret (FSUS_STATUS_ID_NOT_MATCH, angle)
      else
        lo ← content_at r.1 1; hi ← content_at r.1 2;
        mret (r.2, of_double_tenths (s16 (Z.lor lo (Z.shiftl hi 8))))
    else mret (r.2, angle)
  else mret (FSUS_STATUS_TIMEOUT, angle).

(** A mismatched identifier returns before [rt_mutex_release]. *)
Definition FSUS_QueryServoAngleMTurn (servo_id : Z) (angle : F) : M (Z * F) :=
  ok ← mutex_take;
  if (ok : bool) then
    _ ← FSUS_SendPackage FSUS_CMD_QUERY_SERVO_ANGLE_MTURN 1 [servo_id];
    r ← FSUS_RecvPackage;
    if r.2 =? FSUS_STATUS_SUCCESS then
      echo ← content_at r.1 0;
      if negb (echo =? servo_id) then mret (FSUS_STATUS_ID_NOT_MATCH, angle)
      else
        b1 ← content_at r.1 1; b2 ← content_at r.1 2; b3 ← content_at r.1 3; b4 ← content_at r.1 4;
        _ ← mutex_release;
        mret (r.2, of_double_tenths
          (s32 (Z.lor (Z.lor (Z.lor b1 (Z.shiftl b2 8)) (Z.shiftl b3 16)) (Z.shiftl b4 24))))
    else _ ← mutex_release; mret (r.2, angle)
  else mret (FSUS_STATUS_TIMEOUT, angle).

(** Poll until the angle is within one degree, at most [FSUS_WAIT_COUNT_MAX]
  times; the status of the query is not looked at, so a failed one leaves
  [angle_read] as it was.  [n] bounds the rounds. *)
Fixpoint wait_loop (n : nat) (servo_id : Z) (target angle_read : F) (is_mturn count : Z) : M Z :=
  match n with
  | O => fun _ => Fault Hang
  | S n' =>
    r ← (if is_mturn =? 0 then FSUS_QueryServoAngle servo_id angle_read
     else FSUS_QueryServoAngleMTurn servo_id angle_read);
    let d := (target - r.2)%F in
    let err := if (d <? 0)%F then (- d)%F else d in
    if (err <=? 1)%F then mret FSUS_STATUS_SUCCESS
    else
      let count := u16 (count + 1) in
      if FSUS_WAIT_COUNT_MAX <=? count then mret FSUS_STATUS_FAIL
      else wait_loop n' servo_id target r.2 is_mturn count
  end.

(** [angle_read] is uninitialised: [garbage_angle]. *)
Definition FSUS_Wait (garbage_angle : F) (servo_id : Z) (target : F) (is_mturn : Z) : M Z :=
  wait_loop (Z.to_nat FSUS_WAIT_COUNT_MAX) servo_id target garbage_angle is_mturn 0.

(** The difference of the angles, as the two helpers of the test program compute it. *)
Definition angle_error (nextAngle curAngle : F) : F :=
  if (nextAngle >? curAngle)%F then (nextAngle - curAngle)%F else (curAngle - nextAngle)%F.
Definition servoDeadBlock : F := 1%F.
(** The time, and the global [curAngle]. *)
Definition calcIntervalMs (servo_id : Z) (nextAngle speed curAngle : F) : M (Z * F) :=
  r ← FSUS_QueryServoAngle servo_id curAngle;
  t ← lift (to_uint16 (widen (angle_error nextAngle r.2 / speed)%F * f_of_Z 1000)%F);
  mret (t, r.2).
(** Without a limit in the code; [n] bounds the rounds. *)
Fixpoint waitUntilServoIDLE (n : nat) (servo_id : Z) (nextAngle curAngle : F) : M F :=
  match n with
  | O => fun _ => Fault Hang
  | S n =>
    r ← FSUS_QueryServoAngle servo_id curAngle;
    if (angle_error nextAngle r.2 <=? servoDeadBlock)%F then mret r.2
    else waitUntilServoIDLE n servo_id nextAngle r.2
  end.

(** The thread, up to its loop, which only sleeps. *)
Definition FSUS_process : M unit := _ ← FSUS_Ping 0; My_FSUS_up.

Section setters.
Context (garbage_angle : F).

Definition wait_or_ok (wait servo_id : Z) (angle : F) (is_mturn : Z) : M Z :=
  if wait =? 0 then mret FSUS_STATUS_SUCCESS
  else FSUS_Wait garbage_angle servo_id angle is_mturn.

Definition FSUS_SetServoAngle (servo_id : Z) (angle : F) (interval power wait : Z) : M Z :=
  let angle := clamp_angle 180 angle in
  t ← lift (to_int16 (f_of_Z 10 * angle)%F);
  send_locked FSUS_CMD_ROTATE 7 (servo_id :: le16 t ++ le16 interval ++ le16 power)
  (wait_or_ok wait servo_id angle 0).

Definition FSUS_SetServoAngleByInterval (servo_id : Z) (angle : F)
  (interval t_acc t_dec power wait : Z) : M Z :=
  let angle := clamp_angle 180 angle in
  let t_acc := at_least_20 t_acc in
  let t_dec := at_least_20 t_dec in
  t ← lift (to_int16 (f_of_Z 10 * angle)%F);
  send_locked FSUS_CMD_SET_SERVO_ANGLE_BY_INTERVAL 11
  (servo_id :: le16 t ++ le16 interval ++ le16 t_acc ++ le16 t_dec ++ le16 power)
  (wait_or_ok wait servo_id angle 0).

Definition FSUS_SetServoAngleByVelocity (servo_id : Z) (angle velocity : F)
  (t_acc t_dec power wait : Z) : M Z :=
  let angle := clamp_angle 180 angle in
  let velocity := clamp_velocity velocity in
  let t_acc := at_least_20 t_acc in
  let t_dec := at_least_20 t_dec in
  t ← lift (to_int16 (f_of_Z 10 * angle)%F);
  v ← lift (to_uint16 (f_of_Z 10 * velocity)%F);
  send_locked FSUS_CMD_SET_SERVO_ANGLE_BY_VELOCITY 11
  (servo_id :: le16 t ++ le16 v ++ le16 t_acc ++ le16 t_dec ++ le16 power)
  (wait_or_ok wait servo_id angle 0).

(** The bound on the interval is applied to the angle instead. *)
Definition FSUS_SetServoAngleMTurn (servo_id : Z) (angle : F) (interval power wait : Z) : M Z :=
  let angle := clamp_angle 368640 angle in
  let angle := if 4096000 <? interval then f_of_Z 4096000 else angle in
  t ← lift (to_int32 (f_of_Z 10 * angle)%F);
  send_locked FSUS_CMD_SET_SERVO_ANGLE_MTURN 11
  (servo_id :: le32 t ++ le32 interval ++ le16 power) (wait_or_ok wait servo_id angle 1).

Definition FSUS_SetServoAngleMTurnByInterval (servo_id : Z) (angle : F)
  (interval t_acc t_dec power wait : Z) : M Z :=
  let angle := clamp_angle 368640 angle in
  let interval := if 4096000 <? interval then 4096000 else interval in
  let t_acc := at_least_20 t_acc in
  let t_dec := at_least_20 t_dec in
  t ← lift (to_int32 (f_of_Z 10 * angle)%F);
  send_locked FSUS_CMD_SET_SERVO_ANGLE_MTURN_BY_INTERVAL 15
  (servo_id :: le32 t ++ le32 interval ++ le16 t_acc ++ le16 t_dec ++ le16 power)
  (wait_or_ok wait servo_id angle 1).

Definition FSUS_SetServoAngleMTurnByVelocity (servo_id : Z) (angle velocity : F)
  (t_acc t_dec power wait : Z) : M Z :=
  let angle := clamp_angle 368640 angle in
  let velocity := clamp_velocity velocity in
  let t_acc := at_least_20 t_acc in
  let t_dec := at_least_20 t_dec in
  t ← lift (to_int32 (f_of_Z 10 * angle)%F);
  v ← lift (to_uint16 (f_of_Z 10 * velocity)%F);
  send_locked FSUS_CMD_SET_SERVO_ANGLE_MTURN_BY_VELOCITY 13
  (servo_id :: le32 t ++ le16 v ++ le16 t_acc ++ le16 t_dec ++ le16 power)
  (wait_or_ok wait servo_id angle 1).

Definition FSUS_DampingMode (servo_id power : Z) : M Z :=
  send_locked FSUS_CMD_DAMPING 3 (servo_id :: le16 power) (mret FSUS_STATUS_SUCCESS).
End setters.
End calls.

(** ** Receiving *)

(** [bs] arrive in order, with polls that find nothing in between. *)
Inductive delivers : list event -> list Z -> Prop :=
  | delivers_nil : delivers [] []
  | delivers_byte b evs bs : delivers evs bs -> delivers (Byte b :: evs) (b :: bs)
  | delivers_signal b evs bs : delivers evs (b :: bs) -> delivers (Signal :: evs) (b :: bs).

Definition sum_bytes (cmd : Z) (bs : list Z) : Z :=
  foldl Z.add (u8 FSUS_PACK_RESPONSE_HEADER + u8 (Z.shiftr FSUS_PACK_RESPONSE_HEADER 8)
               + cmd + Z.of_nat (length bs)) bs.

(** A response on the wire. *)
Definition response (cmd : Z) (bs : list Z) : list Z :=
  [0x05; 0x1c; cmd; Z.of_nat (length bs)] ++ bs ++ [u8 (sum_bytes cmd bs)].

Lemma foldl_add_start j a xs : foldl Z.add (j + a) xs = j + foldl Z.add a xs.
Proof.
  revert a. induction xs as [|x xs IH]; intros a; [done|]. cbn.
  replace (j + a + x) with (j + (a + x)) by lia. apply IH.
Qed.

Section receive.
Context (junk : Z) (rest : list event).

Lemma recv_next evs b bs p i h : delivers evs (b :: bs) ->
  exists evs', delivers evs' bs /\
  recv_loop junk (evs ++ rest) p i h =
  (r ← recv_byte junk p i h b;
   match r with
   | Returned p code => Done (evs' ++ rest, p, code)
   | Going p i h => recv_loop junk (evs' ++ rest) p i h
   end).
Proof.
  remember (b :: bs) as l eqn:Hl. intros Hd. revert Hl.
  induction Hd as [|b' evs bs' Hd IH|b' evs bs' Hd IH]; intros [= -> ->].
  - exists evs. split; [done|reflexivity].
  - destruct IH as (evs' & Hd' & He); [done|]. exists evs'. split; [done|]. exact He.
Qed.

(** Bytes other than 5 before the header are skipped. *)
Lemma recv_noise noise evs bs p : status p = 0 -> Forall (fun b => b <> 5) noise ->
  delivers evs (noise ++ bs) ->
  exists evs', delivers evs' bs /\
  recv_loop junk (evs ++ rest) p 0 0 = recv_loop junk (evs' ++ rest) p 0 0.
Proof.
  intros Hs Hn. revert evs. induction Hn as [|b noise Hb Hn IH]; intros evs Hd; [by exists evs|].
  destruct (recv_next evs b (noise ++ bs) p 0 0 Hd) as (evs1 & Hd1 & ->).
  unfold recv_byte, flag_set. rewrite Hs. cbn [Z.land Z.eqb negb mbind outcome_bind].
  change (Z.land FSUS_PACK_RESPONSE_HEADER 15) with 5. rewrite (proj2 (Z.eqb_neq b 5)) by done.
  by apply IH.
Qed.

Lemma recv_content xs evs bs cmd n c chk i h :
  delivers evs (xs ++ bs) -> xs <> [] -> 0 <= i -> i + Z.of_nat (length xs) = n -> n <= 45 ->
  length c = 50%nat ->
  exists evs', delivers evs' bs /\
  recv_loop junk (evs ++ rest) (Package 0x1c05 cmd n c chk 7) i h
  = recv_loop junk (evs' ++ rest)
  (Package 0x1c05 cmd n (list_inserts (Z.to_nat i) xs c) chk 15) n h.
Proof.
  revert evs c i. induction xs as [|x xs IH]; [done|]. intros evs c i Hd _ Hi Hn Hn45 Hc.
  cbn [length] in Hn.
  destruct (recv_next evs x (xs ++ bs) (Package 0x1c05 cmd n c chk 7) i h Hd) as (evs1 & Hd1 & ->).
  unfold recv_byte. change (flag_set _ FSUS_RECV_FLAG_CONTENT) with false.
  change (flag_set _ FSUS_RECV_FLAG_SIZE) with true. cbn [content].
  rewrite arr_set_ok by lia. cbn [mbind outcome_bind size header cmdId checksum status].
  rewrite u8_id by cint.
  destruct xs as [|y xs].
  - rewrite (proj2 (Z.eqb_eq _ _)) by (cbn in Hn; lia). exists evs1. split; [done|].
  replace (i + 1) with n by (cbn in Hn; lia). done.
  - rewrite (proj2 (Z.eqb_neq _ _)) by (cbn [length] in Hn; lia).
  destruct (IH evs1 (<[Z.to_nat i := x]> c) (i + 1)) as (evs' & Hd' & ->);
  [done|done|lia|lia|done|by rewrite length_insert|].
  exists evs'. split; [done|].
  replace (Z.to_nat (i + 1)) with (S (Z.to_nat i)) by lia.
  by rewrite <- list_insert_inserts_lt by lia.
Qed.
End receive.

Lemma checksum_from_response junk cmd bs c st k :
  (length bs <= 45)%nat -> length c = 50%nat ->
  checksum_from junk (Package 0x1c05 cmd (Z.of_nat (length bs)) (list_inserts 0 bs c) k st)
  = Done (u8 (junk + sum_bytes cmd bs)).
Proof.
  intros Hb Hc. unfold checksum_from. cbn [content size header cmdId].
  rewrite arr_read_ok by (rewrite ?length_inserts; lia). cbn [mbind outcome_bind].
  change (Z.to_nat 0) with 0%nat.
  rewrite Nat2Z.id, drop_0, list_inserts_app by lia. rewrite take_0, app_nil_l, take_app_length.
  do 2 f_equal. unfold sum_bytes. rewrite <- foldl_add_start. f_equal.
  change FSUS_PACK_RESPONSE_HEADER with 0x1c05. lia.
Qed.

Lemma checksum_garbage j s : (u8 (j + s) =? u8 s) = (u8 j =? 0).
Proof. destruct (Z.eqb_spec (u8 j) 0), (Z.eqb_spec (u8 (j + s)) (u8 s)); try done; cint. Qed.

(** C12: Whatever bytes other than 5 and whatever wake-ups precede and interleave a
    well-formed answer of 1 to 45 content bytes, FSUS_RecvPackage returns with exactly
    that command, size and content, having consumed exactly the answer; its status is
    success when the uninitialised checksum accumulator started at 0 and a checksum
    error otherwise. *)
Theorem fsus_receive_response stack noise cmd bs evs rest w :
  length (content stack) = 50%nat -> Forall (fun b => b <> 5) noise ->
  0 <= cmd <= FSUS_CMD_NUM -> (1 <= length bs <= 45)%nat ->
  delivers evs (noise ++ response cmd bs) -> w_rx w = evs ++ rest ->
  let junk := default 0 (head (w_junk w)) in
  exists p w', FSUS_RecvPackage stack w =
      Done (w', (p, if u8 junk =? 0 then FSUS_STATUS_SUCCESS else FSUS_STATUS_CHECKSUM_ERROR))
    /\ header p = FSUS_PACK_RESPONSE_HEADER /\ cmdId p = cmd /\ size p = Z.of_nat (length bs)
    /\ take (length bs) (content p) = bs
    /\ w_rx w' = rest /\ w_tx w' = w_tx w /\ w_hold w' = w_hold w.
Proof.
  intros Hst Hnoise Hcmd Hbs Hd Hrx junk. unfold FSUS_RecvPackage, FSUS_CMD_NUM in *. rewrite Hrx. fold junk.
  destruct (recv_noise junk rest noise evs _ (set_status 0 stack) eq_refl Hnoise Hd) as (e0 & Hd0 & ->).
  unfold response in Hd0. cbn [app] in Hd0.
  set (c := content stack) in *. set (n := Z.of_nat (length bs)) in *.
  destruct (recv_next junk rest e0 _ _ (set_status 0 stack) 0 0 Hd0) as (e1 & Hd1 & ->).
  change (recv_byte junk (set_status 0 stack) 0 0 5) with (Done (Going (set_status 0 stack) 0 5)).
  cbn [mbind outcome_bind].
  destruct (recv_next junk rest e1 _ _ (set_status 0 stack) 0 5 Hd1) as (e2 & Hd2 & ->).
  change (recv_byte junk (set_status 0 stack) 0 5 28) with
    (Done (Going (Package 0x1c05 (cmdId stack) (size stack) c (checksum stack) 1) 0 0x1c05)).
  cbn [mbind outcome_bind].
  destruct (recv_next junk rest e2 _ _ (Package 0x1c05 (cmdId stack) (size stack) c (checksum stack) 1)
              0 0x1c05 Hd2) as (e3 & Hd3 & ->).
  assert (recv_byte junk (Package 0x1c05 (cmdId stack) (size stack) c (checksum stack) 1) 0 0x1c05 cmd
    = Done (Going (Package 0x1c05 cmd (size stack) c (checksum stack) 3) 0 0x1c05)) as ->.
  { unfold recv_byte. cbn -[Z.ltb]. unfold FSUS_CMD_NUM. by rewrite (proj2 (Z.ltb_ge 17 cmd)) by lia. }
  cbn [mbind outcome_bind].
  destruct (recv_next junk rest e3 _ _ (Package 0x1c05 cmd (size stack) c (checksum stack) 3)
              0 0x1c05 Hd3) as (e4 & Hd4 & ->).
  assert (recv_byte junk (Package 0x1c05 cmd (size stack) c (checksum stack) 3) 0 0x1c05 n
    = Done (Going (Package 0x1c05 cmd n c (checksum stack) 7) 0 0x1c05)) as ->.
  { unfold recv_byte. change (FSUS_PACK_RESPONSE_MAX_SIZE - 5) with 45.
    rewrite (proj2 (Z.ltb_ge 45 n)) by lia. reflexivity. }
  cbn [mbind outcome_bind].
  destruct (recv_content junk rest bs e4 _ cmd n c (checksum stack) 0 0x1c05 Hd4)
    as (e5 & Hd5 & ->); [by destruct bs; cbn in *; [lia|]|lia|lia|lia|done|].
  destruct (recv_next junk rest e5 _ _
    (Package 0x1c05 cmd n (list_inserts (Z.to_nat 0) bs c) (checksum stack) 15) n 0x1c05 Hd5) as (e6 & Hd6 & ->).
  inversion Hd6; subst e6.
  unfold recv_byte. change (flag_set _ FSUS_RECV_FLAG_CONTENT) with true.
  cbn [header cmdId size content checksum status].
  change (add_flag FSUS_RECV_FLAG_CHECKSUM _) with
    (Package 0x1c05 cmd n (list_inserts 0 bs c) (u8 (sum_bytes cmd bs)) 31).
  cbv zeta. unfold n. rewrite checksum_from_response by (done || lia).
  cbn [mbind outcome_bind checksum app]. rewrite checksum_garbage.
  eexists _, _. split.
  { do 3 f_equal. by destruct (u8 junk =? 0). }
  cbn [header cmdId size content w_rx w_tx w_hold]. split_and!; try done.
  rewrite list_inserts_app by lia. by rewrite take_0, app_nil_l, take_app_length.
Qed.

(** ** What a successful reception guarantees *)

(** The package while it fills, by the flags it has. *)
Definition recv_inv (p : PackageTypeDef) (i : Z) : Prop :=
  length (content p) = 50%nat /\
  ((status p = 0) \/
   (header p = FSUS_PACK_RESPONSE_HEADER /\
    (status p = 1 \/
     (0 <= cmdId p <= FSUS_CMD_NUM /\
      (status p = 3 \/
       (0 <= size p <= 45 /\ 0 <= i < 256 /\
        (status p = 7 \/ (status p = 15 /\ i = size p)))))))).

Definition recv_post (junk : Z) (p : PackageTypeDef) (code : Z) : Prop :=
  code = FSUS_STATUS_SUCCESS ->
  header p = FSUS_PACK_RESPONSE_HEADER /\ 0 <= cmdId p <= FSUS_CMD_NUM /\ 0 <= size p <= 45
  /\ length (content p) = 50%nat /\ checksum_from junk p = Done (checksum p).

Lemma recv_byte_inv junk p i h b r : is_u8 b -> recv_inv p i ->
  (status p <> 7 -> status p <> 15 -> i = 0) ->
  recv_byte junk p i h b = Done r ->
  match r with
  | Going p' i' _ => recv_inv p' i' /\ (status p' <> 7 -> status p' <> 15 -> i' = 0)
  | Returned p' code => recv_post junk p' code
  end.
Proof.
  intros Hb (Hc & Hinv) Hi Hr. unfold recv_byte, flag_set, FSUS_RECV_FLAG_CONTENT, FSUS_RECV_FLAG_SIZE, FSUS_RECV_FLAG_CMD_ID,
    FSUS_RECV_FLAG_HEADER in Hr.
  destruct p as [hd cm sz ct ck st]. cbn [header cmdId size content checksum status] in *.
  assert (st = 0 \/ st = 1 \/ st = 3 \/ st = 7 \/ st = 15) as Hst by tauto.
  destruct Hst as [->|[->|[->|[->| ->]]]];
    repeat (match type of Hr with context [Z.land ?a ?m] =>
      let v := eval vm_compute in (Z.land a m) in change (Z.land a m) with v in Hr end); cbn in Hr.
  - assert (i = 0) as -> by (apply Hi; lia).
    repeat case_match; simplify_eq; unfold recv_inv; cbn; (split; [split; [done|]|done]); try tauto.
    right. split; [lia|tauto].
  - assert (i = 0) as -> by (apply Hi; lia). destruct Hinv as [Hz|[Hh _]]; [lia|].
    unfold FSUS_CMD_NUM in Hr. destruct (Z.ltb_spec 17 b); simplify_eq; [by intros [=]|].
    unfold recv_inv, FSUS_CMD_NUM. cbn. (split; [split; [done|]|done]).
    right. split; [done|]. right. split; [cint|by left].
  - assert (i = 0) as -> by (apply Hi; lia). destruct Hinv as [Hz|[Hh [Hz|[Hcm _]]]]; [lia..|].
    change (FSUS_PACK_RESPONSE_MAX_SIZE - 5) with 45 in Hr.
    destruct (Z.ltb_spec 45 b); simplify_eq; [by intros [=]|].
    unfold recv_inv. cbn. (split; [split; [done|]|done]).
    right. split; [done|]. right. split; [done|]. right. split; [cint|]. split; [lia|by left].
  - destruct Hinv as [|[Hh [|[Hcm [|(Hsz & Hir & _)]]]]]; [done..|].
    unfold arr_set in Hr. case_decide; cbn in Hr; simplify_eq.
    unfold recv_inv. case_match eqn:He; cbn.
    + apply Z.eqb_eq in He. rewrite length_insert. split; [split; [done|]|done].
      right. split; [done|]. right. split; [done|]. right. split; [done|]. split; [cint|]. by right.
    + rewrite length_insert. split; [split; [done|]|done].
      right. split; [done|]. right. split; [done|]. right. split; [done|]. split; [cint|]. by left.
  - destruct Hinv as [|[Hh [|[Hcm [|(Hsz & Hir & _)]]]]]; [done..|].
    unfold checksum_from in Hr. cbn in Hr.
    destruct (arr_read ct 0 sz) as [xs|] eqn:Hrd; cbn in Hr; [|done]. simplify_eq.
    unfold recv_post, checksum_from. cbn. case_match eqn:He; [by intros [=]|]. intros _.
    apply negb_false_iff, Z.eqb_eq in He. rewrite Hrd. cbn. rewrite He. done.
Qed.

Lemma recv_byte_code junk p i h b p' code :
  recv_byte junk p i h b = Done (Returned p' code) -> code <> FSUS_STATUS_ID_NOT_MATCH.
Proof.
  unfold recv_byte. destruct (flag_set p FSUS_RECV_FLAG_CONTENT).
  - destruct (checksum_from _ _); cbn; [|done]. intros [= _ <-]. by case_match.
  - unfold arr_set. repeat case_match; cbn; intros; simplify_eq; done.
Qed.

Lemma recv_loop_post junk rx p i h rx' p' code :
  (forall b, Byte b ∈ rx -> is_u8 b) -> recv_inv p i ->
  (status p <> 7 -> status p <> 15 -> i = 0) ->
  recv_loop junk rx p i h = Done (rx', p', code) -> recv_post junk p' code.
Proof.
  revert p i h. induction rx as [|e rx IH]; intros p i h Hb Hinv Hi Hr.
  { cbn in Hr. by simplify_eq. }
  assert (forall b, Byte b ∈ rx -> is_u8 b) as Hb' by (intros; apply Hb; by apply list_elem_of_further).
  destruct e as [b| |]; cbn [recv_loop] in Hr; [|by eapply IH|by simplify_eq].
  destruct (recv_byte junk p i h b) as [r|] eqn:Hrb; cbn in Hr; [|done].
  pose proof (recv_byte_inv _ _ _ _ _ _ (Hb b ltac:(apply list_elem_of_here)) Hinv Hi Hrb) as Hstep.
  destruct r as [p1 i1 h1|p1 code1]; [|by simplify_eq].
  destruct Hstep as [Hinv1 Hi1]. by eapply IH.
Qed.

Lemma recv_loop_code junk rx p i h rx' p' code :
  recv_loop junk rx p i h = Done (rx', p', code) -> code <> FSUS_STATUS_ID_NOT_MATCH.
Proof.
  revert p i h. induction rx as [|[b| |] rx IH]; intros p i h Hr; cbn [recv_loop] in Hr;
    [by simplify_eq| |by eapply IH|by simplify_eq].
  destruct (recv_byte junk p i h b) as [r|] eqn:Hrb; cbn in Hr; [|done].
  destruct r as [p1 i1 h1|p1 code1]; [by eapply IH|].
  simplify_eq. by eapply recv_byte_code.
Qed.

(** C40: For every byte stream, a reception that reports success has the response
    header, a known command, a size of at most 45 that fits the content array, and a
    package that FSUS_IsValidResponsePackage accepts whenever its uninitialised checksum
    accumulator starts with the value the receiver's had. *)
Theorem fsus_recv_sound stack w w' p code v :
  length (content stack) = 50%nat -> (forall b, Byte b ∈ w_rx w -> is_u8 b) ->
  FSUS_RecvPackage stack w = Done (w', (p, code)) -> code = FSUS_STATUS_SUCCESS ->
  w_junk v = w_junk w ->
  header p = FSUS_PACK_RESPONSE_HEADER /\ 0 <= cmdId p <= FSUS_CMD_NUM /\ 0 <= size p <= 45
  /\ length (content p) = 50%nat
  /\ exists v', FSUS_IsValidResponsePackage p v = Done (v', FSUS_STATUS_SUCCESS).
Proof.
  intros Hst Hb Hr Hcode Hv. unfold FSUS_RecvPackage in Hr.
  destruct (recv_loop _ _ _ _ _) as [[[rx' p'] c]|] eqn:Hl; [|done]. simplify_eq.
  apply recv_loop_post in Hl; [|done|by split; [done|left]|done].
  destruct (Hl eq_refl) as (Hh & Hcm & Hsz & Hc & Hsum).
  split; [done|]. do 3 (split; [done|]). eexists. unfold FSUS_IsValidResponsePackage, FSUS_CalcChecksum.
  rewrite Hh, Z.eqb_refl. rewrite (proj2 (Z.ltb_ge _ _)) by lia.
  rewrite (proj2 (Z.ltb_ge _ _)) by (unfold FSUS_PACK_RESPONSE_MAX_SIZE; lia).
  unfold mbind, M_bind, garbage, lift. cbn [negb]. rewrite Hv, Hsum, Z.eqb_refl. reflexivity.
Qed.

Lemma recv_overrun junk bs rest cmd c ck h i : 0 < i <= 50 -> length c = 50%nat ->
  50 < i + Z.of_nat (length bs) ->
  recv_loop junk (map Byte bs ++ rest) (Package 0x1c05 cmd 0 c ck 7) i h = Fault OutOfBounds.
Proof.
  revert c i. induction bs as [|b bs IH]; intros c i Hi Hc Hn; cbn [length] in Hn; [lia|].
  cbn [map app recv_loop]. unfold recv_byte.
  change (flag_set _ FSUS_RECV_FLAG_CONTENT) with false.
  change (flag_set _ FSUS_RECV_FLAG_SIZE) with true. cbn [content size header cmdId checksum status].
  destruct (decide (i = 50)) as [->|Hne].
  { unfold arr_set. rewrite Hc. by rewrite decide_False by lia. }
  rewrite arr_set_ok by lia. cbn [mbind outcome_bind]. rewrite u8_id by cint.
  rewrite (proj2 (Z.eqb_neq _ _)) by lia. apply IH; [lia|by rewrite length_insert|lia].
Qed.

(** An answer that declares size 0 and is followed by 51 more bytes makes the
    receiver write past the 50-byte content array: the end test compares the index after
    it was incremented. *)
Theorem fsus_zero_size_overrun stack cmd bs rest w :
  length (content stack) = 50%nat -> 0 <= cmd <= FSUS_CMD_NUM -> (51 <= length bs)%nat ->
  w_rx w = map Byte ([0x05; 0x1c; cmd; 0] ++ bs) ++ rest ->
  FSUS_RecvPackage stack w = Fault OutOfBounds.
Proof.
  intros Hc Hcmd Hbs Hrx. unfold FSUS_RecvPackage. rewrite Hrx.
  set (junk := default 0 (head (w_junk w))). destruct bs as [|b bs]; [cbn in Hbs; lia|].
  destruct stack as [h0 cm sz ct ck st]. cbn [content] in Hc. cbn [map app recv_loop].
  assert ((17 <? cmd) = false) as Hlt by (apply Z.ltb_ge; unfold FSUS_CMD_NUM in Hcmd; lia).
  change (set_status 0 (Package h0 cm sz ct ck st)) with (Package h0 cm sz ct ck 0).
  change (recv_byte junk (Package h0 cm sz ct ck 0) 0 0 5) with
    (Done (Going (Package h0 cm sz ct ck 0) 0 5)). cbn [mbind outcome_bind].
  change (recv_byte junk (Package h0 cm sz ct ck 0) 0 5 28) with
    (Done (Going (Package 0x1c05 cm sz ct ck 1) 0 0x1c05)). cbn [mbind outcome_bind].
  assert (recv_byte junk (Package 0x1c05 cm sz ct ck 1) 0 0x1c05 cmd
    = Done (Going (Package 0x1c05 cmd sz ct ck 3) 0 0x1c05)) as ->.
  { unfold recv_byte, FSUS_CMD_NUM. rewrite Hlt. reflexivity. }
  cbn [mbind outcome_bind].
  change (recv_byte junk (Package 0x1c05 cmd sz ct ck 3) 0 0x1c05 0) with
    (Done (Going (Package 0x1c05 cmd 0 ct ck 7) 0 0x1c05)). cbn [mbind outcome_bind].
  assert (recv_byte junk (Package 0x1c05 cmd 0 ct ck 7) 0 0x1c05 b
    = Done (Going (Package 0x1c05 cmd 0 (<[0%nat := b]> ct) ck 7) 1 0x1c05)) as ->.
  { unfold recv_byte. change (flag_set _ FSUS_RECV_FLAG_CONTENT) with false.
    change (flag_set _ FSUS_RECV_FLAG_SIZE) with true. cbn [content].
    by rewrite arr_set_ok by lia. }
  cbn [mbind outcome_bind].
  rewrite recv_overrun; [done|lia|by rewrite length_insert|cbn [length] in Hbs; lia].
Qed.

(** ** Who holds the mutex *)

(** What a call returns and by how much it changes the hold count. *)
Definition net {A} (P : A -> Z -> Prop) (m : M A) : Prop :=
  forall w w' a, m w = Done (w', a) -> P a (w_hold w' - w_hold w).
Abbreviation keeps m := (net (fun _ d => d = 0) m).

Lemma net_bind {A B} (P : A -> Z -> Prop) (Q : B -> Z -> Prop) (m : M A) (f : A -> M B) :
  net P m -> (forall a d, P a d -> net (fun b d' => Q b (d + d')) (f a)) -> net Q (m ≫= f).
Proof.
  intros Hm Hf w w' b Hr. unfold mbind, M_bind in Hr.
  destruct (m w) as [[w1 a]|] eqn:Hw; [|done].
  pose proof (Hf a _ (Hm _ _ _ Hw) _ _ _ Hr) as HQ. cbn in HQ.
  by replace (w_hold w1 - w_hold w + (w_hold w' - w_hold w1)) with (w_hold w' - w_hold w) in HQ by lia.
Qed.

Lemma net_weaken {A} (P Q : A -> Z -> Prop) (m : M A) :
  net P m -> (forall a d, P a d -> Q a d) -> net Q m.
Proof. intros Hm HPQ w w' a Hr. apply HPQ. by eapply Hm. Qed.

Lemma net_ret {A} (Q : A -> Z -> Prop) (a : A) : Q a 0 -> net Q (mret a).
Proof. intros HQ w w' a' Hr. cbv in Hr. simplify_eq. by rewrite Z.sub_diag. Qed.

Lemma net_if {A} (Q : A -> Z -> Prop) (b : bool) (m1 m2 : M A) :
  net Q m1 -> net Q m2 -> net Q (if b then m1 else m2).
Proof. by destruct b. Qed.

Lemma keeps_bind {A B} (Q : B -> Z -> Prop) (m : M A) (f : A -> M B) :
  keeps m -> (forall a, net Q (f a)) -> net Q (m ≫= f).
Proof.
  intros Hm Hf. eapply net_bind; [done|]. intros a d ->. eapply net_weaken; [apply Hf|]. done.
Qed.

Lemma keeps_lift {A} (o : outcome A) : keeps (lift o).
Proof. intros w w' a Hr. unfold lift in Hr. destruct o; simplify_eq. lia. Qed.
Lemma keeps_garbage : keeps garbage.
Proof. intros w w' a [= <- <-]. cbn. lia. Qed.
Lemma keeps_put_tx d : keeps (put_tx d).
Proof. intros w w' a [= <-]. cbn. lia. Qed.
Lemma net_take : net (fun ok d => d = if ok : bool then 1 else 0) mutex_take.
Proof.
  intros w w' a. unfold mutex_take. case_match; [|case_match]; intros; simplify_eq; cbn; lia.
Qed.
Lemma net_release : net (fun _ d => d = -1) mutex_release.
Proof. intros w w' a [= <-]. cbn. lia. Qed.

Create HintDb net.
#[export] Hint Resolve keeps_lift keeps_garbage keeps_put_tx : net.

(** Go past the steps that leave the mutex alone. *)
Ltac net_steps :=
  repeat match goal with
  | |- net _ (_ ≫= _) => apply keeps_bind; [solve [auto with net]|intros ?]
  | |- net _ (if _ then _ else _) => apply net_if
  end; auto with net.

Lemma keeps_calc p : keeps (FSUS_CalcChecksum p).
Proof. unfold FSUS_CalcChecksum. net_steps. Qed.
Lemma keeps_uart_send p : keeps (FSUS_UART_Send p).
Proof. unfold FSUS_UART_Send. net_steps. Qed.
#[export] Hint Resolve keeps_calc keeps_uart_send : net.

Lemma keeps_send stack cmd sz bytes : keeps (FSUS_SendPackage stack cmd sz bytes).
Proof. unfold FSUS_SendPackage. net_steps. Qed.

Lemma net_recv stack :
  net (fun r d => d = 0 /\ r.2 <> FSUS_STATUS_ID_NOT_MATCH) (FSUS_RecvPackage stack).
Proof.
  intros w w' a Hr. unfold FSUS_RecvPackage in Hr.
  destruct (recv_loop _ _ _ _ _) as [[[rx p] c]|] eqn:Hl; [|done]. simplify_eq. cbn.
  split; [lia|by eapply recv_loop_code].
Qed.
Lemma keeps_recv stack : keeps (FSUS_RecvPackage stack).
Proof. eapply net_weaken; [apply net_recv|]. by intros ? ? []. Qed.
Lemma keeps_content_at p i : keeps (content_at p i).
Proof. unfold content_at. auto with net. Qed.
Lemma keeps_ret {A} (a : A) : keeps (mret a).
Proof. by apply net_ret. Qed.

#[export] Hint Resolve keeps_send keeps_recv keeps_content_at keeps_ret : net.

Lemma keeps_read_data stack id address value sz : keeps (FSUS_ReadData stack id address value sz).
Proof. unfold FSUS_ReadData. net_steps. Qed.
#[export] Hint Resolve keeps_read_data : net.

(** A call that takes the mutex, and gives it back before it goes on with [m]. *)
Lemma net_locked {A} (Q : A -> Z -> Prop) (m : M A) fallback :
  Q fallback 0 -> net (fun a d => Q a (1 + d)) m ->
  net Q (ok ← mutex_take; if (ok : bool) then m else mret fallback).
Proof.
  intros H0 Hm. eapply net_bind; [apply net_take|]. intros [] d ->; [done|by apply net_ret].
Qed.
Lemma net_unlock {A} (Q : A -> Z -> Prop) (f : () -> M A) :
  net Q (f ()) -> net (fun a d => Q a (1 + d)) (mutex_release ≫= f).
Proof.
  intros Hf. eapply net_bind; [apply net_release|]. intros [] d ->.
  eapply net_weaken; [done|]. intros a d. cbn. by replace (1 + (-1 + d)) with d by lia.
Qed.

Lemma keeps_unlock {A} (f : () -> M A) :
  keeps (f ()) -> net (fun _ d => 1 + d = 0) (mutex_release ≫= f).
Proof. intros Hf. by apply (net_unlock (fun _ d => d = 0)). Qed.

Lemma net_send_locked (Q : Z -> Z -> Prop) stack cmd sz buffer after :
  Q FSUS_STATUS_TIMEOUT 0 -> net Q after -> net Q (send_locked stack cmd sz buffer after).
Proof.
  intros H0 Ha. unfold send_locked, with_mutex. apply net_locked; [done|].
  apply keeps_bind; [auto with net|]. intros _. by apply net_unlock.
Qed.

Section lock.
Context {F : Type} `{FloatOps F} `{DoubleOf F} (stack : PackageTypeDef).
Context (garbage_angle : F).

Lemma keeps_query id angle : keeps (FSUS_QueryServoAngle stack id angle).
Proof.
  unfold FSUS_QueryServoAngle. apply net_locked; [done|]. net_steps. apply keeps_unlock. net_steps.
Qed.

Lemma net_query_mturn id angle :
  net (fun r d => d = if r.1 =? FSUS_STATUS_ID_NOT_MATCH then 1 else 0)
  (FSUS_QueryServoAngleMTurn stack id angle).
Proof.
  set (leak := fun (r : Z * F) d => d = if r.1 =? FSUS_STATUS_ID_NOT_MATCH then 1 else 0).
  unfold FSUS_QueryServoAngleMTurn. apply net_locked; [done|].
  apply keeps_bind; [auto with net|]. intros [].
  eapply net_bind; [apply net_recv|]. intros [p code] d [-> Hcode]. cbn [fst snd] in *.
  destruct (Z.eqb_spec code FSUS_STATUS_SUCCESS) as [->|_].
  - net_steps; [by apply net_ret|]. apply (net_unlock leak). by apply net_ret.
  - apply (net_unlock leak), net_ret. unfold leak. cbn. by rewrite (proj2 (Z.eqb_neq _ _)).
Qed.

Lemma net_wait n id target angle is_mturn count :
  net (fun _ d => 0 <= d /\ (is_mturn = 0 -> d = 0))
  (wait_loop stack n id target angle is_mturn count).
Proof.
  revert angle count. induction n as [|n IH]; intros angle count; [done|]. cbn [wait_loop].
  eapply net_bind with (P := fun _ d => 0 <= d /\ (is_mturn = 0 -> d = 0)).
  { destruct (Z.eqb_spec is_mturn 0).
    - eapply net_weaken; [apply keeps_query|]. cbn. lia.
    - eapply net_weaken; [apply net_query_mturn|]. cbn. intros. case_match; lia. }
  intros a d [Hd Hd0]. cbv zeta. repeat apply net_if; try (apply net_ret; lia).
  eapply net_weaken; [apply IH|]. cbn. lia.
Qed.

Lemma keeps_idle n id next cur : keeps (waitUntilServoIDLE stack n id next cur).
Proof.
  revert cur. induction n as [|n IH]; intros cur; [done|]. cbn [waitUntilServoIDLE].
  apply keeps_bind; [apply keeps_query|]. intros r. apply net_if; [by apply net_ret|apply IH].
Qed.
Lemma keeps_ping id : keeps (FSUS_Ping stack id).
Proof. unfold FSUS_Ping, with_mutex. apply net_locked; [done|]. net_steps. apply keeps_unlock. net_steps. Qed.
Lemma keeps_up : keeps (My_FSUS_up stack).
Proof.
  unfold My_FSUS_up, FSUS_WheelMoveTime, FSUS_WheelMove. net_steps.
  apply keeps_bind; [|intros; by apply net_ret]. net_steps. apply net_send_locked; [done|by apply net_ret].
Qed.

Lemma net_wait_or_ok wait id angle is_mturn :
  net (fun _ d => 0 <= d /\ (is_mturn = 0 -> d = 0))
  (wait_or_ok stack garbage_angle wait id angle is_mturn).
Proof. unfold wait_or_ok, FSUS_Wait. apply net_if; [by apply net_ret|apply net_wait]. Qed.
End lock.

(** The calls. *)
Variant servo_call {F : Type} :=
  | CPing (servo_id : Z) | CResetUserData (servo_id : Z)
  | CWriteData (servo_id address : Z) (value : list Z) (sz : Z)
  | CReadData (servo_id address : Z) (value : list Z) (sz : Z)
  | CWheelMove (servo_id method speed value : Z) | CDampingMode (servo_id power : Z)
  | CQueryServoAngle (servo_id : Z) (angle : F)
  | CQueryServoAngleMTurn (servo_id : Z) (angle : F)
  | CSetServoAngle (servo_id : Z) (angle : F) (interval power wait : Z)
  | CByInterval (servo_id : Z) (angle : F) (interval t_acc t_dec power wait : Z)
  | CByVelocity (servo_id : Z) (angle velocity : F) (t_acc t_dec power wait : Z)
  | CMTurn (servo_id : Z) (angle : F) (interval power wait : Z)
  | CMTurnByInterval (servo_id : Z) (angle : F) (interval t_acc t_dec power wait : Z)
  | CMTurnByVelocity (servo_id : Z) (angle velocity : F) (t_acc t_dec power wait : Z)
  | CCalcInterval (servo_id : Z) (next speed cur : F)
  | CWaitIdle (n : nat) (servo_id : Z) (next cur : F)
  | CProcess.
Arguments servo_call : clear implicits.

Section run.
Context {F : Type} `{FloatOps F} `{DoubleOf F} (stack : PackageTypeDef).
Context (garbage_angle : F).

(** The status each of them returns, if any. *)
Definition run_call (c : servo_call F) : M Z :=
  match c with
  | CPing id => FSUS_Ping stack id
  | CResetUserData id => FSUS_ResetUserData stack id
  | CWriteData id a v n => FSUS_WriteData stack id a v n
  | CReadData id a v n => r ← FSUS_ReadData stack id a v n; mret r.1.1
  | CWheelMove id m s v => FSUS_WheelMove stack id m s v
  | CDampingMode id p => FSUS_DampingMode stack id p
  | CQueryServoAngle id a => r ← FSUS_QueryServoAngle stack id a; mret r.1
  | CQueryServoAngleMTurn id a => r ← FSUS_QueryServoAngleMTurn stack id a; mret r.1
  | CSetServoAngle id a i p w => FSUS_SetServoAngle stack garbage_angle id a i p w
  | CByInterval id a i ta td p w =>
    FSUS_SetServoAngleByInterval stack garbage_angle id a i ta td p w
  | CByVelocity id a v ta td p w =>
    FSUS_SetServoAngleByVelocity stack garbage_angle id a v ta td p w
  | CMTurn id a i p w => FSUS_SetServoAngleMTurn stack garbage_angle id a i p w
  | CMTurnByInterval id a i ta td p w =>
    FSUS_SetServoAngleMTurnByInterval stack garbage_angle id a i ta td p w
  | CMTurnByVelocity id a v ta td p w =>
    FSUS_SetServoAngleMTurnByVelocity stack garbage_angle id a v ta td p w
  | CCalcInterval id next speed cur => r ← calcIntervalMs stack id next speed cur; mret r.1
  | CWaitIdle n id next cur => _ ← waitUntilServoIDLE stack n id next cur; mret FSUS_STATUS_SUCCESS
  | CProcess => _ ← FSUS_process stack; mret FSUS_STATUS_SUCCESS
  end.

(** How the hold count may change. *)
Definition hold_change (c : servo_call F) (code d : Z) : Prop :=
  match c with
  | CQueryServoAngleMTurn _ _ => d = if code =? FSUS_STATUS_ID_NOT_MATCH then 1 else 0
  | CMTurn _ _ _ _ w | CMTurnByInterval _ _ _ _ _ _ w | CMTurnByVelocity _ _ _ _ _ _ w =>
    0 <= d /\ (w = 0 -> d = 0)
  | _ => d = 0
  end.

Lemma net_mturn_setter wait id angle Q :
  (forall d, 0 <= d /\ (wait = 0 -> d = 0) -> Q d) ->
  net (fun _ d => Q d) (wait_or_ok stack garbage_angle wait id angle 1).
Proof.
  intros HQ. unfold wait_or_ok. destruct (Z.eqb_spec wait 0).
  - apply net_ret, HQ. lia.
  - eapply net_weaken; [apply net_wait|]. intros ? d Hd. apply HQ. cbn in Hd. lia.
Qed.

Lemma keeps_setter wait id angle :
  keeps (wait_or_ok stack garbage_angle wait id angle 0).
Proof. eapply net_weaken; [apply net_wait_or_ok|]. intros ? d [_ Hd]. by apply Hd. Qed.

Ltac setter := net_steps; apply net_send_locked; [first [done|lia]|];
  lazymatch goal with
  | |- net _ (wait_or_ok _ _ _ _ _ 0) => apply keeps_setter
  | |- net _ (wait_or_ok _ _ _ _ _ 1) => apply net_mturn_setter; intros; lia
  | |- _ => by apply net_ret
  end.

(** C30: Every servo call, the angle helpers and the start of the servo's thread
    included, leaves the port's mutex held exactly as often as before on every return,
    whatever is received, except that a multi-turn angle query keeps it exactly when the
    answer names another servo, and a multi-turn setter that waits may keep it through
    those queries. *)
Theorem fsus_lock_balance (c : servo_call F) w w' code :
  run_call c w = Done (w', code) -> hold_change c code (w_hold w' - w_hold w).
Proof.
  revert w w' code. change (net (hold_change c) (run_call c)).
  destruct c; cbn [run_call]; unfold hold_change.
  1-2: unfold FSUS_Ping, FSUS_ResetUserData, with_mutex; apply net_locked; [done|]; net_steps;
  apply keeps_unlock; net_steps.
  1-2: unfold FSUS_WriteData; net_steps.
  all: try (unfold FSUS_WheelMove, FSUS_DampingMode, FSUS_SetServoAngle,
  FSUS_SetServoAngleByInterval, FSUS_SetServoAngleByVelocity, FSUS_SetServoAngleMTurn,
  FSUS_SetServoAngleMTurnByInterval, FSUS_SetServoAngleMTurnByVelocity; cbv zeta; by setter).
  - apply keeps_bind; [apply keeps_query|]. intros ?. by apply net_ret.
  - eapply net_bind; [apply net_query_mturn|]. intros a d ->. apply net_ret. lia.
  - unfold calcIntervalMs. apply keeps_bind; [|intros; by apply net_ret].
    apply keeps_bind; [apply keeps_query|]. intros ?. net_steps.
  - apply keeps_bind; [apply keeps_idle|]. intros ?. by apply net_ret.
  - unfold FSUS_process. apply keeps_bind; [|intros; by apply net_ret].
    apply keeps_bind; [apply keeps_ping|]. intros ?. apply keeps_up.
Qed.
End run.

(** ** What the setters ask for *)

(** A servo's reader: header, size and checksum of a request are right. *)
Definition parse_request (frame : list Z) : option (Z * list Z) :=
  match frame with
  | 0x12 :: 0x4c :: cmd :: n :: rest =>
    let body := take (Z.to_nat n) rest in
    if decide (Z.of_nat (length rest) = n + 1 /\
               drop (Z.to_nat n) rest = [u8 (0x12 + 0x4c + cmd + n + foldl Z.add 0 body)])
    then Some (cmd, body) else None
  | _ => None
  end.

(** Little-endian fields: width in bytes and whether it is signed. *)
Definition field_value (fmt : Z * bool) (bs : list Z) : Z :=
  if fmt.2 then swrap (8 * fmt.1) (le_word bs) else le_word bs.
Fixpoint decode_fields (fmts : list (Z * bool)) (bs : list Z) : list Z :=
  match fmts with
  | [] => bs
  | fmt :: fmts =>
    field_value fmt (take (Z.to_nat fmt.1) bs) :: decode_fields fmts (drop (Z.to_nat fmt.1) bs)
  end.
Definition fits (f : Z * bool * Z) : Prop :=
  if f.1.2 then - 2 ^ (8 * f.1.1 - 1) <= f.2 < 2 ^ (8 * f.1.1 - 1) else 0 <= f.2 < 2 ^ (8 * f.1.1).

Lemma land_255 x : Z.land x 0xFF = x mod 256.
Proof. change 0xFF with (Z.ones 8). by rewrite Z.land_ones by lia. Qed.

Lemma le_word_le16 x : le_word (le16 x) = u16 x.
Proof.
  unfold le16. cbn [le_word]. rewrite !land_255, Z.shiftr_div_pow2 by lia.
  change (2 ^ 8) with 256. cint.
Qed.
Lemma le_word_le32 x : le_word (le32 x) = u32 x.
Proof.
  unfold le32. cbn [le_word]. rewrite !land_255, !Z.shiftr_div_pow2 by lia.
  change (2 ^ 8) with 256; change (2 ^ 16) with 65536; change (2 ^ 24) with 16777216. cint.
Qed.

Lemma decode_u8 v fmts bs :
  decode_fields ((1, false) :: fmts) (v :: bs) = v :: decode_fields fmts bs.
Proof.
  cbn [decode_fields fst]. change (Z.to_nat 1) with 1%nat. cbn [take drop]. f_equal.
  unfold field_value. cbn. rewrite take_0. cbn. lia.
Qed.
Lemma decode_16 (s : bool) v fmts bs : fits (2, s, v) ->
  decode_fields ((2, s) :: fmts) (le16 v ++ bs) = v :: decode_fields fmts bs.
Proof.
  unfold fits. cbn [fst snd]. intros Hv. cbn [decode_fields fst]. change (Z.to_nat 2) with 2%nat.
  change (take 2 (le16 v ++ bs)) with (le16 v). change (drop 2 (le16 v ++ bs)) with bs.
  f_equal. unfold field_value. cbn [fst snd]. rewrite le_word_le16.
  change (8 * 2) with 16 in *. destruct s; change (16 - 1) with 15 in *; cint.
Qed.
Lemma decode_32 (s : bool) v fmts bs : fits (4, s, v) ->
  decode_fields ((4, s) :: fmts) (le32 v ++ bs) = v :: decode_fields fmts bs.
Proof.
  unfold fits. cbn [fst snd]. intros Hv. cbn [decode_fields fst]. change (Z.to_nat 4) with 4%nat.
  change (take 4 (le32 v ++ bs)) with (le32 v). change (drop 4 (le32 v ++ bs)) with bs.
  f_equal. unfold field_value. cbn [fst snd]. rewrite le_word_le32.
  change (8 * 4) with 32 in *. destruct s; change (32 - 1) with 31 in *; cint.
Qed.

Lemma decode_16_last (s : bool) v : fits (2, s, v) -> decode_fields [(2, s)] (le16 v) = [v].
Proof. intros Hv. rewrite <- (app_nil_r (le16 v)). by rewrite decode_16. Qed.

Lemma clamp_interval i : (if 4096000 <? i then 4096000 else i) = Z.min i 4096000.
Proof. destruct (Z.ltb_spec 4096000 i); lia. Qed.

Definition request (cmd : Z) (bs : list Z) : list Z :=
  [0x12; 0x4c; cmd; Z.of_nat (length bs)] ++ bs ++
  [u8 (0x12 + 0x4c + cmd + Z.of_nat (length bs) + foldl Z.add 0 bs)].

Lemma parse_request_ok cmd bs : parse_request (request cmd bs) = Some (cmd, bs).
Proof.
  cbn [parse_request request app]. rewrite Nat2Z.id, take_app_length, drop_app_length.
  rewrite decide_True; [done|]. split; [rewrite length_app; cbn; lia|done].
Qed.

(** The caller holds the port: the mutex is free and the checksum accumulator
    happens to start at 0. *)
Definition port_ready (w : servo_t) : Prop :=
  head (w_locks w) <> Some false /\ u8 (default 0 (head (w_junk w))) = 0.

Definition after_send (w : servo_t) (frame : list Z) : servo_t :=
  Servo (w_rx w) (w_tx w ++ [frame]) (w_hold w) (tail (w_locks w)) (tail (w_junk w)).

Lemma lift_bind {A B} (a : A) (f : A -> M B) w : (lift (Done a) ≫= f) w = f a w.
Proof. done. Qed.

Lemma send_package_frame stack cmd bs w :
  length (content stack) = 50%nat -> (length bs <= 45)%nat -> is_u8 cmd ->
  u8 (default 0 (head (w_junk w))) = 0 ->
  FSUS_SendPackage stack cmd (Z.of_nat (length bs)) bs w =
  Done (Servo (w_rx w) (w_tx w ++ [request cmd bs]) (w_hold w) (w_locks w) (tail (w_junk w)), ()).
Proof.
  intros Hc Hb Hcmd Hj. set (j := default 0 (head (w_junk w))) in *.
  unfold FSUS_SendPackage. rewrite (arr_read_ok bs) by lia. rewrite lift_bind.
  change (Z.to_nat 0) with 0%nat. rewrite drop_0, Nat2Z.id, firstn_all.
  rewrite arr_write_ok by lia. rewrite lift_bind. change (Z.to_nat 0) with 0%nat.
  rewrite list_inserts_app by lia. rewrite take_0, app_nil_l.
  unfold mbind at 1, M_bind at 1, FSUS_CalcChecksum, mbind at 1, M_bind at 1, garbage, lift at 1.
  cbn [header cmdId size content checksum status].
  unfold checksum_from. cbn [header cmdId size content checksum status].
  rewrite arr_read_ok by (rewrite ?length_app, ?length_drop; lia).
  change (Z.to_nat 0) with 0%nat. rewrite drop_0, Nat2Z.id, take_app_length.
  cbn [mbind outcome_bind]. fold j. unfold FSUS_UART_Send. cbn [header cmdId size content checksum status].
  rewrite arr_read_ok by (rewrite ?length_app, ?length_drop; lia). rewrite lift_bind.
  change (Z.to_nat 0) with 0%nat. rewrite drop_0, Nat2Z.id, take_app_length.
  set (sum := u8 (foldl Z.add _ bs)).
  set (tx := [byte_at 0 _; _; _; _] ++ bs ++ [sum]).
  assert (length tx = (length bs + 5)%nat) as Hl by (unfold tx; rewrite !length_app; cbn; lia).
  rewrite arr_write_ok by (rewrite ?Hl, ?length_replicate; lia). rewrite lift_bind.
  change (Z.to_nat 0) with 0%nat.
  rewrite list_inserts_app by (rewrite Hl, length_replicate; lia).
  rewrite arr_read_ok by (rewrite ?take_0, ?length_app, ?Hl, ?length_drop, ?length_replicate; cbn; lia).
  rewrite lift_bind. change (Z.to_nat 0) with 0%nat. rewrite drop_0, take_0, app_nil_l.
  rewrite take_app_length' by lia.
  unfold put_tx. cbn [w_tx w_rx w_hold w_locks w_junk]. do 4 f_equal. unfold request, tx.
  change (byte_at 0 FSUS_PACK_REQUEST_HEADER) with 0x12.
  change (byte_at 1 FSUS_PACK_REQUEST_HEADER) with 0x4c.
  cbn [app]. do 6 f_equal. unfold sum.
  change (u8 FSUS_PACK_REQUEST_HEADER) with 0x12.
  change (u8 (Z.shiftr FSUS_PACK_REQUEST_HEADER 8)) with 0x4c.
  replace (j + 18 + 76 + cmd + Z.of_nat (length bs)) with
    (j + 18 + 76 + cmd + Z.of_nat (length bs) + 0) by lia.
  rewrite foldl_add_start. f_equal. cint.
Qed.

Lemma send_locked_frame stack cmd bs after w :
  length (content stack) = 50%nat -> (length bs <= 45)%nat -> is_u8 cmd -> port_ready w ->
  send_locked stack cmd (Z.of_nat (length bs)) bs after w = after (after_send w (request cmd bs)).
Proof.
  intros Hc Hb Hcmd [Hl Hj]. unfold send_locked, with_mutex.
  unfold mbind at 1, M_bind at 1.
  assert (mutex_take w = Done (Servo (w_rx w) (w_tx w) (w_hold w + 1) (tail (w_locks w)) (w_junk w), true))
    as ->. { unfold mutex_take. by destruct (w_locks w) as [|[] ls]. }
  unfold mbind, M_bind. rewrite send_package_frame by done.
  unfold mutex_release, after_send. cbn [w_tx w_rx w_hold w_locks w_junk].
  do 2 f_equal. lia.
Qed.

Section fields.
Context (stack : PackageTypeDef) (garbage_angle : f32).

(** Ten times an angle cut to [-lim] to [lim] degrees, toward zero. *)
Definition angle_tenths (lim : Z) (a : f32) (t : Z) : Prop :=
  if (f_of_Z lim <? a)%F then t = 10 * lim
  else if (a <? f_of_Z (- lim))%F then t = - (10 * lim)
  else f_trunc (f_of_Z 10 * a)%F = Some t.
(** Ten times a velocity cut to 1 to 750 degrees per second, toward zero. *)
Definition velocity_tenths (v : f32) (t : Z) : Prop :=
  if (v <? f_of_Z 1)%F then t = 10
  else if (f_of_Z 750 <? v)%F then t = 7500
  else f_trunc (f_of_Z 10 * v)%F = Some t.

(** The command and the fields, width and signedness included, that each call without
    waiting is to ask the servo for.  The plain multi-turn call does what the code does
    for an interval above 4096000: that many degrees, and the interval as it is. *)
Inductive asks : servo_call f32 -> Z -> list (Z * bool * Z) -> Prop :=
  | AskDamping id p : asks (CDampingMode id p) 9 [(1, false, id); (2, false, p)]
  | AskWheel id m sp v :
    asks (CWheelMove id m sp v) 7 [(1, false, id); (1, false, m); (2, false, sp); (2, false, v)]
  | AskAngle id a i p t : angle_tenths 180 a t ->
    asks (CSetServoAngle id a i p 0) 8 [(1, false, id); (2, true, t); (2, false, i); (2, false, p)]
  | AskByInterval id a i ta td p t : angle_tenths 180 a t ->
    asks (CByInterval id a i ta td p 0) 11
      [(1, false, id); (2, true, t); (2, false, i); (2, false, Z.max 20 ta); (2, false, Z.max 20 td); (2, false, p)]
  | AskByVelocity id a v ta td p t r : angle_tenths 180 a t -> velocity_tenths v r ->
    asks (CByVelocity id a v ta td p 0) 12
      [(1, false, id); (2, true, t); (2, false, r); (2, false, Z.max 20 ta); (2, false, Z.max 20 td); (2, false, p)]
  | AskMTurn id a i p t : i <= 4096000 -> angle_tenths 368640 a t ->
    asks (CMTurn id a i p 0) 13 [(1, false, id); (4, true, t); (4, false, i); (2, false, p)]
  | AskMTurnLong id a i p : 4096000 < i ->
    asks (CMTurn id a i p 0) 13 [(1, false, id); (4, true, 40960000); (4, false, i); (2, false, p)]
  | AskMTurnByInterval id a i ta td p t : angle_tenths 368640 a t ->
    asks (CMTurnByInterval id a i ta td p 0) 14
      [(1, false, id); (4, true, t); (4, false, Z.min i 4096000); (2, false, Z.max 20 ta);
       (2, false, Z.max 20 td); (2, false, p)]
  | AskMTurnByVelocity id a v ta td p t r : angle_tenths 368640 a t -> velocity_tenths v r ->
    asks (CMTurnByVelocity id a v ta td p 0) 15
      [(1, false, id); (4, true, t); (2, false, r); (2, false, Z.max 20 ta); (2, false, Z.max 20 td); (2, false, p)].

Lemma trunc_to_int lo hi (x : f32) t : f_trunc x = Some t -> lo <= t < hi -> f_to_int lo hi x = Done t.
Proof. intros Ht Hr. unfold f_to_int. by rewrite Ht, decide_True. Qed.
Lemma angle_to_int16 a t : angle_tenths 180 a t -> fits (2, true, t) ->
  to_int16 (f_of_Z 10 * clamp_angle 180 a)%F = Done t.
Proof.
  unfold angle_tenths, clamp_angle. intros Ha Hf.
  destruct (f_ltb _ a); [subst t; by vm_compute|]. destruct (f_ltb a _); [subst t; by vm_compute|].
  by apply trunc_to_int.
Qed.
Lemma angle_to_int32 a t : angle_tenths 368640 a t -> fits (4, true, t) ->
  to_int32 (f_of_Z 10 * clamp_angle 368640 a)%F = Done t.
Proof.
  unfold angle_tenths, clamp_angle. intros Ha Hf.
  destruct (f_ltb _ a); [subst t; by vm_compute|]. destruct (f_ltb a _); [subst t; by vm_compute|].
  by apply trunc_to_int.
Qed.
Lemma velocity_to_uint16 v t : velocity_tenths v t -> fits (2, false, t) ->
  to_uint16 (f_of_Z 10 * clamp_velocity v)%F = Done t.
Proof.
  unfold velocity_tenths, clamp_velocity. intros Ha Hf.
  destruct (f_ltb v _); [subst t; by vm_compute|]. destruct (f_ltb _ v); [subst t; by vm_compute|].
  by apply trunc_to_int.
Qed.
Lemma ramp_max t : at_least_20 t = Z.max 20 t.
Proof. unfold at_least_20. destruct (Z.ltb_spec t 20); lia. Qed.

Lemma send_locked_asks cmd fields buffer w sz :
  length (content stack) = 50%nat -> port_ready w ->
  sz = Z.of_nat (length buffer) -> (length buffer <= 45)%nat -> is_u8 cmd ->
  decode_fields (map fst fields) buffer = map snd fields ->
  exists frame bs,
    send_locked stack cmd sz buffer (mret FSUS_STATUS_SUCCESS) w = Done (after_send w frame, FSUS_STATUS_SUCCESS) /\
    parse_request frame = Some (cmd, bs) /\ decode_fields (map fst fields) bs = map snd fields.
Proof.
  intros Hc Hw -> Hb Hcmd Hd. exists (request cmd buffer), buffer.
  split_and!; [|apply parse_request_ok|done]. by rewrite send_locked_frame.
Qed.

(** C27: In the machine's arithmetic, with the port free and a zero checksum
    accumulator, each setter that does not wait, the wheel and the damping call write
    one frame which a servo accepts and from which it reads back the command and the
    fields: the angle, cut to 180 degrees either way (368640 in the multi-turn calls),
    in signed tenths; the velocity, cut to 1 to 750 degrees per second, in tenths; ramps
    of at least 20 ms; in the multi-turn call by interval an interval of at most 4096000
    ms; everything else as it was given. The plain multi-turn call alone leaves a longer
    interval as it is and asks for 4096000 degrees instead. Values that do not fit their
    fields are not covered. *)
Theorem fsus_setters_on_the_wire (c : servo_call f32) cmd fields w :
  length (content stack) = 50%nat -> port_ready w -> asks c cmd fields -> Forall fits fields ->
  exists frame bs,
    run_call stack garbage_angle c w = Done (after_send w frame, FSUS_STATUS_SUCCESS)
    /\ parse_request frame = Some (cmd, bs)
    /\ decode_fields (map fst fields) bs = map snd fields.
Proof.
  intros Hc Hw Ha Hf.
  destruct Ha; rewrite ?Forall_cons in Hf; destruct_and! Hf; cbn [run_call];
    unfold FSUS_WheelMove, FSUS_DampingMode, FSUS_SetServoAngle,
    FSUS_SetServoAngleByInterval, FSUS_SetServoAngleByVelocity, FSUS_SetServoAngleMTurn,
    FSUS_SetServoAngleMTurnByInterval, FSUS_SetServoAngleMTurnByVelocity; cbv zeta;
    rewrite ?clamp_interval, ?ramp_max.
  6: rewrite (proj2 (Z.ltb_ge _ _)) by lia.
  7: rewrite (proj2 (Z.ltb_lt _ _)) by lia;
     change (to_int32 _) with (@Done Z 40960000); rewrite lift_bind.
  all: try (erewrite angle_to_int16 by done; rewrite lift_bind);
    try (erewrite angle_to_int32 by done; rewrite lift_bind);
    try (erewrite velocity_to_uint16 by done; rewrite lift_bind).
  all: apply send_locked_asks; [done|done|done|cbn; lia|cbv; done|cbn [map fst snd]].
  all: try match goal with |- decode_fields _ [?a; ?m; _; _; _; _] = [_; _; ?x; ?y] =>
    change (decode_fields [(1, false); (1, false); (2, false); (2, false)] (a :: m :: le16 x ++ le16 y)
      = [a; m; x; y]) end.
  all: repeat first [rewrite decode_u8 | rewrite decode_16 by done | rewrite decode_32 by done];
    by rewrite decode_16_last by done.
Qed.
End fields.

(** ** Witnesses *)

Definition fsus_stack : PackageTypeDef := Package 0 0 0 (replicate 50 0) 0 0.

(** Line noise, then an angle answer: servo 3 at 12.3 degrees. *)
Lemma fsus_receive_response_witness :
  exists p w',
    FSUS_RecvPackage fsus_stack
      (Servo (map Byte ([0x77; 0x00] ++ response 10 [3; 123; 0]) ++ [Timeout]) [] 1 [] [0x200])
    = Done (w', (p, FSUS_STATUS_SUCCESS)) /\ size p = 3 /\ take 3 (content p) = [3; 123; 0].
Proof.
  destruct (fsus_receive_response fsus_stack [0x77; 0x00] 10 [3; 123; 0]
    (map Byte ([0x77; 0x00] ++ response 10 [3; 123; 0])) [Timeout]
    (Servo (map Byte ([0x77; 0x00] ++ response 10 [3; 123; 0]) ++ [Timeout]) [] 1 [] [0x200]))
    as (p & w' & Hr & _ & _ & Hs & Hc & _);
    [reflexivity|repeat constructor; done|by unfold FSUS_CMD_NUM|cbn; lia|repeat constructor|reflexivity|].
  exists p, w'. by split_and!.
Defined.

Definition fsus_ping_answer : servo_t := Servo (map Byte (response 1 [3])) [] 0 [] [].

Lemma fsus_recv_sound_witness :
  exists p w', FSUS_RecvPackage fsus_stack fsus_ping_answer = Done (w', (p, FSUS_STATUS_SUCCESS))
  /\ exists v', FSUS_IsValidResponsePackage p fsus_ping_answer = Done (v', FSUS_STATUS_SUCCESS).
Proof.
  eexists _, _. split; [vm_compute; reflexivity|].
  eapply (fsus_recv_sound fsus_stack fsus_ping_answer _ _ FSUS_STATUS_SUCCESS);
    [reflexivity| |vm_compute; reflexivity|reflexivity|reflexivity].
  intros b Hb. cbn in Hb. rewrite !elem_of_cons in Hb.
  repeat (destruct Hb as [[= ->]|Hb]; [done|]). by apply not_elem_of_nil in Hb.
Defined.

Lemma fsus_zero_size_overrun_witness :
  FSUS_RecvPackage fsus_stack (Servo (map Byte ([0x05; 0x1c; 1; 0] ++ replicate 51 0x22)) [] 0 [] [])
  = Fault OutOfBounds.
Proof.
  apply (fsus_zero_size_overrun fsus_stack 1 (replicate 51 0x22) []);
    [reflexivity|by unfold FSUS_CMD_NUM|cbn; lia|by rewrite app_nil_r].
Defined.

(** Servo 7 answers a question to servo 3: the thread keeps the mutex. *)
Lemma fsus_lock_balance_witness :
  let w := Servo (map Byte (response 16 [7; 0; 0; 0; 0])) [] 0 [] [] in
  let c := CQueryServoAngleMTurn 3 (0%F : f32) in
  exists w', run_call fsus_stack 0%F c w = Done (w', FSUS_STATUS_ID_NOT_MATCH)
  /\ w_hold w' - w_hold w = 1.
Proof.
  intros w c. eexists. split; [vm_compute; reflexivity|].
  apply (fsus_lock_balance fsus_stack 0%F c w _ FSUS_STATUS_ID_NOT_MATCH).
  vm_compute. reflexivity.
Defined.

(** 200 degrees for servo 3 within a second, 400 mW, ramps of 5 and 30 ms: 180 degrees
    and a first ramp of 20 ms are asked for. *)
Lemma fsus_setters_on_the_wire_witness :
  let w := Servo [] [] 0 [] [] in
  exists frame bs,
    run_call fsus_stack 0%F (CByInterval 3 (f_of_Z 200 : f32) 1000 5 30 400 0) w
    = Done (after_send w frame, FSUS_STATUS_SUCCESS)
    /\ parse_request frame = Some (11, bs)
    /\ decode_fields [(1, false); (2, true); (2, false); (2, false); (2, false); (2, false)] bs
       = [3; 1800; 1000; 20; 30; 400].
Proof.
  apply (fsus_setters_on_the_wire fsus_stack 0%F (CByInterval 3 (f_of_Z 200 : f32) 1000 5 30 400 0) 11
    [(1, false, 3); (2, true, 1800); (2, false, 1000); (2, false, 20); (2, false, 30); (2, false, 400)]);
    [reflexivity|by split|apply (AskByInterval 3 (f_of_Z 200) 1000 5 30 400 1800); vm_compute; reflexivity
    |repeat constructor; cbn; lia].
Defined.
