(* ===== verification/Apid.v ===== *)
(** * [apid.c], [apid_exfunc.c]: the PID controller

    A controller is a record of flags, parameters and process values and three
    function pointers: the control step, the integral and the differential.  The
    pointers take their values among the functions of the file, so they are
    enumerations here, and [None] is the [NULL] of a controller that was never
    initialised.  All arithmetic is in [float], over [FloatOps]. *)
From S2P Require Import Prelude CFloat.

Inductive ALL_PID_Mode := PID_POSITION | PID_INCREMENT.
Inductive ALL_PID_I_Function :=
  | PID_INTEGRAL_NORMAL | PID_INTEGRAL_SEPARATION | PID_INTEGRAL_SATURATION
  | PID_INTEGRAL_SPEED | PID_INTEGRAL_TRAPEZIOD.
Inductive ALL_PID_D_Function :=
  | PID_DIFFERENTIAL_COMPLETE | PID_DIFFERENTIAL_PART | PID_DIFFERENTIAL_PREVIOUS.

Definition STOP : Z := 0.
Definition PID_ENABLE : Z := 1.
Definition PAUSE : Z := 2.

(** The values [i_handle] and [d_handle] take: mode and way. *)
Record i_handler := IHandle { ih_mode : ALL_PID_Mode; ih_way : ALL_PID_I_Function }.
Record d_handler := DHandle { dh_mode : ALL_PID_Mode; dh_way : ALL_PID_D_Function }.

Section apid.
Context {F : Type} `{FloatOps F}.

Record ALL_PID_Flag := PIDFlag {
  run_status : Z;
  integral_way : ALL_PID_I_Function;
  differential_way : ALL_PID_D_Function;
  pid_mode : ALL_PID_Mode;
}.

(** [kd_] is the union of [kd_lpf] and [kd_pre]. *)
Record PID_Parameter := PIDParameter {
  kp : F;
  ki : F;
  kd : F;
  kf : F;
  kd_ : F;
  k_pre : F;
  target_limit : F;
  bias_limit : F;
  bias_dead_zone : F;
  bias_for_integral : F;
  integral_limit : F;
  out_limit : F;
  k : F;
  out : F;
  target : F;
  present : F;
  predict : F;
}.

(** [pr_predict] is [process.predict]. *)
Record PID_Process := PIDProcess {
  bias : F;
  integral_bias : F;
  differential_bias : F;
  lpf_differential_bias : F;
  feedforward : F;
  pr_predict : F;
  last_target : F;
  last_bias : F;
  lastlast_bias : F;
}.

(** [variable] is stored by [APID_SET_I_Function] and never called. *)
Record apid_t := Apid {
  flag : ALL_PID_Flag;
  parameter : PID_Parameter;
  process : PID_Process;
  cycle : F;
  handle : option ();
  i_handle : option i_handler;
  d_handle : option d_handler;
}.

(** Assignments to one field. *)
Definition set_run_status (x : Z) (r : ALL_PID_Flag) : ALL_PID_Flag :=
  PIDFlag x (integral_way r) (differential_way r) (pid_mode r).
Definition set_integral_way (x : ALL_PID_I_Function) (r : ALL_PID_Flag) : ALL_PID_Flag :=
  PIDFlag (run_status r) x (differential_way r) (pid_mode r).
Definition set_differential_way (x : ALL_PID_D_Function) (r : ALL_PID_Flag) : ALL_PID_Flag :=
  PIDFlag (run_status r) (integral_way r) x (pid_mode r).
Definition set_pid_mode (x : ALL_PID_Mode) (r : ALL_PID_Flag) : ALL_PID_Flag :=
  PIDFlag (run_status r) (integral_way r) (differential_way r) x.
Definition set_kp (x : F) (r : PID_Parameter) : PID_Parameter :=
  PIDParameter x (ki r) (kd r) (kf r) (kd_ r) (k_pre r) (target_limit r) (bias_limit r) (bias_dead_zone r) (bias_for_integral r) (integral_limit r) (out_limit r) (k r) (out r) (target r) (present r) (predict r).
Definition set_ki (x : F) (r : PID_Parameter) : PID_Parameter :=
  PIDParameter (kp r) x (kd r) (kf r) (kd_ r) (k_pre r) (target_limit r) (bias_limit r) (bias_dead_zone r) (bias_for_integral r) (integral_limit r) (out_limit r) (k r) (out r) (target r) (present r) (predict r).
Definition set_kd (x : F) (r : PID_Parameter) : PID_Parameter :=
  PIDParameter (kp r) (ki r) x (kf r) (kd_ r) (k_pre r) (target_limit r) (bias_limit r) (bias_dead_zone r) (bias_for_integral r) (integral_limit r) (out_limit r) (k r) (out r) (target r) (present r) (predict r).
Definition set_kf (x : F) (r : PID_Parameter) : PID_Parameter :=
  PIDParameter (kp r) (ki r) (kd r) x (kd_ r) (k_pre r) (target_limit r) (bias_limit r) (bias_dead_zone r) (bias_for_integral r) (integral_limit r) (out_limit r) (k r) (out r) (target r) (present r) (predict r).
Definition set_kd_ (x : F) (r : PID_Parameter) : PID_Parameter :=
  PIDParameter (kp r) (ki r) (kd r) (kf r) x (k_pre r) (target_limit r) (bias_limit r) (bias_dead_zone r) (bias_for_integral r) (integral_limit r) (out_limit r) (k r) (out r) (target r) (present r) (predict r).
Definition set_k_pre (x : F) (r : PID_Parameter) : PID_Parameter :=
  PIDParameter (kp r) (ki r) (kd r) (kf r) (kd_ r) x (target_limit r) (bias_limit r) (bias_dead_zone r) (bias_for_integral r) (integral_limit r) (out_limit r) (k r) (out r) (target r) (present r) (predict r).
Definition set_target_limit (x : F) (r : PID_Parameter) : PID_Parameter :=
  PIDParameter (kp r) (ki r) (kd r) (kf r) (kd_ r) (k_pre r) x (bias_limit r) (bias_dead_zone r) (bias_for_integral r) (integral_limit r) (out_limit r) (k r) (out r) (target r) (present r) (predict r).
Definition set_bias_limit (x : F) (r : PID_Parameter) : PID_Parameter :=
  PIDParameter (kp r) (ki r) (kd r) (kf r) (kd_ r) (k_pre r) (target_limit r) x (bias_dead_zone r) (bias_for_integral r) (integral_limit r) (out_limit r) (k r) (out r) (target r) (present r) (predict r).
Definition set_bias_dead_zone (x : F) (r : PID_Parameter) : PID_Parameter :=
  PIDParameter (kp r) (ki r) (kd r) (kf r) (kd_ r) (k_pre r) (target_limit r) (bias_limit r) x (bias_for_integral r) (integral_limit r) (out_limit r) (k r) (out r) (target r) (present r) (predict r).
Definition set_bias_for_integral (x : F) (r : PID_Parameter) : PID_Parameter :=
  PIDParameter (kp r) (ki r) (kd r) (kf r) (kd_ r) (k_pre r) (target_limit r) (bias_limit r) (bias_dead_zone r) x (integral_limit r) (out_limit r) (k r) (out r) (target r) (present r) (predict r).
Definition set_integral_limit (x : F) (r : PID_Parameter) : PID_Parameter :=
  PIDParameter (kp r) (ki r) (kd r) (kf r) (kd_ r) (k_pre r) (target_limit r) (bias_limit r) (bias_dead_zone r) (bias_for_integral r) x (out_limit r) (k r) (out r) (target r) (present r) (predict r).
Definition set_out_limit (x : F) (r : PID_Parameter) : PID_Parameter :=
  PIDParameter (kp r) (ki r) (kd r) (kf r) (kd_ r) (k_pre r) (target_limit r) (bias_limit r) (bias_dead_zone r) (bias_for_integral r) (integral_limit r) x (k r) (out r) (target r) (present r) (predict r).
Definition set_out (x : F) (r : PID_Parameter) : PID_Parameter :=
  PIDParameter (kp r) (ki r) (kd r) (kf r) (kd_ r) (k_pre r) (target_limit r) (bias_limit r) (bias_dead_zone r) (bias_for_integral r) (integral_limit r) (out_limit r) (k r) x (target r) (present r) (predict r).
Definition set_target (x : F) (r : PID_Parameter) : PID_Parameter :=
  PIDParameter (kp r) (ki r) (kd r) (kf r) (kd_ r) (k_pre r) (target_limit r) (bias_limit r) (bias_dead_zone r) (bias_for_integral r) (integral_limit r) (out_limit r) (k r) (out r) x (present r) (predict r).
Definition set_present (x : F) (r : PID_Parameter) : PID_Parameter :=
  PIDParameter (kp r) (ki r) (kd r) (kf r) (kd_ r) (k_pre r) (target_limit r) (bias_limit r) (bias_dead_zone r) (bias_for_integral r) (integral_limit r) (out_limit r) (k r) (out r) (target r) x (predict r).
Definition set_predict (x : F) (r : PID_Parameter) : PID_Parameter :=
  PIDParameter (kp r) (ki r) (kd r) (kf r) (kd_ r) (k_pre r) (target_limit r) (bias_limit r) (bias_dead_zone r) (bias_for_integral r) (integral_limit r) (out_limit r) (k r) (out r) (target r) (present r) x.
Definition set_bias (x : F) (r : PID_Process) : PID_Process :=
  PIDProcess x (integral_bias r) (differential_bias r) (lpf_differential_bias r) (feedforward r) (pr_predict r) (last_target r) (last_bias r) (lastlast_bias r).
Definition set_integral_bias (x : F) (r : PID_Process) : PID_Process :=
  PIDProcess (bias r) x (differential_bias r) (lpf_differential_bias r) (feedforward r) (pr_predict r) (last_target r) (last_bias r) (lastlast_bias r).
Definition set_differential_bias (x : F) (r : PID_Process) : PID_Process :=
  PIDProcess (bias r) (integral_bias r) x (lpf_differential_bias r) (feedforward r) (pr_predict r) (last_target r) (last_bias r) (lastlast_bias r).
Definition set_lpf_differential_bias (x : F) (r : PID_Process) : PID_Process :=
  PIDProcess (bias r) (integral_bias r) (differential_bias r) x (feedforward r) (pr_predict r) (last_target r) (last_bias r) (lastlast_bias r).
Definition set_feedforward (x : F) (r : PID_Process) : PID_Process :=
  PIDProcess (bias r) (integral_bias r) (differential_bias r) (lpf_differential_bias r) x (pr_predict r) (last_target r) (last_bias r) (lastlast_bias r).
Definition set_pr_predict (x : F) (r : PID_Process) : PID_Process :=
  PIDProcess (bias r) (integral_bias r) (differential_bias r) (lpf_differential_bias r) (feedforward r) x (last_target r) (last_bias r) (lastlast_bias r).
Definition set_last_target (x : F) (r : PID_Process) : PID_Process :=
  PIDProcess (bias r) (integral_bias r) (differential_bias r) (lpf_differential_bias r) (feedforward r) (pr_predict r) x (last_bias r) (lastlast_bias r).
Definition set_last_bias (x : F) (r : PID_Process) : PID_Process :=
  PIDProcess (bias r) (integral_bias r) (differential_bias r) (lpf_differential_bias r) (feedforward r) (pr_predict r) (last_target r) x (lastlast_bias r).
Definition set_lastlast_bias (x : F) (r : PID_Process) : PID_Process :=
  PIDProcess (bias r) (integral_bias r) (differential_bias r) (lpf_differential_bias r) (feedforward r) (pr_predict r) (last_target r) (last_bias r) x.
Definition set_flag (x : ALL_PID_Flag) (r : apid_t) : apid_t :=
  Apid x (parameter r) (process r) (cycle r) (handle r) (i_handle r) (d_handle r).
Definition set_parameter (x : PID_Parameter) (r : apid_t) : apid_t :=
  Apid (flag r) x (process r) (cycle r) (handle r) (i_handle r) (d_handle r).
Definition set_process (x : PID_Process) (r : apid_t) : apid_t :=
  Apid (flag r) (parameter r) x (cycle r) (handle r) (i_handle r) (d_handle r).
Definition set_cycle (x : F) (r : apid_t) : apid_t :=
  Apid (flag r) (parameter r) (process r) x (handle r) (i_handle r) (d_handle r).
Definition set_handle (x : option ()) (r : apid_t) : apid_t :=
  Apid (flag r) (parameter r) (process r) (cycle r) x (i_handle r) (d_handle r).
Definition set_i_handle (x : option i_handler) (r : apid_t) : apid_t :=
  Apid (flag r) (parameter r) (process r) (cycle r) (handle r) x (d_handle r).
Definition set_d_handle (x : option d_handler) (r : apid_t) : apid_t :=
  Apid (flag r) (parameter r) (process r) (cycle r) (handle r) (i_handle r) x.

Definition on_flag (f : ALL_PID_Flag -> ALL_PID_Flag) (p : apid_t) : apid_t := set_flag (f (flag p)) p.
Definition on_par (f : PID_Parameter -> PID_Parameter) (p : apid_t) : apid_t :=
  set_parameter (f (parameter p)) p.
Definition on_proc (f : PID_Process -> PID_Process) (p : apid_t) : apid_t :=
  set_process (f (process p)) p.

(** ** Switches and filters *)
Definition APID_Pause : apid_t -> apid_t := on_flag (set_run_status PAUSE).
Definition APID_STOP : apid_t -> apid_t := on_flag (set_run_status STOP).
Definition APID_Enable (p : apid_t) : apid_t :=
  on_flag (set_run_status PID_ENABLE) (on_par (set_target (present (parameter p))) p).

Definition FOLowPassFilter (In LastOut a : F) : F := (a * In + (1 - a) * LastOut)%F.
Definition ABS (x : F) : F := if (x >? 0)%F then x else (- x)%F.

(** ** Integral handlers *)
Section handlers.
Variable p : apid_t.
Let b := bias (process p).
Let b1 := last_bias (process p).
Let b2 := lastlast_bias (process p).
Let ib := integral_bias (process p).
Let c := cycle p.
Let par := parameter p.

Definition put_integral (x : F) : apid_t := on_proc (set_integral_bias x) p.

(** The same assignment twice. *)
Definition i_handle_Increment_Normal : apid_t := put_integral (b * c)%F.
Definition i_handle_Increment_Separation : apid_t :=
  if (b >? bias_for_integral par)%F || (b <? - bias_for_integral par)%F then p
  else put_integral (b * c)%F.
Definition i_handle_Increment_Saturation : apid_t :=
  if (ib * ki par >? integral_limit par)%F then put_integral (integral_limit par / ki par)%F
  else if (ib * ki par <? - integral_limit par)%F then put_integral (- integral_limit par / ki par)%F
  else put_integral (b * c)%F.
Definition i_handle_Increment_Speed : apid_t :=
  put_integral ((b + b1) / (2 * c) - (b - b1) * c)%F.
Definition i_handle_Increment_Trapeziod : apid_t := put_integral ((b + b1) / (2 * c))%F.

(** [+=] twice. *)
Definition i_handle_Position_Normal : apid_t := put_integral (ib + b * c + b * c)%F.
Definition i_handle_Position_Separation : apid_t :=
  if (b >? bias_for_integral par)%F || (b <? - bias_for_integral par)%F then p
  else put_integral (ib + b * c)%F.
Definition i_handle_Position_Saturation : apid_t :=
  if (ib * ki par >? integral_limit par)%F then put_integral (integral_limit par)
  else if (ib * ki par <? - integral_limit par)%F then put_integral (- integral_limit par)%F
  else put_integral (ib + b * c)%F.
Definition i_handle_Position_Speed : apid_t :=
  put_integral (ib + (b + b1) / (2 * c) - (b - b1) * c)%F.
Definition i_handle_Position_Trapeziod : apid_t := put_integral (ib + (b + b1) / (2 * c))%F.

Definition call_i (h : i_handler) : apid_t :=
  match ih_mode h, ih_way h with
  | PID_INCREMENT, PID_INTEGRAL_NORMAL => i_handle_Increment_Normal
  | PID_INCREMENT, PID_INTEGRAL_SEPARATION => i_handle_Increment_Separation
  | PID_INCREMENT, PID_INTEGRAL_SATURATION => i_handle_Increment_Saturation
  | PID_INCREMENT, PID_INTEGRAL_SPEED => i_handle_Increment_Speed
  | PID_INCREMENT, PID_INTEGRAL_TRAPEZIOD => i_handle_Increment_Trapeziod
  | PID_POSITION, PID_INTEGRAL_NORMAL => i_handle_Position_Normal
  | PID_POSITION, PID_INTEGRAL_SEPARATION => i_handle_Position_Separation
  | PID_POSITION, PID_INTEGRAL_SATURATION => i_handle_Position_Saturation
  | PID_POSITION, PID_INTEGRAL_SPEED => i_handle_Position_Speed
  | PID_POSITION, PID_INTEGRAL_TRAPEZIOD => i_handle_Position_Trapeziod
  end.

(** ** Differential handlers *)
Definition put_differential (x : F) : apid_t :=
  on_proc (fun r => set_lpf_differential_bias x (set_differential_bias x r)) p.

Definition d_handle_Increment_Complete : apid_t := put_differential (b - 2 * b1 + b2)%F.
Definition d_handle_Increment_Part : apid_t :=
  put_differential (FOLowPassFilter (b - 2 * b1 + b2)%F (lpf_differential_bias (process p)) (kd_ par)).
Definition d_handle_Increment_Previous : apid_t :=
  put_differential ((b - 2 * b1 + b2) - kd_ par * (target par - last_target (process p)))%F.
Definition d_handle_Position_Complete : apid_t := put_differential (b - b1)%F.
Definition d_handle_Position_Part : apid_t :=
  put_differential (FOLowPassFilter (b - b1)%F (lpf_differential_bias (process p)) (kd_ par)).
Definition d_handle_Position_Previous : apid_t :=
  put_differential ((b - b1) - kd_ par * (target par - last_target (process p)))%F.

Definition call_d (h : d_handler) : apid_t :=
  match dh_mode h, dh_way h with
  | PID_INCREMENT, PID_DIFFERENTIAL_COMPLETE => d_handle_Increment_Complete
  | PID_INCREMENT, PID_DIFFERENTIAL_PART => d_handle_Increment_Part
  | PID_INCREMENT, PID_DIFFERENTIAL_PREVIOUS => d_handle_Increment_Previous
  | PID_POSITION, PID_DIFFERENTIAL_COMPLETE => d_handle_Position_Complete
  | PID_POSITION, PID_DIFFERENTIAL_PART => d_handle_Position_Part
  | PID_POSITION, PID_DIFFERENTIAL_PREVIOUS => d_handle_Position_Previous
  end.

(** ** Output *)
Definition pid_sum : F :=
  (kp par * b + ki par * ib + kd par * lpf_differential_bias (process p) / c
   + feedforward (process p))%F.

Definition __PID_Out : apid_t :=
  let out := pid_sum in
  let out := if (out_limit par >=? 0)%F then
         if (out >? out_limit par)%F then out_limit par
         else if (out <? - out_limit par)%F then (- out_limit par)%F else out
       else out in
  on_proc (fun r => set_last_bias (bias r) (set_lastlast_bias (last_bias r)
                (set_last_target (target par) r)))
  (on_par (set_out out) p).

(** The tail of [__OPERATE_STATUS]. *)
Definition not_running : apid_t :=
  let out := if run_status (flag p) =? STOP then 0%F else target par in
  on_proc (fun r => PIDProcess 0%F 0%F 0%F 0%F 0%F (pr_predict r) 0%F 0%F 0%F)
  (on_par (fun q => set_predict 0%F (set_present 0%F (set_out out q))) p).

(** The bias of this step, after the dead zone and the limit. *)
Definition temp_bias (predicted : F) : F :=
  let t := (target par - present par - predicted)%F in
  let t := if (bias_dead_zone par >? 0)%F then
       if (t <? bias_dead_zone par)%F && (t >? - bias_dead_zone par)%F then 0%F else t
     else t in
  if (bias_limit par >? 0)%F then
  let t := if (t >? bias_limit par)%F then bias_limit par else t in
  if (t <? - bias_limit par)%F then (- bias_limit par)%F else t
  else t.
End handlers.

Definition _PID_Hander (p : apid_t) (cyc : F) : outcome apid_t :=
  let p := set_cycle cyc p in
  if negb (run_status (flag p) =? PID_ENABLE) then Done (not_running p)
  else
  let lim := target_limit (parameter p) in
  let t := target (parameter p) in
  let p := if (t >? lim)%F then on_par (set_target lim) p
       else if (t <? - lim)%F then on_par (set_target (- lim)%F) p else p in
  let par := parameter p in
  let predicted := (k_pre par * predict par * ABS (predict par))%F in
  let p := on_proc (fun r => set_pr_predict predicted (set_feedforward (kf par * target par)%F r)) p in
  let p := on_proc (set_bias (temp_bias p predicted)) p in
  match i_handle p with
  | None => Fault NullDeref
  | Some h =>
  let p := call_i p h in
  match d_handle p with
  | None => Fault NullDeref
  | Some h => Done (__PID_Out (call_d p h))
  end
  end.

Definition APID_Hander (p : apid_t) (cyc : F) : outcome apid_t :=
  match handle p with None => Fault NullDeref | Some _ => _PID_Hander p cyc end.

(** ** Configuration *)
Definition APID_Reset (p : apid_t) : apid_t :=
  let neg1 := f_of_Z (- 1) in
  on_proc (fun r => PIDProcess 0%F 0%F 0%F 0%F 0%F (pr_predict r) 0%F 0%F 0%F)
  (on_par (fun q => PIDParameter 0%F 0%F 0%F 0%F 0%F 0%F f_flt_max neg1 neg1 neg1 neg1 f_flt_max
                  (k q) 0%F 0%F 0%F 0%F)
   (on_flag (set_run_status PID_ENABLE) p)).

Definition APID_Init (p : apid_t) (mode : ALL_PID_Mode) (kp ki kd : F) : apid_t :=
  let p := on_flag (set_pid_mode mode) (APID_Reset p) in
  let p := set_handle (Some ()) p in
  let p := set_i_handle (Some (IHandle mode PID_INTEGRAL_NORMAL)) p in
  let p := set_d_handle (Some (DHandle mode PID_DIFFERENTIAL_COMPLETE)) p in
  on_par (fun q => set_kd kd (set_ki ki (set_kp kp q))) p.

(** The variadic argument of the two mode setters. *)
Inductive va_list := VNone | VDouble (x : F) | VFunction.

Definition APID_SET_I_Function (p : apid_t) (imode : ALL_PID_I_Function) (ap : va_list) : outcome apid_t :=
  let p := on_flag (set_integral_way imode) p in
  let p := set_i_handle (Some (IHandle (pid_mode (flag p)) imode)) p in
  match imode, ap with
  | PID_INTEGRAL_NORMAL, _ | PID_INTEGRAL_TRAPEZIOD, _ => Done p
  | PID_INTEGRAL_SEPARATION, VDouble x => Done (on_par (set_bias_for_integral x) p)
  | PID_INTEGRAL_SATURATION, VDouble x => Done (on_par (set_integral_limit x) p)
  | PID_INTEGRAL_SPEED, VFunction => Done p
  | _, _ => Fault Undefined
  end.

(** [va_start] stands in a comment: [va_arg] reads an uninitialised list. *)
Definition APID_SET_D_Function (p : apid_t) (dmode : ALL_PID_D_Function) (ap : va_list) : outcome apid_t :=
  let p := on_flag (set_differential_way dmode) p in
  let p := set_d_handle (Some (DHandle (pid_mode (flag p)) dmode)) p in
  match dmode with
  | PID_DIFFERENTIAL_COMPLETE => Done p
  | PID_DIFFERENTIAL_PART | PID_DIFFERENTIAL_PREVIOUS => Fault Undefined
  end.

Definition APID_Set_Integral_Limit (p : apid_t) (value : F) : outcome apid_t :=
  match integral_way (flag p) with
  | PID_INTEGRAL_SATURATION => Done (on_par (set_integral_limit value) p)
  | _ => APID_SET_I_Function p PID_INTEGRAL_SATURATION (VDouble value)
  end.

Definition APID_Set_Target_Limit (p : apid_t) (value : F) : apid_t := on_par (set_target_limit value) p.
Definition APID_Set_Bias_Limit (p : apid_t) (value : F) : apid_t := on_par (set_bias_limit value) p.
Definition APID_Set_Bias_Dead_Zone (p : apid_t) (value : F) : apid_t := on_par (set_bias_dead_zone value) p.
Definition APID_Set_Out_Limit (p : apid_t) (value : F) : apid_t := on_par (set_out_limit value) p.
Definition APID_Set_Feedforward (p : apid_t) (value : F) : apid_t := on_par (set_kf value) p.
Definition APID_Set_KPre (p : apid_t) (value : F) : apid_t := on_par (set_k_pre value) p.
Definition APID_Set_Target (p : apid_t) (value : F) : apid_t := on_par (set_target value) p.
Definition APID_Set_Present (p : apid_t) (value : F) : apid_t := on_par (set_present value) p.
Definition APID_Set_Predict (p : apid_t) (value : F) : apid_t := on_par (set_predict value) p.
Definition APID_Get_Out (p : apid_t) : F := out (parameter p).
Definition APID_Get_Target (p : apid_t) : F := target (parameter p).
Definition APID_Get_Present (p : apid_t) : F := present (parameter p).
Definition APID_Get_Predict (p : apid_t) : F := predict (parameter p).
Definition APID_Get_Target_Limit (p : apid_t) : F := target_limit (parameter p).
Definition APID_Get_Bias_Limit (p : apid_t) : F := bias_limit (parameter p).
Definition APID_Get_Bias_Dead_Zone (p : apid_t) : F := bias_dead_zone (parameter p).
Definition APID_Get_Integral_Limit (p : apid_t) : F := integral_limit (parameter p).
Definition APID_Get_Out_Limit (p : apid_t) : F := out_limit (parameter p).
Definition APID_Get_Feedforward (p : apid_t) : F := kf (parameter p).
Definition APID_Get_KPre (p : apid_t) : F := k_pre (parameter p).
End apid.
Arguments ALL_PID_Flag : clear implicits.
Arguments PID_Parameter F : clear implicits.
Arguments PID_Process F : clear implicits.
Arguments apid_t F : clear implicits.
Arguments va_list F : clear implicits.

(** ** Running a controller *)
Section run.
Context {F : Type} `{FloatOps F}.

(** One control period of the callers: set the target and the measurement, step. *)
Definition drive (p : apid_t F) (s : F * F * F) : outcome (apid_t F) :=
  APID_Hander (APID_Set_Present (APID_Set_Target p s.1.1) s.1.2) s.2.

Fixpoint drive_all (p : apid_t F) (ss : list (F * F * F)) : outcome (apid_t F) :=
  match ss with
  | [] => Done p
  | s :: ss => p ← drive p s; drive_all p ss
  end.

Lemma drive_all_app p ss1 ss2 : drive_all p (ss1 ++ ss2) = (p ← drive_all p ss1; drive_all p ss2).
Proof.
  revert p. induction ss1 as [|s ss1 IH]; intros p; [done|]. cbn.
  destruct (drive p s); [apply IH|done].
Qed.

(** What the handlers leave alone. *)
Lemma call_i_frame p h :
  parameter (call_i p h) = parameter p /\ flag (call_i p h) = flag p /\
  i_handle (call_i p h) = i_handle p /\ d_handle (call_i p h) = d_handle p /\
  handle (call_i p h) = handle p.
Proof.
  destruct h as [[] []]; cbn;
  unfold i_handle_Increment_Separation, i_handle_Increment_Saturation,
  i_handle_Position_Separation, i_handle_Position_Saturation; repeat case_match; done.
Qed.

Lemma call_d_frame p h :
  parameter (call_d p h) = parameter p /\ flag (call_d p h) = flag p /\
  i_handle (call_d p h) = i_handle p /\ d_handle (call_d p h) = d_handle p /\
  handle (call_d p h) = handle p /\
  integral_bias (process (call_d p h)) = integral_bias (process p).
Proof. by destruct h as [[] []]. Qed.

Lemma pid_out_frame p :
  flag (__PID_Out p) = flag p /\ i_handle (__PID_Out p) = i_handle p /\
  d_handle (__PID_Out p) = d_handle p /\ handle (__PID_Out p) = handle p /\
  integral_bias (process (__PID_Out p)) = integral_bias (process p) /\
  ki (parameter (__PID_Out p)) = ki (parameter p) /\
  integral_limit (parameter (__PID_Out p)) = integral_limit (parameter p) /\
  target (parameter (__PID_Out p)) = target (parameter p) /\
  target_limit (parameter (__PID_Out p)) = target_limit (parameter p) /\
  out_limit (parameter (__PID_Out p)) = out_limit (parameter p).
Proof. done. Qed.
End run.

(** C14: For every configuration and any float arithmetic with a lawful order, binary32
    included, a control step that is enabled leaves the output within a nonnegative
    out_limit and the target within a nonnegative target_limit (a NaN passes); a stopped
    controller outputs 0 and a paused one its target. *)
Theorem apid_out_within `{FloatLaws F} (p : apid_t F) cyc p' :
  _PID_Hander p cyc = Done p' ->
  let par := parameter p' in
  match run_status (flag p) with
  | 1 => ((0 <=? out_limit par)%F = true -> f_within (out_limit par) (out par)) /\
         ((0 <=? target_limit par)%F = true -> f_within (target_limit par) (target par))
  | 0 => out par = 0%F
  | _ => out par = target (parameter p)
  end.
Proof.
  unfold _PID_Hander. cbv zeta. cbn [flag set_cycle].
  destruct (Z.eqb_spec (run_status (flag p)) PID_ENABLE) as [->|Hne]; cbn [negb].
  - set (p0 := if (_ <? target _)%F then _ else _).
    assert ((0 <=? target_limit (parameter p0))%F = true ->
      f_within (target_limit (parameter p0)) (target (parameter p0))) as Ht.
    { intros Hl. pose proof (f_clamp_within (target_limit (parameter p)) (target (parameter p))) as Hc.
      unfold f_clamp in Hc. unfold p0 in *. cbn [parameter set_cycle] in *.
      destruct (f_ltb _ _); [by apply Hc|]. destruct (f_ltb _ _); by apply Hc. }
    clearbody p0. cbn [i_handle on_proc set_process].
    destruct (i_handle p0) as [hi|]; [|done].
    match goal with |- context [call_i ?q hi] => set (p1 := q) end.
    destruct (call_i_frame p1 hi) as (Hp1 & _ & _ & _ & _).
    destruct (d_handle (call_i p1 hi)) as [hd|]; [|done]. intros [= <-].
    destruct (call_d_frame (call_i p1 hi) hd) as (Hp2 & _).
    set (p2 := call_d _ hd) in *. rewrite Hp1 in Hp2. clearbody p2.
    split; cbn; rewrite ?Hp2; [|done]. intros Hl.
    rewrite Hl. apply (f_clamp_within _ (pid_sum p2) Hl).
  - intros [= <-]. unfold not_running. cbn. unfold PID_ENABLE, STOP in *.
    destruct (Z.eqb_spec (run_status (flag p)) 0) as [->|Hs]; [done|].
    destruct (run_status (flag p)) as [|[]|]; done.
Qed.

Lemma pid_out_clamps `{FloatLaws F} (p : apid_t F) : (0 <=? out_limit (parameter p))%F = true ->
  out (parameter (__PID_Out p)) = f_clamp (out_limit (parameter p)) (pid_sum p).
Proof. intros Hl. cbn. by rewrite Hl. Qed.

(** ** The controller as a formula, in exact arithmetic *)
Section closed_form.
Open Scope Qc_scope.
Context (mode : ALL_PID_Mode) (kp ki kd : Qc).
Implicit Types (p : apid_t Qc) (s : Qc * Qc * Qc).

Definition flt_max : Qc := f_flt_max.
Definition err s : Qc := s.1.1 - s.1.2.
(** The error [n] samples ago, 0 before the first; the latest sample comes first. *)
Definition err_at (hist : list (Qc * Qc * Qc)) (n : nat) : Qc := default 0 (err <$> hist !! n).
Definition integral (hist : list (Qc * Qc * Qc)) : Qc :=
  foldr (fun s acc => acc + (1 + 1) * (err s * s.2)) 0 hist.

Definition pid_formula (hist : list (Qc * Qc * Qc)) : Qc :=
  match hist with
  | [] => 0
  | s :: _ =>
  match mode with
  | PID_POSITION =>
  kp * err s + ki * integral hist + kd * (err s - err_at hist 1) / s.2
  | PID_INCREMENT =>
  kp * err s + ki * (err s * s.2)
  + kd * (err s - (1 + 1) * err_at hist 1 + err_at hist 2) / s.2
  end
  end.

Lemma integral_cons s hist : integral (s :: hist) = integral hist + (1 + 1) * (err s * s.2).
Proof. done. Qed.

(** The controller after the samples [hist]. *)
Definition tracks p (hist : list (Qc * Qc * Qc)) : Prop :=
  handle p = Some () /\ run_status (flag p) = PID_ENABLE /\
  i_handle p = Some (IHandle mode PID_INTEGRAL_NORMAL) /\
  d_handle p = Some (DHandle mode PID_DIFFERENTIAL_COMPLETE) /\
  last_bias (process p) = err_at hist 0 /\ lastlast_bias (process p) = err_at hist 1 /\
  (mode = PID_POSITION -> integral_bias (process p) = integral hist) /\
  exists kk o t x,
  parameter p = PIDParameter kp ki kd 0 0 0 flt_max (f_of_Z (-1)) (f_of_Z (-1)) (f_of_Z (-1))
              (f_of_Z (-1)) flt_max kk o t x 0.

Lemma tracks_init p0 : tracks (APID_Init p0 mode kp ki kd) [].
Proof. repeat split. by repeat eexists. Qed.

Lemma two_qc : (2%F : Qc) = 1 + 1.
Proof. by apply Qc_is_canon. Qed.
Lemma one_qc : (1%F : Qc) = 1.
Proof. by apply Qc_is_canon. Qed.

Lemma clamped_target (t : Qc) (p : apid_t Qc) : f_within flt_max t ->
  target (parameter p) = t -> target_limit (parameter p) = flt_max ->
  (if (target_limit (parameter p) <? target (parameter p))%F
   then on_par (set_target (target_limit (parameter p))) p
   else if (target (parameter p) <? - target_limit (parameter p))%F
    then on_par (set_target (- target_limit (parameter p))%F) p else p) = p.
Proof. intros [H1 H2] -> ->. by rewrite H1, H2. Qed.

Lemma tracks_drive p hist s : tracks p hist -> f_within flt_max s.1.1 ->
  exists p', drive p s = Done p' /\ tracks p' (s :: hist) /\
         out (parameter p') = f_clamp flt_max (pid_formula (s :: hist)).
Proof.
  destruct p as [fl par proc cyc hd ih dh], s as [[t x] c]. cbn [fst snd].
  intros (Hh & Hrun & Hih & Hdh & Hb1 & Hb2 & Hint & kk & o & t0 & x0 & Hpar) Hw.
  cbn [handle flag i_handle d_handle process parameter] in *. subst hd ih dh par.
  set (q := Apid fl (PIDParameter kp ki kd 0 0 0 flt_max (f_of_Z (-1)) (f_of_Z (-1)) (f_of_Z (-1))
    (f_of_Z (-1)) flt_max kk o t x 0) proc c (Some ()) (Some (IHandle mode PID_INTEGRAL_NORMAL))
    (Some (DHandle mode PID_DIFFERENTIAL_COMPLETE))).
  unfold drive, APID_Hander, _PID_Hander. cbn [handle fst snd].
  change (set_cycle c _) with q. cbv zeta. rewrite (clamped_target t q Hw) by done.
  unfold q at 1. cbn [flag]. rewrite Hrun. change (negb _) with false. cbn match.
  match goal with |- context [temp_bias ?r ?k] =>
    assert (temp_bias r k = t - x) as -> end.
  { unfold temp_bias. cbn -[Qcmult Qcminus f_ltb f_of_Z ABS].
    change ((0 <? f_of_Z (-1))%F : bool) with false. cbn match.
    ring. }
  unfold q. cbn [i_handle d_handle on_proc set_process].
  change (k_pre _) with (0 : Qc). change (kf _) with (0 : Qc).
  assert ((0 * target (parameter q))%F = 0) as Hff by (apply Qcmult_0_l).
  unfold tracks, pid_formula. destruct mode; cbn [call_i call_d ih_mode ih_way dh_mode dh_way];
    (eexists; split; [reflexivity|]; split;
    [ split_and!; try done;
    first [by repeat eexists
    | intros Hm; rewrite integral_cons, <- (Hint Hm);
    change (integral_bias proc + (t - x) * c + (t - x) * c
    = integral_bias proc + (1 + 1) * ((t - x) * c)); ring ]
    | rewrite pid_out_clamps by done; f_equal ]).
  - transitivity (kp * (t - x) + ki * (integral_bias proc + (t - x) * c + (t - x) * c)
    + kd * (t - x - last_bias proc) / c + 0 * t); [reflexivity|].
    rewrite integral_cons, <- (Hint eq_refl), Hb1. change (err (t, x, c)) with (t - x).
    change (err_at (_ :: hist) 1) with (err_at hist 0). cbn [snd]. unfold Qcdiv. ring.
  - transitivity (kp * (t - x) + ki * ((t - x) * c)
    + kd * (t - x - 2%F * last_bias proc + lastlast_bias proc) / c + 0 * t); [reflexivity|].
    rewrite two_qc, Hb1, Hb2. change (err (t, x, c)) with (t - x).
    change (err_at (_ :: hist) 1) with (err_at hist 0).
    change (err_at (_ :: hist) 2) with (err_at hist 1). cbn [snd]. unfold Qcdiv. ring.
Qed.

Lemma drive_all_tracks ss p hist : tracks p hist -> Forall (fun s => f_within flt_max s.1.1) ss ->
  exists p', drive_all p ss = Done p' /\ tracks p' (rev ss ++ hist).
Proof.
  intros Hp Hss. revert p hist Hp. induction Hss as [|s ss Hs Hss IH]; intros p hist Hp; [by exists p|].
  destruct (tracks_drive p hist s Hp Hs) as (p1 & Hd & Hp1 & _).
  destruct (IH p1 (s :: hist) Hp1) as (p' & Hd' & Hp'). exists p'. cbn [drive_all rev].
  rewrite Hd. cbn [mbind outcome_bind]. by rewrite <- app_assoc.
Qed.
End closed_form.

(** C13: In exact arithmetic a controller from APID_Init, driven with any samples of
    targets and measurements, outputs after each the PID formula of the error history,
    clamped to FLT_MAX: position mode sums twice every error times its cycle, because
    the integral handler adds twice, and increment mode takes the error itself as its
    proportional part. *)
Theorem apid_computes_formula p0 mode kp ki kd ss s :
  Forall (fun s : Qc * Qc * Qc => f_within flt_max s.1.1 /\ s.2 <> 0%Qc) (ss ++ [s]) ->
  exists p', drive_all (APID_Init p0 mode kp ki kd) (ss ++ [s]) = Done p' /\
    APID_Get_Out p' = f_clamp flt_max (pid_formula mode kp ki kd (rev (ss ++ [s]))).
Proof.
  intros [Hss Hs]%Forall_app. apply Forall_singleton in Hs as [Hs _].
  assert (Forall (fun s : Qc * Qc * Qc => f_within flt_max s.1.1) ss) as Hss'
    by (eapply Forall_impl; [exact Hss|by intros ? []]).
  destruct (drive_all_tracks mode kp ki kd ss _ [] (tracks_init mode kp ki kd p0) Hss')
    as (p1 & Hd & Hp1).
  destruct (tracks_drive mode kp ki kd p1 _ s Hp1 Hs) as (p' & Hd' & _ & Ho).
  exists p'. rewrite drive_all_app, Hd. cbn [mbind outcome_bind drive_all]. rewrite Hd'.
  split; [done|]. unfold APID_Get_Out. by rewrite Ho, rev_app_distr, app_nil_r.
Qed.

(** ** The anti-windup of the position PID *)
Section windup.
Open Scope Qc_scope.
Implicit Types (p : apid_t Qc).

(** Saturated: the accumulated integral is beyond what the limit allows. *)
Definition saturated p : Prop :=
  handle p = Some () /\ run_status (flag p) = PID_ENABLE /\
  i_handle p = Some (IHandle PID_POSITION PID_INTEGRAL_SATURATION) /\ (exists h, d_handle p = Some h) /\
  0 < integral_limit (parameter p) /\ 1 < ki (parameter p) /\
  integral_limit (parameter p) < integral_bias (process p) * ki (parameter p).

Lemma saturated_drive p s : saturated p ->
  exists p', drive p s = Done p' /\ saturated p' /\
  integral_bias (process p') = integral_limit (parameter p) /\
  integral_limit (parameter p') = integral_limit (parameter p).
Proof.
  destruct p as [fl par proc cyc hd ih dh].
  intros (Hh & Hrun & Hih & [h Hdh] & Hlim & Hki & Hsat).
  cbn [handle flag i_handle d_handle process parameter] in *. subst hd ih dh.
  unfold drive, APID_Hander, _PID_Hander. cbn [handle fst snd flag]. cbv zeta.
  cbn [flag set_cycle]. cbn [flag APID_Set_Present APID_Set_Target on_par set_parameter].
  rewrite Hrun. change (negb _) with false. cbn match.
  set (p0 := if (_ <? target _)%F then _ else _).
  assert (flag p0 = fl /\ process p0 = proc /\ ki (parameter p0) = ki par /\
    integral_limit (parameter p0) = integral_limit par /\ handle p0 = Some () /\
    i_handle p0 = Some (IHandle PID_POSITION PID_INTEGRAL_SATURATION) /\ d_handle p0 = Some h)
    as (Hfl & Hpr & Hk & Hl & Hh & Hi & Hd) by (unfold p0; repeat case_match; done).
  clearbody p0. cbn [i_handle on_proc set_process]. rewrite Hi.
  match goal with |- context [call_i ?q _] => set (p1 := q) end.
  assert (call_i p1 (IHandle PID_POSITION PID_INTEGRAL_SATURATION)
    = put_integral p1 (integral_limit par)) as ->.
  { cbn [call_i ih_mode ih_way]. unfold i_handle_Position_Saturation.
    change (integral_bias (process p1)) with (integral_bias (process p0)).
    change (parameter p1) with (parameter p0). rewrite Hpr, Hk, Hl.
    rewrite (proj2 (qc_ltb_spec _ _)); [done|exact Hsat]. }
  set (p2 := put_integral _ _). change (d_handle p2) with (d_handle p0). rewrite Hd.
  destruct (call_d_frame p2 h) as (Hp3 & Hf3 & Hi3 & Hd3 & Hh3 & Hb3).
  set (p3 := call_d p2 h) in *. clearbody p3.
  destruct (pid_out_frame p3) as (Ef & Ei & Ed & Eh & Eb & Ek & El & _).
  exists (__PID_Out p3). split; [done|].
  assert (integral_bias (process (__PID_Out p3)) = integral_limit par) as Hib by (by rewrite Eb, Hb3).
  assert (integral_limit (parameter (__PID_Out p3)) = integral_limit par) as Hil
    by (by rewrite El, Hp3).
  assert (ki (parameter (__PID_Out p3)) = ki par) as Hik by (by rewrite Ek, Hp3).
  split_and!; [|done|done]. unfold saturated. rewrite Hib, Hil, Hik. split_and!; try done.
  - by rewrite Eh, Hh3.
  - rewrite Ef, Hf3. change (flag p2) with (flag p0). by rewrite Hfl.
  - by rewrite Ei, Hi3.
  - exists h. by rewrite Ed, Hd3.
  - rewrite <- (Qcmult_1_r (integral_limit par)) at 1. rewrite !(Qcmult_comm (integral_limit par)).
    by apply Qcmult_lt_compat_r.
Qed.
End windup.

(** With ki above 1, once the position integral times ki exceeds the limit, the
    anti-windup handler puts the integral at the limit, not the limit divided by ki, so
    the test keeps holding and the integral never moves again whatever the errors are.
    *)
Theorem apid_antiwindup_latches (p : apid_t Qc) s ss :
  saturated p -> exists p', drive_all p (s :: ss) = Done p' /\
    integral_bias (process p') = integral_limit (parameter p) /\ saturated p'.
Proof.
  revert p s. induction ss as [|s' ss IH]; intros p s Hp;
    destruct (saturated_drive p s Hp) as (p1 & Hd & Hp1 & Hb & Hl); cbn [drive_all];
    rewrite Hd; cbn [mbind outcome_bind]; [by exists p1|].
  destruct (IH p1 s' Hp1) as (p' & Hd' & Hb' & Hp'). exists p'. rewrite <- Hl. by split_and!.
Qed.

(** ** Witnesses *)

Definition blank_pid {F} `{FloatOps F} : apid_t F :=
  Apid (PIDFlag 0 PID_INTEGRAL_NORMAL PID_DIFFERENTIAL_COMPLETE PID_POSITION)
    (PIDParameter 0 0 0 0 0 0 0 0 0 0 0 0 0 0 0 0 0)%F (PIDProcess 0 0 0 0 0 0 0 0 0)%F 0%F None None None.

(** Gain 2 and an output limit of 10, in binary32: 200 is asked for, 10 comes out. *)
Lemma apid_out_within_witness :
  let p := APID_Set_Target (APID_Set_Out_Limit
             (APID_Init blank_pid PID_POSITION (f_of_Z 2 : f32) 0%F 0%F) (f_of_Z 10)) (f_of_Z 100) in
  exists p', _PID_Hander p (f_of_Z 1) = Done p' /\
    f_within (out_limit (parameter p')) (out (parameter p')).
Proof.
  intros p. destruct (_PID_Hander p (f_of_Z 1)) as [p'|] eqn:E; [|by vm_compute in E].
  pose proof (apid_out_within p (f_of_Z 1) p' E) as Hw. exists p'. split; [done|]. cbv zeta in Hw.
  vm_compute in E. injection E as <-. cbn [run_status flag] in Hw.
  apply (proj1 Hw). vm_compute. reflexivity.
Defined.

(** Two samples of a PI controller. *)
Lemma apid_computes_formula_witness :
  let s1 := (qc_of_Z 3, qc_of_Z 1, qc_of_Z 1) in
  exists p', drive_all (APID_Init blank_pid PID_POSITION (qc_of_Z 5) (qc_of_Z 1) 0%Qc) ([s1] ++ [s1])
    = Done p' /\ APID_Get_Out p' = qc_of_Z 18.
Proof.
  intros s1.
  destruct (apid_computes_formula blank_pid PID_POSITION (qc_of_Z 5) (qc_of_Z 1) 0%Qc [s1] s1)
    as (p' & Hd & Ho).
  { repeat constructor; by vm_compute. }
  exists p'. split; [exact Hd|]. rewrite Ho. apply Qc_is_canon. by vm_compute.
Defined.

(** Gain 2, limit 10, integral 6: one step puts the integral at 10, where it stays. *)
Lemma apid_antiwindup_latches_witness :
  let p := Apid (PIDFlag 1 PID_INTEGRAL_SATURATION PID_DIFFERENTIAL_COMPLETE PID_POSITION)
    (PIDParameter 0 (qc_of_Z 2) 0 0 0 0 (qc_of_Z 100) 0 0 0 (qc_of_Z 10) (qc_of_Z 100) 0 0 0 0 0)%Qc
    (PIDProcess 0 (qc_of_Z 6) 0 0 0 0 0 0 0)%Qc 0%Qc (Some ())
    (Some (IHandle PID_POSITION PID_INTEGRAL_SATURATION))
    (Some (DHandle PID_POSITION PID_DIFFERENTIAL_COMPLETE)) in
  exists p', drive_all p (replicate 3 (qc_of_Z (-50), 0%Qc, 1%Qc)) = Done p' /\
    integral_bias (process p') = qc_of_Z 10.
Proof.
  intros p.
  destruct (apid_antiwindup_latches p (qc_of_Z (-50), 0%Qc, 1%Qc)
    (replicate 2 (qc_of_Z (-50), 0%Qc, 1%Qc))) as (p' & Hd & Hb & _).
  { unfold saturated, Qclt. split_and!; try (by vm_compute). by eexists. }
  exists p'. by split.
Defined.
