(* ===== verification/Motor.v ===== *)
(** * [motor.c]: the motor abstraction

    A table of motors, each with targets, measurements, up to three PID
    controllers and a behaviour that cascades as many of them as the hardware
    lacks.  The hardware is behind two function pointers, [driver] and [control]:
    here the class [MotorOps] over an abstract device state, with the laws
    [MotorOpsLaws] that the driver component promises. *)
From S2P Require Import Prelude CFloat Apid.

Definition MOTOR_NUM : Z := 4.
Definition MOTOR_MODE_IDEL : Z := 0.
Definition MOTOR_MODE_TORQUE : Z := 1.
Definition MOTOR_MODE_SPEED : Z := 2.
Definition MOTOR_MODE_POS : Z := 3.
Definition MOTOR_MODE_TEMP : Z := 5.
Definition MOTOR_MODE_SAFETY_STOP : Z := 6.
Definition MOTOR_MODE_SAFETY_START : Z := 7.
Definition MOTOR_CONTROL_SUPPORT_NONE : Z := 0.
Definition MOTOR_CONTROL_SUPPORT_TORQUE : Z := 1.
Definition MOTOR_CONTROL_SUPPORT_SPEED : Z := 2.
Definition MOTOR_CONTROL_SUPPORT_POS : Z := 3.

Section motor.
Context {F : Type} `{FloatOps F}.

(** [ops] is the [user_data] of a non-null [ops]: the index of the device's
  record.  [behaver] is the number of the behaviour function.  The controllers
  are the anonymous objects of [motor_cfg.c], one per pointer. *)
Record motor := Motor {
  ops : option Z;
  id : Z;
  time : Z;
  pos_tick : Z;
  speed_tick : Z;
  torque_tick : Z;
  pid_speed : option (apid_t F);
  pid_pos : option (apid_t F);
  pid_torque : option (apid_t F);
  tar_speed : F;
  tar_pos : F;
  tar_torque : F;
  cur_speed : F;
  cur_pos : F;
  cur_torque : F;
  flag_run_mode : Z;
  flag_out_mode : Z;
  flag_accept_level : Z;
  flag_passive_feedback : bool;
  flag_is_stop : Z;
  behaver : option Z;
  acc_out : F;
}.

(** Assignments to one field. *)
Definition mset_id (x : Z) (m : motor) : motor :=
  Motor (ops m) x (time m) (pos_tick m) (speed_tick m) (torque_tick m) (pid_speed m) (pid_pos m) (pid_torque m) (tar_speed m) (tar_pos m) (tar_torque m) (cur_speed m) (cur_pos m) (cur_torque m) (flag_run_mode m) (flag_out_mode m) (flag_accept_level m) (flag_passive_feedback m) (flag_is_stop m) (behaver m) (acc_out m).
Definition mset_time (x : Z) (m : motor) : motor :=
  Motor (ops m) (id m) x (pos_tick m) (speed_tick m) (torque_tick m) (pid_speed m) (pid_pos m) (pid_torque m) (tar_speed m) (tar_pos m) (tar_torque m) (cur_speed m) (cur_pos m) (cur_torque m) (flag_run_mode m) (flag_out_mode m) (flag_accept_level m) (flag_passive_feedback m) (flag_is_stop m) (behaver m) (acc_out m).
Definition mset_pos_tick (x : Z) (m : motor) : motor :=
  Motor (ops m) (id m) (time m) x (speed_tick m) (torque_tick m) (pid_speed m) (pid_pos m) (pid_torque m) (tar_speed m) (tar_pos m) (tar_torque m) (cur_speed m) (cur_pos m) (cur_torque m) (flag_run_mode m) (flag_out_mode m) (flag_accept_level m) (flag_passive_feedback m) (flag_is_stop m) (behaver m) (acc_out m).
Definition mset_speed_tick (x : Z) (m : motor) : motor :=
  Motor (ops m) (id m) (time m) (pos_tick m) x (torque_tick m) (pid_speed m) (pid_pos m) (pid_torque m) (tar_speed m) (tar_pos m) (tar_torque m) (cur_speed m) (cur_pos m) (cur_torque m) (flag_run_mode m) (flag_out_mode m) (flag_accept_level m) (flag_passive_feedback m) (flag_is_stop m) (behaver m) (acc_out m).
Definition mset_torque_tick (x : Z) (m : motor) : motor :=
  Motor (ops m) (id m) (time m) (pos_tick m) (speed_tick m) x (pid_speed m) (pid_pos m) (pid_torque m) (tar_speed m) (tar_pos m) (tar_torque m) (cur_speed m) (cur_pos m) (cur_torque m) (flag_run_mode m) (flag_out_mode m) (flag_accept_level m) (flag_passive_feedback m) (flag_is_stop m) (behaver m) (acc_out m).
Definition mset_pid_speed (x : option (apid_t F)) (m : motor) : motor :=
  Motor (ops m) (id m) (time m) (pos_tick m) (speed_tick m) (torque_tick m) x (pid_pos m) (pid_torque m) (tar_speed m) (tar_pos m) (tar_torque m) (cur_speed m) (cur_pos m) (cur_torque m) (flag_run_mode m) (flag_out_mode m) (flag_accept_level m) (flag_passive_feedback m) (flag_is_stop m) (behaver m) (acc_out m).
Definition mset_pid_pos (x : option (apid_t F)) (m : motor) : motor :=
  Motor (ops m) (id m) (time m) (pos_tick m) (speed_tick m) (torque_tick m) (pid_speed m) x (pid_torque m) (tar_speed m) (tar_pos m) (tar_torque m) (cur_speed m) (cur_pos m) (cur_torque m) (flag_run_mode m) (flag_out_mode m) (flag_accept_level m) (flag_passive_feedback m) (flag_is_stop m) (behaver m) (acc_out m).
Definition mset_pid_torque (x : option (apid_t F)) (m : motor) : motor :=
  Motor (ops m) (id m) (time m) (pos_tick m) (speed_tick m) (torque_tick m) (pid_speed m) (pid_pos m) x (tar_speed m) (tar_pos m) (tar_torque m) (cur_speed m) (cur_pos m) (cur_torque m) (flag_run_mode m) (flag_out_mode m) (flag_accept_level m) (flag_passive_feedback m) (flag_is_stop m) (behaver m) (acc_out m).
Definition mset_tar_speed (x : F) (m : motor) : motor :=
  Motor (ops m) (id m) (time m) (pos_tick m) (speed_tick m) (torque_tick m) (pid_speed m) (pid_pos m) (pid_torque m) x (tar_pos m) (tar_torque m) (cur_speed m) (cur_pos m) (cur_torque m) (flag_run_mode m) (flag_out_mode m) (flag_accept_level m) (flag_passive_feedback m) (flag_is_stop m) (behaver m) (acc_out m).
Definition mset_tar_pos (x : F) (m : motor) : motor :=
  Motor (ops m) (id m) (time m) (pos_tick m) (speed_tick m) (torque_tick m) (pid_speed m) (pid_pos m) (pid_torque m) (tar_speed m) x (tar_torque m) (cur_speed m) (cur_pos m) (cur_torque m) (flag_run_mode m) (flag_out_mode m) (flag_accept_level m) (flag_passive_feedback m) (flag_is_stop m) (behaver m) (acc_out m).
Definition mset_tar_torque (x : F) (m : motor) : motor :=
  Motor (ops m) (id m) (time m) (pos_tick m) (speed_tick m) (torque_tick m) (pid_speed m) (pid_pos m) (pid_torque m) (tar_speed m) (tar_pos m) x (cur_speed m) (cur_pos m) (cur_torque m) (flag_run_mode m) (flag_out_mode m) (flag_accept_level m) (flag_passive_feedback m) (flag_is_stop m) (behaver m) (acc_out m).
Definition mset_cur_speed (x : F) (m : motor) : motor :=
  Motor (ops m) (id m) (time m) (pos_tick m) (speed_tick m) (torque_tick m) (pid_speed m) (pid_pos m) (pid_torque m) (tar_speed m) (tar_pos m) (tar_torque m) x (cur_pos m) (cur_torque m) (flag_run_mode m) (flag_out_mode m) (flag_accept_level m) (flag_passive_feedback m) (flag_is_stop m) (behaver m) (acc_out m).
Definition mset_cur_pos (x : F) (m : motor) : motor :=
  Motor (ops m) (id m) (time m) (pos_tick m) (speed_tick m) (torque_tick m) (pid_speed m) (pid_pos m) (pid_torque m) (tar_speed m) (tar_pos m) (tar_torque m) (cur_speed m) x (cur_torque m) (flag_run_mode m) (flag_out_mode m) (flag_accept_level m) (flag_passive_feedback m) (flag_is_stop m) (behaver m) (acc_out m).
Definition mset_cur_torque (x : F) (m : motor) : motor :=
  Motor (ops m) (id m) (time m) (pos_tick m) (speed_tick m) (torque_tick m) (pid_speed m) (pid_pos m) (pid_torque m) (tar_speed m) (tar_pos m) (tar_torque m) (cur_speed m) (cur_pos m) x (flag_run_mode m) (flag_out_mode m) (flag_accept_level m) (flag_passive_feedback m) (flag_is_stop m) (behaver m) (acc_out m).
Definition mset_flag_run_mode (x : Z) (m : motor) : motor :=
  Motor (ops m) (id m) (time m) (pos_tick m) (speed_tick m) (torque_tick m) (pid_speed m) (pid_pos m) (pid_torque m) (tar_speed m) (tar_pos m) (tar_torque m) (cur_speed m) (cur_pos m) (cur_torque m) x (flag_out_mode m) (flag_accept_level m) (flag_passive_feedback m) (flag_is_stop m) (behaver m) (acc_out m).
Definition mset_flag_out_mode (x : Z) (m : motor) : motor :=
  Motor (ops m) (id m) (time m) (pos_tick m) (speed_tick m) (torque_tick m) (pid_speed m) (pid_pos m) (pid_torque m) (tar_speed m) (tar_pos m) (tar_torque m) (cur_speed m) (cur_pos m) (cur_torque m) (flag_run_mode m) x (flag_accept_level m) (flag_passive_feedback m) (flag_is_stop m) (behaver m) (acc_out m).
Definition mset_flag_passive_feedback (x : bool) (m : motor) : motor :=
  Motor (ops m) (id m) (time m) (pos_tick m) (speed_tick m) (torque_tick m) (pid_speed m) (pid_pos m) (pid_torque m) (tar_speed m) (tar_pos m) (tar_torque m) (cur_speed m) (cur_pos m) (cur_torque m) (flag_run_mode m) (flag_out_mode m) (flag_accept_level m) x (flag_is_stop m) (behaver m) (acc_out m).
Definition mset_flag_is_stop (x : Z) (m : motor) : motor :=
  Motor (ops m) (id m) (time m) (pos_tick m) (speed_tick m) (torque_tick m) (pid_speed m) (pid_pos m) (pid_torque m) (tar_speed m) (tar_pos m) (tar_torque m) (cur_speed m) (cur_pos m) (cur_torque m) (flag_run_mode m) (flag_out_mode m) (flag_accept_level m) (flag_passive_feedback m) x (behaver m) (acc_out m).
Definition mset_behaver (x : option Z) (m : motor) : motor :=
  Motor (ops m) (id m) (time m) (pos_tick m) (speed_tick m) (torque_tick m) (pid_speed m) (pid_pos m) (pid_torque m) (tar_speed m) (tar_pos m) (tar_torque m) (cur_speed m) (cur_pos m) (cur_torque m) (flag_run_mode m) (flag_out_mode m) (flag_accept_level m) (flag_passive_feedback m) (flag_is_stop m) x (acc_out m).
Definition mset_acc_out (x : F) (m : motor) : motor :=
  Motor (ops m) (id m) (time m) (pos_tick m) (speed_tick m) (torque_tick m) (pid_speed m) (pid_pos m) (pid_torque m) (tar_speed m) (tar_pos m) (tar_torque m) (cur_speed m) (cur_pos m) (cur_torque m) (flag_run_mode m) (flag_out_mode m) (flag_accept_level m) (flag_passive_feedback m) (flag_is_stop m) (behaver m) x.

(** ** The table *)

(** [None] is the [NULL] of [MOTOR_ASSERT_ID]; a negative identifier is not caught. *)
Definition motor_get (id : Z) : outcome (option nat) :=
  if MOTOR_NUM <=? id then Done None
  else if id <? 0 then Fault OutOfBounds else Done (Some (Z.to_nat id)).

(** [motor_get] and [MOTOR_ASSERT], which spins for ever. *)
Definition motor_get_asserted (id : Z) (ms : list motor) : outcome motor :=
  i ← motor_get id;
  match i with
  | None => Fault Hang
  | Some i => match ms !! i with Some m => Done m | None => Fault OutOfBounds end
  end.

Definition motor_put (id : Z) (m : motor) (ms : list motor) : list motor := <[Z.to_nat id := m]> ms.

Definition motor_update (id : Z) (f : motor -> motor) (ms : list motor) : outcome (list motor) :=
  m ← motor_get_asserted id ms; Done (motor_put id (f m) ms).

Definition motor_start (id : Z) : list motor -> outcome (list motor) := motor_update id (mset_flag_is_stop 0).
Definition motor_stop (id : Z) : list motor -> outcome (list motor) := motor_update id (mset_flag_is_stop 1).
Definition motor_set_speed (id : Z) (v : F) : list motor -> outcome (list motor) :=
  motor_update id (fun m => mset_tar_speed v (mset_flag_run_mode MOTOR_MODE_SPEED m)).
Definition motor_set_pos (id : Z) (v : F) : list motor -> outcome (list motor) :=
  motor_update id (fun m => mset_tar_pos v (mset_flag_run_mode MOTOR_MODE_POS m)).
Definition motor_set_torque (id : Z) (v : F) : list motor -> outcome (list motor) :=
  motor_update id (fun m => mset_tar_torque v (mset_flag_run_mode MOTOR_MODE_TORQUE m)).

Definition motor_read {A} (f : motor -> A) (id : Z) (ms : list motor) : outcome A :=
  m ← motor_get_asserted id ms; Done (f m).
Definition motor_get_speed : Z -> list motor -> outcome F := motor_read cur_speed.
Definition motor_get_pos : Z -> list motor -> outcome F := motor_read cur_pos.
Definition motor_get_torque : Z -> list motor -> outcome F := motor_read cur_torque.
Definition motor_get_pid_torque : Z -> list motor -> outcome (option (apid_t F)) := motor_read pid_torque.
Definition motor_get_pid_speed : Z -> list motor -> outcome (option (apid_t F)) := motor_read pid_speed.
Definition motor_get_pid_pos : Z -> list motor -> outcome (option (apid_t F)) := motor_read pid_pos.

(** [MOTOR_ASSERT_ID] and [motor_list[id].cur_... = value]. *)
Definition motor_feedback (f : motor -> motor) (id : Z) (ms : list motor) : outcome (list motor) :=
  if MOTOR_NUM <=? id then Done ms
  else match (if id <? 0 then None else ms !! Z.to_nat id) with
  | Some m => Done (motor_put id (f m) ms)
  | None => Fault OutOfBounds
  end.
Definition motor_feedback_torque (id : Z) (v : F) := motor_feedback (mset_cur_torque v) id.
Definition motor_feedback_speed (id : Z) (v : F) := motor_feedback (mset_cur_speed v) id.
Definition motor_feedback_pos (id : Z) (v : F) := motor_feedback (mset_cur_pos v) id.

(** No assertion here: a [NULL] is dereferenced. *)
Definition motor_set_passive_feedback (id : Z) (b : bool) (ms : list motor) : outcome (list motor) :=
  i ← motor_get id;
  match i with
  | None => Fault NullDeref
  | Some i => match ms !! i with
    | Some m => Done (motor_put id (mset_flag_passive_feedback b m) ms)
    | None => Fault OutOfBounds
    end
  end.

(** ** Behaviours *)

(** [APID_Set_Target; APID_Set_Present; APID_Hander]. *)
Definition pid_step (p : option (apid_t F)) (tar cur cyc : F) : outcome (apid_t F) :=
  match p with
  | None => Fault NullDeref
  | Some p => APID_Hander (APID_Set_Present (APID_Set_Target p tar) cur) cyc
  end.

Definition pos_stage (m : motor) (cyc : F) : outcome motor :=
  p ← pid_step (pid_pos m) (tar_pos m) (cur_pos m) cyc;
  Done (mset_tar_speed (APID_Get_Out p) (mset_pid_pos (Some p) m)).
Definition speed_stage (m : motor) (cyc : F) : outcome motor :=
  p ← pid_step (pid_speed m) (tar_speed m) (cur_speed m) cyc;
  Done (mset_tar_torque (APID_Get_Out p) (mset_pid_speed (Some p) m)).
Definition torque_stage (m : motor) (cyc : F) : outcome motor :=
  p ← pid_step (pid_torque m) (tar_torque m) (cur_torque m) cyc;
  Done (mset_acc_out (APID_Get_Out p) (mset_pid_torque (Some p) m)).

(** The cases fall through. *)
Definition motor_behiver_1 (m : motor) (mode : Z) (cyc : F) : outcome motor :=
  if mode =? MOTOR_MODE_POS then m ← pos_stage m cyc; m ← speed_stage m cyc; torque_stage m cyc
  else if mode =? MOTOR_MODE_SPEED then m ← speed_stage m cyc; torque_stage m cyc
  else if mode =? MOTOR_MODE_TORQUE then torque_stage m cyc else Done m.

Definition motor_behiver_2 (m : motor) (mode : Z) (cyc : F) : outcome motor :=
  if mode =? MOTOR_MODE_POS then
    m ← pos_stage m cyc; m ← speed_stage m cyc; Done (mset_acc_out (tar_torque m) m)
  else if mode =? MOTOR_MODE_SPEED then m ← speed_stage m cyc; Done (mset_acc_out (tar_torque m) m)
  else if mode =? MOTOR_MODE_TORQUE then Done (mset_acc_out (tar_torque m) m) else Done m.

Definition motor_behiver_3 (m : motor) (mode : Z) (cyc : F) : outcome motor :=
  if mode =? MOTOR_MODE_POS then m ← pos_stage m cyc; Done (mset_acc_out (tar_speed m) m)
  else if mode =? MOTOR_MODE_SPEED then Done (mset_acc_out (tar_speed m) m)
  else if mode =? MOTOR_MODE_TORQUE then Done (mset_acc_out (tar_torque m) m) else Done m.

Definition motor_behiver_4 (m : motor) (mode : Z) (cyc : F) : outcome motor :=
  if mode =? MOTOR_MODE_POS then Done (mset_acc_out (tar_pos m) m)
  else if mode =? MOTOR_MODE_SPEED then Done (mset_acc_out (tar_speed m) m)
  else if mode =? MOTOR_MODE_TORQUE then Done (mset_acc_out (tar_torque m) m) else Done m.

Definition call_behaver (m : motor) (mode : Z) (cyc : F) : outcome motor :=
  match behaver m with
  | Some 1 => motor_behiver_1 m mode cyc
  | Some 2 => motor_behiver_2 m mode cyc
  | Some 3 => motor_behiver_3 m mode cyc
  | Some 4 => motor_behiver_4 m mode cyc
  | _ => Fault NullDeref
  end.

(** ** Configuration *)

(** [APID_Init] with the gains the object already holds. *)
Definition pid_reinit (p : apid_t F) : apid_t F :=
  APID_Init p PID_POSITION (kp (parameter p)) (ki (parameter p)) (kd (parameter p)).

(** [malloc]ed controllers keep what the heap held; [None] fails the assertion. *)
Definition motor_updata_cfg (heap : option (apid_t F) * option (apid_t F) * option (apid_t F))
  (level : Z) (m : motor) : outcome motor :=
  let '(h1, h2, h3) := heap in
  match level with
  | 0 =>
    match h1, h2, h3 with
    | Some pt, Some ps, Some pp =>
      Done (mset_pid_pos (Some (pid_reinit pp)) (mset_pid_speed (Some (pid_reinit ps))
             (mset_pid_torque (Some (pid_reinit pt))
               (mset_flag_out_mode MOTOR_CONTROL_SUPPORT_NONE (mset_behaver (Some 1) m)))))
    | _, _, _ => Fault Hang
    end
  | 1 =>
    match pid_speed m, pid_pos m with
    | Some ps, Some pp =>
      Done (mset_pid_pos (Some (pid_reinit pp)) (mset_pid_speed (Some (pid_reinit ps))
             (mset_flag_out_mode MOTOR_CONTROL_SUPPORT_TORQUE (mset_behaver (Some 2) m))))
    | _, _ => Fault Hang
    end
  | 2 =>
    match h1 with
    | Some pp => Done (mset_pid_pos (Some (pid_reinit pp))
                 (mset_flag_out_mode MOTOR_CONTROL_SUPPORT_SPEED (mset_behaver (Some 3) m)))
    | None => Fault Hang
    end
  | 3 => Done (mset_flag_out_mode MOTOR_CONTROL_SUPPORT_POS (mset_behaver (Some 4) m))
  | _ => Done m
  end.

Definition motor_init_one (heap : option (apid_t F) * option (apid_t F) * option (apid_t F))
  (i : Z) (m : motor) : outcome motor :=
  motor_updata_cfg heap (flag_accept_level m)
  (mset_flag_out_mode MOTOR_MODE_IDEL (mset_flag_run_mode MOTOR_MODE_IDEL
  (mset_torque_tick 1 (mset_speed_tick 5 (mset_pos_tick 10 (mset_time 0 (mset_id i m))))))).

Fixpoint motor_init_from (heap : option (apid_t F) * option (apid_t F) * option (apid_t F))
  (i : Z) (ms : list motor) : outcome (list motor) :=
  match ms with
  | [] => Done []
  | m :: ms => m ← motor_init_one heap i m; ms ← motor_init_from heap (i + 1) ms; Done (m :: ms)
  end.
Definition motor_init (heap : option (apid_t F) * option (apid_t F) * option (apid_t F))
  : list motor -> outcome (list motor) := motor_init_from heap 0.
End motor.
Arguments motor F : clear implicits.

(** ** The hardware behind the table *)

(** [driver] and [control] of [motor_ops_t], on the table and the device state;
    [control] works on the value its argument points to. *)
Class MotorOps (F D : Type) := {
  op_driver : Z -> Z -> F -> list (motor F) * D -> outcome (list (motor F) * D);
  op_control : Z -> Z -> F -> list (motor F) * D -> outcome (F * (list (motor F) * D));
}.

(** A driver loads the motor and leaves the table alone. *)
Class MotorOpsLaws (F D : Type) `{MotorOps F D} := {
  op_driver_table : forall id mode v (ms : list (motor F)) (d : D) ms' d',
    op_driver id mode v (ms, d) = Done (ms', d') -> ms' = ms;
}.

Section handle.
Context {F D : Type} `{FloatOps F} `{MotorOps F D}.
Implicit Types (st : list (motor F) * D).

(** [motor->time % tick == 0]; a zero tick divides by zero. *)
Definition tick_due (time tick : Z) : outcome bool :=
  if tick =? 0 then Fault Undefined else Done (Z.rem time tick =? 0).

(** One of the three reads of [__motor_read_feedback]. *)
Definition read_one (id mode : Z) (tick : motor F -> Z) (get : motor F -> F)
  (put : F -> motor F -> motor F) st : outcome (list (motor F) * D) :=
  m ← motor_get_asserted id st.1;
  due ← tick_due (time m) (tick m);
  if (due : bool) then
    r ← op_control id mode (get m) st;
    m ← motor_get_asserted id r.2.1;
    Done (motor_put id (put r.1 m) r.2.1, r.2.2)
  else Done st.

Definition __motor_read_feedback (id : Z) st : outcome (list (motor F) * D) :=
  st ← read_one id MOTOR_MODE_TORQUE torque_tick cur_torque mset_cur_torque st;
  st ← read_one id MOTOR_MODE_SPEED speed_tick cur_speed mset_cur_speed st;
  read_one id MOTOR_MODE_POS pos_tick cur_pos mset_cur_pos st.

Definition motor_read_feedback (id : Z) st : outcome (list (motor F) * D) :=
  _ ← motor_get_asserted id st.1; __motor_read_feedback id st.

(** [motor->time += cycle]: to [float] and back to [long long]. *)
Definition motor_clock (time : Z) (cyc : F) : outcome Z :=
  match f_trunc (f_of_Z time + cyc)%F with
  | Some t => if decide (- 2 ^ 63 <= t < 2 ^ 63) then Done t else Fault Undefined
  | None => Fault Undefined
  end.

Definition motor_handle (id : Z) (cyc : F) st : outcome (list (motor F) * D) :=
  m ← motor_get_asserted id st.1;
  match ops m with
  | None => Fault Hang
  | Some _ =>
    t ← motor_clock (time m) cyc;
    let m := mset_time t m in
    let st := (motor_put id m st.1, st.2) in
    st ← (if flag_passive_feedback m then Done st else __motor_read_feedback id st);
    m ← motor_get_asserted id st.1;
    let m := mset_flag_is_stop 0 m in
    m ← (if flag_is_stop m =? 0 then call_behaver m (flag_run_mode m) cyc
       else Done (mset_acc_out 0%F m));
    op_driver id (flag_out_mode m) (acc_out m) (motor_put id m st.1, st.2)
  end.
End handle.

(** ** The table *)
Section table.
Context {F : Type} `{FloatOps F}.
Implicit Types (ms : list (motor F)) (m : motor F).

(** [id] names a motor of the table. *)
Definition has_motor (id : Z) ms m : Prop := 0 <= id < MOTOR_NUM /\ ms !! Z.to_nat id = Some m.

Lemma motor_get_has id ms m : has_motor id ms m -> motor_get_asserted id ms = Done m.
Proof.
  intros [Hid Hm]. unfold motor_get_asserted, motor_get. rewrite (proj2 (Z.leb_gt _ _)) by lia.
  rewrite (proj2 (Z.ltb_ge _ _)) by lia. cbn. by rewrite Hm.
Qed.

Lemma has_motor_put id ms m m' : has_motor id ms m -> has_motor id (motor_put id m' ms) m'.
Proof. intros [Hid Hm]. split; [done|]. apply list_lookup_insert_eq. by eapply lookup_lt_Some. Qed.

Lemma motor_put_put id ms m m' : motor_put id m (motor_put id m' ms) = motor_put id m ms.
Proof. apply list_insert_insert_eq. Qed.

Lemma motor_update_has id f ms m : has_motor id ms m ->
  motor_update id f ms = Done (motor_put id (f m) ms).
Proof. intros Hm. unfold motor_update. by rewrite (motor_get_has _ _ _ Hm). Qed.
End table.

Section theorems.
Context {F D : Type} `{FloatOps F} `{MotorOpsLaws F D}.
Implicit Types (ms : list (motor F)) (m : motor F) (d : D).

(** A step of a motor that is fed back passively: clock, behaviour, driver. *)
Lemma motor_handle_passive id cyc ms d m t : has_motor id ms m -> ops m <> None ->
  flag_passive_feedback m = true -> motor_clock (time m) cyc = Done t ->
  motor_handle id cyc (ms, d) =
  (m' ← call_behaver (mset_flag_is_stop 0 (mset_time t m)) (flag_run_mode m) cyc;
   op_driver id (flag_out_mode m') (acc_out m') (motor_put id m' ms, d)).
Proof.
  intros Hm Hops Hp Ht. unfold motor_handle. cbn [fst snd]. rewrite (motor_get_has _ _ _ Hm).
  cbn [mbind outcome_bind]. destruct (ops m) as [k|]; [|done]. rewrite Ht. cbn [mbind outcome_bind].
  cbn [flag_passive_feedback mset_time]. rewrite Hp. cbn [mbind outcome_bind fst snd].
  rewrite (motor_get_has _ _ _ (has_motor_put _ _ _ (mset_time t m) Hm)). cbn [mbind outcome_bind].
  change (flag_is_stop (mset_flag_is_stop 0 _) =? 0) with true. cbn match.
  destruct (call_behaver _ _ _) as [m'|]; [|done]. cbn [mbind outcome_bind].
  by rewrite motor_put_put.
Qed.

(** motor_stop has no effect on a motor fed back passively: the periodic step after
    it does exactly what it does without it, because motor_handle clears flag_is_stop
    before it tests it. *)
Theorem motor_stop_ignored id cyc ms d m :
  has_motor id ms m -> ops m <> None -> flag_passive_feedback m = true ->
  (ms' ← motor_stop id ms; motor_handle id cyc (ms', d)) = motor_handle id cyc (ms, d).
Proof.
  intros Hm Hops Hp. unfold motor_stop. rewrite (motor_update_has _ _ _ _ Hm).
  cbn [mbind outcome_bind].
  pose proof (has_motor_put _ _ _ (mset_flag_is_stop 1 m) Hm) as Hm'.
  destruct (motor_clock (time m) cyc) as [t|e] eqn:Ht.
  - rewrite (motor_handle_passive id cyc ms d m t) by done.
  rewrite (motor_handle_passive id cyc _ d (mset_flag_is_stop 1 m) t) by done.
  change (mset_flag_is_stop 0 (mset_time t (mset_flag_is_stop 1 m))) with
    (mset_flag_is_stop 0 (mset_time t m)).
  change (flag_run_mode (mset_flag_is_stop 1 m)) with (flag_run_mode m).
  destruct (call_behaver _ _ _) as [m'|]; [|done]. cbn [mbind outcome_bind].
  by rewrite motor_put_put.
  - unfold motor_handle. cbn [fst snd]. rewrite (motor_get_has _ _ _ Hm), (motor_get_has _ _ _ Hm').
  cbn [mbind outcome_bind]. change (ops (mset_flag_is_stop 1 m)) with (ops m).
  change (time (mset_flag_is_stop 1 m)) with (time m). rewrite Ht. by destruct (ops m).
Qed.

(** What a command followed by a step amounts to: the driver is called once, with
  [v], and the table changes in one place. *)
Definition reaches_driver (run : outcome (list (motor F) * D)) id m ms d (v : F)
  (P : motor F -> Prop) : Prop :=
  exists m', run = op_driver id (flag_out_mode m) v (motor_put id m' ms, d) /\ P m' /\
  acc_out m' = v /\ cur_speed m' = cur_speed m /\ cur_pos m' = cur_pos m /\
  forall ms' d', run = Done (ms', d') -> ms' = motor_put id m' ms.

Lemma reaches_driver_intro run id m ms d v (P : motor F -> Prop) m' :
  run = op_driver id (flag_out_mode m) v (motor_put id m' ms, d) -> P m' ->
  acc_out m' = v -> cur_speed m' = cur_speed m -> cur_pos m' = cur_pos m ->
  reaches_driver run id m ms d v P.
Proof.
  intros Hr HP Ha Hs Hp. exists m'. split_and!; try done.
  intros ms' d'. rewrite Hr. apply op_driver_table.
Qed.

(** C15: Against the driver interface: for a motor fed back passively with the
    torque-level behaviour, a torque, speed or position command followed by a periodic
    step calls the driver once with, respectively, the value itself, the output of the
    speed controller, or the output of the speed controller fed by the position
    controller, stores those controllers and changes nothing else of the table. *)
Theorem motor_commands_reach_driver id cyc ms d m t v :
  has_motor id ms m -> ops m <> None -> flag_passive_feedback m = true ->
  behaver m = Some 2 -> motor_clock (time m) cyc = Done t ->
  (reaches_driver (ms ← motor_set_torque id v ms; motor_handle id cyc (ms, d)) id m ms d v
   (fun m' => flag_run_mode m' = MOTOR_MODE_TORQUE /\ time m' = t)) /\
  (forall p, pid_step (pid_speed m) v (cur_speed m) cyc = Done p ->
   reaches_driver (ms ← motor_set_speed id v ms; motor_handle id cyc (ms, d)) id m ms d
     (APID_Get_Out p)
     (fun m' => flag_run_mode m' = MOTOR_MODE_SPEED /\ time m' = t /\ pid_speed m' = Some p)) /\
  (forall pp p, pid_step (pid_pos m) v (cur_pos m) cyc = Done pp ->
   pid_step (pid_speed m) (APID_Get_Out pp) (cur_speed m) cyc = Done p ->
   reaches_driver (ms ← motor_set_pos id v ms; motor_handle id cyc (ms, d)) id m ms d
     (APID_Get_Out p)
     (fun m' => flag_run_mode m' = MOTOR_MODE_POS /\ time m' = t /\ pid_pos m' = Some pp /\
                pid_speed m' = Some p)).
Proof.
  intros Hm Hops Hp Hb Ht.
  assert (forall f : motor F -> motor F, (forall m, ops (f m) = ops m /\ behaver (f m) = behaver m /\
    flag_passive_feedback (f m) = flag_passive_feedback m /\ time (f m) = time m) ->
    (ms ← motor_update id f ms; motor_handle id cyc (ms, d)) =
    (m' ← motor_behiver_2 (mset_flag_is_stop 0 (mset_time t (f m))) (flag_run_mode (f m)) cyc;
    op_driver id (flag_out_mode m') (acc_out m') (motor_put id m' ms, d))) as Hrun.
  { intros f Hf. destruct (Hf m) as (Ho & Hbe & Hpa & Hti).
    rewrite (motor_update_has _ _ _ _ Hm). cbn [mbind outcome_bind].
    rewrite (motor_handle_passive id cyc _ d (f m) t) by (by rewrite ?Ho, ?Hpa, ?Hti || by apply (has_motor_put _ _ _ _ Hm)).
    unfold call_behaver.
    change (behaver (mset_flag_is_stop 0 (mset_time t (f m)))) with (behaver (f m)). rewrite Hbe, Hb.
    destruct (motor_behiver_2 _ _ _) as [m'|]; [|done]. cbn [mbind outcome_bind].
    by rewrite motor_put_put. }
  split_and!.
  - unfold motor_set_torque. rewrite Hrun by done. by eapply reaches_driver_intro.
  - intros p Hpid. unfold motor_set_speed. rewrite Hrun by done.
    unfold motor_behiver_2, speed_stage. cbn -[pid_step]. rewrite Hpid. cbn -[pid_step].
    by eapply reaches_driver_intro.
  - intros pp p Hpp Hpid. unfold motor_set_pos. rewrite Hrun by done.
    unfold motor_behiver_2, pos_stage, speed_stage. cbn -[pid_step]. rewrite Hpp. cbn -[pid_step].
    rewrite Hpid. cbn -[pid_step]. by eapply reaches_driver_intro.
Qed.
End theorems.

(** After 2^24 periods of 1 the [float] sum no longer moves: the clock stands
    still, and so do the reads of a motor that is not fed back passively. *)
Lemma motor_clock_stalls : motor_clock (2 ^ 24) (f_of_Z 1 : f32) = Done (2 ^ 24).
Proof. vm_compute. reflexivity. Qed.

(** ** Witnesses *)

(** A driver that writes down what it is given. *)
#[local] Instance log_ops : MotorOps f32 (list f32) := {
  op_driver id mode v st := Done (st.1, st.2 ++ [v]);
  op_control id mode v st := Done (v, st);
}.
#[local] Instance log_laws : MotorOpsLaws f32 (list f32).
Proof. split. intros id mode v ms d ms' d' Hr. cbn in Hr. by simplify_eq. Qed.

(** A motor with gain 2 on speed and gain 3 on position. *)
Definition demo_motor : motor f32 :=
  Motor (Some 0) 0 0 10 5 1 (Some (APID_Init blank_pid PID_POSITION (f_of_Z 2) 0%F 0%F))
  (Some (APID_Init blank_pid PID_POSITION (f_of_Z 3) 0%F 0%F)) None
  0%F 0%F 0%F 0%F 0%F 0%F 0 1 1 true 0 (Some 2) 0%F.

Lemma motor_stop_ignored_witness :
  (ms' ← motor_stop 0 [demo_motor]; motor_handle 0 (f_of_Z 1) (ms', [] : list f32))
  = motor_handle 0 (f_of_Z 1) ([demo_motor], []).
Proof. apply (motor_stop_ignored 0 (f_of_Z 1) [demo_motor] [] demo_motor); by vm_compute. Defined.

(** Position 4 asks for speed 12 and torque 24. *)
Lemma motor_commands_reach_driver_witness :
  exists ms', (ms ← motor_set_pos 0 (f_of_Z 4) [demo_motor]; motor_handle 0 (f_of_Z 1) (ms, []))
    = Done (ms', [f_of_Z 24 : f32]).
Proof.
  destruct (motor_commands_reach_driver 0 (f_of_Z 1) [demo_motor] [] demo_motor 1 (f_of_Z 4))
    as (_ & _ & Hpos); try (by vm_compute).
  edestruct Hpos as (m' & Hr & _); [vm_compute; reflexivity|vm_compute; reflexivity|].
  exists (motor_put 0 m' [demo_motor]). rewrite Hr. cbn [op_driver log_ops fst snd app].
  do 3 f_equal.
Defined.
