(* ===== verification/DjMotor.v ===== *)
(** * [motor_dj_rm_driver.c], [motor_cfg.c]: the CAN motors

    Four M2006 motors on one CAN bus ([MOTOR_DJ_M2006_ID1..4_CAN1] are the
    configured ones): their feedback records, the search by CAN identifier, the
    receive callback that unwraps the encoder, the driver that packs four currents
    into one frame, and the configuration at start.  The component implements the
    interface [MotorOps] of the motor abstraction. *)
From S2P Require Import Prelude CFloat Apid Motor RingBuffer.

Definition DJ_M_NUM : Z := 4.
Definition CAN_Motor_ALL_ID : Z := 0x200.
Definition CAN_Motor_ALL_ID2 : Z := 0x1FF.
Definition CAN_Motor1_ID : Z := 0x201.

Record motor_measure_t := Measure {
  me_id : Z;
  can_id : Z;
  angle : Z;
  msg_cnt : Z;
  last_angle : Z;
  offset_angle : Z;
  round_cnt : Z;
  total_angle : Z;
}.

Definition set_msg_cnt (x : Z) (m : motor_measure_t) : motor_measure_t :=
  Measure (me_id m) (can_id m) (angle m) x (last_angle m) (offset_angle m) (round_cnt m) (total_angle m).

(** The driver's statics, the frames the bus accepted, whether the next writes
    succeed (they do at the end of the list), and the queue to the thread. *)
Record dj := Dj {
  dj_motors : list motor_measure_t;
  iq1_low : list Z;
  iq1_high : list Z;
  can_tx : list (Z * list Z);
  can_ok : list bool;
  dj_m_ringfifo : list Z;
}.

(** [dj_motors] as it is defined: identifiers 0x201 to 0x204. *)
Definition dj_motors_init : list motor_measure_t :=
  map (fun i => Measure i (CAN_Motor1_ID + i) 0 0 0 0 0 0) [0; 1; 2; 3].

(** ** [motor_get_by_canid] *)

(** [left], [right] and [mid] are [uint8_t]; [n] bounds the rounds. *)
Fixpoint search_loop (n : nat) (ms : list motor_measure_t) (id left right : Z) : outcome (option Z) :=
  if left <=? right then
    match n with
    | O => Fault Hang
    | S n =>
      let mid := u8 ((left + right) / 2) in
      m ← arr_get ms mid;
      if can_id m =? id then Done (Some mid)
      else if can_id m <? id then search_loop n ms id (u8 (mid + 1)) right
      else search_loop n ms id left (u8 (mid - 1))
    end
  else Done None.

Definition motor_get_by_canid (ms : list motor_measure_t) (id : Z) : outcome (option Z) :=
  search_loop 256 ms id 0 (u8 (DJ_M_NUM - 1)).

(** ** Receiving *)

(** [(uint16_t)(hi << 8 | lo)]. *)
Definition be16 (hi lo : Z) : Z := u16 (Z.lor (Z.shiftl hi 8) lo).

(** What the callback does to the record; [a] is the angle of the message. *)
Definition measure_update (a : Z) (m : motor_measure_t) : outcome motor_measure_t :=
  if msg_cnt m <? 50 then
    Done (Measure (me_id m) (can_id m) a (u8 (msg_cnt m + 1)) (last_angle m) a
            (round_cnt m) (total_angle m))
  else
    let last := angle m in
    rounds ← (if a - last >? 4096 then int_result (round_cnt m - 1)
              else if a - last <? - 4096 then int_result (round_cnt m + 1)
              else Done (round_cnt m));
    t ← int_result (rounds * 8191);
    t ← int_result (t + a);
    t ← int_result (t - offset_angle m);
    Done (Measure (me_id m) (can_id m) a 0xff last (offset_angle m) rounds t).

(** Meant to make the present position the zero. *)
Definition dj_motor_BackToZero (m : motor_measure_t) : motor_measure_t :=
  Measure (me_id m) (can_id m) (angle m) (msg_cnt m) (last_angle m) (angle m) 0 (total_angle m).

(** [rt_ringbuffer_putchar_force] on a ring of 4096 bytes: a full ring loses its
    oldest byte. *)
Definition ring_put_force (x : Z) (q : list Z) : list Z :=
  (if decide (length q = 4096%nat) then tail q else q) ++ [u8 x].

Section driver.
Context {F : Type} `{FloatOps F} `{DoubleOf F}.

(** [(float)total_angle * KK] with [KK] = [1.06 * (10.f / 8192.f)], a [double]. *)
Definition pos_of_counts (total : Z) : F :=
  narrow (widen (f_of_Z total) * (f_lit 106 100 * widen (f_of_Z 10 / f_of_Z 8192)))%F.

Definition ind_dj_can_motor_callback (id : Z) (data : list Z) (st : list (motor F) * dj)
  : outcome (list (motor F) * dj) :=
  let '(ms, d) := st in
  i ← motor_get_by_canid (dj_motors d) id;
  match i with
  | None => Fault NullDeref
  | Some i =>
  m ← arr_get (dj_motors d) i;
  b0 ← arr_get data 0; b1 ← arr_get data 1; b2 ← arr_get data 2; b3 ← arr_get data 3;
  b4 ← arr_get data 4; b5 ← arr_get data 5;
  m ← measure_update (be16 b0 b1) m;
  ms ← motor_feedback_speed (me_id m) (f_of_Z (s16 (be16 b2 b3)) / f_of_Z 36)%F ms;
  ms ← motor_feedback_torque (me_id m) (f_of_Z (s16 (be16 b4 b5))) ms;
  ms ← motor_feedback_pos (me_id m) (pos_of_counts (total_angle m)) ms;
  Done (ms, Dj (<[Z.to_nat i := m]> (dj_motors d)) (iq1_low d) (iq1_high d) (can_tx d) (can_ok d)
              (ring_put_force (me_id m) (dj_m_ringfifo d)))
  end.

(** ** Driving *)

(** The eight bytes: each current's high byte, then its low byte. *)
Definition current_bytes (iq : list Z) : list Z :=
  mjoin (map (fun c => [u8 (Z.shiftr c 8); u8 c]) iq).

(** [rt_device_write(can_dev, ...)] of a frame: whether it was taken. *)
Definition can_write (id : Z) (data : list Z) (d : dj) : bool * dj :=
  match can_ok d with
  | false :: ok => (false, Dj (dj_motors d) (iq1_low d) (iq1_high d) (can_tx d) ok (dj_m_ringfifo d))
  | _ => (true, Dj (dj_motors d) (iq1_low d) (iq1_high d) (can_tx d ++ [(id, data)])
                (tail (can_ok d)) (dj_m_ringfifo d))
  end.

Definition set_iq_low (iq : list Z) (d : dj) : dj :=
  Dj (dj_motors d) iq (iq1_high d) (can_tx d) (can_ok d) (dj_m_ringfifo d).
Definition set_iq_high (iq : list Z) (d : dj) : dj :=
  Dj (dj_motors d) (iq1_low d) iq (can_tx d) (can_ok d) (dj_m_ringfifo d).
Definition set_motors (ms : list motor_measure_t) (d : dj) : dj :=
  Dj ms (iq1_low d) (iq1_high d) (can_tx d) (can_ok d) (dj_m_ringfifo d).

(** The record behind [motor_get(id)->ops->user_data]. *)
Definition user_record (id : Z) (ms : list (motor F)) (d : dj) : outcome motor_measure_t :=
  i ← motor_get id;
  match i with
  | None => Fault NullDeref
  | Some i =>
  match ms !! i with
  | None => Fault OutOfBounds
  | Some m => match ops m with None => Fault NullDeref | Some k => arr_get (dj_motors d) k end
  end
  end.

(** All four motors have reported since the last failed write. *)
Definition all_reported (d : dj) : bool :=
  forallb (fun m => msg_cnt m =? 0xff) (dj_motors d).

(** [msg.id] is still 0 when it selects the branch. *)
Definition motor_dj_driver (id mode : Z) (value : F) (st : list (motor F) * dj)
  : outcome (list (motor F) * dj) :=
  let '(ms, d) := st in
  rec ← user_record id ms d;
  tmpout ← to_int16 value;
  if mode =? MOTOR_MODE_TORQUE then
  let msg_id := 0 in
  let tt := u16 (Z.rem (can_id rec - CAN_Motor1_ID) 4) in
  if msg_id - CAN_Motor1_ID >? 8 then Done (ms, d)
  else if msg_id - CAN_Motor1_ID >? 4 then
    iq ← arr_set (iq1_high d) tt tmpout;
    Done (ms, (can_write CAN_Motor_ALL_ID2 (current_bytes iq) (set_iq_high iq d)).2)
  else if all_reported d then
    iq ← arr_set (iq1_low d) tt tmpout;
    let '(ok, d) := can_write CAN_Motor_ALL_ID (current_bytes iq) (set_iq_low iq d) in
    Done (ms, if (ok : bool) then d else set_motors (map (set_msg_cnt 50) (dj_motors d)) d)
  else Done (ms, d)
  else Done (ms, d).

(** The measurements come with the callback: reading does nothing. *)
Definition motor_dj_ctr (id cmd : Z) (arg : F) (st : list (motor F) * dj)
  : outcome (F * (list (motor F) * dj)) :=
  let '(ms, d) := st in
  _ ← user_record id ms d;
  if cmd =? MOTOR_MODE_SAFETY_STOP then ms ← motor_stop id ms; Done (arg, (ms, d))
  else if cmd =? MOTOR_MODE_SAFETY_START then ms ← motor_start id ms; Done (arg, (ms, d))
  else if cmd =? MOTOR_MODE_TEMP then Done (f_of_Z 42, (ms, d))
  else Done (arg, (ms, d)).

#[export] Instance dj_ops : MotorOps F dj := {
  op_driver := motor_dj_driver;
  op_control := motor_dj_ctr;
}.

(** One round of [can_rx_thread]. *)
Definition can_rx_thread_round (st : list (motor F) * dj) : outcome (list (motor F) * dj) :=
  match dj_m_ringfifo st.2 with
  | [] => Done st
  | i :: q =>
  motor_handle i (f_of_Z 1)
    (st.1, Dj (dj_motors st.2) (iq1_low st.2) (iq1_high st.2) (can_tx st.2) (can_ok st.2) q)
  end.

(** ** Configuration *)

Definition MAX_V_POS : Z := 65.
Definition MAX_V_SPEED : Z := 80.

Definition on_pid (get : motor F -> option (apid_t F)) (put : option (apid_t F) -> motor F -> motor F)
  (f : apid_t F -> outcome (apid_t F)) (id : Z) (ms : list (motor F)) : outcome (list (motor F)) :=
  m ← motor_get_asserted id ms;
  match get m with
  | None => Fault NullDeref
  | Some p => p ← f p; Done (motor_put id (put (Some p) m) ms)
  end.
Definition on_speed (f : apid_t F -> outcome (apid_t F)) := on_pid pid_speed mset_pid_speed f.
Definition on_pos (f : apid_t F -> outcome (apid_t F)) := on_pid pid_pos mset_pid_pos f.

(** The calls for motors 0 to 3 ([M2006_1_CAN1] to [M2006_4_CAN1]); two of the
  third block name other motors. *)
Definition set_motor_passive_feedback (ms : list (motor F)) : outcome (list (motor F)) :=
  let out v p := Done (APID_Set_Out_Limit p (f_of_Z v)) in
  let integral v p := APID_Set_Integral_Limit p (f_of_Z v) in
  let dead v p := Done (APID_Set_Bias_Dead_Zone p (f_of_Z v)) in
  let bias v p := Done (APID_Set_Bias_Limit p (f_of_Z v)) in
  let target v p := Done (APID_Set_Target_Limit p (f_of_Z v)) in
  ms ← motor_set_passive_feedback 0 true ms;
  ms ← on_speed (out 30000) 0 ms; ms ← on_speed (integral 200) 0 ms; ms ← on_speed (dead 20) 0 ms;
  ms ← on_speed (bias 2000) 0 ms; ms ← on_speed (target MAX_V_SPEED) 0 ms;
  ms ← on_pos (out MAX_V_POS) 0 ms; ms ← on_pos (integral 200) 0 ms;
  ms ← motor_set_passive_feedback 1 true ms;
  ms ← on_speed (out 30000) 1 ms; ms ← on_speed (integral 200) 1 ms; ms ← on_speed (dead 20) 1 ms;
  ms ← on_speed (bias 2000) 1 ms; ms ← on_speed (target MAX_V_SPEED) 1 ms;
  ms ← on_pos (out MAX_V_POS) 1 ms; ms ← on_pos (integral 200) 1 ms;
  ms ← motor_set_passive_feedback 2 true ms;
  ms ← on_speed (out 30000) 2 ms; ms ← on_speed (integral 200) 2 ms; ms ← on_speed (dead 20) 2 ms;
  ms ← on_speed (target MAX_V_SPEED) 0 ms;
  ms ← on_pos (out MAX_V_POS) 2 ms; ms ← on_pos (integral 200) 3 ms;
  ms ← motor_set_passive_feedback 3 true ms;
  ms ← on_speed (out 30000) 3 ms; ms ← on_speed (integral 200) 3 ms; ms ← on_speed (dead 20) 3 ms;
  ms ← on_speed (target MAX_V_SPEED) 3 ms;
  ms ← on_pos (out MAX_V_POS) 3 ms; on_pos (integral 200) 3 ms.

(** [motor_list] of [motor_cfg.c]. *)
Definition APID_CREATE_STATIC_ANONYMOUS_POSITION (kp ki kd : F) : apid_t F :=
  Apid (PIDFlag 0 PID_INTEGRAL_NORMAL PID_DIFFERENTIAL_COMPLETE PID_POSITION)
  (PIDParameter kp ki kd 0 0 0 0 0 0 0 0 0 0 0 0 0 0)%F (PIDProcess 0 0 0 0 0 0 0 0 0)%F 0%F
  (Some ()) (Some (IHandle PID_POSITION PID_INTEGRAL_NORMAL))
  (Some (DHandle PID_POSITION PID_DIFFERENTIAL_COMPLETE)).

Definition motor_list_entry (k : Z) : motor F :=
  Motor (Some k) 0 0 0 0 0
  (Some (APID_CREATE_STATIC_ANONYMOUS_POSITION (f_lit 21069 100) (f_lit 73 100) 0%F))
  (Some (APID_CREATE_STATIC_ANONYMOUS_POSITION (f_lit 4983 1000) 0%F 0%F)) None
  0%F 0%F 0%F 0%F 0%F 0%F 0 0 MOTOR_CONTROL_SUPPORT_TORQUE false 0 None 0%F.
Definition motor_list_init : list (motor F) := map motor_list_entry [0; 1; 2; 3].

(** What [motor_dj_init] does to the table before it opens the bus. *)
Definition motor_dj_init (heap : option (apid_t F) * option (apid_t F) * option (apid_t F))
  (ms : list (motor F)) : outcome (list (motor F)) :=
  ms ← motor_init heap ms; set_motor_passive_feedback ms.
End driver.

(** ** The search *)

(** The table keeps the identifiers it was defined with. *)
Definition canids_ok (ms : list motor_measure_t) : Prop :=
  map can_id ms = [0x201; 0x202; 0x203; 0x204].

Lemma search_step n ms id l r mid m : (l <=? r) = true -> u8 ((l + r) / 2) = mid ->
  arr_get ms mid = Done m ->
  search_loop (S n) ms id l r =
    if can_id m =? id then Done (Some mid)
    else if can_id m <? id then search_loop n ms id (u8 (mid + 1)) r
    else search_loop n ms id l (u8 (mid - 1)).
Proof. intros Hlr <- Hm. cbn [search_loop]. rewrite Hlr. cbv zeta. by rewrite Hm. Qed.

Lemma search_out_of_range n ms id l r : (l <=? r) = true ->
  arr_get ms (u8 ((l + r) / 2)) = Fault OutOfBounds -> search_loop (S n) ms id l r = Fault OutOfBounds.
Proof. intros Hlr Hm. cbn [search_loop]. rewrite Hlr. cbv zeta. by rewrite Hm. Qed.

(** The binary search over identifiers finds exactly the four configured motors,
    answers NULL above them, and for an identifier below 0x201 lets its unsigned right
    bound wrap and reads outside the table. *)
Theorem canid_search ms id : canids_ok ms -> is_u16 id ->
  motor_get_by_canid ms id =
    if id <? 0x201 then Fault OutOfBounds
    else if id <=? 0x204 then Done (Some (id - 0x201)) else Done None.
Proof.
  intros Hms Hid. unfold motor_get_by_canid.
  destruct ms as [|m1 [|m2 [|m3 [|m4 [|]]]]]; try discriminate. injection Hms as H1 H2 H3 H4.
  set (ms := [m1; m2; m3; m4]).
  change (u8 (DJ_M_NUM - 1)) with 3. change 256%nat with (S (S (S (S 252)))).
  rewrite (search_step _ ms id 0 3 1 m2), H2 by done.
  destruct (Z.ltb_spec id 0x201) as [Hlo|Hlo].
  - rewrite (proj2 (Z.eqb_neq _ id)), (proj2 (Z.ltb_ge _ id)) by lia. change (u8 (1 - 1)) with 0.
    rewrite (search_step _ ms id 0 0 0 m1), H1 by done.
    rewrite (proj2 (Z.eqb_neq _ id)), (proj2 (Z.ltb_ge _ id)) by lia. by apply search_out_of_range.
  - destruct (Z.eqb_spec 0x202 id) as [<-|N2]; [done|].
    destruct (Z.ltb_spec 0x202 id) as [H202|H202].
    + change (u8 (1 + 1)) with 2. rewrite (search_step _ ms id 2 3 2 m3), H3 by done.
      destruct (Z.eqb_spec 0x203 id) as [<-|N3]; [done|].
      rewrite (proj2 (Z.ltb_lt _ id)) by lia. change (u8 (2 + 1)) with 3.
      rewrite (search_step _ ms id 3 3 3 m4), H4 by done.
      destruct (Z.eqb_spec 0x204 id) as [<-|N4]; [done|].
      rewrite (proj2 (Z.ltb_lt _ id)), (proj2 (Z.leb_gt id _)) by lia. done.
    + assert (id = 0x201) as -> by lia. change (u8 (1 - 1)) with 0.
      by rewrite (search_step _ ms 0x201 0 0 0 m1), H1 by done.
Qed.

(** ** The encoder *)

(** The records after a series of angles. *)
Fixpoint feed (m : motor_measure_t) (angles : list Z) : outcome motor_measure_t :=
  match angles with
  | [] => Done m
  | a :: angles => m ← measure_update a m; feed m angles
  end.

Lemma feed_app m xs ys : feed m (xs ++ ys) = (m ← feed m xs; feed m ys).
Proof.
  revert m. induction xs as [|x xs IH]; intros m; [done|]. cbn [feed app].
  destruct (measure_update x m); [apply IH|done].
Qed.


(** The first fifty messages only calibrate. *)
Lemma feed_calibrates cal m :
  0 <= msg_cnt m -> msg_cnt m + Z.of_nat (length cal) <= 50 -> cal <> [] ->
  exists m', feed m cal = Done m' /\ msg_cnt m' = msg_cnt m + Z.of_nat (length cal) /\
    angle m' = List.last cal 0 /\ offset_angle m' = List.last cal 0 /\ round_cnt m' = round_cnt m.
Proof.
  revert m. induction cal as [|a cal IH]; [done|]. intros m H0 Hn _. cbn [length] in Hn.
  cbn [feed]. unfold measure_update. rewrite (proj2 (Z.ltb_lt _ _)) by lia. cbn [mbind outcome_bind].
  set (m1 := Measure _ _ _ _ _ _ _ _). assert (msg_cnt m1 = msg_cnt m + 1) as Hc by (cbn; cint).
  destruct cal as [|b cal].
  - exists m1. split_and!; try done.
  - destruct (IH m1) as (m' & Hf & Hm & Ha & Ho & Hr); [lia|cbn [length] in *; lia|done|].
    exists m'. split_and!; try done. rewrite Hm, Hc. cbn [length]. lia.
Qed.

(** A shaft that moves less than half a turn between messages; the position
    counts 8192 to the turn. *)
Inductive smooth : Z -> list Z -> Prop :=
  | smooth_nil p : smooth p []
  | smooth_cons p q ps : Z.abs (q - p) <= 4095 -> smooth q ps -> smooth p (q :: ps).

(** Turns passed since [p0]. *)
Definition turns (p0 p : Z) : Z := p / 8192 - p0 / 8192.

Lemma measure_update_tracks m p0 p q :
  50 <= msg_cnt m -> angle m = p mod 8192 -> offset_angle m = p0 mod 8192 ->
  round_cnt m = turns p0 p -> Z.abs (q - p) <= 4095 -> Z.abs (turns p0 q) <= 262000 ->
  exists m', measure_update (q mod 8192) m = Done m' /\ msg_cnt m' = 0xff /\
    angle m' = q mod 8192 /\ offset_angle m' = p0 mod 8192 /\ round_cnt m' = turns p0 q /\
    total_angle m' = q - p0 - turns p0 q.
Proof.
  intros Hc Ha Ho Hr Hq Hb. unfold measure_update. rewrite (proj2 (Z.ltb_ge _ _)) by lia.
  rewrite Ha, Hr, Ho. unfold turns in *.
  assert ((if q mod 8192 - p mod 8192 >? 4096 then int_result (p / 8192 - p0 / 8192 - 1)
    else if q mod 8192 - p mod 8192 <? - 4096 then int_result (p / 8192 - p0 / 8192 + 1)
    else Done (p / 8192 - p0 / 8192)) = Done (q / 8192 - p0 / 8192)) as ->.
  { rewrite Z.gtb_ltb.
    destruct (Z.ltb_spec 4096 (q mod 8192 - p mod 8192)).
    { rewrite int_result_ok by lia. f_equal. lia. }
    destruct (Z.ltb_spec (q mod 8192 - p mod 8192) (- 4096)); [|f_equal; lia].
    rewrite int_result_ok by lia. f_equal. lia. }
  cbn [mbind outcome_bind].
  rewrite int_result_ok by lia. cbn [mbind outcome_bind].
  rewrite int_result_ok by lia. cbn [mbind outcome_bind].
  rewrite int_result_ok by lia. cbn [mbind outcome_bind].
  eexists. split; [reflexivity|]. cbn. split_and!; try done. lia.
Qed.

(** C20: From a fresh record, after fifty calibrating messages, the callback follows any
    shaft that moves less than half a turn per message and stays within 262000 turns:
    round_cnt is the number of full turns passed since the calibration position, and
    total_angle is the distance in counts less one for each full turn, because a turn is
    counted as 8191. *)
Theorem encoder_tracks m cal p0 ps p :
  msg_cnt m = 0 -> round_cnt m = 0 -> length cal = 49%nat ->
  smooth p0 (ps ++ [p]) -> Forall (fun q => Z.abs (turns p0 q) <= 262000) (ps ++ [p]) ->
  exists m', feed m (map (fun q => q mod 8192) (cal ++ [p0] ++ ps ++ [p])) = Done m' /\
    msg_cnt m' = 0xff /\ angle m' = p mod 8192 /\ round_cnt m' = turns p0 p /\
    total_angle m' = p - p0 - turns p0 p.
Proof.
  intros Hm Hr Hcal Hs Hb.
  assert (forall ps p1 m1, 50 <= msg_cnt m1 -> angle m1 = p1 mod 8192 -> offset_angle m1 = p0 mod 8192 ->
    round_cnt m1 = turns p0 p1 -> smooth p1 (ps ++ [p]) ->
    Forall (fun q => Z.abs (turns p0 q) <= 262000) (ps ++ [p]) ->
    exists m', feed m1 (map (fun q => q mod 8192) (ps ++ [p])) = Done m' /\ msg_cnt m' = 0xff /\
      angle m' = p mod 8192 /\ round_cnt m' = turns p0 p /\ total_angle m' = p - p0 - turns p0 p) as Hrun.
  { clear. induction ps as [|q ps IH]; intros p1 m1 Hc Ha Ho Hr Hs Hb; cbn [app map feed] in *;
      inversion Hs as [|? ? ? Hq Hs']; subst; apply Forall_cons in Hb as [Hb Hb'];
      destruct (measure_update_tracks m1 p0 p1 _ Hc Ha Ho Hr Hq Hb)
        as (m2 & -> & Hc2 & Ha2 & Ho2 & Hr2 & Ht2); cbn [mbind outcome_bind feed].
    - exists m2. by split_and!.
    - by apply (IH q m2); [lia|..]. }
  rewrite app_assoc, map_app, feed_app.
  destruct (feed_calibrates (map (fun q => q mod 8192) (cal ++ [p0])) m) as (m1 & -> & Hc & Ha & Ho & Hr1).
  { lia. } { rewrite length_map, length_app. cbn. lia. } { by destruct cal. }
  rewrite map_app in Ha, Ho. cbn [map] in Ha, Ho. rewrite last_last in Ha, Ho.
  cbn [mbind outcome_bind]. apply (Hrun ps p0 m1); try done.
  - rewrite Hc, length_map, length_app. cbn. lia.
  - rewrite Hr1, Hr. unfold turns. lia.
Qed.

(** ** The driver *)
Section wire.
Context {F : Type} `{FloatOps F}.
Implicit Types (ms : list (motor F)) (d : dj).

#[export] Instance dj_laws : MotorOpsLaws F dj.
Proof.
  split. intros id mode v ms d ms' d' Hr. cbn in Hr. unfold motor_dj_driver in Hr.
  destruct (user_record id ms d); cbn in Hr; [|done].
  destruct (to_int16 v) as [c|]; cbn [mbind outcome_bind] in Hr; [|done].
  repeat case_match; cbn in Hr; simplify_eq; try done;
  destruct (arr_set _ _ _); cbn in Hr; [|done]; by repeat case_match; simplify_eq.
Qed.

(** A motor's reader of a current frame: signed 16-bit, high byte first. *)
Fixpoint decode_currents (data : list Z) : list Z :=
  match data with
  | hi :: lo :: data => s16 (256 * hi + lo) :: decode_currents data
  | _ => []
  end.

Lemma decode_current_bytes iq : Forall is_s16 iq -> decode_currents (current_bytes iq) = iq.
Proof.
  induction 1 as [|c iq Hc Hiq IH]; [done|]. unfold current_bytes. cbn [map mjoin list_join app].
  cbn [decode_currents]. f_equal; [|exact IH].
  rewrite Z.shiftr_div_pow2 by lia. change (2 ^ 8) with 256. cint.
Qed.

(** Motor [id] is wired to record [k] of the table. *)
Definition wired id k ms d : Prop :=
  exists m, has_motor id ms m /\ ops m = Some k /\ canids_ok (dj_motors d) /\ 0 <= k < DJ_M_NUM.

Lemma wired_record id k ms d : wired id k ms d ->
  exists r, user_record id ms d = Done r /\ can_id r = CAN_Motor1_ID + k.
Proof.
  intros (m & [Hid Hm] & Hops & Hids & Hk). unfold user_record, motor_get, DJ_M_NUM in *.
  rewrite (proj2 (Z.leb_gt _ _)), (proj2 (Z.ltb_ge _ _)) by lia. cbn [mbind outcome_bind].
  rewrite Hm, Hops. unfold arr_get. rewrite decide_True by lia.
  assert (map can_id (dj_motors d) !! Z.to_nat k = Some (CAN_Motor1_ID + k)) as Hl.
  { rewrite Hids. assert (k = 0 \/ k = 1 \/ k = 2 \/ k = 3) as Hc by lia.
    by destruct Hc as [->|[->|[->| ->]]]. }
  rewrite list_lookup_fmap in Hl. destruct (dj_motors d !! Z.to_nat k) as [r|]; [|done].
  cbn in Hl. simplify_eq. by exists r.
Qed.

(** One call of the driver. *)
Lemma dj_drive id k ms d v c :
  wired id k ms d -> to_int16 v = Done c -> length (iq1_low d) = 4%nat -> Forall is_s16 (iq1_low d) ->
  exists d', op_driver id MOTOR_MODE_TORQUE v (ms, d) = Done (ms, d') /\
  if negb (all_reported d) then d' = d
  else if decide (head (can_ok d) = Some false) then
    can_tx d' = can_tx d /\ Forall (fun r => msg_cnt r = 50) (dj_motors d')
  else exists data, can_tx d' = can_tx d ++ [(CAN_Motor_ALL_ID, data)] /\ length data = 8%nat /\
         Forall is_u8 data /\ decode_currents data = <[Z.to_nat k := c]> (iq1_low d) /\
         dj_motors d' = dj_motors d /\ iq1_low d' = <[Z.to_nat k := c]> (iq1_low d) /\
         can_ok d' = tail (can_ok d) /\ dj_m_ringfifo d' = dj_m_ringfifo d.
Proof.
  intros Hw Hv Hl Hiq. destruct (wired_record id k ms d Hw) as (r & Hrec & Hcan).
  destruct Hw as (_ & _ & _ & _ & Hk). unfold DJ_M_NUM in Hk.
  assert (is_s16 c) as Hc by (by apply f_to_int_range in Hv).
  cbn [op_driver dj_ops]. unfold motor_dj_driver. rewrite Hrec. cbn [mbind outcome_bind]. rewrite Hv.
  cbn [mbind outcome_bind]. change (MOTOR_MODE_TORQUE =? MOTOR_MODE_TORQUE) with true. cbn match.
  change (0 - CAN_Motor1_ID >? 8) with false. change (0 - CAN_Motor1_ID >? 4) with false. cbn match.
  destruct (all_reported d); [|by exists d]. cbn [negb].
  assert (u16 (Z.rem (can_id r - CAN_Motor1_ID) 4) = k) as ->.
  { rewrite Hcan. replace (CAN_Motor1_ID + k - CAN_Motor1_ID) with k by lia.
    rewrite Z.rem_small by lia. cint. }
  rewrite arr_set_ok by lia. cbn [mbind outcome_bind].
  set (iq := <[Z.to_nat k := c]> (iq1_low d)).
  assert (Forall is_s16 iq) as Hiq' by (by apply Forall_insert).
  assert (length (current_bytes iq) = 8%nat /\ Forall is_u8 (current_bytes iq)) as [Hlen Hu8].
  { assert (length iq = 4%nat) as Hliq by (unfold iq; by rewrite length_insert).
    clear -Hliq. destruct iq as [|a [|b [|e [|f [|]]]]]; try discriminate. cbn.
    split; [done|]. repeat constructor; cint. }
  unfold can_write. cbn [can_ok set_iq_low].
  destruct (can_ok d) as [|[] ok]; cbn [head]; try rewrite decide_False by done;
    try rewrite decide_True by done.
  1,2: eexists; split; [reflexivity|]; exists (current_bytes iq); cbn;
    split_and!; try done; by apply decode_current_bytes.
  eexists. split; [reflexivity|]. cbn. split; [done|]. apply Forall_forall. intros x Hx.
  apply list_elem_of_fmap in Hx as (y & -> & _). done.
Qed.

(** C23: Driving a configured motor with a value that fits int16 does nothing until all
    four motors have reported; then one frame of eight bytes goes out from which a
    reader gets the four currents, the new one in its motor's place; if the bus refuses
    it, every motor must report again. The motor table is untouched. *)
Theorem dj_currents_on_the_wire id k ms d v c :
  wired id k ms d -> to_int16 v = Done c -> length (iq1_low d) = 4%nat -> Forall is_s16 (iq1_low d) ->
  exists d', op_driver id MOTOR_MODE_TORQUE v (ms, d) = Done (ms, d') /\
  if negb (all_reported d) then d' = d
  else if decide (head (can_ok d) = Some false) then
    can_tx d' = can_tx d /\ Forall (fun r => msg_cnt r = 50) (dj_motors d')
  else exists data, can_tx d' = can_tx d ++ [(CAN_Motor_ALL_ID, data)] /\ length data = 8%nat /\
         Forall is_u8 data /\ decode_currents data = <[Z.to_nat k := c]> (iq1_low d) /\
         dj_motors d' = dj_motors d /\ iq1_low d' = <[Z.to_nat k := c]> (iq1_low d) /\
         can_ok d' = tail (can_ok d) /\ dj_m_ringfifo d' = dj_m_ringfifo d.
Proof. apply dj_drive. Qed.
End wire.

(** ** The configuration at start *)

(** What the bring-up fixes of a controller: limits, dead zone, integral way. *)
Definition pid_limits {F} (p : option (apid_t F)) : option (F * F * F * F * F * option i_handler) :=
  p ← p; let q := parameter p in
  Some (out_limit q, target_limit q, bias_limit q, bias_dead_zone q, integral_limit q, i_handle p).

(** After motor_dj_init every motor is fed back passively with the torque-level
    behaviour; the controllers of motors 1, 2 and 4 have the intended limits, motor 3's
    speed target limit and position integral limit are left at their defaults, and
    motors 3 and 4 have no bias limit. *)
Theorem dj_init_config {F} `{FloatOps F} heap :
  exists ms, motor_dj_init heap motor_list_init = Done ms /\
  let saturating := Some (IHandle PID_POSITION PID_INTEGRAL_SATURATION) in
  let neg1 := f_of_Z (-1) in
  let speed tl bl := Some (f_of_Z 30000, tl, bl, f_of_Z 20, f_of_Z 200, saturating) in
  map (fun m => (flag_passive_feedback m, behaver m, flag_out_mode m)) ms
    = replicate 4 (true, Some 2, MOTOR_MODE_TORQUE) /\
  map (fun m => pid_limits (pid_speed m)) ms =
    [speed (f_of_Z 80) (f_of_Z 2000); speed (f_of_Z 80) (f_of_Z 2000);
     speed f_flt_max neg1; speed (f_of_Z 80) neg1] /\
  map (fun m => pid_limits (pid_pos m)) ms =
    [Some (f_of_Z 65, f_flt_max, neg1, neg1, f_of_Z 200, saturating);
     Some (f_of_Z 65, f_flt_max, neg1, neg1, f_of_Z 200, saturating);
     Some (f_of_Z 65, f_flt_max, neg1, neg1, neg1, Some (IHandle PID_POSITION PID_INTEGRAL_NORMAL));
     Some (f_of_Z 65, f_flt_max, neg1, neg1, f_of_Z 200, saturating)].
Proof.
  destruct heap as [[h1 h2] h3]. eexists. split; [vm_compute; reflexivity|].
  split_and!; vm_compute; reflexivity.
Qed.

(** ** Witnesses *)

Lemma canid_search_witness : motor_get_by_canid dj_motors_init 0x200 = Fault OutOfBounds.
Proof. apply (canid_search dj_motors_init 0x200); [reflexivity|by split]. Defined.

(** One turn forward in three steps: 8191 counts, not 8192. *)
Lemma encoder_tracks_witness :
  exists m', feed (Measure 0 0x201 0 0 0 0 0 0)
    (map (fun q => q mod 8192) (replicate 49 100 ++ [100] ++ [4000; 8000] ++ [8292])) = Done m' /\
    total_angle m' = 8191.
Proof.
  destruct (encoder_tracks (Measure 0 0x201 0 0 0 0 0 0) (replicate 49 100) 100 [4000; 8000] 8292)
    as (m' & Hf & _ & _ & _ & Ht); [reflexivity|reflexivity|reflexivity| | |].
  { repeat (apply smooth_cons; [lia|]). apply smooth_nil. }
  { repeat (apply Forall_cons; split; [unfold turns; lia|]). by apply Forall_nil. }
  exists m'. split; [exact Hf|exact Ht].
Defined.

(** All motors have reported; motor 2 is given -300. *)
Lemma dj_currents_on_the_wire_witness :
  let d := Dj (map (set_msg_cnt 0xff) dj_motors_init) [1; 2; 3; 4] [0; 0; 0; 0] [] [] [] in
  exists d' data, op_driver 2 MOTOR_MODE_TORQUE (f_of_Z (-300) : f32) (motor_list_init, d)
    = Done (motor_list_init, d') /\ can_tx d' = [(CAN_Motor_ALL_ID, data)] /\
    decode_currents data = [1; 2; -300; 4].
Proof.
  intros d.
  destruct (dj_currents_on_the_wire 2 2 motor_list_init d (f_of_Z (-300) : f32) (-300))
    as (d' & Hr & Hd).
  { exists (motor_list_entry 2). by split_and!. }
  { by vm_compute. } { done. }
  { repeat (apply Forall_cons; split; [cbn; cint|]). by apply Forall_nil. }
  destruct Hd as (data & Htx & _ & _ & Hdec & _). by exists d', data.
Defined.

(** [dj_motor_BackToZero] takes effect from the next message on: the counts are those since then. *)
Lemma back_to_zero_restarts a m : msg_cnt m = 255 -> is_u16 a -> is_u16 (angle m) -> Z.abs (a - angle m) <= 4096 ->
  exists m', measure_update a (dj_motor_BackToZero m) = Done m' /\ total_angle m' = a - angle m /\ round_cnt m' = 0.
Proof.
  intros Hc Ha Hm Hd. unfold measure_update. cbn [msg_cnt angle round_cnt offset_angle dj_motor_BackToZero].
  rewrite Hc. cbn [Z.ltb Z.compare Pos.compare Pos.compare_cont].
  rewrite Z.gtb_ltb, (proj2 (Z.ltb_ge _ _)), (proj2 (Z.ltb_ge _ _)) by lia. cbn [mbind outcome_bind].
  rewrite !int_result_ok by cint. cbn [mbind outcome_bind]. rewrite !int_result_ok by cint. cbn [mbind outcome_bind].
  rewrite !int_result_ok by cint. eexists. split; [done|]. split; [cbn; lia|done].
Qed.

(** ** The queue is the kernel's ring buffer

    The list [dj_m_ringfifo] stands for the ring of 4096 bytes: the callback's
    [rt_ringbuffer_putchar_force] and the thread's [rt_ringbuffer_getchar] do to the ring
    what the model does to the list. *)
Lemma dj_queue_put rb q x : rb_rep rb q -> buffer_size rb = 4096 ->
  exists rb', rt_ringbuffer_putchar_force rb (u8 x) = Done (rb', 1) /\ buffer_size rb' = 4096 /\
    rb_rep rb' (ring_put_force x q).
Proof.
  intros Hrep Hs. pose proof Hrep as ([_ _ _ _ Hu] & Hl & _).
  rewrite (putchar_force_put_force rb q Hrep).
  destruct (put_force_ok rb q Hrep [u8 x] 1) as (rb' & -> & Hsz & Hrep'); [cint|cbn; lia|].
  rewrite Hs in *. exists rb'. split; [done|]. split; [done|].
  replace (ring_put_force x q) with (lastn 4096 (q ++ [u8 x])); [done|]. unfold ring_put_force. case_decide.
  - rewrite lastn_overflow by (cbn; lia). replace (Z.to_nat _) with 1%nat by (cbn; lia).
    by destruct q.
  - apply lastn_all. rewrite length_app. cbn. lia.
Qed.
Lemma dj_queue_get rb q : rb_rep rb q ->
  exists rb', rt_ringbuffer_getchar rb =
    Done (rb', head q, match q with [] => 0 | _ => 1 end) /\ rb_rep rb' (tail q).
Proof.
  intros Hrep. destruct (getchar_get rb q Hrep) as (rb' & -> & Hrep'). destruct q as [|b q].
  - by exists rb.
  - destruct Hrep' as [? _]; [done|]. by exists rb'.
Qed.
