(* ===== verification/Chassis.v ===== *)
(** * [chassis/]: the mecanum chassis

    The chassis keeps a target, the present state and an offset, each a speed and a
    position; its operations go through two function pointers, [module] (the wheel
    kinematics) and [driver] (the motors), which the firmware sets to [module_mai]
    and [driver_mai] with the wheel data [mai_data] between them.  The formulas mix
    [float] and [double] as the constants of [chassis_module_mai.c] make them. *)
From Stdlib Require Import Field.
From S2P Require Import Prelude CFloat Apid Motor.

Definition CHASSIS_IDLE : Z := 0.
Definition CHASSIS_SPEED : Z := 1.
Definition CHASSIS_POS : Z := 2.
Definition MOTOR_MAI_ID_1 : Z := 0.
Definition MOTOR_MAI_ID_2 : Z := 1.
Definition MOTOR_MAI_ID_3 : Z := 2.
Definition MOTOR_MAI_ID_4 : Z := 3.

Section chassis.
Context {F : Type} `{FloatOps F} `{DoubleOf F}.

Record chassis_speed_t := Speed { x_m_s : F; y_m_s : F; z_rad_s : F }.
Record chassis_pos_t := Pos { x_m : F; y_m : F; z_rad : F }.
Record chassis_data_t := Data { speed : chassis_speed_t; pos : chassis_pos_t }.
Record chassis_t := Chassis {
  c_target : chassis_data_t;
  c_present : chassis_data_t;
  run_status : Z;
  offset : chassis_data_t;
}.
Record chassis_mai_data_t := MaiData { mai_type : Z; motor1 : F; motor2 : F; motor3 : F; motor4 : F }.

(** The chassis, its wheel data and the motor table. *)
Record robot := Robot { rb_chassis : chassis_t; mai_data : chassis_mai_data_t; rb_motors : list (motor F) }.

Definition set_speed (v : chassis_speed_t) (d : chassis_data_t) : chassis_data_t := Data v (pos d).
Definition set_pos (v : chassis_pos_t) (d : chassis_data_t) : chassis_data_t := Data (speed d) v.
Definition set_present (d : chassis_data_t) (c : chassis_t) : chassis_t :=
  Chassis (c_target c) d (run_status c) (offset c).

(** ** [chassis.c]: targets *)

Definition chassis_init (c : chassis_t) : chassis_t :=
  Chassis (c_target c) (c_present c) CHASSIS_IDLE (offset c).
Definition chassis_set_pos (c : chassis_t) (data : chassis_pos_t) : chassis_t :=
  Chassis (set_pos data (c_target c)) (c_present c) CHASSIS_POS (offset c).
Definition chassis_set_speed (c : chassis_t) (data : chassis_speed_t) : chassis_t :=
  Chassis (set_speed data (c_target c)) (c_present c) CHASSIS_SPEED (offset c).
Definition chassis_get_pos (c : chassis_t) : chassis_pos_t := pos (c_present c).
Definition chassis_get_speed (c : chassis_t) : chassis_speed_t := speed (c_present c).
Definition chassis_pos_clean (c : chassis_t) : chassis_t :=
  set_present (set_pos (pos (c_target c)) (c_present c)) c.
Definition chassis_get_runstate (c : chassis_t) : Z := run_status c.

(** ** [chassis_module_mai.c]: the wheels *)

Definition CHASSIS_MAI_WHELL_R_M : F := (f_lit 7 100 / f_of_Z 2)%F.
Definition CHSSIS_MAI_A_M : F := f_lit 1235 10000.
Definition CHSSIS_MAI_B_M : F := f_lit 1775 10000.
Definition PI : F := f_lit 314159265359 100000000000.
Definition CHASSIS_HALF_A_B : dbl := (f_lit 1 2 * widen (CHSSIS_MAI_A_M + CHSSIS_MAI_B_M))%F.
Definition CHASSIS_2PIR : dbl := (f_lit 628318530718 100000000000 * widen CHASSIS_MAI_WHELL_R_M)%F.
Definition conversion : F := (f_of_Z 180 / CHASSIS_MAI_WHELL_R_M / PI)%F.

(** [module_mai] with [output] set: targets and offsets to wheel values. *)
Definition module_mai_output (c : chassis_t) (cmd : Z) (d : chassis_mai_data_t) : chassis_mai_data_t :=
  if cmd =? CHASSIS_SPEED then
    let t := speed (c_target c) in
    let o := speed (offset c) in
    let x := (x_m_s t + x_m_s o)%F in
    let y := (y_m_s t + y_m_s o)%F in
    let turn := (widen (z_rad_s t + z_rad_s o) * CHASSIS_HALF_A_B)%F in
    let wheel a := narrow (- (widen a - turn) / CHASSIS_2PIR * widen (f_of_Z 60))%F in
    MaiData cmd (wheel (x - y)%F) (wheel (x + y)%F) (wheel (x + y)%F) (wheel (x - y)%F)
  else if cmd =? CHASSIS_POS then
    let t := pos (c_target c) in
    let o := pos (offset c) in
    let x := (x_m t + x_m o)%F in
    let y := (y_m t + y_m o)%F in
    let turn := (widen (z_rad t + z_rad o) * CHASSIS_HALF_A_B)%F in
    let wheel a := narrow ((widen a - turn) * widen conversion)%F in
    MaiData cmd (wheel (x + y)%F) (wheel (x - y)%F) (wheel (- x - y)%F) (wheel (- x + y)%F)
  else MaiData cmd (motor1 d) (motor2 d) (motor3 d) (motor4 d).

(** [module_mai] with [input] set: wheel values to the present state. *)
Definition module_mai_input (c : chassis_t) (cmd : Z) (d : chassis_mai_data_t) : chassis_t :=
  let m1 := motor1 d in let m2 := motor2 d in let m3 := motor3 d in let m4 := motor4 d in
  if cmd =? CHASSIS_SPEED then
    let o := speed (offset c) in
    let rate a := (widen a / CHASSIS_2PIR * widen (f_of_Z 60))%F in
    let v := Speed
      (narrow (widen (x_m_s o) + rate (m1 - m2)%F / widen (f_of_Z 2))%F)
      (narrow (widen (y_m_s o) + rate (- m2 + m4)%F / widen (f_of_Z 2))%F)
      (narrow (widen (z_rad_s o) + rate (- (m3 + m2))%F / (widen (f_of_Z 2) * CHASSIS_HALF_A_B))%F) in
    set_present (set_speed v (c_present c)) c
  else if cmd =? CHASSIS_POS then
    let o := pos (offset c) in
    let p := Pos
      (x_m o + (m1 + m2 - m3 - m4) / f_of_Z 4 / conversion)%F
      (y_m o + (m1 - m2 - m3 + m4) / f_of_Z 4 / conversion)%F
      (narrow (widen (z_rad o) - widen (m1 + m2 + m3 + m4) / CHASSIS_HALF_A_B / widen (f_of_Z 4)
               / widen conversion)%F) in
    set_present (set_pos p (c_present c)) c
  else c.

(** [driver_mai] with [input] set: the measurements of the four motors. *)
Definition driver_mai_input (cmd : Z) (d : chassis_mai_data_t) (ms : list (motor F))
    : outcome chassis_mai_data_t :=
  let read get :=
    m1 ← get MOTOR_MAI_ID_1 ms; m2 ← get MOTOR_MAI_ID_2 ms;
    m3 ← get MOTOR_MAI_ID_3 ms; m4 ← get MOTOR_MAI_ID_4 ms;
    Done (MaiData (mai_type d) m1 m2 m3 m4) in
  if cmd =? CHASSIS_SPEED then read motor_get_speed
  else if cmd =? CHASSIS_POS then read motor_get_pos else Done d.

(** [driver_mai] with [output] set: the commands to the four motors. *)
Definition driver_mai_output (cmd : Z) (d : chassis_mai_data_t) (ms : list (motor F))
    : outcome (list (motor F)) :=
  let write (set : Z -> F -> list (motor F) -> outcome (list (motor F))) :=
    ms ← set MOTOR_MAI_ID_1 (motor1 d) ms; ms ← set MOTOR_MAI_ID_2 (motor2 d) ms;
    ms ← set MOTOR_MAI_ID_3 (motor3 d) ms; set MOTOR_MAI_ID_4 (motor4 d) ms in
  if cmd =? CHASSIS_SPEED then write motor_set_speed
  else if cmd =? CHASSIS_POS then write motor_set_pos else Done ms.

(** ** [chassis.c]: the periodic step *)

(** [driver(chassis, NULL, date, cmd)], then [module(chassis, NULL, date, cmd)]. *)
Definition chassis_updata (cmd : Z) (r : robot) : outcome robot :=
  d ← driver_mai_input cmd (mai_data r) (rb_motors r);
  Done (Robot (module_mai_input (rb_chassis r) cmd d) d (rb_motors r)).
Definition chassis_updata_speed : robot -> outcome robot := chassis_updata CHASSIS_SPEED.
Definition chassis_updata_pos : robot -> outcome robot := chassis_updata CHASSIS_POS.

(** [module(chassis, date, NULL, cmd)], then [driver(chassis, date, NULL, cmd)]. *)
Definition chassis_drv_set (cmd : Z) (r : robot) : outcome robot :=
  let d := module_mai_output (rb_chassis r) cmd (mai_data r) in
  ms ← driver_mai_output cmd d (rb_motors r);
  Done (Robot (rb_chassis r) d ms).
Definition chassis_drv_set_speed : robot -> outcome robot := chassis_drv_set CHASSIS_SPEED.
Definition chassis_drv_set_pos : robot -> outcome robot := chassis_drv_set CHASSIS_POS.

Definition chassis_updata_offset (c : chassis_t) : chassis_t :=
  Chassis (c_target c) (c_present c) (run_status c) (set_pos (Pos 0 0 0)%F (offset c)).

Definition chassis_handle (r : robot) : outcome robot :=
  r ← chassis_updata_speed r;
  r ← chassis_updata_pos r;
  let r := Robot (chassis_updata_offset (rb_chassis r)) (mai_data r) (rb_motors r) in
  let s := run_status (rb_chassis r) in
  if s =? CHASSIS_SPEED then chassis_drv_set_speed r
  else if s =? CHASSIS_POS then chassis_drv_set_pos r else Done r.

(** ** [chassis_port.c] *)

(** The union of a speed and a position is three floats. *)
Record chassis_ctrl_t := Ctrl { ctrl_type : Z; ctrl_x : F; ctrl_y : F; ctrl_z : F }.

(** What [afifo_out_data] yields: a whole message, or fewer bytes. *)
Definition chassis_sub_callback (msg : option chassis_ctrl_t) (r : robot) : robot * Z :=
  match msg with
  | None => (r, -1)
  | Some m =>
    let c := if ctrl_type m =? 0
             then chassis_set_speed (rb_chassis r) (Speed (ctrl_x m) (ctrl_y m) (ctrl_z m))
             else chassis_set_pos (rb_chassis r) (Pos (ctrl_x m) (ctrl_y m) (ctrl_z m)) in
    (Robot c (mai_data r) (rb_motors r), 0)
  end.

(** [chassis_port_init], and the thread before its loop: the static [chassis_pos] is
    zero. *)
Definition chassis_port_start (c : chassis_t) : chassis_t :=
  chassis_set_pos (chassis_init c) (Pos 0%F 0%F 0%F).
End chassis.
Arguments chassis_speed_t : clear implicits.
Arguments chassis_pos_t : clear implicits.
Arguments chassis_data_t : clear implicits.
Arguments chassis_t : clear implicits.
Arguments chassis_mai_data_t : clear implicits.
Arguments chassis_ctrl_t : clear implicits.
Arguments robot : clear implicits.

(** ** The kinematics, in exact arithmetic *)
Section exact.
Open Scope Qc_scope.

(** The constants, which are not 0. *)
Ltac nonzero :=
  let Hz := fresh in intros Hz; apply (f_equal (fun q : Qc => Qeq_bool q 0)) in Hz;
  vm_compute in Hz; discriminate Hz.
Definition half_ab : Qc := CHASSIS_HALF_A_B (F := Qc).
Definition conv : Qc := conversion (F := Qc).

Lemma half_ab_nonzero : half_ab <> 0.
Proof. nonzero. Qed.
Lemma conv_nonzero : conv <> 0.
Proof. nonzero. Qed.
Lemma four_nonzero : qc_of_Z 4 <> 0.
Proof. nonzero. Qed.
Lemma four_qc : qc_of_Z 4 = 1 + 1 + 1 + 1.
Proof. by apply Qc_is_canon. Qed.

Lemma wheels_pos_x x y w k : k <> 0 ->
  ((x + y - w) * k + (x - y - w) * k - (- x - y - w) * k - (- x + y - w) * k) / qc_of_Z 4 / k = x.
Proof.
  intros Hk. pose proof four_nonzero as H4. rewrite four_qc in *. field. by split.
Qed.
Lemma wheels_pos_y x y w k : k <> 0 ->
  ((x + y - w) * k - (x - y - w) * k - (- x - y - w) * k + (- x + y - w) * k) / qc_of_Z 4 / k = y.
Proof.
  intros Hk. pose proof four_nonzero as H4. rewrite four_qc in *. field. by split.
Qed.
Lemma wheels_pos_z x y z h k : k <> 0 -> h <> 0 ->
  0 - ((x + y - z * h) * k + (x - y - z * h) * k + (- x - y - z * h) * k + (- x + y - z * h) * k)
      / h / qc_of_Z 4 / k = z.
Proof.
  intros Hk Hh. pose proof four_nonzero as H4. rewrite four_qc in *. field. by split_and!.
Qed.
End exact.

(** The motors after they have reached their position targets. *)
Definition all_arrived {F} (r : robot F) : robot F :=
  Robot (rb_chassis r) (mai_data r) (map (fun m => mset_cur_pos (tar_pos m) m) (rb_motors r)).

Section steps.
Context {F : Type} `{FloatOps F} `{DoubleOf F}.
Implicit Types (c : chassis_t F) (d : chassis_mai_data_t F) (a : motor F) (p : chassis_pos_t F).

(** [module_mai] with [input] only writes the present state. *)
Lemma module_input_frame c cmd d :
  c_target (module_mai_input c cmd d) = c_target c /\
  run_status (module_mai_input c cmd d) = run_status c /\
  offset (module_mai_input c cmd d) = offset c.
Proof. unfold module_mai_input. repeat case_match; done. Qed.

(** The wheel values of a position target and the position of wheel values, when
    there is no offset; [k] is [conversion], [h] is [CHASSIS_HALF_A_B]. *)
Definition wheels_of (k : F) (h : dbl) p : chassis_mai_data_t F :=
  let x := (x_m p + 0)%F in
  let y := (y_m p + 0)%F in
  let turn := (widen (z_rad p + 0) * h)%F in
  let wheel (v : F) := narrow ((widen v - turn) * widen k)%F in
  MaiData CHASSIS_POS (wheel (x + y)%F) (wheel (x - y)%F) (wheel (- x - y)%F) (wheel (- x + y)%F).
Definition pos_of (k : F) (h : dbl) d : chassis_pos_t F :=
  let m1 := motor1 d in let m2 := motor2 d in let m3 := motor3 d in let m4 := motor4 d in
  Pos (0 + (m1 + m2 - m3 - m4) / f_of_Z 4 / k)%F
      (0 + (m1 - m2 - m3 + m4) / f_of_Z 4 / k)%F
      (narrow (widen 0 - widen (m1 + m2 + m3 + m4) / h / widen (f_of_Z 4) / widen k)%F).

Lemma module_output_pos c d : pos (offset c) = Pos 0%F 0%F 0%F ->
  module_mai_output c CHASSIS_POS d = wheels_of conversion CHASSIS_HALF_A_B (pos (c_target c)).
Proof. intros Ho. unfold module_mai_output. cbn match. by rewrite Ho. Qed.
Lemma module_input_pos c d : pos (offset c) = Pos 0%F 0%F 0%F ->
  chassis_get_pos (module_mai_input c CHASSIS_POS d) = pos_of conversion CHASSIS_HALF_A_B d.
Proof. intros Ho. unfold module_mai_input. cbn match. by rewrite Ho. Qed.

Definition aim (v : F) a : motor F := mset_tar_pos v (mset_flag_run_mode MOTOR_MODE_POS a).

(** One step in position mode, on a table of four motors. *)
Lemma chassis_handle_pos c d a1 a2 a3 a4 : run_status c = CHASSIS_POS ->
  let ms := [a1; a2; a3; a4] in
  let ds := MaiData (mai_type d) (cur_speed a1) (cur_speed a2) (cur_speed a3) (cur_speed a4) in
  let dp := MaiData (mai_type d) (cur_pos a1) (cur_pos a2) (cur_pos a3) (cur_pos a4) in
  let c1 := module_mai_input (module_mai_input c CHASSIS_SPEED ds) CHASSIS_POS dp in
  let w := wheels_of conversion CHASSIS_HALF_A_B (pos (c_target c)) in
  chassis_handle (Robot c d ms) = Done (Robot (chassis_updata_offset c1) w
    [aim (motor1 w) a1; aim (motor2 w) a2; aim (motor3 w) a3; aim (motor4 w) a4]).
Proof.
  intros Hs ms ds dp c1 w.
  destruct (module_input_frame c CHASSIS_SPEED ds) as (Ht & Hr & _).
  destruct (module_input_frame (module_mai_input c CHASSIS_SPEED ds) CHASSIS_POS dp) as (Ht1 & Hr1 & _).
  fold c1 in Ht1, Hr1.
  unfold chassis_handle, chassis_updata_speed, chassis_updata_pos, chassis_updata.
  change (driver_mai_input CHASSIS_SPEED _ _) with (Done ds). cbn [mbind outcome_bind].
  change (driver_mai_input CHASSIS_POS _ _) with (Done dp). cbn [mbind outcome_bind].
  cbn [rb_chassis mai_data rb_motors]. fold c1. cbv zeta.
  change (run_status (chassis_updata_offset c1)) with (run_status c1).
  rewrite Hr1, Hr, Hs. change (CHASSIS_POS =? CHASSIS_SPEED) with false.
  change (CHASSIS_POS =? CHASSIS_POS) with true. cbn match.
  unfold chassis_drv_set_pos, chassis_drv_set. cbn [rb_chassis mai_data rb_motors]. cbv zeta.
  rewrite module_output_pos by done. change (pos (c_target (chassis_updata_offset c1))) with (pos (c_target c1)).
  rewrite Ht1, Ht. fold w. reflexivity.
Qed.

(** A step on a table of four motors returns, whatever the mode, and only writes the
    present state, the offset and the motors. *)
Lemma chassis_handle_ok (r : robot F) : length (rb_motors r) = 4%nat ->
  exists r', chassis_handle r = Done r' /\ length (rb_motors r') = 4%nat /\
    c_target (rb_chassis r') = c_target (rb_chassis r) /\
    run_status (rb_chassis r') = run_status (rb_chassis r).
Proof.
  destruct r as [c d ms]. intros Hlen. cbn in Hlen.
  destruct ms as [|a1 [|a2 [|a3 [|a4 [|]]]]]; try discriminate.
  set (ds := MaiData (mai_type d) (cur_speed a1) (cur_speed a2) (cur_speed a3) (cur_speed a4)).
  set (dp := MaiData (mai_type d) (cur_pos a1) (cur_pos a2) (cur_pos a3) (cur_pos a4)).
  set (c1 := module_mai_input (module_mai_input c CHASSIS_SPEED ds) CHASSIS_POS dp).
  assert (c_target c1 = c_target c /\ run_status c1 = run_status c) as [Ht Hr].
  { unfold c1.
    split; rewrite ?(proj1 (module_input_frame _ _ _)), ?(proj1 (proj2 (module_input_frame _ _ _))); done. }
  unfold chassis_handle, chassis_updata_speed, chassis_updata_pos, chassis_updata.
  change (driver_mai_input CHASSIS_SPEED _ _) with (Done ds). cbn [mbind outcome_bind].
  change (driver_mai_input CHASSIS_POS _ _) with (Done dp). cbn [mbind outcome_bind].
  cbn [rb_chassis mai_data rb_motors]. fold c1. cbv zeta.
  change (run_status (chassis_updata_offset c1)) with (run_status c1). rewrite <- Ht, <- Hr.
  destruct (run_status c1 =? CHASSIS_SPEED); [by eexists|].
  destruct (run_status c1 =? CHASSIS_POS); by eexists.
Qed.

(** [chassis_pos_clean] is forgotten by the next step, which measures the position
    again. *)
Lemma chassis_clean_forgotten c d ms :
  chassis_handle (Robot (chassis_pos_clean c) d ms) = chassis_handle (Robot c d ms).
Proof.
  unfold chassis_handle, chassis_updata_speed, chassis_updata_pos, chassis_updata.
  cbn [rb_chassis mai_data rb_motors].
  destruct (driver_mai_input CHASSIS_SPEED d ms) as [d1|]; [|done]. cbn [mbind outcome_bind rb_chassis mai_data rb_motors].
  by destruct (driver_mai_input CHASSIS_POS d1 ms).
Qed.

(** A step in position mode, the wheels reaching what it commands, another step. *)
Lemma chassis_follows c d a1 a2 a3 a4 : run_status c = CHASSIS_POS ->
  let w := wheels_of conversion CHASSIS_HALF_A_B (pos (c_target c)) in
  exists c1, chassis_handle (Robot c d [a1; a2; a3; a4]) = Done (Robot c1 w
    [aim (motor1 w) a1; aim (motor2 w) a2; aim (motor3 w) a3; aim (motor4 w) a4]) /\
  forall b1 b2 b3 b4, cur_pos b1 = motor1 w -> cur_pos b2 = motor2 w ->
    cur_pos b3 = motor3 w -> cur_pos b4 = motor4 w ->
  exists r2, chassis_handle (Robot c1 w [b1; b2; b3; b4]) = Done r2 /\
    chassis_get_pos (rb_chassis r2) = pos_of conversion CHASSIS_HALF_A_B w.
Proof.
  intros Hr w. rewrite (chassis_handle_pos c d a1 a2 a3 a4 Hr). cbv zeta. fold w.
  match goal with |- context [Robot (chassis_updata_offset ?q) w _] => set (c1 := q) end.
  eexists. split; [done|]. intros b1 b2 b3 b4 H1 H2 H3 H4.
  assert (run_status (chassis_updata_offset c1) = CHASSIS_POS) as Hr1.
  { change (run_status c1 = CHASSIS_POS). unfold c1. by rewrite !(proj1 (proj2 (module_input_frame _ _ _))). }
  eexists. split; [by apply chassis_handle_pos|]. cbn [rb_chassis].
  change (chassis_get_pos (chassis_updata_offset ?q)) with (chassis_get_pos q).
  rewrite module_input_pos by (by rewrite (proj2 (proj2 (module_input_frame _ _ _)))).
  unfold pos_of. cbn [motor1 motor2 motor3 motor4]. by rewrite H1, H2, H3, H4.
Qed.

(** Two steps after a position message, the motors arriving between them. *)
Lemma chassis_two_steps (r : robot F) x y z : length (rb_motors r) = 4%nat ->
  exists r1 r2,
    chassis_handle (chassis_sub_callback (Some (Ctrl 1 x y z)) r).1 = Done r1 /\
    Forall (fun m => flag_run_mode m = MOTOR_MODE_POS) (rb_motors r1) /\
    chassis_handle (all_arrived r1) = Done r2 /\
    chassis_get_pos (rb_chassis r2)
    = pos_of conversion CHASSIS_HALF_A_B (wheels_of conversion CHASSIS_HALF_A_B (Pos x y z)).
Proof.
  intros Hlen. destruct r as [c d ms]. cbn in Hlen.
  destruct ms as [|a1 [|a2 [|a3 [|a4 [|]]]]]; try discriminate.
  destruct (chassis_follows (chassis_set_pos c (Pos x y z)) d a1 a2 a3 a4 eq_refl) as (c1 & H1 & H2).
  edestruct H2 as (r2 & Hr2 & Hp); [..|eexists _, r2; split; [exact H1|]; split; [by repeat constructor|];
    split; [exact Hr2|exact Hp]]; done.
Qed.
End steps.

Lemma pos_of_wheels_of (k h : Qc) p : k <> 0%Qc -> h <> 0%Qc -> pos_of k h (wheels_of k h p) = p.
Proof.
  intros Hk Hh. destruct p as [x y z]. unfold pos_of, wheels_of.
  cbn -[Qcplus Qcmult Qcminus Qcdiv Qcopp qc_of_Z].
  change (qc_of_Z 0) with (0%Qc). rewrite !Qcplus_0_r, !Qcplus_0_l.
  by rewrite (wheels_pos_x x y), (wheels_pos_y x y), (wheels_pos_z x y z).
Qed.

(** C16: In exact arithmetic, with the four wheel motors present: a position message, a
    step of the chassis, the motors arriving at the wheel positions that step commands,
    and another step make the chassis report exactly the position that was sent; the
    first step puts every motor in position mode. *)
Theorem chassis_pos_roundtrip (r : robot Qc) x y z :
  length (rb_motors r) = 4%nat ->
  exists r1 r2,
    chassis_handle (chassis_sub_callback (Some (Ctrl 1 x y z)) r).1 = Done r1 /\
    Forall (fun m => flag_run_mode m = MOTOR_MODE_POS) (rb_motors r1) /\
    chassis_handle (all_arrived r1) = Done r2 /\ chassis_get_pos (rb_chassis r2) = Pos x y z.
Proof.
  intros Hlen. destruct (chassis_two_steps r x y z Hlen) as (r1 & r2 & H1 & Hm & H2 & Hp).
  exists r1, r2. rewrite Hp, pos_of_wheels_of by (apply conv_nonzero || apply half_ab_nonzero).
  by split_and!.
Qed.

(** The chassis and its motors as the statics start, all 0. *)
Definition zero_data : chassis_data_t Qc := Data (Speed 0%Qc 0%Qc 0%Qc) (Pos 0%Qc 0%Qc 0%Qc).
Definition zero_motor : motor Qc :=
  Motor None 0 0 0 0 0 None None None 0%Qc 0%Qc 0%Qc 0%Qc 0%Qc 0%Qc 0 0 0 true 0 None 0%Qc.
Definition zero_robot : robot Qc :=
  Robot (Chassis zero_data zero_data CHASSIS_IDLE zero_data) (MaiData 0 0%Qc 0%Qc 0%Qc 0%Qc)
    (replicate 4 zero_motor).
Lemma chassis_pos_roundtrip_witness :
  exists r1 r2,
    chassis_handle (chassis_sub_callback (Some (Ctrl 1 1%Qc 0%Qc 0%Qc)) zero_robot).1 = Done r1 /\
    Forall (fun m => flag_run_mode m = MOTOR_MODE_POS) (rb_motors r1) /\
    chassis_handle (all_arrived r1) = Done r2 /\ chassis_get_pos (rb_chassis r2) = Pos 1%Qc 0%Qc 0%Qc.
Proof. apply (chassis_pos_roundtrip zero_robot 1%Qc 0%Qc 0%Qc). reflexivity. Defined.

(** C17: In exact arithmetic, a speed command (x, y, z) gives the wheels exactly the
    speeds of the command (0, y, z - x / half_ab): in speed mode the robot cannot move
    along x, it turns instead. *)
Theorem chassis_speed_sideways_turns (c : chassis_t Qc) d x y z :
  module_mai_output (chassis_set_speed c (Speed x y z)) CHASSIS_SPEED d =
  module_mai_output (chassis_set_speed c (Speed 0%Qc y (z - x / half_ab)%Qc)) CHASSIS_SPEED d.
Proof.
  unfold module_mai_output. change (CHASSIS_SPEED =? CHASSIS_SPEED) with true. cbn match.
  cbn -[Qcplus Qcmult Qcminus Qcdiv Qcopp CHASSIS_HALF_A_B CHASSIS_2PIR qc_of_Z].
  change (CHASSIS_HALF_A_B (F := Qc)) with half_ab. pose proof half_ab_nonzero as Hh.
  set (p := CHASSIS_2PIR). clearbody p. generalize dependent half_ab. intros h Hh.
  assert (forall o, (z - x / h + o) * h = (z + o) * h - x)%Qc as Hz by (intros; field; done).
  rewrite Hz. f_equal; do 2 f_equal; ring.
Qed.

(** The speed read back when the wheels turn at the commanded speeds: the command's
    [y] shows up as both [x] and [y], each scaled by the square of 60 / (2 pi r). *)
Definition rpm : Qc := (qc_of_Z 60 / CHASSIS_2PIR)%Qc.
Lemma chassis_speed_readback (c : chassis_t Qc) d :
  speed (offset c) = Speed 0%Qc 0%Qc 0%Qc ->
  let v := speed (c_target c) in
  chassis_get_speed (module_mai_input c CHASSIS_SPEED (module_mai_output c CHASSIS_SPEED d))
  = Speed (rpm * rpm * y_m_s v)%Qc (rpm * rpm * y_m_s v)%Qc
      (rpm * rpm * (x_m_s v + y_m_s v - z_rad_s v * half_ab) / half_ab)%Qc.
Proof.
  intros Ho v. unfold module_mai_input, module_mai_output.
  change (CHASSIS_SPEED =? CHASSIS_SPEED) with true. cbn match. rewrite Ho.
  cbn -[Qcplus Qcmult Qcminus Qcdiv Qcopp CHASSIS_HALF_A_B CHASSIS_2PIR qc_of_Z].
  unfold rpm. fold v. change (CHASSIS_HALF_A_B (F := Qc)) with half_ab. pose proof half_ab_nonzero as Hh.
  assert (CHASSIS_2PIR (F := Qc) <> 0%Qc) as Hp.
  { intros Hz. apply (f_equal (fun q : Qc => Qeq_bool q 0)) in Hz. vm_compute in Hz. discriminate. }
  generalize dependent (CHASSIS_2PIR (F := Qc)). intros p Hp. generalize dependent half_ab. intros h Hh.
  assert (qc_of_Z 2 = 1 + 1)%Qc as -> by by apply Qc_is_canon.
  assert (1 + 1 <> 0)%Qc as H2 by discriminate.
  change (qc_of_Z 0) with 0%Qc. f_equal; field; repeat split; done.
Qed.

(** The first step after the start holds the wheels where the encoders have their zero. *)
Lemma chassis_starts_still c d (a1 a2 a3 a4 : motor Qc) : exists r1,
  chassis_handle (Robot (chassis_port_start c) d [a1; a2; a3; a4]) = Done r1 /\
  rb_motors r1 = [aim 0%Qc a1; aim 0%Qc a2; aim 0%Qc a3; aim 0%Qc a4].
Proof.
  rewrite chassis_handle_pos by done. eexists. split; [done|]. cbn [rb_motors].
  assert (forall (k : Qc) (h : dbl (F := Qc)), let w := wheels_of k h (Pos 0%F 0%F 0%F) in
    motor1 w = 0%Qc /\ motor2 w = 0%Qc /\ motor3 w = 0%Qc /\ motor4 w = 0%Qc) as Hw.
  { intros k h. cbn -[Qcplus Qcmult Qcminus Qcdiv Qcopp qc_of_Z]. change (qc_of_Z 0) with 0%Qc. split_and!; ring. }
  change (pos (c_target (chassis_port_start c))) with (Pos 0%F 0%F 0%F : chassis_pos_t Qc).
  destruct (Hw conversion CHASSIS_HALF_A_B) as (-> & -> & -> & ->). done.
Qed.
