(* ===== verification/ChassisOps.v ===== *)
(** * [chassis/chassis_module_mai_ops.c]: the second chassis module

    A variant of [chassis_module_mai.c] that takes the present position from the position
    sensor and drives the wheels by speed.  It is compiled but nothing installs it: the
    chassis of the firmware runs [ops_mai].  Its position mode commands the wheels with
    position targets as speeds, and never looks at the position it reads. *)
From S2P Require Import Prelude CFloat Apid Motor Chassis.
#[local] Open Scope Z_scope.

Section ops.
Context {F : Type} `{FloatOps F} `{DoubleOf F}.

(** What the sensor's parser stores: [pos_x], [pos_y] and [w_z]. *)
Record sensor := Sensor { pos_x : F; pos_y : F; w_z : F }.

(** The constants; of the two definitions of the wheel's radius the second counts. *)
Definition OPS_WHELL_R_M : F := f_lit 34904 1000000.
Definition OPS_HALF_A_B : dbl := (f_lit 1 2 * widen (f_lit 129 1000 + f_lit 17906 100000))%F.
Definition OPS_2PIR : dbl := (f_lit 628318530718 100000000000 * widen OPS_WHELL_R_M)%F.
Definition ops_conversion : F := (f_of_Z 180 / OPS_WHELL_R_M / PI)%F.

Definition module_mai_ops_output (c : chassis_t F) (cmd : Z) (d : chassis_mai_data_t F) : chassis_mai_data_t F :=
  if cmd =? CHASSIS_SPEED then
    let t := speed (c_target c) in
    let o := speed (offset c) in
    let x := (x_m_s t + x_m_s o)%F in
    let y := (y_m_s t + y_m_s o)%F in
    let turn := (widen (z_rad_s t + z_rad_s o) * OPS_HALF_A_B)%F in
    let wheel a := narrow (- (widen a - turn) / OPS_2PIR * widen (f_of_Z 60))%F in
    MaiData cmd (wheel (x - y)%F) (wheel (x + y)%F) (wheel (x + y)%F) (wheel (x - y)%F)
  else if cmd =? CHASSIS_POS then
    let t := pos (c_target c) in
    let o := pos (offset c) in
    let x := (x_m t + x_m o)%F in
    let y := (y_m t + y_m o)%F in
    let turn := (widen (z_rad t + z_rad o) * OPS_HALF_A_B)%F in
    let wheel a := narrow ((widen a - turn) * widen ops_conversion)%F in
    MaiData cmd (wheel (x + y)%F) (wheel (x - y)%F) (wheel (- x - y)%F) (wheel (- x + y)%F)
  else MaiData cmd (motor1 d) (motor2 d) (motor3 d) (motor4 d).

Definition module_mai_ops_input (s : sensor) (c : chassis_t F) (cmd : Z) (d : chassis_mai_data_t F) : chassis_t F :=
  if cmd =? CHASSIS_SPEED then
    let o := speed (offset c) in
    let rate a := (widen a / OPS_2PIR * widen (f_of_Z 60))%F in
    set_present (set_speed (Speed
      (narrow (widen (x_m_s o) + rate (motor1 d - motor2 d)%F / widen (f_of_Z 2))%F)
      (narrow (widen (y_m_s o) + rate (- motor2 d + motor4 d)%F / widen (f_of_Z 2))%F)
      (narrow (widen (z_rad_s o) + rate (- (motor3 d + motor2 d))%F / (widen (f_of_Z 2) * OPS_HALF_A_B))%F))
      (c_present c)) c
  else if cmd =? CHASSIS_POS then
    set_present (set_pos (Pos (pos_x s) (pos_y s) (w_z s)) (c_present c)) c
  else c.

Definition driver_mai_ops_input (cmd : Z) (d : chassis_mai_data_t F) (ms : list (motor F))
    : outcome (chassis_mai_data_t F) :=
  if cmd =? CHASSIS_SPEED then
    m1 ← motor_get_speed MOTOR_MAI_ID_1 ms; m2 ← motor_get_speed MOTOR_MAI_ID_2 ms;
    m3 ← motor_get_speed MOTOR_MAI_ID_3 ms; m4 ← motor_get_speed MOTOR_MAI_ID_4 ms;
    Done (MaiData (mai_type d) m1 m2 m3 m4)
  else if cmd =? CHASSIS_POS then Done (MaiData (mai_type d) 0 0 0 0)%F
  else Done d.

Definition driver_mai_ops_output (cmd : Z) (d : chassis_mai_data_t F) (ms : list (motor F))
    : outcome (list (motor F)) :=
  if (cmd =? CHASSIS_SPEED) || (cmd =? CHASSIS_POS) then
    ms ← motor_set_speed MOTOR_MAI_ID_1 (motor1 d) ms; ms ← motor_set_speed MOTOR_MAI_ID_2 (motor2 d) ms;
    ms ← motor_set_speed MOTOR_MAI_ID_3 (motor3 d) ms; motor_set_speed MOTOR_MAI_ID_4 (motor4 d) ms
  else Done ms.

(** The calls of [chassis.c] with [ops_mai_ops] installed. *)
Definition chassis_updata_ops (s : sensor) (cmd : Z) (r : robot F) : outcome (robot F) :=
  d ← driver_mai_ops_input cmd (mai_data r) (rb_motors r);
  Done (Robot (module_mai_ops_input s (rb_chassis r) cmd d) d (rb_motors r)).
Definition chassis_drv_set_ops (cmd : Z) (r : robot F) : outcome (robot F) :=
  let d := module_mai_ops_output (rb_chassis r) cmd (mai_data r) in
  ms ← driver_mai_ops_output cmd d (rb_motors r);
  Done (Robot (rb_chassis r) d ms).
Definition chassis_handle_ops (s : sensor) (r : robot F) : outcome (robot F) :=
  r ← chassis_updata_ops s CHASSIS_SPEED r;
  r ← chassis_updata_ops s CHASSIS_POS r;
  let r := Robot (chassis_updata_offset (rb_chassis r)) (mai_data r) (rb_motors r) in
  let st := run_status (rb_chassis r) in
  if st =? CHASSIS_SPEED then chassis_drv_set_ops CHASSIS_SPEED r
  else if st =? CHASSIS_POS then chassis_drv_set_ops CHASSIS_POS r else Done r.
End ops.
Arguments sensor : clear implicits.

Section open_loop.
Context {F : Type} `{FloatOps F} `{DoubleOf F}.
Implicit Types (c : chassis_t F) (s : sensor F) (r : robot F).

(** As in [module_mai], two speeds for four wheels: motors 1 and 4 get one, motors 2 and 3
    the other. *)
Lemma ops_speed_pairs c d : let w := module_mai_ops_output c CHASSIS_SPEED d in
  motor1 w = motor4 w /\ motor2 w = motor3 w.
Proof. by split. Qed.

(** What the two updates change: the present state and the wheel data. *)
Lemma ops_updates s r r1 r2 :
  chassis_updata_ops s CHASSIS_SPEED r = Done r1 -> chassis_updata_ops s CHASSIS_POS r1 = Done r2 ->
  exists v, r2 = Robot (set_present (Data v (Pos (pos_x s) (pos_y s) (w_z s))) (rb_chassis r))
                       (MaiData (mai_type (mai_data r)) 0 0 0 0)%F (rb_motors r).
Proof.
  unfold chassis_updata_ops. intros (d & Hd & H1)%outcome_bind_Done H2. injection H1 as <-.
  assert (mai_type d = mai_type (mai_data r)) as Ht.
  { unfold driver_mai_ops_input in Hd. change (CHASSIS_SPEED =? CHASSIS_SPEED) with true in Hd.
    repeat apply outcome_bind_Done in Hd as (? & _ & Hd). by injection Hd as <-. }
  unfold module_mai_ops_input in H2. rewrite <- Ht.
  cbn [rb_chassis rb_motors mai_data] in H2. by injection H2 as <-; eexists.
Qed.

Lemma drv_set_ignores_present c c' cmd d ms r1 r2 : c_target c = c_target c' -> offset c = offset c' ->
  chassis_drv_set_ops cmd (Robot c d ms) = Done r1 -> chassis_drv_set_ops cmd (Robot c' d ms) = Done r2 ->
  rb_motors r1 = rb_motors r2 /\ mai_data r1 = mai_data r2 /\ rb_chassis r1 = c.
Proof.
  unfold chassis_drv_set_ops, module_mai_ops_output. cbn [rb_chassis mai_data rb_motors]. intros -> ->.
  intros (m1 & Hm1 & H1)%outcome_bind_Done (m2 & Hm2 & H2)%outcome_bind_Done.
  rewrite Hm1 in Hm2. by simplify_eq/=.
Qed.

(** The position loop is open: the sensor decides what position is reported, and nothing
    of what the motors are told. *)
Theorem ops_position_open_loop s s' r r1 r2 :
  chassis_handle_ops s r = Done r1 -> chassis_handle_ops s' r = Done r2 ->
  rb_motors r1 = rb_motors r2 /\ mai_data r1 = mai_data r2 /\
  chassis_get_pos (rb_chassis r1) = Pos (pos_x s) (pos_y s) (w_z s).
Proof.
  unfold chassis_handle_ops. intros (ra & Ha & (ra' & Ha' & H1)%outcome_bind_Done)%outcome_bind_Done
    (rb & Hb & (rb' & Hb' & H2)%outcome_bind_Done)%outcome_bind_Done.
  destruct (ops_updates _ _ _ _ Ha Ha') as (v & ->). destruct (ops_updates _ _ _ _ Hb Hb') as (v' & ->).
  clear Ha Ha' Hb Hb'. cbn [rb_chassis mai_data rb_motors] in H1, H2.
  change (run_status (chassis_updata_offset _)) with (run_status (rb_chassis r)) in H1.
  change (run_status (chassis_updata_offset _)) with (run_status (rb_chassis r)) in H2.
  destruct (run_status (rb_chassis r) =? CHASSIS_SPEED); [|destruct (run_status (rb_chassis r) =? CHASSIS_POS)].
  1, 2: by edestruct drv_set_ignores_present as (? & ? & ->); [| |exact H1|exact H2|].
  by injection H1 as <-; injection H2 as <-.
Qed.
End open_loop.
