(* ===== verification/WheelLoop.v ===== *)
(** * From a chassis command to the currents on the wire

    The chassis, the motor table, its controllers and the CAN driver composed: a position
    message for the chassis, one chassis step, then a cycle in which each of the four
    motors reports once and the receive thread runs its control step. *)
From S2P Require Import Prelude CFloat Apid Motor DjMotor Chassis.
#[local] Open Scope Z_scope.

Section wheel.
Context {F : Type} `{FloatOps F} `{DoubleOf F}.
Implicit Types (m a : motor F) (ms : list (motor F)) (d : dj) (data : list Z).

(** What a report says: eight bytes, high byte first. *)
Definition word_at data (k : nat) : Z := be16 (nth k data 0) (nth (S k) data 0).
Definition measured_speed data : F := (f_of_Z (s16 (word_at data 2)) / f_of_Z 36)%F.
Definition measured_torque data : F := f_of_Z (s16 (word_at data 4)).
Definition measured_pos (e : motor_measure_t) : F := pos_of_counts (total_angle e).

(** The cascade in position mode: position controller, speed controller, cast. *)
Definition position_control m (target speed pos : F) : outcome Z :=
  pp ← pid_step (pid_pos m) target pos (f_of_Z 1);
  p ← pid_step (pid_speed m) (APID_Get_Out pp) speed (f_of_Z 1);
  to_int16 (APID_Get_Out p).

(** A motor as [motor_dj_init] leaves it. *)
Record configured (i : Z) m : Prop := {
  cf_ops : ops m = Some i;
  cf_passive : flag_passive_feedback m = true;
  cf_behaver : behaver m = Some 2;
  cf_out : flag_out_mode m = MOTOR_MODE_TORQUE;
  cf_clock : exists t, motor_clock (time m) (f_of_Z 1) = Done t;
}.

(** Calibration over, the bus takes frames, no report is waiting. *)
Record bus_up d : Prop := {
  bu_canids : canids_ok (dj_motors d);
  bu_ids : map me_id (dj_motors d) = [0; 1; 2; 3];
  bu_reported : all_reported d = true;
  bu_iq : length (iq1_low d) = 4%nat /\ Forall is_s16 (iq1_low d);
  bu_can : can_ok d = [];
  bu_fifo : dj_m_ringfifo d = [];
}.

(** Motor [i] is in position mode, its report is [data] with record [e] becoming [e'],
    and its controllers answer the current [c]. *)
Record reading (i : Z) m data (e e' : motor_measure_t) (c : Z) : Prop := {
  rd_configured : configured i m;
  rd_mode : flag_run_mode m = MOTOR_MODE_POS;
  rd_length : length data = 8%nat;
  rd_measure : measure_update (word_at data 0) e = Done e';
  rd_control : position_control m (tar_pos m) (measured_speed data) (measured_pos e') = Done c;
}.

(** One report and the round of the receive thread that follows. *)
Definition report (i : Z) data (st : list (motor F) * dj) : outcome (list (motor F) * dj) :=
  st ← ind_dj_can_motor_callback (CAN_Motor1_ID + i) data st; can_rx_thread_round st.

Lemma arr_get_nth data k : length data = 8%nat -> 0 <= k < 8 -> arr_get data k = Done (nth (Z.to_nat k) data 0).
Proof.
  intros Hl Hk. unfold arr_get. rewrite decide_True by lia.
  destruct (data !! Z.to_nat k) as [x|] eqn:E.
  - by rewrite (nth_lookup_Some _ _ _ _ E).
  - apply lookup_ge_None in E. lia.
Qed.
Lemma measure_update_keeps (v : Z) e e' : measure_update v e = Done e' ->
  me_id e' = me_id e /\ can_id e' = can_id e /\ (msg_cnt e = 0xff -> msg_cnt e' = 0xff).
Proof.
  unfold measure_update. destruct (Z.ltb_spec (msg_cnt e) 50).
  - intros [= <-]. split_and!; [done..|]. lia.
  - intros Hr. repeat (apply outcome_bind_Done in Hr as (? & _ & Hr)). by injection Hr as <-.
Qed.
Lemma motor_feedback_has f i ms m : has_motor i ms m ->
  motor_feedback f i ms = Done (motor_put i (f m) ms).
Proof.
  intros [Hi Hm]. unfold motor_feedback. rewrite (proj2 (Z.leb_gt _ _)), (proj2 (Z.ltb_ge _ _)) by lia.
  by rewrite Hm.
Qed.

(** The callback: the measurements land in the table, the record moves, the motor's
    number waits for the thread. *)
Lemma callback_ok ms d i m data e e' : 0 <= i < 4 -> has_motor i ms m -> bus_up d -> length data = 8%nat ->
  dj_motors d !! Z.to_nat i = Some e -> measure_update (word_at data 0) e = Done e' ->
  ind_dj_can_motor_callback (CAN_Motor1_ID + i) data (ms, d) =
  Done (motor_put i (mset_cur_pos (measured_pos e') (mset_cur_torque (measured_torque data)
          (mset_cur_speed (measured_speed data) m))) ms,
        Dj (<[Z.to_nat i := e']> (dj_motors d)) (iq1_low d) (iq1_high d) (can_tx d) (can_ok d) [i]).
Proof.
  intros Hi Hm [Hc Hids _ _ _ Hf] Hl He Hu. unfold ind_dj_can_motor_callback.
  rewrite canid_search by (done || (unfold CAN_Motor1_ID; cint)). unfold CAN_Motor1_ID.
  rewrite (proj2 (Z.ltb_ge _ _)), (proj2 (Z.leb_le _ _)) by lia. cbn [mbind outcome_bind].
  replace (0x201 + i - 0x201) with i by lia.
  assert (arr_get (dj_motors d) i = Done e) as ->.
  { unfold arr_get. rewrite decide_True by lia. by rewrite He. }
  cbn [mbind outcome_bind]. rewrite !arr_get_nth by (done || lia). cbn [mbind outcome_bind].
  change (measure_update (be16 _ _) e) with (measure_update (word_at data 0) e). rewrite Hu. cbn [mbind outcome_bind].
  destruct (measure_update_keeps _ _ _ Hu) as (Hid & _ & _).
  assert (me_id e' = i) as ->.
  { rewrite Hid. assert (map me_id (dj_motors d) !! Z.to_nat i = Some (me_id e)) as Hl2
      by (by rewrite list_lookup_fmap, He).
    rewrite Hids in Hl2. assert (i = 0 \/ i = 1 \/ i = 2 \/ i = 3) as [->|[->|[->| ->]]] by lia; by injection Hl2. }
  unfold motor_feedback_speed, motor_feedback_torque, motor_feedback_pos.
  rewrite (motor_feedback_has _ _ _ _ Hm). cbn [mbind outcome_bind].
  rewrite (motor_feedback_has _ _ _ _ (has_motor_put _ _ _ _ Hm)). cbn [mbind outcome_bind].
  rewrite motor_put_put, (motor_feedback_has _ _ _ _ (has_motor_put _ _ _ _ Hm)). cbn [mbind outcome_bind].
  rewrite motor_put_put, Hf. unfold ring_put_force. cbn [length app decide]. rewrite decide_False by done.
  cbn [app]. do 3 f_equal. f_equal. cint.
Qed.

Lemma has_motor_other i j ms m m' : i <> j -> 0 <= i -> 0 <= j -> has_motor j ms m ->
  has_motor j (motor_put i m' ms) m.
Proof. intros Hij Hi Hj [Hr Hm]. split; [done|]. unfold motor_put. rewrite list_lookup_insert_ne by lia. done. Qed.

(** The control step of a motor in position mode. *)
Lemma position_step i ms d m c : 0 <= i -> has_motor i ms m -> configured i m -> flag_run_mode m = MOTOR_MODE_POS ->
  position_control m (tar_pos m) (cur_speed m) (cur_pos m) = Done c -> exists v m',
  motor_handle i (f_of_Z 1) (ms, d) = op_driver i MOTOR_MODE_TORQUE v (motor_put i m' ms, d) /\
  to_int16 v = Done c /\ ops m' = Some i.
Proof.
  intros Hi Hm [Ho Hp Hb Hout [t Ht]] Hmode Hc.
  rewrite (motor_handle_passive i _ ms d m t) by (done || by rewrite Ho).
  unfold call_behaver. cbn [behaver mset_flag_is_stop mset_time]. rewrite Hb, Hmode.
  unfold position_control in Hc. apply outcome_bind_Done in Hc as (pp & Hpp & Hc).
  apply outcome_bind_Done in Hc as (p & Hpid & Hc).
  unfold motor_behiver_2, pos_stage, speed_stage. cbn -[pid_step motor_put op_driver].
  rewrite Hpp. cbn -[pid_step motor_put op_driver]. rewrite Hpid. cbn -[pid_step motor_put op_driver].
  rewrite Hout. by eexists _, _.
Qed.

(** The driver's statics after a report: the record, the current, the frame. *)
Lemma all_reported_insert d k e' : all_reported d = true -> msg_cnt e' = 0xff ->
  forallb (fun x : motor_measure_t => msg_cnt x =? 0xff) (<[k := e']> (dj_motors d)) = true.
Proof.
  unfold all_reported. rewrite !forallb_forall. intros Ha He x Hx%list_elem_of_In.
  apply list_elem_of_lookup in Hx as [j Hj]. apply list_lookup_insert_Some in Hj as [(_ & <- & _)|[_ Hj]];
    [by rewrite He|]. apply Ha, list_elem_of_In. by eapply list_elem_of_lookup_2.
Qed.
Lemma map_insert_same {A} (f : motor_measure_t -> A) l k e e' : l !! k = Some e -> f e' = f e ->
  map f (<[k := e']> l) = map f l.
Proof. intros He Hf. change (map f) with (fmap (M := list) f). rewrite list_fmap_insert, Hf. apply list_insert_id. by rewrite list_lookup_fmap, He. Qed.

(** One report, and the thread's round: a frame with this motor's current renewed. *)
Lemma report_ok i ms d m data e e' c : 0 <= i < 4 -> has_motor i ms m -> bus_up d ->
  dj_motors d !! Z.to_nat i = Some e -> reading i m data e e' c ->
  exists ms' d' frame, report i data (ms, d) = Done (ms', d') /\
    can_tx d' = can_tx d ++ [(CAN_Motor_ALL_ID, frame)] /\
    decode_currents frame = <[Z.to_nat i := c]> (iq1_low d) /\ iq1_low d' = <[Z.to_nat i := c]> (iq1_low d) /\
    dj_motors d' = <[Z.to_nat i := e']> (dj_motors d) /\ bus_up d' /\
    (forall j a, 0 <= j -> j <> i -> has_motor j ms a -> has_motor j ms' a).
Proof.
  intros Hi Hm Hup He [Hcf Hmode Hlen Hmeas Hctl]. unfold report.
  rewrite (callback_ok ms d i m data e e') by done. cbn [mbind outcome_bind].
  unfold can_rx_thread_round. cbn [snd fst dj_m_ringfifo dj_motors iq1_low iq1_high can_tx can_ok].
  set (m1 := mset_cur_pos _ _). set (d1 := Dj _ _ _ _ _ _).
  pose proof (has_motor_put i ms m m1 Hm) as Hm1.
  assert (configured i m1) as Hcf1 by (by destruct Hcf).
  destruct (position_step i (motor_put i m1 ms) d1 m1 c) as (v & m2 & -> & Hv & Hops); [lia|done..|].
  rewrite motor_put_put. destruct (measure_update_keeps _ _ _ Hmeas) as (Hid & Hcan & Hcnt).
  destruct Hup as [Hc Hids Hr [Hl Hiq] Hcok Hf].
  assert (all_reported d1 = true) as Hr1.
  { apply all_reported_insert; [done|]. apply Hcnt. unfold all_reported in Hr. rewrite forallb_forall in Hr.
    apply Z.eqb_eq, Hr, list_elem_of_In. by eapply list_elem_of_lookup_2. }
  assert (canids_ok (dj_motors d1)) as Hc1 by (unfold canids_ok; cbn; by rewrite (map_insert_same _ _ _ e)).
  destruct (dj_drive i i (motor_put i m2 ms) d1 v c) as (d2 & Hdrv & Hd2).
  { exists m2. split_and!; [by eapply has_motor_put|done|done|unfold DJ_M_NUM; lia..]. }
  { done. } { done. } { done. }
  rewrite Hr1 in Hd2. cbn [negb] in Hd2. assert (can_ok d1 = []) as Hcok1 by done. rewrite Hcok1 in Hd2.
  cbn [head] in Hd2. rewrite decide_False in Hd2 by done.
  destruct Hd2 as (frame & Htx & _ & _ & Hdec & Hdm & Hiq2 & Hok2 & Hring2). exists (motor_put i m2 ms), d2, frame.
  assert (is_s16 c) as Hc16 by (by apply f_to_int_range in Hv).
  split_and!; try done.
  - split; rewrite ?Hdm, ?Hiq2; try done.
    + cbn. by rewrite (map_insert_same _ _ _ e).
    + unfold all_reported. rewrite Hdm. exact Hr1.
    + split; [by rewrite length_insert|by apply Forall_insert].
  - intros j a Hj Hne Ha. by apply has_motor_other; [|lia|..].
Qed.
End wheel.

Section cycle.
Context {F : Type} `{FloatOps F} `{DoubleOf F}.

(** Reports in the order in which they come. *)
Fixpoint reports (l : list (Z * list Z)) (st : list (motor F) * dj) : outcome (list (motor F) * dj) :=
  match l with
  | [] => Done st
  | (i, data) :: l => st ← report i data st; reports l st
  end.

Lemma reports_cons i data l st st1 : report i data st = Done st1 -> reports ((i, data) :: l) st = reports l st1.
Proof. intros Hr. cbn [reports]. by rewrite Hr. Qed.
Lemma has_motor_nth (ms : list (motor F)) k m : ms !! k = Some m -> (k < 4)%nat -> has_motor (Z.of_nat k) ms m.
Proof. intros Hm Hk. split; [unfold MOTOR_NUM; lia|]. by rewrite Nat2Z.id. Qed.
(** The four reports, on any table of four motors. *)
Lemma reports_ok (m1 m2 m3 m4 : motor F) d data1 data2 data3 data4 e1 e2 e3 e4 e1' e2' e3' e4' c1 c2 c3 c4 :
  let ms := [m1; m2; m3; m4] in
  bus_up d -> dj_motors d = [e1; e2; e3; e4] ->
  reading 0 m1 data1 e1 e1' c1 -> reading 1 m2 data2 e2 e2' c2 ->
  reading 2 m3 data3 e3 e3' c3 -> reading 3 m4 data4 e4 e4' c4 ->
  exists st frames frame, reports [(0, data1); (1, data2); (2, data3); (3, data4)] (ms, d) = Done st /\
    can_tx st.2 = can_tx d ++ frames ++ [(CAN_Motor_ALL_ID, frame)] /\ length frames = 3%nat /\
    decode_currents frame = [c1; c2; c3; c4].
Proof.
  intros ms Hup He R1 R2 R3 R4.
  assert (has_motor 0 ms m1) as H1 by (apply (has_motor_nth _ 0); [done|lia]).
  assert (has_motor 1 ms m2) as H2 by (apply (has_motor_nth _ 1); [done|lia]).
  assert (has_motor 2 ms m3) as H3 by (apply (has_motor_nth _ 2); [done|lia]).
  assert (has_motor 3 ms m4) as H4 by (apply (has_motor_nth _ 3); [done|lia]).
  clearbody ms.
  destruct (report_ok 0 ms d m1 data1 e1 e1' c1) as (ms1 & d1 & f1 & E1 & T1 & _ & Q1 & M1 & U1 & K1);
    [lia|exact H1|done|by rewrite He|done|].
  destruct (report_ok 1 ms1 d1 m2 data2 e2 e2' c2) as (ms2 & d2 & f2 & E2 & T2 & _ & Q2 & M2 & U2 & K2);
    [lia|apply K1; [lia|lia|exact H2]|done|by rewrite M1, He|done|].
  destruct (report_ok 2 ms2 d2 m3 data3 e3 e3' c3) as (ms3 & d3 & f3 & E3 & T3 & _ & Q3 & M3 & U3 & K3);
    [lia|apply K2; [lia|lia|apply K1; [lia|lia|exact H3]]|done|by rewrite M2, M1, He|done|].
  destruct (report_ok 3 ms3 d3 m4 data4 e4 e4' c4) as (ms4 & d4 & f4 & E4 & T4 & D4 & Q4 & M4 & U4 & _);
    [lia|apply K3; [lia|lia|apply K2; [lia|lia|apply K1; [lia|lia|exact H4]]]|done|by rewrite M3, M2, M1, He|done|].
  exists (ms4, d4), [(CAN_Motor_ALL_ID, f1); (CAN_Motor_ALL_ID, f2); (CAN_Motor_ALL_ID, f3)], f4.
  split; [|split; [|split; [done|]]].
  - by rewrite (reports_cons _ _ _ _ _ E1), (reports_cons _ _ _ _ _ E2), (reports_cons _ _ _ _ _ E3),
      (reports_cons _ _ _ _ _ E4).
  - cbn [snd]. rewrite T4, T3, T2, T1. by rewrite <- !app_assoc.
  - rewrite D4, Q3, Q2, Q1. destruct (bu_iq d Hup) as [Hl _].
    destruct (iq1_low d) as [|? [|? [|? [|? [|]]]]]; done.
Qed.
End cycle.

(** The targets of one step after a position message. *)
Lemma command_aims {F} `{FloatOps F} `{DoubleOf F} (r : robot F) x y z (a1 a2 a3 a4 : motor F) :
  let w := wheels_of conversion CHASSIS_HALF_A_B (Pos x y z) in
  rb_motors r = [a1; a2; a3; a4] ->
  exists r1, chassis_handle (chassis_sub_callback (Some (Ctrl 1 x y z)) r).1 = Done r1 /\
    rb_motors r1 = [aim (motor1 w) a1; aim (motor2 w) a2; aim (motor3 w) a3; aim (motor4 w) a4].
Proof.
  intros w Hms. destruct r as [c md ms]. cbn [rb_motors] in Hms. subst ms.
  change (chassis_sub_callback _ _).1 with (Robot (chassis_set_pos c (Pos x y z)) md [a1; a2; a3; a4]).
  rewrite chassis_handle_pos by reflexivity. eexists. split; reflexivity.
Qed.

(** C4: End to end, in the machine's arithmetic or any other: a position message makes
    one chassis step set the four wheel targets of the kinematics, and after each motor
    has reported once the frame on the CAN bus carries the four currents that the
    cascade of position and speed controllers computes from those targets and the
    reported angles and speeds, each in its motor's place; a frame went out for every
    report. *)
Theorem chassis_command_reaches_wire {F} `{FloatOps F} `{DoubleOf F} (r : robot F) x y z d
    (a1 a2 a3 a4 : motor F) data1 data2 data3 data4 e1 e2 e3 e4 e1' e2' e3' e4' c1 c2 c3 c4 :
  let w := wheels_of conversion CHASSIS_HALF_A_B (Pos x y z) in
  rb_motors r = [a1; a2; a3; a4] -> bus_up d -> dj_motors d = [e1; e2; e3; e4] ->
  reading 0 (aim (motor1 w) a1) data1 e1 e1' c1 -> reading 1 (aim (motor2 w) a2) data2 e2 e2' c2 ->
  reading 2 (aim (motor3 w) a3) data3 e3 e3' c3 -> reading 3 (aim (motor4 w) a4) data4 e4 e4' c4 ->
  exists r1 st frames frame,
    chassis_handle (chassis_sub_callback (Some (Ctrl 1 x y z)) r).1 = Done r1 /\
    reports [(0, data1); (1, data2); (2, data3); (3, data4)] (rb_motors r1, d) = Done st /\
    can_tx st.2 = can_tx d ++ frames ++ [(CAN_Motor_ALL_ID, frame)] /\ length frames = 3%nat /\
    decode_currents frame = [c1; c2; c3; c4].
Proof.
  intros w Hms Hup He R1 R2 R3 R4. destruct (command_aims r x y z a1 a2 a3 a4 Hms) as (r1 & Hr1 & Hms1).
  destruct (reports_ok (aim (motor1 w) a1) (aim (motor2 w) a2) (aim (motor3 w) a3) (aim (motor4 w) a4)
    d data1 data2 data3 data4 e1 e2 e3 e4 e1' e2' e3' e4' c1 c2 c3 c4 Hup He R1 R2 R3 R4)
    as (st & frames & frame & Hrun & Hout). exists r1, st, frames, frame. rewrite Hms1. exact (conj Hr1 (conj Hrun Hout)).
Qed.

(** ** The motors as configured at start, 0.1 m ahead *)

Definition ex_motor (k : nat) : motor f32 :=
  let b := Some blank_pid in
  match motor_dj_init (b, b, b) motor_list_init with
  | Done ms => nth k ms (motor_list_entry 0)
  | Fault _ => motor_list_entry 0
  end.
Definition ex_robot : robot f32 :=
  let zero := (Data (Speed 0 0 0) (Pos 0 0 0))%F in
  Robot (Chassis zero zero 0 zero) (MaiData 0 0 0 0 0)%F [ex_motor 0; ex_motor 1; ex_motor 2; ex_motor 3].
Definition ex_record (i total : Z) : motor_measure_t := Measure i (CAN_Motor1_ID + i) total 255 0 0 0 total.
Definition ex_dj : dj := Dj (map (fun i => ex_record i 0) [0; 1; 2; 3]) [0; 0; 0; 0] [0; 0; 0; 0] [] [] [].
(** Angle 10, speed 300. *)
Definition ex_data : list Z := [0; 10; 1; 44; 0; 0; 0; 0].

Lemma ex_bus_up : bus_up ex_dj.
Proof. split; try reflexivity. split; [reflexivity|]. repeat constructor; cint. Qed.

Lemma chassis_command_reaches_wire_witness : exists r1 st frames frame,
  chassis_handle (chassis_sub_callback (Some (Ctrl 1 0%F (f_lit 1 10) 0%F)) ex_robot).1 = Done r1 /\
  reports [(0, ex_data); (1, ex_data); (2, ex_data); (3, ex_data)] (rb_motors r1, ex_dj) = Done st /\
  can_tx st.2 = frames ++ [(CAN_Motor_ALL_ID, frame)] /\ length frames = 3%nat /\
  decode_currents frame = [11980; -15504; -15504; 11980].
Proof.
  assert (forall i (m : motor f32) c, ops m = Some i -> flag_passive_feedback m = true -> behaver m = Some 2 ->
    flag_out_mode m = MOTOR_MODE_TORQUE -> motor_clock (time m) (f_of_Z 1 : f32) = Done 1 ->
    flag_run_mode m = MOTOR_MODE_POS ->
    position_control m (tar_pos m) (measured_speed ex_data) (measured_pos (ex_record i 10)) = Done c ->
    reading i m ex_data (ex_record i 0) (ex_record i 10) c) as Hread.
  { intros i m c H1 H2 H3 H4 H5 H6 H7. split; [split; [exact H1|exact H2|exact H3|exact H4|exists 1; exact H5]|exact H6|reflexivity|reflexivity|exact H7]. }
  apply (chassis_command_reaches_wire ex_robot 0%F (f_lit 1 10) 0%F ex_dj (ex_motor 0) (ex_motor 1) (ex_motor 2)
    (ex_motor 3) ex_data ex_data ex_data ex_data (ex_record 0 0) (ex_record 1 0) (ex_record 2 0) (ex_record 3 0)
    (ex_record 0 10) (ex_record 1 10) (ex_record 2 10) (ex_record 3 10));
    [reflexivity|exact ex_bus_up|reflexivity|apply Hread; vm_compute; reflexivity..].
Defined.
