(* ===== verification/MotorShell.v ===== *)
(** * The shell command [m] of [motor.c]

    It sets or shows the target of a motor; the value goes the way of every other
    command. *)
From Stdlib Require Import String.
From S2P Require Import Prelude CString CFloat Apid Motor DjMotor Chassis WheelLoop.
#[local] Open Scope Z_scope.

Section shell.
Context {F : Type} `{FloatOps F} `{DoubleOf F}.
Context (atof : string -> dbl).
Implicit Types (ms : list (motor F)) (argv : list string).

Definition MOTOR_OPT_ID : Z := 0.
Definition MOTOR_OPT_TORQUE : Z := 1.
Definition MOTOR_OPT_SPEED : Z := 2.
Definition MOTOR_OPT_POS : Z := 3.

(** What is printed. *)
Inductive mlog :=
  | MotorName (id : Z)
  | MotorIdError
  | MotorValue (id : Z) (v : F)
  | Usage
  | Graph (mode id : Z) (target present out : F).

(** [set_get_torque], [set_get_speed] and [set_get_pos] differ in the two functions. *)
Definition set_get (set : Z -> F -> list (motor F) -> outcome (list (motor F)))
    (get : Z -> list (motor F) -> outcome F) argv ms : outcome (list (motor F) * list mlog) :=
  match argv with
  | _ :: _ :: text :: args =>
    id ← atoi text;
    if MOTOR_NUM <=? id then Done (ms, [MotorIdError])
    else match args with
         | value :: _ => ms ← set id (narrow (atof value)) ms; Done (ms, [])
         | [] => v ← get id ms; Done (ms, [MotorValue id v])
         end
  | _ => Done (ms, [MotorIdError])
  end.
Definition set_get_torque : list string -> list (motor F) -> outcome (list (motor F) * list mlog) :=
  set_get motor_set_torque motor_get_torque.
Definition set_get_speed : list string -> list (motor F) -> outcome (list (motor F) * list mlog) :=
  set_get motor_set_speed motor_get_speed.
Definition set_get_pos : list string -> list (motor F) -> outcome (list (motor F) * list mlog) :=
  set_get motor_set_pos motor_get_pos.
Definition list_all_motor : list mlog := MotorName <$> seqZ 0 MOTOR_NUM.

(** [opt] is the option that the shell's completion finds in the arguments. *)
Definition cmd_motor (opt : Z) argv ms : outcome (list (motor F) * list mlog) :=
  if decide (2 <= length argv)%nat then
    if opt =? MOTOR_OPT_ID then Done (ms, list_all_motor)
    else if opt =? MOTOR_OPT_TORQUE then set_get_torque argv ms
    else if opt =? MOTOR_OPT_SPEED then set_get_speed argv ms
    else if opt =? MOTOR_OPT_POS then set_get_pos argv ms
    else Done (ms, [Usage])
  else Done (ms, [Usage]).

(** ** The plot of a controller *)

Definition graph (mode id : Z) (p : option (apid_t F)) : outcome (list mlog) :=
  match p with
  | Some p => Done [Graph mode id (APID_Get_Target p) (APID_Get_Present p) (APID_Get_Out p)]
  | None => Fault NullDeref
  end.
(** [time] is the static counter of the calls. *)
Definition motor_shakdown (id time : Z) ms : outcome (Z * list mlog) :=
  time ← int_result (time + 1);
  i ← motor_get id;
  match i ≫= (ms !!.) with
  | None => Fault NullDeref
  | Some m =>
    let mode := flag_run_mode m in
    let tenth := Z.rem time 10 =? 0 in
    l ← (if mode =? MOTOR_MODE_TORQUE then
           due ← tick_due (Motor.time m) (torque_tick m);
           if (due : bool) then graph mode id (pid_torque m) else Done []
         else if mode =? MOTOR_MODE_SPEED then if tenth then graph mode id (pid_speed m) else Done []
         else if mode =? MOTOR_MODE_POS then if tenth then graph mode id (pid_pos m) else Done []
         else Done []);
    Done (time, l)
  end.

(** ** From the command to the wire *)

(** Setting a position by the shell is the same as the chassis's command for one wheel. *)
Lemma shell_pos_sets c o text value i ms m : atoi text = Done i -> has_motor i ms m ->
  cmd_motor MOTOR_OPT_POS [c; o; text; value] ms = Done (motor_put i (aim (narrow (atof value)) m) ms, []).
Proof.
  intros Hid Hm. unfold cmd_motor. rewrite decide_True by (cbn; lia). cbn. rewrite Hid. cbn [mbind outcome_bind]. destruct Hm as [Hi Hm].
  rewrite (proj2 (Z.leb_gt MOTOR_NUM i)) by lia. unfold motor_set_pos. by rewrite (motor_update_has i _ ms m).
Qed.

(** A negative identifier passes the test. *)
Lemma shell_negative_id c o text value i ms : atoi text = Done i -> i < 0 ->
  cmd_motor MOTOR_OPT_POS [c; o; text; value] ms = Fault OutOfBounds.
Proof.
  intros Hid Hi. unfold cmd_motor. rewrite decide_True by (cbn; lia). cbn. rewrite Hid. cbn [mbind outcome_bind].
  unfold motor_set_pos, motor_update, motor_get_asserted, motor_get.
  rewrite !(proj2 (Z.leb_gt MOTOR_NUM i)) by (unfold MOTOR_NUM; lia). by rewrite (proj2 (Z.ltb_lt _ _)).
Qed.

(** The motor's next report sends the current its controllers compute for that
    position. *)
Lemma shell_pos_reaches_wire c o text value i ms d m data e e' iq :
  atoi text = Done i -> has_motor i ms m -> bus_up d -> dj_motors d !! Z.to_nat i = Some e ->
  reading i (aim (narrow (atof value)) m) data e e' iq -> exists ms1 ms' d' frame,
    cmd_motor MOTOR_OPT_POS [c; o; text; value] ms = Done (ms1, []) /\
    report i data (ms1, d) = Done (ms', d') /\ can_tx d' = can_tx d ++ [(CAN_Motor_ALL_ID, frame)] /\
    decode_currents frame = <[Z.to_nat i := iq]> (iq1_low d).
Proof.
  intros Hid Hm Hup He Hr. rewrite (shell_pos_sets c o text value i ms m Hid Hm).
  pose proof (has_motor_put i ms m (aim (narrow (atof value)) m) Hm) as Hm1. assert (0 <= i < 4) as Hi by apply Hm.
  destruct (report_ok i _ d _ data e e' iq Hi Hm1 Hup He Hr) as (ms' & d' & frame & Hrep & Htx & Hdec & _).
  by eexists _, ms', d', frame.
Qed.
End shell.
