(* ===== verification/SemanticMap.v ===== *)
(** * [map/SemanticMap.c]: the maps as tables of junctions

    For each column of the field, its junctions from bottom to top: whether a line leads
    on ([1]) or not ([0]) in the four directions, [-1] in unused entries; and the drawing
    of a junction on the console.  [PathFinder]'s paths do not read them. *)
From S2P Require Import Prelude.
From Stdlib Require Import Ascii String.
From stdpp Require Import strings.
#[local] Open Scope Z_scope.

Record Smt_map_t := Smt { x_fr : Z; y_fr : Z; x_br : Z; y_br : Z }.
Definition nouse : Smt_map_t := Smt (-1) (-1) (-1) (-1).

Definition map_soduko : list (list Smt_map_t) :=
  [ [Smt 1 1 0 0; Smt 1 1 0 1; Smt 1 1 0 1; Smt 1 0 0 1; nouse];
    [Smt 1 1 1 0; Smt 1 1 1 1; Smt 1 1 1 1; Smt 1 0 1 1; nouse];
    [Smt 1 1 1 0; Smt 1 1 1 1; Smt 1 1 1 1; Smt 1 0 1 1; nouse];
    [Smt 0 1 1 0; Smt 0 1 1 1; Smt 1 1 0 1; Smt 0 1 1 1; Smt 0 0 1 1] ].

(** The last column has eleven initialisers; C makes the twelfth entry zero. *)
Definition map_transport : list (list Smt_map_t) :=
  [ [Smt 1 1 0 1; Smt 1 0 0 1; Smt 1 1 0 0; Smt 1 0 0 1; nouse; nouse; nouse; nouse; nouse; nouse; nouse; nouse];
    [Smt 1 1 0 0; Smt 1 1 0 1; Smt 1 1 0 1; Smt 1 0 0 1; Smt 0 1 1 0; Smt 1 0 0 1; Smt 1 1 0 0; Smt 1 1 0 1;
     Smt 1 1 0 1; Smt 1 0 1 1; nouse; nouse];
    [Smt 1 0 1 0; Smt 1 0 1 0; Smt 1 1 1 0; Smt 1 1 1 1; Smt 1 1 0 1; Smt 1 0 1 1; Smt 1 0 1 0; nouse; nouse;
     nouse; nouse; nouse];
    [Smt 1 1 1 1; Smt 0 1 1 1; Smt 1 1 0 1; Smt 0 0 1 1; Smt 0 1 1 0; Smt 1 1 0 1; Smt 0 1 1 1; Smt 1 0 0 1;
     Smt 0 1 1 0; Smt 1 1 1 1; Smt 0 1 0 1; Smt 1 0 1 1];
    [Smt 1 1 1 0; Smt 1 0 0 1; Smt 1 0 1 0; Smt 1 0 1 0; Smt 0 1 1 0; Smt 1 1 0 1; Smt 0 0 1 1; Smt 1 1 1 0;
     Smt 1 0 1 1; nouse; nouse; nouse];
    [Smt 1 1 1 0; Smt 1 0 0 1; Smt 0 1 1 0; Smt 0 1 1 1; Smt 1 1 0 1; Smt 0 0 1 1; Smt 1 1 0 0; Smt 0 1 1 1;
     Smt 0 0 1 1; Smt 1 1 1 1; nouse; nouse];
    [Smt 1 1 1 1; Smt 1 0 1 1; Smt 1 1 1 0; Smt 0 1 1 1; Smt 0 1 1 1; Smt 0 0 1 1; nouse; nouse; nouse; nouse;
     nouse; Smt 0 0 0 0] ].

(** ** Drawing *)

Definition chr (n : nat) : ascii := ascii_of_nat n.
Definition eol : list ascii := [chr 13; chr 10].
(** One link: its characters in a line of the block; other values leave the cross. *)
Definition draw (v : Z) (at_ : list nat) (mark : ascii) (line : list ascii) : list ascii :=
  if v =? 1 then foldl (fun l k => <[k := mark]> l) line at_
  else if v =? -1 then foldl (fun l k => <[k := " "%char]> l) line at_ else line.
Definition map_element_str (e : Smt_map_t) : list (list ascii) :=
  [ draw (y_fr e) [3%nat] "|" (list_ascii_of_string "   x   " ++ eol);
    draw (x_br e) [0%nat; 1%nat] "-" (draw (x_fr e) [5%nat; 6%nat] "-" (list_ascii_of_string "x     x " ++ eol));
    draw (y_br e) [3%nat] "|" (list_ascii_of_string "   x   " ++ eol) ].
(** [n] tabulators before each line, then four lines up again. *)
Definition printf_map_element (e : Smt_map_t) (n : nat) : list ascii :=
  concat (map (fun line => replicate n (chr 9) ++ line) (map_element_str e)) ++
  chr 27 :: list_ascii_of_string "[4A" ++ [chr 10].
(** The rows from the top one down. *)
Definition print_map (rows : nat) (m : list (list Smt_map_t)) : list ascii :=
  concat (map (fun j =>
    concat (imap (fun i col => printf_map_element (nth j col nouse) i) m) ++ eol ++ replicate 4 (chr 10))
    (rev (seq 0 rows))).
Definition print_map_soduko : list ascii :=
  list_ascii_of_string "MAP Soduko:" ++ eol ++ print_map 5 map_soduko.
Definition printf_map_transport : list ascii :=
  list_ascii_of_string "MAP Transport:" ++ eol ++ print_map 12 map_transport.

(** ** Reading a drawing back *)

Definition mark_value (lines : list (list ascii)) (r c : nat) : Z :=
  match lines !! r ≫= (fun l => l !! c) with
  | Some a => if (a =? " ")%char then -1 else if (a =? "|")%char || (a =? "-")%char then 1 else 0
  | None => 0
  end.
Definition read_element (lines : list (list ascii)) : Smt_map_t :=
  Smt (mark_value lines 1 6) (mark_value lines 0 3) (mark_value lines 1 0) (mark_value lines 2 3).
Definition link_ok (v : Z) : Prop := v = -1 \/ v = 0 \/ v = 1.

(** A drawing shows its junction. *)
Lemma element_drawn e : link_ok (x_fr e) -> link_ok (y_fr e) -> link_ok (x_br e) -> link_ok (y_br e) ->
  read_element (map_element_str e) = e.
Proof.
  destruct e as [a b c d]. unfold link_ok. cbn [x_fr y_fr x_br y_br].
  by intros [->|[->| ->]] [->|[->| ->]] [->|[->| ->]] [->|[->| ->]].
Qed.

(** ** The tables *)

(** A line up from one junction of a column is a line down from the next. *)
Definition links_agree (col : list Smt_map_t) : bool :=
  forallb (fun p => (x_fr p.1 =? -1) || (x_fr p.2 =? -1) || (y_fr p.1 =? y_br p.2)) (zip col (tail col)).

(** Up and down agree in every column of both maps but the sixth of the larger one,
    where the last junction but one has no line up and the last one a line down. *)
Lemma columns_agree : forallb links_agree map_soduko = true /\
  map links_agree map_transport = [true; true; true; true; true; false; true].
Proof. by vm_compute. Qed.
Lemma tables_sized : map length map_soduko = replicate 4 5%nat /\ map length map_transport = replicate 7 12%nat.
Proof. by vm_compute. Qed.
