(* ===== verification/PathFinder.v ===== *)
(** * [map/PathFinder.c], [map/RobotState.c]: path tables

    A path table is a pointer to an array of directions and an index which every
    special point advances; the end is a 0 in the array, which the reader, not
    the table, must respect.  [RobotState.c] tracks a grid position along a table. *)
From Stdlib Require Import String.
From S2P Require Import Prelude.
#[local] Open Scope Z_scope.

Record Path_table_t := Path_table {
  start_point_x : Z;
  start_point_y : Z;
  table : list Z;
  name : string;
  index : Z;
}.

Definition Path_table_init (table_data : list Z) (name : string) (x y : Z) : Path_table_t :=
  Path_table x y table_data name 0.

(** [return table->table[table->index++];], an [int] returned as [uint8_t]. *)
Definition Path_get_next_dir (t : Path_table_t) : outcome (Path_table_t * Z) :=
  d ← arr_get (table t) (index t);
  Done (Path_table (start_point_x t) (start_point_y t) (table t) (name t) (index t + 1), u8 d).

(** [n] calls in a row. *)
Fixpoint next_dirs (n : nat) (t : Path_table_t) : outcome (Path_table_t * list Z) :=
  match n with
  | O => Done (t, [])
  | S n => p ← Path_get_next_dir t; q ← next_dirs n p.1; Done (q.1, p.2 :: q.2)
  end.

Lemma Path_get_next_dir_at t i d : index t = Z.of_nat i -> table t !! i = Some d ->
  Path_get_next_dir t
  = Done (Path_table (start_point_x t) (start_point_y t) (table t) (name t) (Z.of_nat (S i)), u8 d).
Proof.
  intros Hi Hd. unfold Path_get_next_dir, arr_get. rewrite Hi, decide_True by lia.
  rewrite Nat2Z.id, Hd. cbn. do 3 f_equal. lia.
Qed.

(** The numbers at the table's front come out in order; the next call after the
    last element reads outside the array. *)
Lemma next_dirs_drop n t i : index t = Z.of_nat i -> Forall is_u8 (table t) ->
  (i + n <= length (table t))%nat ->
  next_dirs n t
  = Done (Path_table (start_point_x t) (start_point_y t) (table t) (name t) (Z.of_nat (i + n)),
          take n (drop i (table t))).
Proof.
  revert t i. induction n as [|n IH]; intros t i Hi Ht Hn.
  { destruct t. cbn in *. rewrite Nat.add_0_r. by subst. }
  destruct (lookup_lt_is_Some_2 (table t) i) as [d Hd]; [lia|].
  cbn [next_dirs]. rewrite (Path_get_next_dir_at t i d) by done. cbn.
  rewrite (IH _ (S i)) by (cbn; lia || done). cbn.
  rewrite (drop_S _ d i Hd).
  rewrite u8_id by (by apply (Forall_lookup_1 is_u8 (table t) i)).
  by rewrite Nat.add_succ_r.
Qed.

(** ** [RobotState.c] *)

Record point_t := Point { pt_x : Z; pt_y : Z }.
(** [map]'s row pointers; the cell is only addressed, never read. *)
Record Robote_State_t (cell : Type) := Robote_State {
  rs_table : Path_table_t;
  rs_map : list (list cell);
  now_state : point_t;
  will_state : point_t;
}.
Arguments Robote_State {cell}.
Arguments rs_table {cell}.
Arguments rs_map {cell}.
Arguments now_state {cell}.
Arguments will_state {cell}.

Definition Robot_State_Trigger {cell} (r : Robote_State_t cell) : outcome (Robote_State_t cell * Z) :=
  '(t, abs_dir) ← Path_get_next_dir (rs_table r);
  let now := will_state r in
  _ ← arr_get (rs_map r) (pt_x now);
  if abs_dir =? 0 then Done (Robote_State t (rs_map r) now (will_state r), 1)
  else
    let will :=
      if abs_dir =? 1 then Point (pt_x now - 1) (pt_y now)
      else if abs_dir =? 2 then Point (pt_x now) (pt_y now + 1)
      else if abs_dir =? 3 then Point (pt_x now + 1) (pt_y now)
      else if abs_dir =? 4 then Point (pt_x now) (pt_y now - 1)
      else will_state r in
    let will := Point 2 2 in
    Done (Robote_State t (rs_map r) now will, 0).

(** The direction is computed and thrown away. *)
Lemma trigger_forgets {cell} (r r' : Robote_State_t cell) :
  Robot_State_Trigger r = Done (r', 0) -> will_state r' = Point 2 2.
Proof.
  unfold Robot_State_Trigger. destruct (Path_get_next_dir _) as [[t d]|]; [|done]. cbn.
  destruct (arr_get _ _); [|done]. cbn. destruct (d =? 0); by intros [= <-].
Qed.
