(* ===== verification/RobotManager.v ===== *)
(** * [robotManager/robotmanager.c], [color_com.c]: the mission

    The manager's thread walks path tables, one entry per special point of the
    line, and runs a fixed program of relative movements and gripper actions at
    their ends.  Every movement publishes a target for the chassis and polls the
    position the chassis reports.  While the thread sleeps the rest of the firmware
    runs: the chassis step, the motors' measurements, the camera's interrupt and the
    line follower's callbacks.  Here those are [event]s, chosen by an environment
    that sees everything the manager has done so far. *)
From Stdlib Require Import String.
From S2P Require Import Prelude CFloat Apid Motor Chassis Fsus PathFinder.
#[local] Open Scope Z_scope.

Definition CAB_MODE : Z := 0.
Definition LINE_MODE : Z := 1.
Definition ACTION_MODE : Z := 2.

Definition END : Z := 0.
Definition FORWARD : Z := 1.
Definition RIGHT : Z := 2.
Definition BACKWARD : Z := 3.
Definition LEFT : Z := 4.

Definition RED : Z := 0.
Definition BLUE : Z := 1.
Definition YELLOW : Z := 2.
Definition NONE : Z := 3.
Definition IDLE : Z := 4.

(** [GET_PIN(H,3)]. *)
Definition SWITCH_24V_4 : Z := 16 * 7 + 3.

(** The four path table objects; [this_table] points to one of them. *)
Inductive table_id := init_table | put_table | take_table | back_table.
#[export] Instance table_id_eq_dec : EqDecision table_id.
Proof. solve_decision. Defined.

Definition init : list Z := [FORWARD; FORWARD; END; END].
Definition put : list Z := [RIGHT; END; END].
Definition take_ : list Z := [RIGHT; END; END].
Definition back : list Z := [LEFT; END; END].

(** The variables that say how far the mission is. *)
Record mission := Mission {
  now_dir : Z;
  next_dir : Z;
  this_table : table_id;
  tables : table_id -> Path_table_t;
  take_cnt : Z;
  color_type : Z;
  red_cnt : Z;
  blue_cnt : Z;
  yellow_cnt : Z;
}.

Section manager.
Context {F : Type} `{FloatOps F} `{DoubleOf F}.

(** What the manager's thread, and the callbacks it shares variables with, do to the
    outside: publish on [chassis_ctrl_topic], switch a supply, write to the arm's
    and the servo's port, sleep, poll without sleeping. *)
Inductive action :=
  | Publish (m : chassis_ctrl_t F)
  | Switch (id : Z) (on : bool)
  | Arm (buf : list Z)
  | Spin (servo_id is_cw speed ms : Z)
  | Sleep (ms : Z)
  | Poll.

(** What the rest of the firmware does meanwhile: a step of the chassis, motors that
    report any speeds and positions, motors that have reached what they were told. *)
Inductive event :=
  | EvChassis
  | EvMotors (measured : list (F * F))
  | EvReached
  | EvColor (data : list Z)
  | EvSpecial
  | EvError (e : F).

Record rbmg := Rbmg {
  rbmg_mode : Z;
  chassis_dir : Z;
  line_error : F;
  ctrl : chassis_ctrl_t F;
  color : list Z;
  color_flag : Z;
  leds : list Z;
  chassis_mai : robot F;
  out : list action;
  plan : mission;
}.

Definition set_mode (x : Z) (s : rbmg) : rbmg :=
  Rbmg x (chassis_dir s) (line_error s) (ctrl s) (color s) (color_flag s) (leds s) (chassis_mai s) (out s) (plan s).
Definition set_chassis_dir (x : Z) (s : rbmg) : rbmg :=
  Rbmg (rbmg_mode s) x (line_error s) (ctrl s) (color s) (color_flag s) (leds s) (chassis_mai s) (out s) (plan s).
Definition set_line_error (x : F) (s : rbmg) : rbmg :=
  Rbmg (rbmg_mode s) (chassis_dir s) x (ctrl s) (color s) (color_flag s) (leds s) (chassis_mai s) (out s) (plan s).
Definition set_ctrl (x : chassis_ctrl_t F) (s : rbmg) : rbmg :=
  Rbmg (rbmg_mode s) (chassis_dir s) (line_error s) x (color s) (color_flag s) (leds s) (chassis_mai s) (out s) (plan s).
Definition set_color (x : list Z) (s : rbmg) : rbmg :=
  Rbmg (rbmg_mode s) (chassis_dir s) (line_error s) (ctrl s) x (color_flag s) (leds s) (chassis_mai s) (out s) (plan s).
Definition set_color_flag (x : Z) (s : rbmg) : rbmg :=
  Rbmg (rbmg_mode s) (chassis_dir s) (line_error s) (ctrl s) (color s) x (leds s) (chassis_mai s) (out s) (plan s).
Definition set_leds (x : list Z) (s : rbmg) : rbmg :=
  Rbmg (rbmg_mode s) (chassis_dir s) (line_error s) (ctrl s) (color s) (color_flag s) x (chassis_mai s) (out s) (plan s).
Definition set_chassis (x : robot F) (s : rbmg) : rbmg :=
  Rbmg (rbmg_mode s) (chassis_dir s) (line_error s) (ctrl s) (color s) (color_flag s) (leds s) x (out s) (plan s).
Definition tell (a : action) (s : rbmg) : rbmg :=
  Rbmg (rbmg_mode s) (chassis_dir s) (line_error s) (ctrl s) (color s) (color_flag s) (leds s) (chassis_mai s) (out s ++ [a]) (plan s).
Definition set_plan (x : mission) (s : rbmg) : rbmg :=
  Rbmg (rbmg_mode s) (chassis_dir s) (line_error s) (ctrl s) (color s) (color_flag s) (leds s) (chassis_mai s) (out s) x.

(** [abus_public(&rbmg_chassis_acc, &ctrl)]: the chassis subscribes synchronously. *)
Definition public_ctrl (s : rbmg) : rbmg :=
  let s := tell (Publish (ctrl s)) s in
  set_chassis (chassis_sub_callback (Some (ctrl s)) (chassis_mai s)).1 s.

(** ** The callbacks *)

Definition KK : F := f_lit 9 10.
Definition SPEED : dbl := f_lit 25 100.

(** [switch (chassis_dir)]: the command that follows the line. *)
Definition line_ctrl (dir : Z) (e : F) (c : chassis_ctrl_t F) : chassis_ctrl_t F :=
  if dir =? 0 then Ctrl (ctrl_type c) 0%F (narrow SPEED) (e * KK)%F
  else if dir =? 1 then Ctrl (ctrl_type c) (narrow SPEED) 0%F (e * KK)%F
  else if dir =? 2 then Ctrl (ctrl_type c) 0%F (narrow (- SPEED)%F) (e * KK)%F
  else if dir =? 3 then Ctrl (ctrl_type c) (narrow (- SPEED)%F) 0%F (e * KK)%F
  else c.

(** [e] is what the message queue holds. *)
Definition line_command (e : F) (s : rbmg) : rbmg :=
  let s := set_line_error e s in
  let s := set_ctrl (Ctrl 0 (ctrl_x (ctrl s)) (ctrl_y (ctrl s)) (ctrl_z (ctrl s))) s in
  let s := set_chassis_dir 0 s in
  set_ctrl (line_ctrl (chassis_dir s) (line_error s) (ctrl s)) s.
Definition rbmg_error_callback (e : F) (s : rbmg) : rbmg :=
  if rbmg_mode s =? LINE_MODE then public_ctrl (line_command e s) else s.

Definition rbmg_special_point_callback (s : rbmg) : rbmg :=
  if negb (rbmg_mode s =? CAB_MODE) then set_mode ACTION_MODE s else s.

(** The pins G1, G3, G5 and G7. *)
Definition color_leds (c : Z) : list Z :=
  if c =? 114 then [0; 1; 1; 1] else if c =? 121 then [1; 1; 0; 1]
  else if c =? 98 then [1; 0; 1; 1] else [1; 1; 1; 1].

(** [data] is what the port holds when [size] bytes are announced. *)
Definition uart_rx_ind (data : list Z) (s : rbmg) : outcome rbmg :=
  xs ← arr_write (color s) 0 data;
  c ← arr_get xs 0;
  Done (set_color_flag 1 (set_leds (color_leds c) (set_color xs s))).

(** Speeds and positions arrive in the motor table. *)
Definition measure (m : motor F) (v : F * F) : motor F := mset_cur_pos v.2 (mset_cur_speed v.1 m).
Fixpoint measure_all (ms : list (motor F)) (vs : list (F * F)) : list (motor F) :=
  match ms, vs with m :: ms, v :: vs => measure m v :: measure_all ms vs | _, _ => ms end.

(** A motor in position mode, standing at its target. *)
Definition reached (m : motor F) : motor F :=
  if flag_run_mode m =? MOTOR_MODE_POS then measure m (0%F, tar_pos m) else m.

Definition handle_event (e : event) (s : rbmg) : outcome rbmg :=
  match e with
  | EvChassis => r ← chassis_handle (chassis_mai s); Done (set_chassis r s)
  | EvMotors vs =>
    let r := chassis_mai s in
    Done (set_chassis (Robot (rb_chassis r) (mai_data r) (measure_all (rb_motors r) vs)) s)
  | EvReached =>
    let r := chassis_mai s in
    Done (set_chassis (Robot (rb_chassis r) (mai_data r) (map reached (rb_motors r))) s)
  | EvColor data => uart_rx_ind data s
  | EvSpecial => Done (rbmg_special_point_callback s)
  | EvError e => Done (rbmg_error_callback e s)
  end.

Fixpoint handle_events (es : list event) (s : rbmg) : outcome rbmg :=
  match es with [] => Done s | e :: es => s ← handle_event e s; handle_events es s end.

(** ** The thread *)

(** It returns, ends in its final loop, or leaves the language. *)
Inductive result (A : Type) := Ret (a : A) (s : rbmg) | Over (s : rbmg) | Bad (e : fault).
#[global] Arguments Ret {A}.
#[global] Arguments Over {A}.
#[global] Arguments Bad {A}.
Definition T (A : Type) : Type := rbmg -> result A.
#[global] Instance T_ret : MRet T := fun A a s => Ret a s.
#[global] Instance T_bind : MBind T := fun A B f m s =>
  match m s with Ret a s => f a s | Over s => Over s | Bad e => Bad e end.
Definition modify (f : rbmg -> rbmg) : T unit := fun s => Ret () (f s).
Definition gets {A} (f : rbmg -> A) : T A := fun s => Ret (f s) s.
Definition lift {A} (m : outcome A) : T A := fun s => match m with Done a => Ret a s | Fault e => Bad e end.

(** [while (1) { LOG_D("over"); rt_thread_mdelay(1000); }] *)
Definition over : T unit := fun s => Over s.

Context (env : list action -> list event).

(** The other threads and interrupts run once the thread sleeps; while it only polls,
    at a priority above theirs, just the interrupt of the camera's port does. *)
Definition others (es : list event) : T unit := fun s =>
  match handle_events es s with Done s => Ret () s | Fault e => Bad e end.
Definition is_irq (e : event) : bool := match e with EvColor _ => true | _ => false end.
Definition rt_thread_mdelay (ms : Z) : T unit := fun s =>
  let s := tell (Sleep ms) s in others (env (out s)) s.
Definition poll : T unit := fun s =>
  let s := tell Poll s in others (List.filter is_irq (env (out s))) s.

Definition power_on (id : Z) : T unit := modify (tell (Switch id true)).
Definition power_off (id : Z) : T unit := modify (tell (Switch id false)).
Definition mypick : T unit :=
  _ ← modify (tell (Arm pick_buf)); _ ← rt_thread_mdelay 200;
  _ ← modify (tell (Arm pick_buf1)); _ ← rt_thread_mdelay 200;
  _ ← modify (tell (Spin 0 0 500 3800)); rt_thread_mdelay 2000.
Definition myup : T unit :=
  _ ← modify (tell (Arm up_buf)); _ ← rt_thread_mdelay 200;
  _ ← modify (tell (Arm up_buf)); _ ← rt_thread_mdelay 200;
  _ ← modify (tell (Spin 0 1 500 3800)); rt_thread_mdelay 2000.

(** ** Relative movements *)

Definition nowpos (s : rbmg) : chassis_pos_t F := chassis_get_pos (rb_chassis (chassis_mai s)).

(** [fabs(d) < eps], in [double]. *)
Definition fabs_lt (d eps : F) : bool :=
  let x := widen d in ((if (x <? f_of_Z 0)%F then (- x)%F else x) <? widen eps)%F.
Definition arrived (p : chassis_pos_t F) (c : chassis_ctrl_t F) : bool :=
  fabs_lt (y_m p - ctrl_y c)%F (f_lit 1 100) && fabs_lt (x_m p - ctrl_x c)%F (f_lit 1 100)
  && fabs_lt (z_rad p - ctrl_z c)%F (f_lit 1 10).

Definition clean (s : rbmg) : rbmg :=
  let r := chassis_mai s in
  set_chassis (Robot (chassis_pos_clean (rb_chassis r)) (mai_data r) (rb_motors r)) s.
Definition set_ctrl_pos (s : rbmg) : rbmg :=
  set_ctrl (Ctrl 1 (ctrl_x (ctrl s)) (ctrl_y (ctrl s)) (ctrl_z (ctrl s))) s.

Fixpoint movement_loop (fuel : nat) (counter : Z) : T unit :=
  match fuel with
  | O => fun _ => Bad Hang
  | S fuel =>
    there ← gets (fun s => arrived (nowpos s) (ctrl s));
    if there : bool then
      _ ← modify clean; rt_thread_mdelay 300
    else
      _ ← modify (fun s => public_ctrl (set_ctrl_pos s));
      _ ← rt_thread_mdelay 50;
      let counter := counter + 1 in
      if counter >? 1000 then mret () else movement_loop fuel counter
  end.

(** The loop gives up in its iteration 1001. *)
Definition MOVEMENT_FUEL : nat := 1001.

Definition action_relative_movement_car (x y w : F) : T unit :=
  _ ← modify (fun s =>
        let p := nowpos s in
        public_ctrl (set_ctrl (Ctrl 1 (x_m p + x)%F (y_m p + y)%F (z_rad p + w)%F) s));
  movement_loop MOVEMENT_FUEL 0.

(** ** The actions at the tables' ends *)

Definition mod_plan (f : mission -> mission) : T unit := modify (fun s => set_plan (f (plan s)) s).
Definition set_dirs (now next : Z) (p : mission) : mission :=
  Mission now next (this_table p) (tables p) (take_cnt p) (color_type p) (red_cnt p) (blue_cnt p) (yellow_cnt p).
Definition set_this_table (t : table_id) (p : mission) : mission :=
  Mission (now_dir p) (next_dir p) t (tables p) (take_cnt p) (color_type p) (red_cnt p) (blue_cnt p) (yellow_cnt p).
Definition set_table (i : table_id) (t : Path_table_t) (p : mission) : mission :=
  Mission (now_dir p) (next_dir p) (this_table p) (fun j => if decide (j = i) then t else tables p j)
    (take_cnt p) (color_type p) (red_cnt p) (blue_cnt p) (yellow_cnt p).
Definition set_take_cnt (n : Z) (p : mission) : mission :=
  Mission (now_dir p) (next_dir p) (this_table p) (tables p) n (color_type p) (red_cnt p) (blue_cnt p) (yellow_cnt p).
Definition set_color_type (c : Z) (p : mission) : mission :=
  Mission (now_dir p) (next_dir p) (this_table p) (tables p) (take_cnt p) c (red_cnt p) (blue_cnt p) (yellow_cnt p).
Definition set_counts (r b y : Z) (p : mission) : mission :=
  Mission (now_dir p) (next_dir p) (this_table p) (tables p) (take_cnt p) (color_type p) r b y.

Definition tenths (n : Z) : F := f_lit n 10.
Definition hundredths (n : Z) : F := f_lit n 100.
Definition thousandths (n : Z) : F := f_lit n 1000.
Definition move : F -> F -> F -> T unit := action_relative_movement_car.

Definition is_one_of (n : Z) (l : list Z) : bool := existsb (Z.eqb n) l.

(** The colour a byte of the camera stands for. *)
Definition color_of_byte (c : Z) : Z :=
  if c =? 114 then RED else if c =? 121 then YELLOW
  else if c =? 98 then BLUE else NONE.
Definition read_color : T unit :=
  flag ← gets color_flag;
  if flag =? 0 then mret ()
  else c ← gets color; b ← lift (arr_get c 0); mod_plan (set_color_type (color_of_byte b)).

Definition take_action : T unit :=
  _ ← power_on SWITCH_24V_4;
  n ← gets (fun s => take_cnt (plan s));
  _ ← (if (n >? 3) && (n <? 7) then move 0%F (thousandths 185) 0%F
       else if n >? 6 then move 0%F (thousandths 385) 0%F
       else move 0%F 0%F 0%F);
  _ ← (if is_one_of n [2; 5; 8] then
         _ ← move 0%F (- hundredths 6)%F 0%F;
         _ ← move (thousandths 182) 0%F 0%F;
         move 0%F (thousandths 68) 0%F
       else if is_one_of n [3; 6; 9] then
         _ ← move 0%F (- thousandths 45)%F 0%F;
         _ ← move (- thousandths 215)%F 0%F 0%F;
         move 0%F (thousandths 43) 0%F
       else move 0%F 0%F 0%F);
  _ ← rt_thread_mdelay 1000;
  _ ← read_color;
  _ ← power_on SWITCH_24V_4;
  _ ← mypick;
  _ ← rt_thread_mdelay 1000;
  _ ← myup;
  _ ← (if is_one_of n [2; 5; 8] then move (- thousandths 182)%F 0%F 0%F
       else if is_one_of n [3; 6; 9] then move (thousandths 215) 0%F 0%F
       else mret ());
  _ ← (if (n >? 3) && (n <? 7) then move 0%F (- tenths 2)%F 0%F
       else if n >? 6 then move 0%F (- tenths 4)%F 0%F
       else mret ());
  _ ← move 0%F (- tenths 3)%F 0%F;
  _ ← rt_thread_mdelay 500;
  _ ← mod_plan (set_take_cnt (u8 (n + 1)));
  modify (set_mode LINE_MODE).

Definition put_action : T unit :=
  _ ← move 0%F 0%F 0%F;
  c ← gets (fun s => color_type (plan s));
  _ ← (if c =? RED then
         _ ← mod_plan (fun p => set_counts (u8 (red_cnt p + 1)) (blue_cnt p) (yellow_cnt p) p);
         _ ← move (tenths 6) 0%F 0%F; move 0%F (hundredths 18) 0%F
       else if c =? BLUE then
         _ ← mod_plan (fun p => set_counts (red_cnt p) (u8 (blue_cnt p + 1)) (yellow_cnt p) p);
         _ ← move 0%F 0%F 0%F; move 0%F (hundredths 18) 0%F
       else if c =? YELLOW then
         _ ← mod_plan (fun p => set_counts (red_cnt p) (blue_cnt p) (u8 (yellow_cnt p + 1)) p);
         _ ← move (- tenths 6)%F 0%F 0%F; move 0%F (hundredths 18) 0%F
       else if (c =? NONE) || (c =? IDLE) then _ ← move 0%F 0%F 0%F; move 0%F 0%F 0%F
       else mret ());
  _ ← power_off SWITCH_24V_4;
  _ ← rt_thread_mdelay 4000;
  _ ← (if c =? RED then _ ← move 0%F (- hundredths 18)%F 0%F; move (- tenths 6)%F 0%F 0%F
       else if c =? BLUE then _ ← move 0%F (- hundredths 18)%F 0%F; move 0%F 0%F 0%F
       else if c =? YELLOW then _ ← move 0%F (- hundredths 18)%F 0%F; move (tenths 6) 0%F 0%F
       else if (c =? NONE) || (c =? IDLE) then _ ← move 0%F 0%F 0%F; move 0%F 0%F 0%F
       else mret ());
  _ ← move 0%F 0%F (f_lit 31415926 10000000);
  _ ← mod_plan (set_color_type IDLE);
  _ ← modify (set_color_flag 0);
  modify (set_mode LINE_MODE).

(** ** One special point *)

Definition M_PI_2 : dbl := f_lit 15707963267948966192313216916398 10000000000000000000000000000000.
Definition HALF_CAR_WIDTH : F := hundredths 9.
Definition delta_angle (will_dir : Z) : F :=
  if will_dir =? RIGHT then narrow (- M_PI_2)%F
  else if will_dir =? BACKWARD then narrow (M_PI_2 * f_of_Z 2)%F
  else if will_dir =? LEFT then narrow M_PI_2 else 0%F.

Definition turn_actions (now_dir will_dir : Z) : T unit :=
  if will_dir =? END then
    t ← gets (fun s => this_table (plan s));
    match t with
    | init_table | take_table =>
      _ ← take_action;
      _ ← mod_plan (set_table put_table (Path_table_init put "put table" 0 0));
      mod_plan (set_this_table put_table)
    | put_table =>
      _ ← put_action;
      _ ← mod_plan (set_table take_table (Path_table_init take_ "take table" 0 0));
      mod_plan (fun p => set_this_table (if take_cnt p <? 10 then take_table else back_table) p)
    | back_table =>
      _ ← move 0%F (tenths 4) 0%F;
      _ ← mod_plan (set_table back_table (Path_table_init back "back table" 0 0));
      _ ← mod_plan (set_this_table put_table);
      over
    end
  else
    _ ← modify (set_mode ACTION_MODE);
    _ ← move 0%F HALF_CAR_WIDTH 0%F;
    _ ← move 0%F 0%F (delta_angle will_dir);
    modify (set_mode LINE_MODE).

(** [now_dir = next_dir; next_dir = Path_get_next_dir(this_table);] *)
Definition path_step : T unit := fun s =>
  let p := plan s in
  match Path_get_next_dir (tables p (this_table p)) with
  | Done (t, d) => Ret () (set_plan (set_dirs (next_dir p) d (set_table (this_table p) t p)) s)
  | Fault e => Bad e
  end.

(** ** The thread's loop *)

(** The two waits of calibration mode. *)
Fixpoint cab_wait (fuel : nat) : T unit :=
  match fuel with
  | O => fun _ => Bad Hang
  | S fuel =>
    _ ← poll;
    flag ← gets color_flag;
    _ ← (if flag =? 0 then mret ()
         else
           c ← gets color; b ← lift (arr_get c 0);
           _ ← (if b =? 114 then modify (fun s => set_color_flag 0 (set_mode LINE_MODE s)) else mret ());
           modify (set_color_flag 0));
    m ← gets rbmg_mode;
    if m =? LINE_MODE then mret () else cab_wait fuel
  end.
Fixpoint cab_loop (fuel : nat) : T unit :=
  match fuel with
  | O => fun _ => Bad Hang
  | S fuel =>
    m ← gets rbmg_mode;
    if negb (m =? CAB_MODE) then mret ()
    else
      c ← gets color; b ← lift (arr_get c 0);
      _ ← (if negb (b =? 120) then modify (set_mode LINE_MODE) else mret ());
      _ ← rt_thread_mdelay 500;
      cab_loop fuel
  end.

(** One pass of [while (1)]. *)
Definition rbmg_handle (fuel : nat) : T unit :=
  m ← gets rbmg_mode;
  _ ← (if m =? CAB_MODE then
         _ ← rt_thread_mdelay 8000; _ ← myup; _ ← cab_wait fuel; cab_loop fuel
       else if m =? LINE_MODE then mret ()
       else if m =? ACTION_MODE then
         _ ← path_step;
         p ← gets plan;
         _ ← turn_actions (now_dir p) (next_dir p);
         modify (set_mode LINE_MODE)
       else mret ());
  rt_thread_mdelay 50.
Fixpoint rbmg_run (fuel n : nat) : T unit :=
  match n with O => mret () | S n => _ ← rbmg_handle fuel; rbmg_run fuel n end.
End manager.
Arguments action : clear implicits.
Arguments event : clear implicits.
Arguments rbmg : clear implicits.
Arguments result : clear implicits.

(** The variables' initial values, after [rbmg_init]. *)
Definition tables0 (i : table_id) : Path_table_t :=
  match i with
  | init_table => Path_table_init init "init table" 0 0
  | put_table => Path_table_init put "put table" 0 0
  | take_table => Path_table_init take_ "take table" 0 0
  | back_table => Path_table_init back "back table" 0 0
  end.
Definition rbmg_init : mission := Mission 1 1 init_table tables0 1 0 0 0 0.
Definition rbmg_start {F} `{FloatOps F} (r : robot F) : rbmg F :=
  Rbmg CAB_MODE 0 0%F (Ctrl 0 0%F 0%F 0%F) (replicate 128 0) 0 [0; 0; 0; 0] r [] rbmg_init.
