(* ===== verification/Mission.v ===== *)
(** * The mission as a whole

    What [robotmanager.c] does over any number of special points, whatever the line,
    the camera and the motors report: the order of its gripper actions, and that the
    mission ends when every line does.  [calm] is what everything but the path and
    gripper steps keeps; [spot] is the abstract plan the program refines. *)
From Stdlib Require Import String.
From S2P Require Import Prelude CFloat Apid Motor Chassis PathFinder RobotManager.
#[local] Open Scope Z_scope.

Section mission.
Context {F : Type} `{FloatOps F} `{DoubleOf F}.
Context (env : list (action F) -> list (event F)).
Implicit Types (s : rbmg F) (e : event F) (es : list (event F)) (c : chassis_ctrl_t F).

(** The camera sends no more than its buffer holds. *)
Definition event_ok e : Prop :=
  match e with EvColor data => (length data <= 128)%nat | _ => True end.
Definition env_ok : Prop := forall h, Forall event_ok (env h).

Definition well_formed s : Prop :=
  length (rb_motors (chassis_mai s)) = 4%nat /\ length (color s) = 128%nat /\
  (rbmg_mode s = CAB_MODE \/ rbmg_mode s = LINE_MODE \/ rbmg_mode s = ACTION_MODE).

(** The gripper's part of what was done. *)
Definition is_grip (a : action F) : bool :=
  match a with Switch _ _ | Spin _ _ _ _ => true | _ => false end.
Definition grip s : list (action F) := List.filter is_grip (out s).

(** What everything but the path and gripper steps keeps. *)
Record calm s s' : Prop := Calm {
  calm_wf : well_formed s';
  calm_plan : plan s' = plan s;
  calm_grip : grip s' = grip s;
  calm_mode : rbmg_mode s' = rbmg_mode s \/ (rbmg_mode s = LINE_MODE /\ rbmg_mode s' = ACTION_MODE);
}.

Lemma calm_refl s : well_formed s -> calm s s.
Proof. intros. split; auto. Qed.
Lemma calm_trans s1 s2 s3 : calm s1 s2 -> calm s2 s3 -> calm s1 s3.
Proof.
  intros [? Hp1 Hg1 Hm1] [? Hp2 Hg2 Hm2]. split; [done|congruence|congruence|].
  destruct Hm1 as [E1|[E1 E2]], Hm2 as [E3|[E3 E4]]; (left; congruence) || (right; split; congruence).
Qed.
Lemma grip_tell a s : is_grip a = false -> grip (tell a s) = grip s.
Proof. intros Ha. unfold grip. cbn. rewrite List.filter_app. cbn. rewrite Ha. apply app_nil_r. Qed.
Lemma grip_tell_grip a s : is_grip a = true -> grip (tell a s) = grip s ++ [a].
Proof. intros Ha. unfold grip. cbn. rewrite List.filter_app. cbn. by rewrite Ha. Qed.

Lemma calm_tell a s : well_formed s -> is_grip a = false -> calm s (tell a s).
Proof. intros Hw Ha. split; [done|done|by apply grip_tell|by left]. Qed.
Lemma calm_public s : well_formed s -> calm s (public_ctrl s).
Proof. intros Hw. split; [done|done|by apply (grip_tell (Publish _))|by left]. Qed.
Lemma calm_set_ctrl c s : well_formed s -> calm s (set_ctrl c s).
Proof. intros. split; auto. Qed.
Lemma calm_clean s : well_formed s -> calm s (clean s).
Proof. intros. split; auto. Qed.

Lemma measure_all_length (ms : list (motor F)) vs : length (measure_all ms vs) = length ms.
Proof. revert vs. induction ms as [|m ms IH]; intros [|v vs]; cbn; auto. Qed.

Lemma calm_special s : well_formed s -> calm s (rbmg_special_point_callback s).
Proof.
  intros Hw. unfold rbmg_special_point_callback.
  destruct (rbmg_mode s =? CAB_MODE) eqn:E; cbn; [by apply calm_refl|].
  destruct Hw as (Hl & Hc & Hm). split; [split_and!; by auto|done|done|].
  destruct Hm as [Hm|[Hm|Hm]]; [by rewrite Hm in E|by right|by left].
Qed.
Lemma calm_error x s : well_formed s -> calm s (rbmg_error_callback x s).
Proof.
  intros Hw. unfold rbmg_error_callback. destruct (rbmg_mode s =? LINE_MODE); [|by apply calm_refl].
  eapply calm_trans; [|by apply calm_public]. split; auto.
Qed.

Lemma handle_event_calm e s : event_ok e -> well_formed s ->
  exists s', handle_event e s = Done s' /\ calm s s'.
Proof.
  intros He Hw. pose proof Hw as (Hl & Hc & Hm). destruct e as [|vs| |data| |x]; cbn [handle_event].
  - destruct (chassis_handle_ok _ Hl) as (r' & -> & Hl' & _).
    eexists. split; [done|]. split; auto. by split_and!.
  - eexists. split; [done|]. split; auto. split_and!; [|done..]. cbn. by rewrite measure_all_length.
  - eexists. split; [done|]. split; auto. split_and!; [|done..]. cbn. by rewrite length_map.
  - unfold uart_rx_ind. cbn in He. rewrite arr_write_ok by lia. cbn [mbind outcome_bind].
    set (xs := list_inserts _ _ _).
    assert (length xs = 128%nat) as Hx by (unfold xs; by rewrite length_inserts).
    destruct xs as [|x xs]; [done|]. eexists. split; [done|]. split; auto. by split_and!.
  - eexists. split; [done|]. by apply calm_special.
  - eexists. split; [done|]. by apply calm_error.
Qed.

Lemma handle_events_calm es s : Forall event_ok es -> well_formed s ->
  exists s', handle_events es s = Done s' /\ calm s s'.
Proof.
  intros Hes. revert s. induction Hes as [|e es He _ IH]; intros s Hw; cbn [handle_events].
  { eexists. by split; [|apply calm_refl]. }
  destruct (handle_event_calm e s He Hw) as (s1 & -> & H1). cbn [mbind outcome_bind].
  destruct (IH s1) as (s2 & -> & H2); [apply H1|]. eexists. split; [done|]. by eapply calm_trans.
Qed.

(** ** Runs that return *)

Definition runs {A} (m : T A) s (Q : A -> rbmg F -> Prop) : Prop :=
  exists a s', m s = Ret a s' /\ Q a s'.
Lemma runs_bind {A B} (m : T A) (k : A -> T B) s Q :
  runs m s (fun a s' => runs (k a) s' Q) -> runs (m ≫= k) s Q.
Proof. intros (a & s' & Hm & b & s'' & Hk & HQ). exists b, s''. split; [|done]. cbn. unfold mbind, T_bind. by rewrite Hm. Qed.
Lemma runs_mono {A} (m : T A) s (Q Q' : A -> rbmg F -> Prop) :
  runs m s Q -> (forall a s', Q a s' -> Q' a s') -> runs m s Q'.
Proof. intros (a & s' & Hm & HQ) Himp. exists a, s'. auto. Qed.
Lemma runs_ret {A} (a : A) s (Q : A -> rbmg F -> Prop) : Q a s -> runs (mret a) s Q.
Proof. intros. by exists a, s. Qed.
Lemma runs_modify f s (Q : unit -> rbmg F -> Prop) : Q tt (f s) -> runs (modify f) s Q.
Proof. intros. by exists tt, (f s). Qed.
Lemma runs_gets {A} (f : rbmg F -> A) s (Q : A -> rbmg F -> Prop) : Q (f s) s -> runs (gets f) s Q.
Proof. intros. by exists (f s), s. Qed.

Lemma mdelay_calm (Henv : env_ok) ms s : well_formed s ->
  runs (rt_thread_mdelay env ms) s (fun _ s' => calm s s').
Proof.
  intros Hw. unfold rt_thread_mdelay, others, runs. cbv zeta.
  destruct (handle_events_calm (env (out (tell (Sleep ms) s))) (tell (Sleep ms) s)) as (s' & -> & Hc); auto.
  eexists tt, s'. split; [done|]. eapply calm_trans; [|done]. by apply calm_tell.
Qed.

Lemma movement_loop_calm (Henv : env_ok) fuel counter s : well_formed s ->
  0 <= counter -> 1001 <= counter + Z.of_nat fuel -> counter <= 1000 ->
  runs (movement_loop env fuel counter) s (fun _ s' => calm s s').
Proof.
  revert counter s. induction fuel as [|fuel IH]; intros counter s Hw Hc Hf Hlt; [lia|].
  cbn [movement_loop]. apply runs_bind, runs_gets. destruct (arrived _ _).
  - apply runs_bind, runs_modify. eapply runs_mono; [by apply mdelay_calm|]. intros [] s' Hs.
    by eapply calm_trans; [apply calm_clean|].
  - apply runs_bind, runs_modify, runs_bind.
    assert (calm s (public_ctrl (set_ctrl_pos s))) as H1
      by (eapply calm_trans; [by apply calm_set_ctrl|by apply calm_public]).
    eapply runs_mono; [apply mdelay_calm; [done|apply H1]|]. intros [] s2 H2.
    pose proof (calm_trans _ _ _ H1 H2) as H3. cbv zeta.
    destruct (counter + 1 >? 1000) eqn:E; [by apply runs_ret|].
    eapply runs_mono; [apply IH; [apply H3|lia..]|]. intros [] s4 H4. by eapply calm_trans.
Qed.

Lemma move_calm (Henv : env_ok) x y w s : well_formed s ->
  runs (move env x y w) s (fun _ s' => calm s s').
Proof.
  intros Hw. unfold move, action_relative_movement_car. apply runs_bind, runs_modify.
  eapply runs_mono; [apply movement_loop_calm; auto; unfold MOVEMENT_FUEL; lia|].
  intros [] s' Hs. eapply calm_trans; [|exact Hs]. eapply calm_trans; [by apply calm_set_ctrl|by apply calm_public].
Qed.

(** ** Where the mission is: an abstract plan *)

Inductive task := Turn (dir : Z) | Take | Put | Finish.
#[global] Instance task_eq_dec : EqDecision task.
Proof. solve_decision. Defined.

Definition directions (t : table_id) : list Z :=
  match t with init_table => init | put_table => put | take_table => take_ | back_table => back end.

(** The table in use, the index in it and the number of the next block. *)
Record spot := Spot { sp_table : table_id; sp_index : nat; sp_cnt : Z }.
Definition spot_eqb (a b : spot) : bool :=
  bool_decide (sp_table a = sp_table b) && bool_decide (sp_index a = sp_index b) && (sp_cnt a =? sp_cnt b).

(** One special point. *)
Definition spot_step (a : spot) : option (task * spot) :=
  d ← directions (sp_table a) !! sp_index a;
  if d =? END then
    Some match sp_table a with
         | init_table | take_table => (Take, Spot put_table 0 (u8 (sp_cnt a + 1)))
         | put_table => (Put, Spot (if sp_cnt a <? 10 then take_table else back_table) 0 (sp_cnt a))
         | back_table => (Finish, Spot put_table 0 (sp_cnt a))
         end
  else Some (Turn d, Spot (sp_table a) (S (sp_index a)) (sp_cnt a)).

Definition start_spot : spot := Spot init_table 0 1.
Fixpoint spots (n : nat) (a : spot) : option (list task * spot) :=
  match n with
  | O => Some ([], a)
  | S n => '(t, b) ← spot_step a; '(ts, c) ← spots n b; Some (t :: ts, c)
  end.

(** Nine blocks, fetched and delivered in turns. *)
Definition mission_plan : list task :=
  [Turn FORWARD; Turn FORWARD; Take]
  ++ concat (replicate 8 [Turn RIGHT; Put; Turn RIGHT; Take])
  ++ [Turn RIGHT; Put; Turn LEFT; Finish].

Lemma spots_plan : fst <$> spots 39 start_spot = Some mission_plan.
Proof. vm_compute. reflexivity. Qed.

(** The path variables of the program are at a spot. *)
Record at_spot (a : spot) (p : mission) : Prop := AtSpot {
  at_table : this_table p = sp_table a;
  at_index : index (tables p (sp_table a)) = Z.of_nat (sp_index a);
  at_cnt : take_cnt p = sp_cnt a;
  at_dirs : forall j, table (tables p j) = directions j;
  at_back : sp_table a <> back_table -> index (tables p back_table) = 0;
}.

(** ** Assertions about a run from [s0] *)

Definition triple {A} (m : T A) (P Q : rbmg F -> Prop) : Prop :=
  forall s, P s -> runs m s (fun _ s' => Q s').
Lemma triple_bind {A B} (m : T A) (k : A -> T B) P Q R :
  triple m P Q -> (forall a, triple (k a) Q R) -> triple (m ≫= k) P R.
Proof.
  intros Hm Hk s Hs. apply runs_bind. eapply runs_mono; [by apply Hm|].
  intros a s' Hs'. by apply Hk.
Qed.
Lemma triple_if {A} (b : bool) (m1 m2 : T A) P Q :
  triple m1 P Q -> triple m2 P Q -> triple (if b then m1 else m2) P Q.
Proof. by destruct b. Qed.
Lemma triple_ret {A} (a : A) P : triple (mret a) P P.
Proof. intros s Hs. by apply runs_ret. Qed.
Lemma triple_gets_any {A} (f : rbmg F -> A) P : triple (gets f) P P.
Proof. intros s Hs. by apply runs_gets. Qed.

(** Tables and block count, and the gripper's trace. *)
Record doing (i : table_id) (ts : table_id -> Path_table_t) (n : Z) (g : list (action F)) s : Prop := Doing {
  do_wf : well_formed s;
  do_this : this_table (plan s) = i;
  do_tables : tables (plan s) = ts;
  do_cnt : take_cnt (plan s) = n;
  do_grip : grip s = g;
}.

Section steps.
Context (i : table_id) (ts : table_id -> Path_table_t) (n : Z) (g : list (action F)).

Lemma doing_calm s s' : doing i ts n g s -> calm s s' -> doing i ts n g s'.
Proof. intros [] []. split; congruence. Qed.
Lemma triple_calm {A} (m : T A) :
  (forall s, well_formed s -> runs m s (fun _ s' => calm s s')) -> triple m (doing i ts n g) (doing i ts n g).
Proof.
  intros Hm s Hs. eapply runs_mono; [apply Hm; apply Hs|]. intros a s' Hc. by eapply doing_calm.
Qed.
Lemma triple_mdelay (Henv : env_ok) ms : triple (rt_thread_mdelay env ms) (doing i ts n g) (doing i ts n g).
Proof. apply triple_calm. intros. by apply mdelay_calm. Qed.
Lemma triple_move (Henv : env_ok) x y w : triple (move env x y w) (doing i ts n g) (doing i ts n g).
Proof. apply triple_calm. intros. by apply move_calm. Qed.
Lemma triple_modify f :
  (forall s, well_formed s -> well_formed (f s) /\ grip (f s) = grip s /\
     this_table (plan (f s)) = this_table (plan s) /\ tables (plan (f s)) = tables (plan s) /\
     take_cnt (plan (f s)) = take_cnt (plan s)) ->
  triple (modify f) (doing i ts n g) (doing i ts n g).
Proof.
  intros Hf s Hs. apply runs_modify. destruct Hs as [Hw ????].
  destruct (Hf s Hw) as (? & ? & ? & ? & ?). split; congruence.
Qed.
Lemma triple_tell a : is_grip a = false -> triple (modify (tell a)) (doing i ts n g) (doing i ts n g).
Proof. intros Ha. apply triple_modify. intros s Hs. split_and!; try done. by apply grip_tell. Qed.
Lemma triple_grip a : is_grip a = true -> triple (modify (tell a)) (doing i ts n g) (doing i ts n (g ++ [a])).
Proof.
  intros Ha s []. apply runs_modify. split; try done. rewrite grip_tell_grip by done. congruence.
Qed.
Lemma triple_set_mode m : m = LINE_MODE \/ m = ACTION_MODE ->
  triple (modify (set_mode m)) (doing i ts n g) (doing i ts n g).
Proof.
  intros Hm. apply triple_modify. intros s (? & ? & ?).
  split; [|done]. split_and!; [done|done|by right].
Qed.
Lemma triple_read_color : triple read_color (doing i ts n g) (doing i ts n g).
Proof.
  intros s Hs. unfold read_color. apply runs_bind, runs_gets. destruct (color_flag s =? 0); [by apply runs_ret|].
  apply runs_bind, runs_gets. destruct (do_wf _ _ _ _ _ Hs) as (? & Hc & ?).
  destruct (color s) as [|c cs] eqn:E; [done|]. apply runs_bind. exists c, s. split; [done|].
  unfold mod_plan. apply runs_modify. destruct Hs. by split.
Qed.
Lemma triple_cnt {B} (k : Z -> T B) Q :
  triple (k n) (doing i ts n g) Q -> triple (gets (fun s => take_cnt (plan s)) ≫= k) (doing i ts n g) Q.
Proof. intros Hk s Hs. apply runs_bind, runs_gets. rewrite (do_cnt _ _ _ _ _ Hs). by apply Hk. Qed.
Lemma triple_set_cnt m : triple (mod_plan (set_take_cnt m)) (doing i ts n g) (doing i ts m g).
Proof. intros s []. apply runs_modify. by split. Qed.
Lemma triple_colors f :
  (forall p, this_table (f p) = this_table p /\ tables (f p) = tables p /\ take_cnt (f p) = take_cnt p) ->
  triple (mod_plan f) (doing i ts n g) (doing i ts n g).
Proof. intros Hf. apply triple_modify. intros s Hs. by destruct (Hf (plan s)) as (? & ? & ?). Qed.
End steps.

#[local] Hint Resolve triple_mdelay triple_move triple_set_mode triple_read_color triple_ret : mission.
(** Everything that is neither a gripper nor a path step. *)
Ltac quiet := repeat first
  [ apply triple_if
  | solve [eauto with mission]
  | solve [apply triple_colors; by intros []]
  | solve [by apply triple_tell]
  | solve [apply triple_modify; by intros ? (? & ? & ?)]
  | solve [apply triple_modify; intros ? (? & ? & ?); repeat split; auto]
  | eapply triple_bind; [|intros ?] ].

Lemma mypick_grip (Henv : env_ok) i ts n g :
  triple (mypick env) (doing i ts n g) (doing i ts n (g ++ [Spin 0 0 500 3800])).
Proof. unfold mypick. do 4 (eapply triple_bind; [quiet|intros ?]). eapply triple_bind; [by apply triple_grip|intros ?]. quiet. Qed.
Lemma myup_grip (Henv : env_ok) i ts n g :
  triple (myup env) (doing i ts n g) (doing i ts n (g ++ [Spin 0 1 500 3800])).
Proof. unfold myup. do 4 (eapply triple_bind; [quiet|intros ?]). eapply triple_bind; [by apply triple_grip|intros ?]. quiet. Qed.

Definition take_grip : list (action F) :=
  [Switch SWITCH_24V_4 true; Switch SWITCH_24V_4 true; Spin 0 0 500 3800; Spin 0 1 500 3800].
Definition put_grip : list (action F) := [Switch SWITCH_24V_4 false].

Lemma take_action_does (Henv : env_ok) i ts n g :
  triple (take_action env) (doing i ts n g) (doing i ts (u8 (n + 1)) (g ++ take_grip)).
Proof.
  unfold take_action. eapply triple_bind; [by apply triple_grip|intros ?].
  apply triple_cnt. do 4 (eapply triple_bind; [quiet|intros ?]).
  eapply triple_bind; [by apply triple_grip|intros ?].
  eapply triple_bind; [by apply mypick_grip|intros ?].
  eapply triple_bind; [quiet|intros ?]. eapply triple_bind; [by apply myup_grip|intros ?].
  rewrite <- !app_assoc. do 4 (eapply triple_bind; [quiet|intros ?]).
  eapply triple_bind; [apply triple_set_cnt|intros ?]. quiet.
Qed.
Lemma put_action_does (Henv : env_ok) i ts n g :
  triple (put_action env) (doing i ts n g) (doing i ts n (g ++ put_grip)).
Proof.
  unfold put_action. eapply triple_bind; [quiet|intros ?]. eapply triple_bind; [apply triple_gets_any|intros c].
  eapply triple_bind; [quiet|intros ?]. eapply triple_bind; [by apply triple_grip|intros ?]. quiet.
Qed.

(** ** One special point in the program *)

(** [at_spot] in terms of [doing]: what the tables satisfy. *)
Record tables_at (i : table_id) (k : nat) (ts : table_id -> Path_table_t) : Prop := TablesAt {
  ta_index : index (ts i) = Z.of_nat k;
  ta_dirs : forall j, table (ts j) = directions j;
  ta_back : i <> back_table -> index (ts back_table) = 0;
}.
Lemma doing_at_spot a ts g s : doing (sp_table a) ts (sp_cnt a) g s ->
  tables_at (sp_table a) (sp_index a) ts -> at_spot a (plan s).
Proof. intros [] []. split; subst; auto. Qed.
Definition upd (j : table_id) (t : Path_table_t) (ts : table_id -> Path_table_t) (k : table_id) : Path_table_t :=
  if decide (k = j) then t else ts k.

Lemma tables_at_fresh i j k name ts : tables_at i k ts -> i <> back_table -> j <> back_table ->
  tables_at j 0 (upd j (Path_table_init (directions j) name 0 0) ts).
Proof.
  intros [Hi Hd Hb] Hib Hjb. unfold upd. split; [by rewrite decide_True| |].
  - intros l. case_decide; [by subst|done].
  - intros _. by rewrite decide_False by done; auto.
Qed.

Lemma path_step_does a d s : well_formed s -> at_spot a (plan s) ->
  directions (sp_table a) !! sp_index a = Some d -> is_u8 d ->
  exists ts, runs path_step s (fun _ s' =>
    doing (sp_table a) ts (sp_cnt a) (grip s) s' /\ next_dir (plan s') = d /\ rbmg_mode s' = rbmg_mode s) /\
  tables_at (sp_table a) (S (sp_index a)) ts.
Proof.
  intros Hw [Ht Hi Hc Hd Hb] Hlook Hu. unfold path_step, runs. rewrite Ht.
  rewrite (Path_get_next_dir_at _ (sp_index a) d) by (done || by rewrite Hd).
  eexists. split.
  - eexists tt, _. split; [done|]. split; [split; try done; by cbn|]. split; [|done]. cbn. by apply u8_id.
  - cbn. split; [by rewrite decide_True|..].
    + intros j. case_decide; [subst|]; by rewrite Hd.
    + intros Hne. rewrite decide_False by done. auto.
Qed.

Lemma runs_triple {A} (m : T A) P Q s : triple m P Q -> P s -> runs m s (fun _ s' => Q s').
Proof. intros Hm. apply Hm. Qed.

Lemma triple_set_table i ts n g j t :
  triple (mod_plan (set_table j t)) (doing i ts n g) (doing i (upd j t ts) n g).
Proof. intros s []. apply runs_modify. split; try done. cbn. by subst. Qed.
Lemma triple_set_this i ts n g f j :
  (forall p, take_cnt p = n -> tables (f p) = tables p /\ take_cnt (f p) = n /\ this_table (f p) = j) ->
  triple (mod_plan f) (doing i ts n g) (doing j ts n g).
Proof.
  intros Hf s [Hw ?? Hn ?]. apply runs_modify. destruct (Hf (plan s) Hn) as (? & ? & ?). split; try done. cbn. congruence.
Qed.

Definition task_grip (t : task) : list (action F) :=
  match t with Take => take_grip | Put => put_grip | _ => [] end.

(** A turn, a block fetched, a block delivered. *)
Lemma turn_does (Henv : env_ok) i ts n g now d : d <> END ->
  triple (turn_actions env now d) (doing i ts n g) (doing i ts n g).
Proof.
  intros Hd. unfold turn_actions. rewrite (proj2 (Z.eqb_neq _ _)) by done.
  eapply triple_bind; [eauto with mission|intros ?].
  do 2 (eapply triple_bind; [quiet|intros ?]). eauto with mission.
Qed.
Lemma triple_this {B} i ts n g (k : table_id -> T B) Q :
  triple (k i) (doing i ts n g) Q -> triple (gets (fun s => this_table (plan s)) ≫= k) (doing i ts n g) Q.
Proof. intros Hk s Hs. apply runs_bind, runs_gets. rewrite (do_this _ _ _ _ _ Hs). by apply Hk. Qed.
Lemma end_take_does (Henv : env_ok) i ts n g now : i = init_table \/ i = take_table ->
  triple (turn_actions env now END) (doing i ts n g)
    (doing put_table (upd put_table (Path_table_init put "put table"%string 0 0) ts) (u8 (n + 1)) (g ++ take_grip)).
Proof.
  intros Hi. unfold turn_actions. cbn match. apply triple_this.
  assert (forall (k1 k2 k3 : T unit), (match i with init_table | take_table => k1 | put_table => k2 | back_table => k3 end) = k1)
    as -> by (by destruct Hi; subst).
  eapply triple_bind; [by apply take_action_does|intros ?].
  eapply triple_bind; [apply triple_set_table|intros ?]. by apply triple_set_this.
Qed.
Lemma end_put_does (Henv : env_ok) ts n g now :
  triple (turn_actions env now END) (doing put_table ts n g)
    (doing (if n <? 10 then take_table else back_table)
       (upd take_table (Path_table_init take_ "take table"%string 0 0) ts) n (g ++ put_grip)).
Proof.
  unfold turn_actions. cbn match. apply triple_this.
  eapply triple_bind; [by apply put_action_does|intros ?].
  eapply triple_bind; [apply triple_set_table|intros ?]. apply triple_set_this. by intros p <-.
Qed.

Lemma runs_over {A B} (m : T A) (k : A -> T B) s s' : m s = Over s' -> (m ≫= k) s = Over s'.
Proof. intros Hm. unfold mbind, T_bind. by rewrite Hm. Qed.
Lemma run_bind {A B} (m : T A) (k : A -> T B) s a s' : m s = Ret a s' -> (m ≫= k) s = k a s'.
Proof. intros Hm. unfold mbind, T_bind. by rewrite Hm. Qed.

Lemma end_back_does (Henv : env_ok) ts n g now s : doing back_table ts n g s ->
  exists s', turn_actions env now END s = Over s' /\ grip s' = g.
Proof.
  intros Hs. unfold turn_actions. change (END =? END) with true. cbn match.
  assert (triple (move env 0%F (tenths 4) 0%F) (doing back_table ts n g) (doing back_table ts n g)) as Hm by quiet.
  destruct (Hm s Hs) as ([] & s1 & H1 & Hs1).
  eexists. rewrite (run_bind _ _ _ (this_table (plan s)) s) by done. rewrite (do_this _ _ _ _ _ Hs).
  rewrite (run_bind _ _ _ _ _ H1). split; [done|]. apply Hs1.
Qed.

(** The state between two passes of the thread's loop, [g] done before. *)
Record between (a : spot) (g : list (action F)) s : Prop := Between {
  bt_wf : well_formed s;
  bt_spot : at_spot a (plan s);
  bt_grip : grip s = g;
  bt_mode : rbmg_mode s <> CAB_MODE;
}.

Lemma directions_u8 i k d : directions i !! k = Some d -> is_u8 d.
Proof.
  intros Hd. assert (Forall is_u8 (directions i)) as Hf by (destruct i; repeat constructor; done).
  by eapply Forall_lookup_1 in Hf.
Qed.

(** Special action or turn: from the tables before to the spot after. *)
Lemma turn_actions_spot (Henv : env_ok) a t b d ts now g s :
  directions (sp_table a) !! sp_index a = Some d -> spot_step a = Some (t, b) ->
  tables_at (sp_table a) (S (sp_index a)) ts -> doing (sp_table a) ts (sp_cnt a) g s ->
  match t with
  | Finish => exists s', turn_actions env now d s = Over s' /\ grip s' = g
  | _ => runs (turn_actions env now d) s (fun _ s' =>
      well_formed s' /\ at_spot b (plan s') /\ grip s' = g ++ task_grip t)
  end.
Proof.
  intros Hd Hstep Hts Hs. unfold spot_step in Hstep. rewrite Hd in Hstep. cbn in Hstep.
  destruct a as [i k n]. cbn [sp_table sp_index sp_cnt] in *.
  destruct (d =? END) eqn:E.
  - apply Z.eqb_eq in E as ->. destruct i; injection Hstep as <- <-.
    + eapply runs_mono; [eapply runs_triple; [by apply (end_take_does Henv init_table); auto|exact Hs]|].
      intros ? s' Hs'. split_and!; [apply Hs'| |apply Hs'].
      eapply (doing_at_spot (Spot _ _ _)); [exact Hs'|]. by eapply (tables_at_fresh _ put_table).
    + eapply runs_mono; [eapply runs_triple; [by apply end_put_does|exact Hs]|].
      intros ? s' Hs'. split_and!; [apply Hs'| |apply Hs'].
      eapply (doing_at_spot (Spot _ _ _)); [exact Hs'|]. cbn. destruct (n <? 10).
      * by eapply (tables_at_fresh _ take_table).
      * destruct Hts as [Hi Hdi Hb]. split; [by apply Hb| |by intros []].
        intros j. unfold upd. case_decide; [by subst|done].
    + eapply runs_mono; [eapply runs_triple; [by apply (end_take_does Henv take_table); auto|exact Hs]|].
      intros ? s' Hs'. split_and!; [apply Hs'| |apply Hs'].
      eapply (doing_at_spot (Spot _ _ _)); [exact Hs'|]. by eapply (tables_at_fresh _ put_table).
    + by eapply end_back_does.
  - injection Hstep as <- <-. eapply runs_mono; [eapply runs_triple; [apply turn_does; [done|]|exact Hs]|].
    { by apply Z.eqb_neq. }
    intros ? s' Hs'. cbn [task_grip]. rewrite app_nil_r. split_and!; [apply Hs'| |apply Hs'].
    by eapply (doing_at_spot (Spot _ _ _)); [exact Hs'|].
Qed.

(** The pass in action mode. *)
Definition action_body : T unit :=
  _ ← (_ ← path_step; p ← gets plan; _ ← turn_actions env (now_dir p) (next_dir p); modify (set_mode LINE_MODE));
  rt_thread_mdelay env 50.
Lemma handle_action fuel s : rbmg_mode s = ACTION_MODE -> rbmg_handle env fuel s = action_body s.
Proof.
  intros Hm. unfold rbmg_handle. rewrite (run_bind _ _ _ (rbmg_mode s) s) by done. by rewrite Hm.
Qed.
Lemma handle_line fuel s : rbmg_mode s = LINE_MODE -> rbmg_handle env fuel s = rt_thread_mdelay env 50 s.
Proof.
  intros Hm. unfold rbmg_handle. rewrite (run_bind _ _ _ (rbmg_mode s) s) by done. by rewrite Hm.
Qed.

(** One pass of the loop in action mode performs the task of its spot. *)
Lemma action_pass (Henv : env_ok) fuel a t b g s : spot_step a = Some (t, b) ->
  between a g s -> rbmg_mode s = ACTION_MODE ->
  match t with
  | Finish => exists s', rbmg_handle env fuel s = Over s' /\ grip s' = g
  | _ => runs (rbmg_handle env fuel) s (fun _ s' => between b (g ++ task_grip t) s')
  end.
Proof.
  intros Hstep [Hw Hat Hg _] Hm.
  destruct (directions (sp_table a) !! sp_index a) as [d|] eqn:Hd;
    [|unfold spot_step in Hstep; by rewrite Hd in Hstep].
  pose proof (directions_u8 _ _ _ Hd) as Hu.
  destruct (path_step_does a d s Hw Hat Hd Hu) as (ts & ([] & s1 & H1 & Hs1 & Hn1 & Hm1) & Hts).
  rewrite Hg in Hs1.
  pose proof (turn_actions_spot Henv a t b d ts (now_dir (plan s1)) g s1 Hd Hstep Hts Hs1) as Hturn.
  unfold runs. rewrite (handle_action fuel s Hm). unfold action_body.
  assert (forall Q, runs (turn_actions env (now_dir (plan s1)) d) s1 (fun _ s' =>
      well_formed s' /\ at_spot b (plan s') /\ grip s' = g ++ task_grip t) ->
    (forall s', between b (g ++ task_grip t) s' -> Q tt s') ->
    runs action_body s Q) as Hgo.
  { intros Q ([] & s2 & H2 & Hw2 & Hat2 & Hg2) HQ. apply runs_bind, runs_bind. exists tt, s1. split; [done|].
    apply runs_bind, runs_gets, runs_bind. rewrite Hn1. exists tt, s2. split; [done|]. apply runs_modify.
    assert (well_formed (set_mode LINE_MODE s2)) as Hw3.
    { destruct Hw2 as (? & ? & ?). split_and!; [done|done|]. by right; left. }
    eapply runs_mono; [by apply mdelay_calm|]. intros [] s' [Hw' Hp' Hg' Hm']. apply HQ. split; [done| |by rewrite Hg'|].
    - by rewrite Hp'.
    - cbn in Hm'. by destruct Hm' as [->|[_ ->]]. }
  destruct t; [apply (Hgo (fun _ s' => between b _ s')); auto..|].
  destruct Hturn as (s' & Ht & Hg'). exists s'. split; [|done]. apply runs_over.
  rewrite (run_bind _ _ _ _ _ H1). rewrite (run_bind _ _ _ (plan s1) s1) by done. rewrite Hn1. by apply runs_over.
Qed.

(** ** Any number of passes *)

Definition spot_of (k : nat) : spot := default start_spot (snd <$> spots k start_spot).
Definition up_grip : list (action F) := [Spin 0 1 500 3800].
Definition trace (k : nat) : list (action F) := up_grip ++ flat_map task_grip (take k mission_plan).
(** The whole mission: raise the gripper, then nine times fetch and deliver. *)
Definition mission_trace : list (action F) := up_grip ++ concat (replicate 9 (take_grip ++ put_grip)).

Lemma spot_of_step k : (k < 39)%nat -> exists t,
  mission_plan !! k = Some t /\ spot_step (spot_of k) = Some (t, spot_of (S k)) /\ (t = Finish <-> k = 38%nat).
Proof.
  intros Hk. do 39 (destruct k as [|k]; [eexists; by vm_compute|]). lia.
Qed.
Lemma trace_step k t : mission_plan !! k = Some t -> trace (S k) = trace k ++ task_grip t.
Proof.
  intros Ht. unfold trace. rewrite (take_S_r _ _ _ Ht), flat_map_app, app_assoc. cbn. by rewrite app_nil_r.
Qed.
Lemma trace_prefix k : trace k `prefix_of` mission_trace.
Proof.
  assert (mission_trace = up_grip ++ flat_map task_grip mission_plan) as -> by reflexivity.
  exists (flat_map task_grip (drop k mission_plan)). unfold trace.
  by rewrite <- app_assoc, <- flat_map_app, take_drop.
Qed.
Lemma trace_38 : trace 38 = mission_trace.
Proof. reflexivity. Qed.
Lemma spot_cnt k : (k < 39)%nat -> 1 <= sp_cnt (spot_of k) <= 10.
Proof. intros Hk. do 39 (destruct k as [|k]; [by vm_compute|]). lia. Qed.

Definition on_mission (k : nat) s : Prop := (k < 39)%nat /\ between (spot_of k) (trace k) s.

Lemma pass_action (Henv : env_ok) fuel k s : on_mission k s -> rbmg_mode s = ACTION_MODE ->
  (exists s', rbmg_handle env fuel s = Ret tt s' /\ on_mission (S k) s')
  \/ (exists s', rbmg_handle env fuel s = Over s' /\ grip s' = mission_trace /\ k = 38%nat).
Proof.
  intros [Hk Hs] Hm. destruct (spot_of_step k Hk) as (t & Ht & Hstep & Hfin).
  pose proof (action_pass Henv fuel _ _ _ _ _ Hstep Hs Hm) as Hp.
  destruct (decide (k = 38%nat)) as [->|Hne].
  - right. rewrite (proj2 Hfin eq_refl) in Hp. rewrite trace_38 in Hp. destruct Hp as (s' & Hr & Hg). exists s'. split; [exact Hr|]. split; [exact Hg|reflexivity].
  - left. assert (t <> Finish) as Ht' by (intros ->; by apply Hne, Hfin).
    rewrite <- (trace_step k t Ht) in Hp.
    assert (runs (rbmg_handle env fuel) s (fun _ s' => between (spot_of (S k)) (trace (S k)) s'))
      as ([] & s' & Hr & Hb) by (destruct t; done).
    exists s'. split; [done|]. split; [lia|done].
Qed.
Lemma between_mode a g s : between a g s -> rbmg_mode s = LINE_MODE \/ rbmg_mode s = ACTION_MODE.
Proof. intros [(_ & _ & [Hm|Hm]) _ _ Hn]; auto. done. Qed.
Lemma between_calm a g s s' : between a g s -> calm s s' -> between a g s'.
Proof.
  intros Hs Hc. pose proof (between_mode _ _ _ Hs) as Hm. destruct Hs as [Hw Hat Hg Hn], Hc as [Hw' Hp Hg' Hm'].
  split; [done|by rewrite Hp|congruence|]. destruct Hm' as [->|[_ ->]]; done.
Qed.
Lemma pass_line (Henv : env_ok) fuel k s : on_mission k s -> rbmg_mode s = LINE_MODE ->
  exists s', rbmg_handle env fuel s = Ret tt s' /\ on_mission k s'.
Proof.
  intros [Hk Hs] Hm. rewrite handle_line by done.
  destruct (mdelay_calm Henv 50 s (bt_wf _ _ _ Hs)) as ([] & s' & Hr & Hc).
  exists s'. split; [done|]. split; [done|by eapply between_calm].
Qed.

(** The passes, among the next [n], that begin at a special point. *)
Fixpoint action_passes (fuel n : nat) s : nat :=
  match n with
  | O => O
  | S n =>
    ((if (rbmg_mode s =? ACTION_MODE)%Z then 1 else 0) +
    match rbmg_handle env fuel s with Ret _ s' => action_passes fuel n s' | _ => 0 end)%nat
  end.
Lemma action_passes_Ret fuel n s s' : rbmg_handle env fuel s = Ret tt s' ->
  action_passes fuel (S n) s = ((if (rbmg_mode s =? ACTION_MODE)%Z then 1 else 0) + action_passes fuel n s')%nat.
Proof. intros Hr. cbn [action_passes]. by rewrite Hr. Qed.

(** From a point of the mission, every special point leads to the next one, the last to
    the end. *)
Lemma run_on_mission (Henv : env_ok) fuel n k s : on_mission k s ->
  (exists s', rbmg_run env fuel n s = Ret tt s' /\ on_mission (k + action_passes fuel n s) s')
  \/ (exists s', rbmg_run env fuel n s = Over s' /\ grip s' = mission_trace /\ (k + action_passes fuel n s = 39)%nat).
Proof.
  revert k s. induction n as [|n IH]; intros k s Hs; cbn [rbmg_run].
  { left. exists s. split; [done|]. by rewrite Nat.add_0_r. }
  destruct (between_mode _ _ _ (proj2 Hs)) as [Hm|Hm].
  - destruct (pass_line Henv fuel k s Hs Hm) as (s' & Hr & Hs').
    rewrite (run_bind _ _ _ _ _ Hr), (action_passes_Ret _ _ _ _ Hr), Hm. by apply IH.
  - destruct (pass_action Henv fuel k s Hs Hm) as [(s' & Hr & Hs')|(s' & Hr & Hg & Hk)].
    + rewrite (run_bind _ _ _ _ _ Hr), (action_passes_Ret _ _ _ _ Hr), Hm.
      change (ACTION_MODE =? ACTION_MODE) with true. rewrite Nat.add_assoc, Nat.add_1_r. by apply IH.
    + right. exists s'. split; [by apply runs_over|]. split; [done|]. cbn [action_passes]. rewrite Hr, Hm, Hk. done.
Qed.

(** ** Calibration: the first pass *)

Lemma poll_calm (Henv : env_ok) s : well_formed s -> runs (poll env) s (fun _ s' => calm s s').
Proof.
  intros Hw. unfold poll, others, runs. cbv zeta.
  destruct (handle_events_calm (List.filter is_irq (env (out (tell Poll s)))) (tell Poll s)) as (s' & -> & Hc).
  - apply Forall_forall. intros e [He _]%list_elem_of_In%List.filter_In.
    apply list_elem_of_In in He. by eapply Forall_forall in He; [|apply Henv].
  - done.
  - eexists tt, s'. split; [done|]. eapply calm_trans; [|done]. by apply calm_tell.
Qed.

(** It waits for the camera's start byte, for as long as it takes. *)
Lemma cab_wait_does (Henv : env_ok) fuel i ts n g s : doing i ts n g s ->
  cab_wait env fuel s = Bad Hang \/
  exists s', cab_wait env fuel s = Ret tt s' /\ doing i ts n g s' /\ rbmg_mode s' = LINE_MODE.
Proof.
  revert s. induction fuel as [|fuel IH]; intros s Hs; [by left|]. cbn [cab_wait].
  destruct (triple_calm i ts n g (poll env) (poll_calm Henv) s Hs) as ([] & s1 & H1 & Hs1).
  rewrite (run_bind _ _ _ _ _ H1). rewrite (run_bind _ _ _ (color_flag s1) s1) by done.
  match goal with |- context [@mbind T _ _ _ ?k (if color_flag s1 =? 0 then mret () else ?m) s1] =>
    assert (triple (if color_flag s1 =? 0 then mret () else m) (doing i ts n g) (doing i ts n g)) as Hread end.
  { apply triple_if; [quiet|]. intros s2 Hs2. apply runs_bind, runs_gets.
    destruct (do_wf _ _ _ _ _ Hs2) as (_ & Hc & _). destruct (color s2) as [|b bs] eqn:E; [done|].
    apply runs_bind. exists b, s2. split; [done|].
    assert (triple (_ ← (if b =? 114 then modify (fun s => set_color_flag 0 (set_mode LINE_MODE s)) else mret ());
      modify (set_color_flag 0)) (doing i ts n g) (doing i ts n g)) as Hb by quiet.
    by apply Hb. }
  destruct (Hread s1 Hs1) as ([] & s2 & H2 & Hs2).
  rewrite (run_bind _ _ _ _ _ H2), (run_bind _ _ _ (rbmg_mode s2) s2) by done.
  destruct (rbmg_mode s2 =? LINE_MODE) eqn:E; [|by apply IH].
  right. exists s2. split_and!; [done..|]. by apply Z.eqb_eq.
Qed.

Lemma cab_pass (Henv : env_ok) fuel s : well_formed s -> at_spot start_spot (plan s) ->
  grip s = [] -> rbmg_mode s = CAB_MODE ->
  rbmg_handle env fuel s = Bad Hang \/
  exists s', rbmg_handle env fuel s = Ret tt s' /\ on_mission 0 s'.
Proof.
  intros Hw Hat Hg Hm.
  assert (doing init_table (tables (plan s)) 1 [] s) as Hs by (by destruct Hat; split).
  assert (tables_at init_table 0 (tables (plan s))) as Hts by (by destruct Hat; split).
  unfold rbmg_handle. rewrite (run_bind _ _ _ (rbmg_mode s) s) by done. rewrite Hm.
  change (CAB_MODE =? CAB_MODE) with true. cbn match.
  destruct (triple_mdelay _ _ _ _ Henv 8000 s Hs) as ([] & s1 & H1 & Hs1).
  destruct (myup_grip Henv _ _ _ _ s1 Hs1) as ([] & s2 & H2 & Hs2).
  destruct (cab_wait_does Henv fuel _ _ _ _ s2 Hs2) as [H3|(s3 & H3 & Hs3 & Hm3)].
  - left. unfold mbind, T_bind. by rewrite H1, H2, H3.
  - destruct fuel as [|fuel]; [done|].
    assert (cab_loop env (S fuel) s3 = Ret tt s3) as H4.
    { cbn [cab_loop]. rewrite (run_bind _ _ _ (rbmg_mode s3) s3) by done. by rewrite Hm3. }
    destruct (mdelay_calm Henv 50 s3 (do_wf _ _ _ _ _ Hs3)) as ([] & s4 & H5 & Hc).
    right. exists s4. unfold mbind, T_bind. rewrite H1, H2, H3, H4, H5. split; [done|]. split; [lia|].
    eapply between_calm; [|done]. split; [apply Hs3| |apply Hs3|by rewrite Hm3].
    by eapply (doing_at_spot start_spot).
Qed.
Lemma rbmg_start_ok (r : robot F) : length (rb_motors r) = 4%nat ->
  well_formed (rbmg_start r) /\ at_spot start_spot (plan (rbmg_start r)).
Proof.
  intros Hl. split.
  - split_and!; [done|apply length_replicate|by left].
  - split; try done. by intros [].
Qed.

(** ** Every line ends in a special point *)

Lemma rbmg_run_add fuel n m s s' : rbmg_run env fuel n s = Ret tt s' ->
  rbmg_run env fuel (n + m) s = rbmg_run env fuel m s'.
Proof.
  revert s. induction n as [|n IH]; intros s Hr; cbn in *; [by injection Hr as ->|].
  unfold mbind, T_bind in *. destruct (rbmg_handle env fuel s); [by apply IH|done..].
Qed.

Definition lines_end fuel : Prop := forall s, well_formed s -> rbmg_mode s = LINE_MODE ->
  exists n s', rbmg_run env fuel n s = Ret tt s' /\ rbmg_mode s' = ACTION_MODE.

Lemma mission_ends_from (Henv : env_ok) fuel m k s : lines_end fuel -> (39 - k <= m)%nat -> on_mission k s ->
  exists n s', rbmg_run env fuel n s = Over s' /\ grip s' = mission_trace.
Proof.
  intros Hlines. revert k s. induction m as [|m IH]; intros k s Hm Hs; [destruct Hs; lia|].
  assert (exists n k' s', rbmg_run env fuel n s = Ret tt s' /\ on_mission k' s' /\ (k <= k')%nat /\
    rbmg_mode s' = ACTION_MODE) as (n & k' & s' & Hr & Hs' & Hle & Hmode).
  { destruct (between_mode _ _ _ (proj2 Hs)) as [Hl|Ha]; [|by exists 0%nat, k, s].
    destruct (Hlines s (bt_wf _ _ _ (proj2 Hs)) Hl) as (n & s' & Hr & Ha).
    destruct (run_on_mission Henv fuel n k s Hs) as [(s'' & Hr' & Hs')|(s'' & Hr' & _)];
      rewrite Hr in Hr'; [injection Hr' as <-|done]. exists n, (k + action_passes fuel n s)%nat, s'. split_and!; [done..|lia|done]. }
  destruct (pass_action Henv fuel k' s' Hs' Hmode) as [(s2 & Hr2 & Hs2)|(s2 & Hr2 & Hg & _)].
  - destruct (IH (S k') s2) as (n2 & s3 & Hr3 & Hg); [lia|done|].
    exists (n + S n2)%nat, s3. split; [|done]. rewrite (rbmg_run_add fuel n _ s s' Hr). cbn.
    by rewrite (run_bind _ _ _ _ _ Hr2).
  - exists (n + 1)%nat, s2. split; [|done]. rewrite (rbmg_run_add fuel n _ s s' Hr). cbn.
    by apply runs_over.
Qed.
End mission.

(** ** The mission *)

(** C1: Whatever the line, the motors, the callbacks and the camera do -- with messages
    of the camera that fit the 128 bytes they are copied to -- and for any number of
    passes of the manager's thread from its start: the gripper's actions so far are a
    beginning of raise, then nine times fetch and deliver, the block count stays within
    1 and 10, no path table is read past its end, and the thread enters its final loop
    exactly in the 39th pass that begins at a special point, with the whole sequence
    done; only the wait for the start byte can take forever. *)
Theorem mission_order {F} `{FloatOps F} `{DoubleOf F} (env : list (action F) -> list (event F))
    (r : robot F) fuel n :
  env_ok env -> length (rb_motors r) = 4%nat ->
  match rbmg_run env fuel n (rbmg_start r) with
  | Ret _ s => grip s `prefix_of` mission_trace /\ 1 <= take_cnt (plan s) <= 10 /\
      (action_passes env fuel n (rbmg_start r) <= 38)%nat
  | Over s => grip s = mission_trace /\ action_passes env fuel n (rbmg_start r) = 39%nat
  | Bad e => e = Hang /\ rbmg_handle env fuel (rbmg_start r) = Bad Hang
  end.
Proof.
  intros Henv Hl. destruct n as [|n].
  { cbn. split; [by exists mission_trace|lia]. }
  destruct (rbmg_start_ok r Hl) as [Hw Hat]. cbn [rbmg_run].
  destruct (cab_pass env Henv fuel (rbmg_start r) Hw Hat eq_refl eq_refl) as [Hr|(s & Hr & Hs)].
  { unfold mbind, T_bind. by rewrite Hr. }
  rewrite (run_bind _ _ _ _ _ Hr), (action_passes_Ret _ _ _ _ _ Hr). change (rbmg_mode (rbmg_start r) =? ACTION_MODE) with false.
  destruct (run_on_mission env Henv fuel n 0 s Hs) as [(s' & -> & [Hk Hb])|(s' & -> & Hg & Hk)]; [|done].
  rewrite (bt_grip _ _ _ Hb), (at_cnt _ _ (bt_spot _ _ _ Hb)).
  split; [apply trace_prefix|split; [by apply spot_cnt|cbn in *; lia]].
Qed.

(** C2: With camera messages that fit their 128 bytes: if the start byte comes and every
    line leads to a special point after some number of passes, the thread reaches its
    final loop with all nine blocks fetched and delivered. *)
Theorem mission_completes {F} `{FloatOps F} `{DoubleOf F} (env : list (action F) -> list (event F))
    (r : robot F) fuel :
  env_ok env -> length (rb_motors r) = 4%nat ->
  rbmg_handle env fuel (rbmg_start r) <> Bad Hang -> lines_end env fuel ->
  exists n s, rbmg_run env fuel n (rbmg_start r) = Over s /\ grip s = mission_trace.
Proof.
  intros Henv Hl Hstart Hlines. destruct (rbmg_start_ok r Hl) as [Hw Hat].
  destruct (cab_pass env Henv fuel (rbmg_start r) Hw Hat eq_refl eq_refl) as [Hr|(s & Hr & Hs)]; [done|].
  destruct (mission_ends_from env Henv fuel 39 0 s Hlines) as (n & s' & Hr' & Hg); [lia|done|].
  exists (S n), s'. split; [|done]. cbn. by rewrite (run_bind _ _ _ _ _ Hr).
Qed.

(** A camera that answers every poll with the start byte, lines that end at once. *)
Definition quick_env (h : list (action Qc)) : list (event Qc) :=
  match last h with Some Poll => [EvColor [114]] | Some (Sleep 50) => [EvSpecial] | _ => [] end.
Lemma quick_env_ok : env_ok quick_env.
Proof. intros h. unfold quick_env. repeat case_match; repeat constructor; cbn; lia. Qed.
Lemma quick_lines_end fuel : lines_end quick_env fuel.
Proof.
  intros s Hw Hm. exists 1%nat. cbn [rbmg_run]. unfold mbind, T_bind. rewrite handle_line by done.
  unfold rt_thread_mdelay, others, quick_env. cbv zeta. cbn [out tell]. rewrite last_snoc. cbn.
  unfold rbmg_special_point_callback. cbn. rewrite Hm. cbn. by eexists.
Qed.

Lemma mission_order_witness :
  match rbmg_run quick_env 1 2 (rbmg_start zero_robot) with
  | Ret _ s => grip s `prefix_of` mission_trace /\ 1 <= take_cnt (plan s) <= 10 /\
      (action_passes quick_env 1 2 (rbmg_start zero_robot) <= 38)%nat
  | Over s => grip s = mission_trace /\ action_passes quick_env 1 2 (rbmg_start zero_robot) = 39%nat
  | Bad e => e = Hang /\ rbmg_handle quick_env 1 (rbmg_start zero_robot) = Bad Hang
  end.
Proof. apply (mission_order quick_env zero_robot 1 2); [exact quick_env_ok|reflexivity]. Defined.
Lemma mission_completes_witness :
  exists n s, rbmg_run quick_env 1 n (rbmg_start zero_robot) = Over s /\ grip s = mission_trace.
Proof.
  apply (mission_completes quick_env zero_robot 1);
    [exact quick_env_ok|reflexivity|by vm_compute|exact (quick_lines_end 1)].
Defined.
