(* ===== verification/Movement.v ===== *)
(** * Relative movements

    What one movement publishes and how long it takes, and, with a chassis and motors
    that follow their commands, where movements and the actions built of them end. *)
From S2P Require Import Prelude CFloat Apid Motor Chassis PathFinder RobotManager Mission.
#[local] Open Scope Z_scope.

Section movement.
Context {F : Type} `{FloatOps F} `{DoubleOf F}.
Context (env : list (action F) -> list (event F)).
Implicit Types (s : rbmg F) (c : chassis_ctrl_t F).

Definition pos_of_ctrl c : chassis_pos_t F := Pos (ctrl_x c) (ctrl_y c) (ctrl_z c).
Definition chassis_of s : chassis_t F := rb_chassis (chassis_mai s).

(** The last message on [chassis_ctrl_topic]. *)
Definition published (a : action F) : option (chassis_ctrl_t F) :=
  match a with Publish m => Some m | _ => None end.
Definition last_published (h : list (action F)) : option (chassis_ctrl_t F) := last (omap published h).
Lemma last_published_snoc h a :
  last_published (h ++ [a]) = match a with Publish m => Some m | _ => last_published h end.
Proof. unfold last_published. rewrite omap_app. destruct a; cbn; rewrite ?app_nil_r, ?last_snoc; done. Qed.

(** During a movement to [c] the chassis is set to go there. *)
Record moving c s : Prop := Moving {
  mv_wf : well_formed s;
  mv_mode : rbmg_mode s = ACTION_MODE;
  mv_ctrl : ctrl s = c;
  mv_type : ctrl_type c = 1;
  mv_target : pos (c_target (chassis_of s)) = pos_of_ctrl c;
  mv_status : run_status (chassis_of s) = CHASSIS_POS;
  mv_last : last_published (out s) = Some c;
}.

(** In action mode the callbacks publish nothing. *)
Lemma event_moving e c s : event_ok e -> moving c s -> exists s',
  handle_event e s = Done s' /\ moving c s' /\ out s' = out s /\ plan s' = plan s.
Proof.
  intros He [Hw Hm Hc Ht Hp Hr Hl]. destruct (handle_event_calm e s He Hw) as (s' & Hs' & [Hw' Hp' _ _]).
  exists s'. split; [done|]. destruct e as [|vs| |data| |x]; cbn [handle_event] in Hs'.
  - destruct (chassis_handle_ok _ (proj1 Hw)) as (r' & Hr' & _ & Ht' & Hs''). rewrite Hr' in Hs'.
    injection Hs' as <-. unfold chassis_of in *. split; [split; try done; unfold chassis_of; cbn; congruence|done].
  - injection Hs' as <-. by split_and!.
  - injection Hs' as <-. by split_and!.
  - unfold uart_rx_ind in Hs'. destruct (arr_write _ _ _) as [xs|]; [|done]. cbn in Hs'.
    destruct (arr_get xs 0); [|done]. injection Hs' as <-. by split_and!.
  - injection Hs' as <-. unfold rbmg_special_point_callback in *. rewrite Hm in *.
    split_and!; [by split|done..].
  - injection Hs' as <-. unfold rbmg_error_callback in *. rewrite Hm in *. by split_and!.
Qed.
Lemma events_moving es c s : Forall event_ok es -> moving c s -> exists s',
  handle_events es s = Done s' /\ moving c s' /\ out s' = out s /\ plan s' = plan s.
Proof.
  intros Hes. revert s. induction Hes as [|e es He _ IH]; intros s Hs; cbn [handle_events]; [by exists s|].
  destruct (event_moving e c s He Hs) as (s1 & -> & H1 & Ho1 & Hp1). cbn [mbind outcome_bind].
  destruct (IH s1 H1) as (s2 & -> & H2 & Ho2 & Hp2). exists s2. split_and!; [done..|congruence|congruence].
Qed.
Lemma moving_tell a c s : (forall m, a <> Publish m) -> moving c s -> moving c (tell a s).
Proof.
  intros Ha []. split; try done. cbn. rewrite last_published_snoc. destruct a; try done. by destruct (Ha m).
Qed.
Lemma moving_public c s : moving c s -> moving c (public_ctrl s).
Proof.
  intros [Hw Hm Hc Ht Hp Hr Hl].
  split; try done; unfold chassis_of, public_ctrl; cbn; rewrite ?Hc, ?Ht; try done.
  by rewrite last_published_snoc.
Qed.
Lemma moving_set_ctrl_pos c s : moving c s -> set_ctrl_pos s = s.
Proof. intros []. unfold set_ctrl_pos. destruct s, c. cbn in *. by subst. Qed.
Lemma mdelay_moving (Henv : env_ok env) ms c s : moving c s -> exists s',
  rt_thread_mdelay env ms s = Ret tt s' /\ moving c s' /\ out s' = out s ++ [Sleep ms] /\ plan s' = plan s.
Proof.
  intros Hs. unfold rt_thread_mdelay, others. cbv zeta.
  destruct (events_moving (env (out (tell (Sleep ms) s))) c (tell (Sleep ms) s)) as (s' & -> & H1 & Ho & Hp);
    [done|by apply moving_tell|]. by exists s'.
Qed.

(** What the loop publishes in [k] polls. *)
Definition polls k c : list (action F) := concat (replicate k [Publish c; Sleep 50]).

(** Within a centimetre of the target, and a tenth of a radian. *)
Definition closer (d eps : F) : Prop :=
  ((if (widen d <? f_of_Z 0)%F then (- widen d)%F else widen d) <? widen eps)%F = true.
Definition near c (p : chassis_pos_t F) : Prop :=
  closer (x_m p - ctrl_x c)%F (f_lit 1 100) /\ closer (y_m p - ctrl_y c)%F (f_lit 1 100) /\
  closer (z_rad p - ctrl_z c)%F (f_lit 1 10).
Lemma arrived_near c p : arrived p c = true <-> near c p.
Proof.
  unfold arrived, near, closer, fabs_lt. cbv zeta. rewrite !andb_true_iff. tauto.
Qed.

(** The state after [k] rounds of publishing and sleeping 50 ms. *)
Fixpoint look (k : nat) s : rbmg F :=
  match k with
  | O => s
  | S k => match rt_thread_mdelay env 50 (public_ctrl s) with Ret _ s' => look k s' | _ => s end
  end.
(** Seen at the look numbered [k], and at none before. *)
Definition seen_after k c s : Prop :=
  near c (nowpos (look k s)) /\ forall j : nat, (j < k)%nat -> ~ near c (nowpos (look j s)).
Definition unseen k c s : Prop := forall j : nat, (j < k)%nat -> ~ near c (nowpos (look j s)).

Lemma movement_loop_moving (Henv : env_ok env) fuel counter c s : moving c s ->
  0 <= counter <= 1000 -> 1001 <= counter + Z.of_nat fuel -> exists k s',
  movement_loop env fuel counter s = Ret tt s' /\ moving c s' /\ plan s' = plan s /\
  (out s' = out s ++ polls k c ++ [Sleep 300] /\ Z.of_nat k + counter <= 1000 /\ seen_after k c s \/
   out s' = out s ++ polls k c /\ Z.of_nat k + counter = 1001 /\ unseen k c s).
Proof.
  revert counter s. induction fuel as [|fuel IH]; intros counter s Hs Hc Hf; [lia|].
  cbn [movement_loop]. rewrite (run_bind _ _ _ (arrived (nowpos s) (ctrl s)) s) by done.
  destruct (arrived _ _) eqn:Harr; rewrite (mv_ctrl c s Hs) in Harr.
  - apply arrived_near in Harr. rewrite (run_bind _ _ _ tt (clean s)) by done.
    assert (moving c (clean s)) as Hs' by (destruct Hs; by split).
    destruct (mdelay_moving Henv 300 c (clean s) Hs') as (s' & Hr & H1 & Ho & Hp).
    exists 0%nat, s'. split_and!; [done..|]. left. split_and!; [done|lia|split; [done|lia]].
  - rewrite (run_bind _ _ _ tt (public_ctrl (set_ctrl_pos s))) by done. rewrite (moving_set_ctrl_pos c s Hs).
    destruct (mdelay_moving Henv 50 c _ (moving_public c s Hs)) as (s1 & Hr & H1 & Ho & Hp).
    assert (~ near c (nowpos s)) as Hfar by (rewrite <- arrived_near; by rewrite Harr).
    assert (forall j, look (S j) s = look j s1) as Hlook by (intros j; cbn [look]; by rewrite Hr).
    rewrite (run_bind _ _ _ _ _ Hr). cbv zeta.
    assert (out s1 = out s ++ [Publish c; Sleep 50]) as Ho1.
    { rewrite Ho. cbn. by rewrite <- app_assoc, (mv_ctrl c s Hs). }
    destruct (counter + 1 >? 1000) eqn:E.
    + exists 1%nat, s1. split_and!; [done..|]. right. split_and!; [done|lia|]. intros j Hj. by assert (j = 0%nat) as -> by lia.
    + destruct (IH (counter + 1) s1 H1) as (k & s' & Hr' & H2 & Hp2 & Hk); [lia..|].
      exists (S k), s'. rewrite Ho1 in Hk.
      assert (forall l, (out s ++ [Publish c; Sleep 50]) ++ polls k c ++ l = out s ++ polls (S k) c ++ l) as Hl
        by (intros l; by rewrite <- app_assoc).
      split_and!; [done..|by rewrite Hp2, Hp|]. destruct Hk as [(Hk & ? & Hnear & Hbefore)|(Hk & ? & Hbefore)]; [left|right]; (split; [|split; [lia|]]).
      * by rewrite Hk, Hl.
      * split; [by rewrite Hlook|]. intros [|j] Hj; [done|]. rewrite Hlook. apply Hbefore. lia.
      * rewrite Hk. pose proof (Hl []) as Hl0. by rewrite !app_nil_r in Hl0.
      * intros [|j] Hj; [done|]. rewrite Hlook. apply Hbefore. lia.
Qed.

(** The state in which the loop starts. *)
Definition target x y w s : chassis_ctrl_t F :=
  Ctrl 1 (x_m (nowpos s) + x)%F (y_m (nowpos s) + y)%F (z_rad (nowpos s) + w)%F.
Lemma moving_start x y w s : well_formed s -> rbmg_mode s = ACTION_MODE ->
  moving (target x y w s) (public_ctrl (set_ctrl (target x y w s) s)).
Proof.
  intros Hw Hm. split; try done. cbn. by rewrite last_published_snoc.
Qed.
End movement.

(** C6: In action mode every relative movement returns after at most 1001 polls,
    whatever else happens: it publishes only the present position plus the displacement,
    once and then once per poll, and leaves it as the chassis's target; it stops at the
    first look that finds the chassis within a centimetre and a tenth of a radian of it,
    then sleeping 300 ms more, and gives up after 1001 looks none of which did. *)
Theorem movement_bounded {F} `{FloatOps F} `{DoubleOf F} env x y w (s : rbmg F) :
  env_ok env -> well_formed s -> rbmg_mode s = ACTION_MODE ->
  let c := target x y w s in
  exists k s', action_relative_movement_car env x y w s = Ret tt s' /\
    rbmg_mode s' = ACTION_MODE /\ plan s' = plan s /\ pos (c_target (chassis_of s')) = pos_of_ctrl c /\
    let s1 := public_ctrl (set_ctrl c s) in
    (out s' = out s ++ Publish c :: polls k c ++ [Sleep 300] /\ (k <= 1000)%nat /\ seen_after env k c s1 \/
     out s' = out s ++ Publish c :: polls k c /\ k = 1001%nat /\ unseen env k c s1).
Proof.
  intros Henv Hw Hm c. unfold action_relative_movement_car.
  set (s1 := public_ctrl (set_ctrl c s)). rewrite (run_bind _ _ _ tt s1) by done.
  destruct (movement_loop_moving env Henv MOVEMENT_FUEL 0 c s1) as (k & s' & Hr & H1 & Hp & Hk);
    [by apply moving_start|unfold MOVEMENT_FUEL; lia..|].
  exists k, s'. destruct H1. split_and!; [done..|].
  assert (forall l, out s1 ++ l = out s ++ Publish c :: l) as Hl by (intros l; unfold s1; cbn; by rewrite <- app_assoc).
  rewrite !Hl in Hk. destruct Hk as [(? & ? & ?)|(? & ? & ?)]; [left|right]; (split; [done|split; [lia|done]]).
Qed.

(** ** A robot that follows its commands

    The chassis thread runs while the manager sleeps, every motor reaches the target the
    motor table holds for it, and the chassis runs again.  [extra] is what else happens. *)
Section ideal.
Context {F : Type} `{FloatOps F} `{DoubleOf F}.
Context (extra : list (action F) -> list (event F)).
Implicit Types (s : rbmg F) (c : chassis_ctrl_t F).

Definition wheels_for c : chassis_mai_data_t F := wheels_of conversion CHASSIS_HALF_A_B (pos_of_ctrl c).
Definition motion_free (e : event F) : Prop := match e with EvChassis | EvMotors _ | EvReached => False | _ => True end.
(** While the thread sleeps, the chassis commands its motors, they get there, and it
    reads them. *)
Definition ideal_env (h : list (action F)) : list (event F) := extra h ++ [EvChassis; EvReached; EvChassis].

Lemma handle_events_app (es1 es2 : list (event F)) s :
  handle_events (es1 ++ es2) s = (s ← handle_events es1 s; handle_events es2 s).
Proof. revert s. induction es1 as [|e es1 IH]; intros s; cbn; [done|]. destruct (handle_event e s); [apply IH|done]. Qed.

(** The chassis step, the wheels' reports and the chassis step again. *)
Lemma ideal_motion c s : moving c s -> exists s',
  handle_events [EvChassis; EvReached; EvChassis] s = Done s' /\
  nowpos s' = pos_of conversion CHASSIS_HALF_A_B (wheels_for c).
Proof.
  intros [(Hlen & _) _ _ _ Ht Hr _]. unfold chassis_of in *.
  destruct (chassis_mai s) as [ch d ms] eqn:Hs. cbn in Hlen, Ht, Hr.
  destruct ms as [|a1 [|a2 [|a3 [|a4 [|]]]]]; try discriminate.
  destruct (chassis_follows ch d a1 a2 a3 a4 Hr) as (c1 & H1 & H2). rewrite Ht in H1, H2.
  fold (wheels_for c) in H1, H2. set (w := wheels_for c) in *.
  edestruct (H2 (measure (aim (motor1 w) a1) (0%F, motor1 w)) (measure (aim (motor2 w) a2) (0%F, motor2 w))
    (measure (aim (motor3 w) a3) (0%F, motor3 w)) (measure (aim (motor4 w) a4) (0%F, motor4 w)))
    as (r2 & Hr2 & Hp); [done..|].
  cbn [handle_events handle_event]. rewrite Hs, H1. cbn [mbind outcome_bind].
  cbn [chassis_mai set_chassis rb_chassis mai_data rb_motors map]. unfold reached, aim in *.
  cbn [flag_run_mode mset_tar_pos mset_flag_run_mode tar_pos]. change (MOTOR_MODE_POS =? MOTOR_MODE_POS) with true. cbn match.
  rewrite Hr2. cbn [mbind outcome_bind]. by eexists.
Qed.

Hypothesis extra_ok : forall h, Forall (fun e => event_ok e /\ motion_free e) (extra h).

Lemma ideal_env_ok : env_ok ideal_env.
Proof.
  intros h. apply Forall_app. split; [eapply Forall_impl; [apply extra_ok|by intros ? []]|].
  by repeat constructor.
Qed.
Lemma ideal_mdelay ms c s : moving c s -> exists s',
  rt_thread_mdelay ideal_env ms s = Ret tt s' /\ moving c s' /\ plan s' = plan s /\
  nowpos s' = pos_of conversion CHASSIS_HALF_A_B (wheels_for c).
Proof.
  intros Hs. destruct (mdelay_moving ideal_env ideal_env_ok ms c s Hs) as (s' & Hr & H1 & _ & Hp).
  exists s'. split_and!; [done..|]. revert Hr. unfold rt_thread_mdelay, others. cbv zeta.
  set (s0 := tell (Sleep ms) s). assert (moving c s0) as Hs0 by by apply moving_tell.
  unfold ideal_env. rewrite handle_events_app.
  destruct (events_moving (extra (out s0)) c s0) as (s2 & -> & H2 & _);
    [eapply Forall_impl; [apply extra_ok|by intros ? []]|done|].
  cbn [mbind outcome_bind]. destruct (ideal_motion c s2 H2) as (s3 & -> & Hn). by intros [= ->].
Qed.
End ideal.

(** ** Where actions end, in exact arithmetic *)
Section exact.
Context (extra : list (action Qc) -> list (event Qc)).
Hypothesis extra_ok : forall h, Forall (fun e => event_ok e /\ motion_free e) (extra h).
Implicit Types (s : rbmg Qc) (c : chassis_ctrl_t Qc) (p : chassis_pos_t Qc).
Let env := ideal_env extra.

Definition shift (x y w : Qc) p : chassis_pos_t Qc := Pos (x_m p + x)%Qc (y_m p + y)%Qc (z_rad p + w)%Qc.

Lemma fabs_lt_same (v : Qc) (n : Z) (d : positive) : fabs_lt (0%Qc : Qc) (f_lit n d) = true ->
  fabs_lt (v - v)%F (f_lit n d) = true.
Proof. intros Hz. change (v - v)%F with (v - v)%Qc. unfold Qcminus. by rewrite Qcplus_opp_r. Qed.
Lemma arrived_same c : arrived (pos_of_ctrl c) c = true.
Proof. unfold arrived. cbn [pos_of_ctrl x_m y_m z_rad]. by rewrite !fabs_lt_same by by vm_compute. Qed.

Lemma settle ms c s : moving c s -> exists s',
  rt_thread_mdelay env ms s = Ret tt s' /\ moving c s' /\ plan s' = plan s /\ nowpos s' = pos_of_ctrl c.
Proof.
  intros Hs. destruct (ideal_mdelay extra extra_ok ms c s Hs) as (s' & ? & ? & ? & Hn).
  exists s'. split_and!; [done..|]. rewrite Hn. apply pos_of_wheels_of; [apply conv_nonzero|apply half_ab_nonzero].
Qed.

(** A movement looks at most twice; [fuel] is how often it could. *)
Lemma loop_ends c s fuel (Q : rbmg Qc -> Prop) : moving c s ->
  (forall s2, moving c s2 -> plan s2 = plan s -> exists s',
     (_ ← modify clean; rt_thread_mdelay env 300) s2 = Ret tt s' /\ Q s') ->
  exists s', movement_loop env (S (S fuel)) 0 s = Ret tt s' /\ Q s'.
Proof.
  intros H1 Hend.
  assert (forall fuel k s2, movement_loop env (S fuel) k s2 =
    if arrived (nowpos s2) (ctrl s2) then (_ ← modify clean; rt_thread_mdelay env 300) s2
    else (_ ← rt_thread_mdelay env 50; if k + 1 >? 1000 then mret () else movement_loop env fuel (k + 1))
      (public_ctrl (set_ctrl_pos s2))) as Hun.
  { intros f k s2. cbn [movement_loop]. rewrite (run_bind _ _ _ (arrived (nowpos s2) (ctrl s2)) s2) by done.
    by destruct (arrived _ _). }
  rewrite Hun. destruct (arrived (nowpos s) (ctrl s)); [by apply Hend|].
  rewrite (moving_set_ctrl_pos c s H1).
  destruct (settle 50 c _ (moving_public c s H1)) as (s2 & Hr & H2 & Hp2 & Hn2).
  rewrite (run_bind _ _ _ _ _ Hr). change (0 + 1 >? 1000) with false. cbn match.
  rewrite Hun, Hn2, (mv_ctrl c s2 H2), arrived_same. apply Hend; [done|]. by rewrite Hp2.
Qed.

(** Standing still, at the target of the last movement if there was one. *)
Definition ready p (n : Z) s : Prop :=
  well_formed s /\ rbmg_mode s = ACTION_MODE /\ nowpos s = p /\ take_cnt (plan s) = n.
Definition there p (n : Z) s : Prop :=
  exists c, moving c s /\ nowpos s = p /\ p = pos_of_ctrl c /\ take_cnt (plan s) = n.
Lemma there_ready p n s : there p n s -> ready p n s.
Proof. intros (c & [] & ? & ? & ?). by split_and!. Qed.

Lemma ideal_move x y w p n : triple (move env x y w) (ready p n) (there (shift x y w p) n).
Proof.
  intros s (Hw & Hm & Hp & Hn). set (c := target x y w s).
  assert (shift x y w p = pos_of_ctrl c) as Hc by (unfold c, target; by rewrite Hp).
  set (s1 := public_ctrl (set_ctrl c s)). pose proof (moving_start x y w s Hw Hm) as H1. fold c s1 in H1.
  assert (take_cnt (plan s1) = n) as Hn1 by done.
  assert (forall s2, moving c s2 -> take_cnt (plan s2) = n -> exists s',
    (_ ← modify clean; rt_thread_mdelay env 300) s2 = Ret tt s' /\ there (shift x y w p) n s') as Hend.
  { intros s2 H2 Hn2. rewrite (run_bind _ _ _ tt (clean s2)) by done.
    destruct (settle 300 c (clean s2)) as (s' & Hr & H3 & Hp3 & Hn3); [by destruct H2; split|].
    exists s'. split; [done|]. exists c. split_and!; [done|congruence|done|by rewrite Hp3]. }
  assert (exists s', movement_loop env MOVEMENT_FUEL 0 s1 = Ret tt s' /\ there (shift x y w p) n s')
    as (s' & Hr & Hs').
  { apply (loop_ends c s1 999); [done|]. intros s2 H2 Hp2. apply Hend; [done|]. by rewrite Hp2. }
  exists tt, s'. split; [|done]. unfold move, action_relative_movement_car.
  by rewrite (run_bind _ _ _ tt s1) by done.
Qed.

Lemma triple_weaken {A} (m : T A) (P P' Q : rbmg Qc -> Prop) :
  (forall s, P' s -> P s) -> triple m P Q -> triple m P' Q.
Proof. intros Hi Hm s Hs. by apply Hm, Hi. Qed.
Lemma there_move x y w p n : triple (move env x y w) (there p n) (there (shift x y w p) n).
Proof. eapply triple_weaken; [apply there_ready|apply ideal_move]. Qed.
Lemma there_mdelay ms p n : triple (rt_thread_mdelay env ms) (there p n) (there p n).
Proof.
  intros s (c & Hc & Hn & Hp & Ht). destruct (settle ms c s Hc) as (s' & Hr & H1 & Hp1 & Hn1).
  exists tt, s'. split; [done|]. exists c. split_and!; [done|congruence|done|by rewrite Hp1].
Qed.
Lemma there_modify f p n :
  (forall s c, moving c s -> moving c (f s) /\ chassis_mai (f s) = chassis_mai s /\
     take_cnt (plan (f s)) = take_cnt (plan s)) ->
  triple (modify f) (there p n) (there p n).
Proof.
  intros Hf s (c & Hc & Hn & Hp & Ht). destruct (Hf s c Hc) as (H1 & H2 & H3). apply runs_modify.
  exists c. split_and!; [done| |done|by rewrite H3]. unfold nowpos in *. by rewrite H2.
Qed.
Lemma there_tell a p n : (forall m, a <> Publish m) -> triple (modify (tell a)) (there p n) (there p n).
Proof. intros Ha. apply there_modify. intros s c Hc. split_and!; [by apply moving_tell|done..]. Qed.
Lemma there_plan f p n : (forall q, take_cnt (f q) = take_cnt q) ->
  triple (mod_plan f) (there p n) (there p n).
Proof. intros Hf. apply there_modify. intros s c []. split_and!; [by split|done|apply Hf]. Qed.
Lemma there_read_color p n : triple read_color (there p n) (there p n).
Proof.
  intros s Hs. unfold read_color. apply runs_bind, runs_gets. destruct (color_flag s =? 0); [by apply runs_ret|].
  apply runs_bind, runs_gets. pose proof Hs as (c & [(_ & Hc & _) _ _ _ _ _ _] & _).
  destruct (color s) as [|b bs] eqn:E; [done|]. apply runs_bind. exists b, s. split; [done|].
  by apply there_plan.
Qed.
Lemma there_arm f p n : f = mypick env \/ f = myup env -> triple f (there p n) (there p n).
Proof.
  intros [-> | ->]; unfold mypick, myup;
    repeat (eapply triple_bind; [first [by apply there_tell|apply there_mdelay]|intros ?]); apply there_mdelay.
Qed.

Lemma ready_tell a p n : triple (modify (tell a)) (ready p n) (ready p n).
Proof. intros s Hs. by apply runs_modify. Qed.
Lemma ready_cnt {B} p n (k : Z -> T B) Q :
  triple (k n) (ready p n) Q -> triple (gets (fun s => take_cnt (plan s)) ≫= k) (ready p n) Q.
Proof.
  intros Hk s Hs. apply runs_bind, runs_gets. replace (take_cnt (plan s)) with n by by destruct Hs as (_ & _ & _ & ->).
  by apply Hk.
Qed.
Lemma there_last f p n : (forall s, chassis_mai (f s) = chassis_mai s) ->
  triple (modify f) (there p n) (fun s => nowpos s = p).
Proof. intros Hf s (c & _ & Hn & _). apply runs_modify. unfold nowpos in *. by rewrite Hf. Qed.
Lemma there_any_cnt p n m : triple (mod_plan (set_take_cnt m)) (there p n) (there p m).
Proof.
  intros s (c & [] & Hn & Hp & Ht). apply runs_modify. exists c. split_and!; [by split|done..].
Qed.

(** Straight-line code, once the conditions are decided. *)
Ltac walk := repeat (eapply triple_bind; [first
  [ apply there_move | apply there_mdelay | apply there_read_color | by apply there_tell
  | apply there_any_cnt | by apply there_plan | apply triple_ret | by apply there_arm; auto
  | eapply triple_bind; [apply there_move|intros ?]; apply there_move
  | eapply triple_bind; [apply there_move|intros ?]; eapply triple_bind; [apply there_move|intros ?]; apply there_move
  | eapply triple_bind; [by apply there_plan|intros ?]; eapply triple_bind; [apply there_move|intros ?]; apply there_move
  ]|intros ?]).
Lemma pos_eq (a b c a' b' c' : Qc) : a = a' -> b = b' -> c = c' -> Pos a b c = Pos a' b' c'.
Proof. by intros -> -> ->. Qed.
(** Sums of constants. *)
Ltac constants := unfold shift; cbn [x_m y_m z_rad]; rewrite <- ?Qcplus_assoc;
  apply pos_eq; apply (f_equal (Qcplus _)); apply Qc_is_canon; vm_compute; reflexivity.

Lemma triple_post {A} (m : T A) P p p' : triple m P (fun s => nowpos s = p) -> p = p' ->
  triple m P (fun s => nowpos s = p').
Proof. by intros ? <-. Qed.

(** How far behind its start fetching block [n] leaves the robot, in metres. *)
Definition take_drift (n : Z) : Qc :=
  (- (f_lit 3 10) - (if (n >? 3)%Z then f_lit 15 1000 else 0)
   + (if is_one_of n [2; 5; 8]%Z then f_lit 8 1000
      else if is_one_of n [3; 6; 9]%Z then - (f_lit 2 1000) else 0))%Qc.

Lemma take_action_ends p n : triple (take_action env) (ready p n) (fun s => nowpos s = shift 0 (take_drift n) 0 p).
Proof.
  unfold take_action, take_drift. eapply triple_bind; [apply ready_tell|intros ?]. apply ready_cnt.
  assert (n >? 6 = true -> n >? 3 = true) as H6 by lia.
  assert (n >? 3 = true -> n <? 7 = negb (n >? 6)) as H7 by lia.
  destruct (n >? 3) eqn:E3; [rewrite H7 by done|]; (destruct (n >? 6) eqn:E6; [try (by specialize (H6 eq_refl))|]);
    cbn [andb negb];
    (destruct (is_one_of n [2; 5; 8]); [|destruct (is_one_of n [3; 6; 9])]);
    (eapply triple_bind; [apply ideal_move|intros ?]; walk;
     eapply triple_post; [by apply there_last|constants]).
Qed.

Lemma put_action_ends p n : triple (put_action env) (ready p n)
  (fun s => nowpos s = shift 0 0 (f_lit 31415926 10000000) p).
Proof.
  unfold put_action. eapply triple_bind; [apply ideal_move|intros ?].
  eapply triple_bind; [apply triple_gets_any|intros c].
  destruct (c =? RED); [|destruct (c =? BLUE); [|destruct (c =? YELLOW);
    [|destruct ((c =? NONE) || (c =? IDLE))]]];
    (walk; eapply triple_bind; [apply (there_modify (set_color_flag 0)); intros ? ? []; by split_and!|intros ?];
     eapply triple_post; [by apply there_last|constants]).
Qed.
End exact.

(** C5: In exact arithmetic, through the chassis, the wheel formulas and the motor table
    with motors that reach what they are commanded, whatever colour messages and
    callbacks come in between: fetching a block ends at the start's x and heading,
    behind it by the drift of that block; delivering, for every colour, ends where it
    began, turned by 3.1415926 rad. *)
Theorem actions_return extra (s : rbmg Qc) :
  (forall h, Forall (fun e => event_ok e /\ motion_free e) (extra h)) ->
  well_formed s -> rbmg_mode s = ACTION_MODE ->
  let p := nowpos s in
  (exists s', take_action (ideal_env extra) s = Ret tt s' /\
     nowpos s' = Pos (x_m p) (y_m p + take_drift (take_cnt (plan s)))%Qc (z_rad p)) /\
  (exists s', put_action (ideal_env extra) s = Ret tt s' /\
     nowpos s' = Pos (x_m p) (y_m p) (z_rad p + f_lit 31415926 10000000)%Qc).
Proof.
  intros Hx Hw Hm p. assert (ready p (take_cnt (plan s)) s) as Hs by by split_and!.
  destruct (take_action_ends extra Hx p _ s Hs) as ([] & s1 & H1 & Hp1).
  destruct (put_action_ends extra Hx p _ s Hs) as ([] & s2 & H2 & Hp2).
  split; [exists s1|exists s2]; (split; [done|]); [rewrite Hp1|rewrite Hp2];
    unfold shift; by rewrite !Qcplus_0_r.
Qed.

(** A robot at rest in the middle of a mission; nothing happens but its own motion. *)
Definition acting : rbmg Qc := set_mode ACTION_MODE (rbmg_start zero_robot).
Lemma acting_ok : well_formed acting.
Proof. split_and!; [reflexivity|reflexivity|by right; right]. Qed.
Lemma movement_bounded_witness :
  exists k s', action_relative_movement_car quick_env 1%Qc 0%Qc 0%Qc acting = Ret tt s' /\
    (k <= 1001)%nat /\ rbmg_mode s' = ACTION_MODE.
Proof.
  destruct (movement_bounded quick_env 1%Qc 0%Qc 0%Qc acting quick_env_ok acting_ok eq_refl)
    as (k & s' & Hr & Hm & _ & _ & Hk).
  exists k, s'. split_and!; [exact Hr| |exact Hm]. destruct Hk as [(_ & Hk & _)|(_ & Hk & _)]; lia.
Defined.
Lemma actions_return_witness :
  exists s', put_action (ideal_env (fun _ => [])) acting = Ret tt s' /\
    nowpos s' = Pos 0%Qc 0%Qc (0 + f_lit 31415926 10000000)%Qc.
Proof.
  apply (actions_return (fun _ => []) acting); [intros h; constructor|exact acting_ok|reflexivity].
Defined.
