(* ===== verification/Sbus.v ===== *)
(** * [bsp_sbus.c]: the remote control receiver

    A frame is the byte 0x0f and 24 more, of which the first 22 hold sixteen channels of
    eleven bits, least significant bit first.  The receive callback runs at every
    notification of the port, with the number of bytes waiting in its buffer. *)
From S2P Require Import Prelude.
#[local] Open Scope Z_scope.

(** The channels [ch1] to [ch16]; [sw1] and [sw2] are written by nothing. *)
Definition rc_info_t : Type := list Z.

(** ** Decoding *)

Definition channel_bits (buff : list Z) : list Z :=
  let b i := nth i buff 0 in
  [ Z.lor (b 1%nat) (Z.shiftl (Z.land (b 2%nat) 0x07) 8);
    Z.lor (Z.shiftr (Z.land (b 2%nat) 0xf8) 3) (Z.shiftl (Z.land (b 3%nat) 0x3f) 5);
    Z.lor (Z.lor (Z.shiftr (Z.land (b 3%nat) 0xc0) 6) (Z.shiftl (b 4%nat) 2)) (Z.shiftl (Z.land (b 5%nat) 0x01) 10);
    Z.lor (Z.shiftr (Z.land (b 5%nat) 0xfe) 1) (Z.shiftl (Z.land (b 6%nat) 0x0f) 7);
    Z.lor (Z.shiftr (Z.land (b 6%nat) 0xf0) 4) (Z.shiftl (Z.land (b 7%nat) 0x7f) 4);
    Z.lor (Z.lor (Z.shiftr (Z.land (b 7%nat) 0x80) 7) (Z.shiftl (b 8%nat) 1)) (Z.shiftl (Z.land (b 9%nat) 0x03) 9);
    Z.lor (Z.shiftr (Z.land (b 9%nat) 0xfc) 2) (Z.shiftl (Z.land (b 10%nat) 0x1f) 6);
    Z.lor (Z.shiftr (Z.land (b 10%nat) 0xe0) 5) (Z.shiftl (b 11%nat) 3);
    Z.lor (b 12%nat) (Z.shiftl (Z.land (b 13%nat) 0x07) 8);
    Z.lor (Z.shiftr (Z.land (b 13%nat) 0xf8) 3) (Z.shiftl (Z.land (b 14%nat) 0x3f) 5);
    Z.lor (Z.lor (Z.shiftr (Z.land (b 14%nat) 0xc0) 6) (Z.shiftl (b 15%nat) 2)) (Z.shiftl (Z.land (b 16%nat) 0x01) 10);
    Z.lor (Z.shiftr (Z.land (b 16%nat) 0xfe) 1) (Z.shiftl (Z.land (b 17%nat) 0x0f) 7);
    Z.lor (Z.shiftr (Z.land (b 17%nat) 0xf0) 4) (Z.shiftl (Z.land (b 18%nat) 0x7f) 4);
    Z.lor (Z.lor (Z.shiftr (Z.land (b 18%nat) 0x80) 7) (Z.shiftl (b 19%nat) 1)) (Z.shiftl (Z.land (b 20%nat) 0x03) 9);
    Z.lor (Z.shiftr (Z.land (b 20%nat) 0xfc) 2) (Z.shiftl (Z.land (b 21%nat) 0x1f) 6);
    Z.lor (Z.shiftr (Z.land (b 21%nat) 0xe0) 5) (Z.shiftl (b 22%nat) 3) ].

(** The first four and last four channels are centred, in 16 bits; the others are
    levers of three positions; the first four have a dead band.  Each pass writes some
    channels and leaves the others. *)
Definition on_channels (P : nat -> bool) (f : Z -> Z) : rc_info_t -> rc_info_t :=
  imap (fun i v => if P i then f v else v).
Definition is_stick (i : nat) : bool := (i <? 4)%nat.
Definition is_lever (i : nat) : bool := (4 <=? i)%nat && (i <? 12)%nat.
Definition lever_position (v : Z) : Z := if v >? 1600 then 1 else if v <? 400 then 3 else 2.
Definition centred (v : Z) : Z := s16 (v - 1024).
Definition dead_band (v : Z) : Z := if (v <? 15) && (v >? -15) then 0 else v.

Definition sw_judge : rc_info_t -> rc_info_t := on_channels is_lever lever_position.
Definition rc_callback_handler (buff : list Z) : rc_info_t :=
  let rc := on_channels (fun i => negb (is_lever i)) centred (channel_bits buff) in
  on_channels is_stick dead_band (sw_judge rc).

(** ** Receiving *)

Record dbus := Dbus { dbus_buf : list Z; state : Z; rc : rc_info_t; fifo : list Z }.

(** [rt_device_read(uart, 0, dbus_buf + off, n)]: what is there, up to [n]. *)
Definition dev_read (off n : nat) (d : dbus) : outcome dbus :=
  xs ← arr_write (dbus_buf d) (Z.of_nat off) (take n (fifo d));
  Done (Dbus xs (state d) (rc d) (drop n (fifo d))).
Definition dbus_uart_rx_ind (size : Z) (d : dbus) : outcome dbus :=
  if state d =? 0 then
    d ← dev_read 0 1 d;
    c ← arr_get (dbus_buf d) 0;
    Done (if c =? 0x0f then Dbus (dbus_buf d) 1 (rc d) (fifo d) else d)
  else if state d =? 1 then
    if 24 <=? size then
      d ← dev_read 1 24 d;
      Done (Dbus (dbus_buf d) 0 (rc_callback_handler (dbus_buf d)) (fifo d))
    else Done d
  else Done d.

(** A byte arrives and is announced with the number of bytes waiting. *)
Definition dbus_byte (b : Z) (d : dbus) : outcome dbus :=
  let q := fifo d ++ [b] in
  dbus_uart_rx_ind (Z.of_nat (length q)) (Dbus (dbus_buf d) (state d) (rc d) q).
Fixpoint dbus_bytes (bs : list Z) (d : dbus) : outcome dbus :=
  match bs with [] => Done d | b :: bs => d ← dbus_byte b d; dbus_bytes bs d end.

(** ** What a sender does *)

(** The channels as one number, and its bytes. *)
Fixpoint pack_number (chs : list Z) : Z :=
  match chs with [] => 0 | c :: chs => Z.lor c (Z.shiftl (pack_number chs) 11) end.
Definition bytes_of (n : nat) (v : Z) : list Z := map (fun k => byte_at (Z.of_nat k) v) (seq 0 n).
Definition sbus_frame (chs : list Z) (flags footer : Z) : list Z :=
  0x0f :: bytes_of 22 (pack_number chs) ++ [flags; footer].
Definition is_u11 (v : Z) : Prop := 0 <= v < 2 ^ 11.

(** ** Bit fields of a number *)

Definition field (a n N : Z) : Z := Z.land (Z.shiftr N a) (Z.ones n).
Lemma field_bit a n N j : 0 <= a -> 0 <= n -> 0 <= j ->
  Z.testbit (field a n N) j = (j <? n) && Z.testbit N (j + a).
Proof.
  intros Ha Hn Hj. unfold field. rewrite Z.land_spec, Z.shiftr_spec, Z.testbit_ones_nonneg by done.
  apply andb_comm.
Qed.
Lemma byte_field k N : 0 <= k -> byte_at k N = field (8 * k) 8 N.
Proof. intros Hk. unfold byte_at, u8, field. by rewrite Z.land_ones. Qed.
(** The low bits of a field, its high bits, and two fields put together. *)
Lemma field_low a n m N : 0 <= a -> 0 <= m <= n -> Z.land (field a n N) (Z.ones m) = field a m N.
Proof.
  intros Ha Hm. apply Z.bits_inj'. intros j Hj.
  rewrite Z.land_spec, !field_bit, Z.testbit_ones_nonneg by lia.
  destruct (Z.ltb_spec j m), (Z.ltb_spec j n); try lia; by rewrite ?andb_true_r, ?andb_false_r.
Qed.
Lemma field_high a n t N : 0 <= a -> 0 <= t <= n ->
  Z.shiftr (Z.land (field a n N) (Z.shiftl (Z.ones (n - t)) t)) t = field (a + t) (n - t) N.
Proof.
  intros Ha Ht. apply Z.bits_inj'. intros j Hj.
  rewrite Z.shiftr_spec, Z.land_spec, !field_bit, Z.shiftl_spec, Z.testbit_ones_nonneg by lia.
  replace (j + t - t) with j by lia. replace (j + t + a) with (j + (a + t)) by lia.
  destruct (Z.ltb_spec j (n - t)), (Z.ltb_spec (j + t) n); try lia; by rewrite ?andb_true_r, ?andb_false_r.
Qed.
Lemma field_join a p q N : 0 <= a -> 0 <= p -> 0 <= q ->
  Z.lor (field a p N) (Z.shiftl (field (a + p) q N) p) = field a (p + q) N.
Proof.
  intros Ha Hp Hq. apply Z.bits_inj'. intros j Hj. rewrite Z.lor_spec, Z.shiftl_spec, (field_bit a (p + q)), (field_bit a p) by lia.
  destruct (Z.ltb_spec j p).
  - rewrite (Z.testbit_neg_r (field _ _ _)) by lia. rewrite orb_false_r.
    destruct (Z.ltb_spec j (p + q)); [done|lia].
  - rewrite field_bit by lia. replace (j - p + (a + p)) with (j + a) by lia.
    destruct (Z.ltb_spec (j - p) q), (Z.ltb_spec j (p + q)); done || lia.
Qed.

Lemma u11_bits c j : is_u11 c -> 11 <= j -> Z.testbit c j = false.
Proof. intros Hc Hj. rewrite <- (Z.mod_small c (2 ^ 11)) by done. apply Z.mod_pow2_bits_high. lia. Qed.
(** Channel [i] is a field of the packed number. *)
Lemma pack_field chs i c : Forall is_u11 chs -> chs !! i = Some c ->
  field (11 * Z.of_nat i) 11 (pack_number chs) = c.
Proof.
  intros Hc. revert i. induction Hc as [|c0 chs H0 Hc IH]; intros i Hi; [done|].
  apply Z.bits_inj'. intros j Hj. rewrite field_bit by lia. cbn [pack_number].
  rewrite Z.lor_spec, Z.shiftl_spec by lia. destruct i as [|i].
  - injection Hi as ->. rewrite Z.mul_0_r, Z.add_0_r. destruct (Z.ltb_spec j 11).
    + rewrite (Z.testbit_neg_r (pack_number chs)) by lia. by rewrite orb_false_r.
    + by rewrite u11_bits.
  - cbn in Hi. rewrite <- (IH i Hi), field_bit by lia.
    replace (j + 11 * Z.of_nat (S i) - 11) with (j + 11 * Z.of_nat i) by lia.
    by rewrite (u11_bits c0) by (done || lia).
Qed.

(** What the handler computes from the bytes of a number: its sixteen fields. *)
Ltac mask m e :=
  repeat match goal with |- context [Z.land ?b m] => change (Z.land b m) with (Z.land b e) end.
Ltac fold_masks :=
  mask 0x07 (Z.ones 3); mask 0x3f (Z.ones 6); mask 0x01 (Z.ones 1); mask 0x0f (Z.ones 4);
  mask 0x7f (Z.ones 7); mask 0x03 (Z.ones 2); mask 0x1f (Z.ones 5);
  mask 0xf8 (Z.shiftl (Z.ones (8 - 3)) 3); mask 0xc0 (Z.shiftl (Z.ones (8 - 6)) 6);
  mask 0xfe (Z.shiftl (Z.ones (8 - 1)) 1); mask 0xf0 (Z.shiftl (Z.ones (8 - 4)) 4);
  mask 0x80 (Z.shiftl (Z.ones (8 - 7)) 7); mask 0xfc (Z.shiftl (Z.ones (8 - 2)) 2);
  mask 0xe0 (Z.shiftl (Z.ones (8 - 5)) 5).
Ltac join := rewrite !byte_field by lia; rewrite ?field_low, ?field_high by lia;
  repeat match goal with |- context [Z.lor (field ?a ?p ?N) (Z.shiftl (field ?b ?q ?N) ?r)] =>
    change (Z.lor (field a p N) (Z.shiftl (field b q N) r))
      with (Z.lor (field a p N) (Z.shiftl (field (a + p) q N) p)); rewrite (field_join a p q N) by lia end.
Lemma channel_bits_fields N x y z :
  channel_bits (x :: bytes_of 22 N ++ [y; z]) = map (fun i => field (11 * Z.of_nat i) 11 N) (seq 0 16).
Proof.
  unfold channel_bits, bytes_of. cbn [map seq app nth].
  repeat (apply (f_equal2 cons); [fold_masks; join; reflexivity|]). reflexivity.
Qed.

Lemma imap_imap {A B C} (f : nat -> B -> C) (g : nat -> A -> B) l :
  imap f (imap g l) = imap (fun i x => f i (g i x)) l.
Proof. revert f g. induction l as [|x l IH]; intros f g; [done|]. cbn. f_equal. apply IH. Qed.
(** The three passes, channel by channel. *)
Definition finish_channel (i : nat) (v : Z) : Z :=
  if is_stick i then dead_band (centred v) else if is_lever i then lever_position v else centred v.
Lemma rc_callback_channels buff : rc_callback_handler buff = imap finish_channel (channel_bits buff).
Proof.
  unfold rc_callback_handler, sw_judge, on_channels. rewrite !imap_imap. apply imap_ext.
  intros i v _. unfold finish_channel, is_stick, is_lever.
  destruct (Nat.ltb_spec i 4), (Nat.leb_spec 4 i), (Nat.ltb_spec i 12); done || lia.
Qed.

Lemma rc_callback_packed chs x y z : length chs = 16%nat -> Forall is_u11 chs ->
  rc_callback_handler (x :: bytes_of 22 (pack_number chs) ++ [y; z]) = imap finish_channel chs.
Proof.
  intros Hlen Hc. rewrite rc_callback_channels, channel_bits_fields. f_equal.
  apply list_eq_same_length with 16%nat; [done|by rewrite length_map, length_seq|].
  intros i v v' Hi Hv Hv'. rewrite list_lookup_fmap, lookup_seq_lt in Hv by done. injection Hv as <-.
  by apply pack_field.
Qed.

(** ** A frame that arrives byte by byte *)

Record dbus_ready (d : dbus) : Prop := DbusReady {
  dr_buf : length (dbus_buf d) = 25%nat;
  dr_state : state d = 0;
  dr_fifo : fifo d = [];
}.

Lemma dbus_header d : dbus_ready d -> exists d1,
  dbus_byte 0x0f d = Done d1 /\ length (dbus_buf d1) = 25%nat /\ head (dbus_buf d1) = Some 0x0f /\
  state d1 = 1 /\ fifo d1 = [].
Proof.
  intros [Hb Hs Hf]. destruct d as [buf st r q]. cbn in *. subst st q.
  unfold dbus_byte, dbus_uart_rx_ind. cbn [state fifo app].
  unfold dev_read. cbn [fifo dbus_buf]. rewrite arr_write_ok by (rewrite ?Hb; by vm_compute).
  destruct buf as [|b buf]; [done|]. eexists. split; [done|]. by split_and!.
Qed.

(** The rest of the frame: nothing until the 24th byte is there. *)
Lemma dbus_rest bs d : length (dbus_buf d) = 25%nat -> state d = 1 ->
  (length (fifo d) + length bs = 24)%nat -> bs <> [] ->
  let buf := take 1 (dbus_buf d) ++ fifo d ++ bs in
  dbus_bytes bs d = Done (Dbus buf 0 (rc_callback_handler buf) []).
Proof.
  revert d. induction bs as [|b bs IH]; intros d Hb Hs Hl Hne; [done|]. cbv zeta. cbn [dbus_bytes].
  destruct d as [buf st r q]. cbn [dbus_buf state fifo] in *. subst st. cbn [length] in Hl.
  unfold dbus_byte, dbus_uart_rx_ind. cbn [state fifo dbus_buf rc].
  change (1 =? 0) with false. change (1 =? 1) with true. cbn match.
  destruct (Z.leb_spec 24 (Z.of_nat (length (q ++ [b])))) as [H24|H24]; rewrite length_app in H24; cbn in H24.
  - destruct bs as [|b' bs]; [|cbn in Hl; lia]. unfold dev_read. cbn [fifo dbus_buf state rc].
    rewrite take_ge, drop_ge by (rewrite length_app; cbn; lia).
    rewrite arr_write_ok by (rewrite ?length_app; cbn; lia).
    change (Z.to_nat (Z.of_nat 1)) with 1%nat.
    rewrite list_inserts_app by (rewrite length_app; cbn; lia).
    rewrite (drop_ge buf) by (rewrite length_app; cbn; lia). by rewrite app_nil_r.
  - cbn [mbind outcome_bind]. rewrite IH; cbn [dbus_buf state fifo];
      [by rewrite <- app_assoc|done|done|rewrite length_app; cbn; lia|intros ->; cbn in Hl; lia].
Qed.

(** What the remote means by a channel value. *)
Definition channel_meaning (i : nat) (c : Z) : Z :=
  if (i <? 4)%nat then if Z.abs (c - 1024) <? 15 then 0 else c - 1024
  else if (i <? 12)%nat then if 1600 <? c then 1 else if c <? 400 then 3 else 2
  else c - 1024.
Lemma finish_channel_meaning i c : is_u11 c -> finish_channel i c = channel_meaning i c.
Proof.
  intros Hc. unfold finish_channel, channel_meaning, is_stick, is_lever, dead_band, lever_position, centred.
  unfold is_u11 in Hc. change (2 ^ 11) with 2048 in Hc. rewrite s16_id by (unfold is_s16; lia).
  destruct (Nat.ltb_spec i 4), (Nat.leb_spec 4 i); try lia; cbn [andb]; repeat case_match; lia.
Qed.

(** C19: A frame whose 22 data bytes pack sixteen 11-bit channels, arriving byte by byte
    at a receiver that waits for a header, leaves it waiting for the next one, with
    every channel as the remote means it: the sticks centred and dead within 15, the
    levers as three positions. *)
Theorem sbus_roundtrip chs flags footer d :
  length chs = 16%nat -> Forall is_u11 chs -> dbus_ready d ->
  exists d', dbus_bytes (sbus_frame chs flags footer) d = Done d' /\ dbus_ready d' /\
    rc d' = imap channel_meaning chs.
Proof.
  intros Hlen Hc Hd. destruct (dbus_header d Hd) as (d1 & H1 & Hb & Hh & Hs & Hf).
  unfold sbus_frame. cbn [dbus_bytes]. rewrite H1. cbn [mbind outcome_bind].
  rewrite (dbus_rest _ d1 Hb Hs) by (rewrite ?Hf; done). rewrite Hf. cbn [app].
  destruct (dbus_buf d1) as [|b buf]; [done|]. injection Hh as ->. cbn [take app].
  eexists. split; [done|]. split; [by split|]. cbn [rc].
  change (firstn 0 buf) with (@nil Z). cbn [app].
  rewrite rc_callback_packed by done. apply imap_ext. intros i c Hi.
  apply finish_channel_meaning. by eapply Forall_lookup_1.
Qed.

(** The sticks at rest but for the first, the levers up. *)
Definition demo_channels : list Z := 2047 :: replicate 3 1030 ++ replicate 8 1800 ++ replicate 4 1024.
Lemma sbus_roundtrip_witness :
  exists d', dbus_bytes (sbus_frame demo_channels 0 0) (Dbus (replicate 25 0) 0 [] []) = Done d' /\
    dbus_ready d' /\ rc d' = [1023; 0; 0; 0; 1; 1; 1; 1; 1; 1; 1; 1; 0; 0; 0; 0].
Proof.
  apply (sbus_roundtrip demo_channels 0 0 (Dbus (replicate 25 0) 0 [] [])); [reflexivity| |by split].
  repeat constructor; by vm_compute.
Defined.

(** A frame announced as a whole waits for the next notification. *)
Lemma sbus_coalesced chs flags footer d : dbus_ready d ->
  exists d', dbus_uart_rx_ind 25 (Dbus (dbus_buf d) (state d) (rc d) (sbus_frame chs flags footer)) = Done d' /\
    rc d' = rc d /\ length (fifo d') = 24%nat.
Proof.
  intros [Hb Hs Hf]. destruct d as [buf st r q]. cbn in *. subst st.
  unfold dbus_uart_rx_ind. cbn [state]. unfold dev_read. cbn [fifo dbus_buf].
  rewrite arr_write_ok by (rewrite ?Hb; by vm_compute).
  destruct buf as [|b buf]; [done|]. eexists. split; [done|]. by split.
Qed.
