(* ===== verification/Action.v ===== *)
(** * [drv_action.c]: the position sensor's stream

    Frames of 0x0d 0x0a, six floats in 24 bytes, 0x0a 0x0d, taken apart byte by byte by
    [Data_Analyse], whose local variables are static.  A [float] is kept as its four
    bytes: the union's other view of them is the machine's own. *)
From S2P Require Import Prelude.
#[local] Open Scope Z_scope.

(** The globals the stream is for. *)
Record values := Values {
  zangle : list Z;
  xangle : list Z;
  yangle : list Z;
  pos_x : list Z;
  pos_y : list Z;
  w_z : list Z;
}.
Record action_t := Action {
  date : list Z;
  count : Z;
  i : Z;
  vals : values;
}.

(** [posture.ActVal[k]]. *)
Definition ActVal (k : nat) (bs : list Z) : list Z := take 4 (drop (4 * k) bs).
Definition act_vals (bs : list Z) : values := {|
  zangle := ActVal 0 bs;
  xangle := ActVal 1 bs;
  yangle := ActVal 2 bs;
  pos_x := ActVal 3 bs;
  pos_y := ActVal 4 bs;
  w_z := ActVal 5 bs;
|}.

Definition Data_Analyse (rec : Z) (a : action_t) : outcome action_t :=
  let ch := rec in
  let next c := Done (Action (date a) c (i a) (vals a)) in
  if count a =? 0 then next (if ch =? 0x0d then u8 (count a + 1) else 0)
  else if count a =? 1 then
    if ch =? 0x0a then Done (Action (date a) (u8 (count a + 1)) 0 (vals a))
    else if ch =? 0x0d then Done a
    else next 0
  else if count a =? 2 then
    ds ← arr_set (date a) (i a) ch;
    let i := u8 (i a + 1) in
    Done (if i >=? 24 then Action ds (u8 (count a + 1)) 0 (vals a) else Action ds (count a) i (vals a))
  else if count a =? 3 then next (if ch =? 0x0a then u8 (count a + 1) else 0)
  else if count a =? 4 then
    Done (Action (date a) 0 (i a) (if ch =? 0x0d then act_vals (date a) else vals a))
  else next 0.

(** [dbus_uart_rx_ind] of this file reads and analyses what is announced. *)
Fixpoint action_feed (bs : list Z) (a : action_t) : outcome action_t :=
  match bs with [] => Done a | b :: bs => a ← Data_Analyse b a; action_feed bs a end.

(** [Action_set_zero] writes the literal with its final 0. *)
Definition Action_set_zero : list Z := [65; 67; 84; 79; 0].

Record action_wf (a : action_t) : Prop := ActionWf {
  aw_date : length (date a) = 24%nat;
  aw_i : 0 <= i a < 24;
}.

Lemma Data_Analyse_wf b a : action_wf a -> exists a', Data_Analyse b a = Done a' /\ action_wf a'.
Proof.
  intros [Hd Hi]. unfold Data_Analyse.
  destruct (count a =? 0); [by eexists|]. destruct (count a =? 1); [repeat case_match; by eexists|].
  destruct (count a =? 2).
  { rewrite arr_set_ok by lia. cbn [mbind outcome_bind].
    assert (length (<[Z.to_nat (i a) := b]> (date a)) = 24%nat) as Hl by by rewrite length_insert.
    rewrite (u8_id (i a + 1)) by (unfold is_u8; lia).
    destruct (i a + 1 >=? 24) eqn:E; eexists; (split; [done|]); split; cbn; done || lia. }
  destruct (count a =? 3); [by eexists|]. destruct (count a =? 4); by eexists.
Qed.
Lemma action_feed_wf bs a : action_wf a -> exists a', action_feed bs a = Done a' /\ action_wf a'.
Proof.
  revert a. induction bs as [|b bs IH]; intros a Ha; cbn [action_feed]; [by exists a|].
  destruct (Data_Analyse_wf b a Ha) as (a1 & -> & H1). by apply IH.
Qed.

(** The payload fills the array from where it stands. *)
Lemma action_payload bs a : action_wf a -> count a = 2 -> bs <> [] ->
  Z.of_nat (length bs) = 24 - i a ->
  action_feed bs a = Done (Action (take (Z.to_nat (i a)) (date a) ++ bs) 3 0 (vals a)).
Proof.
  revert a. induction bs as [|b bs IH]; intros a Ha Hc Hne Hl; [done|].
  pose proof Ha as [Hd Hi]. cbn [action_feed]. unfold Data_Analyse. rewrite Hc. cbn match.
  change (2 =? 0) with false. change (2 =? 1) with false. change (2 =? 2) with true. cbn match.
  rewrite arr_set_ok by lia. cbn [mbind outcome_bind]. cbn [length] in Hl.
  rewrite (u8_id (i a + 1)) by (unfold is_u8; lia).
  assert (<[Z.to_nat (i a) := b]> (date a)
    = take (Z.to_nat (i a)) (date a) ++ b :: drop (S (Z.to_nat (i a))) (date a)) as Hins
    by (apply insert_take_drop; lia).
  destruct (i a + 1 >=? 24) eqn:E.
  - destruct bs as [|b' bs]; [|cbn in Hl; lia]. cbn [action_feed]. rewrite Hins.
    rewrite (drop_ge (date a)) by lia. done.
  - rewrite IH; cbn [date count i vals].
    + do 2 f_equal. rewrite Hins.
      rewrite take_app_ge by (rewrite length_take; lia). rewrite length_take, <- app_assoc. f_equal.
      replace (Z.to_nat (i a + 1) - Z.to_nat (i a) `min` length (date a))%nat with 1%nat by lia. done.
    + split; cbn; [by rewrite length_insert|lia].
    + done.
    + intros ->. cbn in Hl. lia.
    + lia.
Qed.

Lemma action_feed_app xs ys a : action_feed (xs ++ ys) a = (a ← action_feed xs a; action_feed ys a).
Proof.
  revert a. induction xs as [|x xs IH]; intros a; cbn [app action_feed]; [done|].
  destruct (Data_Analyse x a); [apply IH|done].
Qed.

(** What the six views of the union are of six floats sent one after the other. *)
Lemma ActVal_floats (fs : list (list Z)) k f : Forall (fun f => length f = 4%nat) fs -> fs !! k = Some f ->
  ActVal k (concat fs) = f.
Proof.
  unfold ActVal. revert k. induction fs as [|g fs IH]; intros k Hf Hk; [done|].
  apply Forall_cons in Hf as [Hg Hf]. cbn [concat]. destruct k as [|k].
  - injection Hk as ->. rewrite drop_0, take_app_le by lia. by rewrite take_ge by lia.
  - rewrite drop_app_ge by lia. rewrite Hg. replace (4 * S k - 4)%nat with (4 * k)%nat by lia. by apply IH.
Qed.

(** C25: No byte stream makes the parser write outside its 24-byte buffer; a frame of
    six floats with the right trailer stores its first float in zangle, the second in
    xangle, the third in yangle, the fourth in pos_x, the fifth in pos_y and the sixth
    in w_z, and one with a wrong trailer changes none of them and leaves the parser
    looking for the next header, of which a final 0x0d is already the first byte. *)
Theorem action_frames a z x y px py w t1 t2 : action_wf a -> count a = 0 ->
  Forall (fun f => length f = 4%nat) [z; x; y; px; py; w] ->
  (forall stream, exists a', action_feed stream a = Done a' /\ action_wf a') /\
  exists a', action_feed ([0x0d; 0x0a] ++ (z ++ x ++ y ++ px ++ py ++ w) ++ [t1; t2]) a = Done a' /\
    (if (t1 =? 0x0a) && (t2 =? 0x0d)
     then zangle (vals a') = z /\ xangle (vals a') = x /\ yangle (vals a') = y /\
       pos_x (vals a') = px /\ pos_y (vals a') = py /\ w_z (vals a') = w
     else vals a' = vals a) /\
    count a' = (if negb (t1 =? 0x0a) && (t2 =? 0x0d) then 1 else 0).
Proof.
  intros Ha Hc Hl. split; [intros stream; by apply action_feed_wf|].
  set (fs := [z; x; y; px; py; w]) in *.
  replace (z ++ x ++ y ++ px ++ py ++ w) with (concat fs) by (cbn; by rewrite app_nil_r).
  assert (length (concat fs) = 24%nat) as Hl24 by (repeat (apply Forall_cons in Hl as [? Hl]); cbn; rewrite !length_app; cbn; lia).
  pose proof (fun k f => ActVal_floats fs k f Hl) as Hv. set (bs := concat fs) in *.
  cbn [app action_feed].
  assert (Data_Analyse 0x0d a = Done (Action (date a) 1 (i a) (vals a))) as ->
    by (unfold Data_Analyse; by rewrite Hc).
  cbn [mbind outcome_bind].
  change (Data_Analyse 0x0a _) with (Done (Action (date a) 2 0 (vals a))). cbn [mbind outcome_bind].
  rewrite action_feed_app, action_payload; cbn [date count i vals];
    [|split; cbn; [apply Ha|lia]|done|by intros ->|lia].
  change (take (Z.to_nat 0) (date a)) with (@nil Z). cbn [app mbind outcome_bind action_feed].
  assert (forall b c, Data_Analyse b (Action bs 3 0 c) = Done (Action bs (if b =? 0x0a then 4 else 0) 0 c)) as H3
    by (intros b c; unfold Data_Analyse; cbn; by destruct (b =? 0x0a)).
  rewrite H3. cbn [mbind outcome_bind].
  destruct (t1 =? 0x0a); destruct (t2 =? 0x0d) eqn:E2; unfold Data_Analyse; cbn [count Z.eqb Pos.eqb mbind outcome_bind]; rewrite ?E2;
    eexists; (split; [reflexivity|]); (split; [|reflexivity]); cbn [andb]; try done.
  by split_and!; cbn [vals zangle xangle yangle pos_x pos_y w_z act_vals date]; apply Hv.
Qed.

Lemma action_frames_witness :
  exists a', action_feed ([0x0d; 0x0a] ++ map Z.of_nat (seq 0 24) ++ [0x0a; 0x0d])
      (Action (replicate 24 0) 0 0 (Values [] [] [] [] [] [])) = Done a' /\
    vals a' = Values [0; 1; 2; 3] [4; 5; 6; 7] [8; 9; 10; 11] [12; 13; 14; 15] [16; 17; 18; 19] [20; 21; 22; 23].
Proof.
  destruct (action_frames (Action (replicate 24 0) 0 0 (Values [] [] [] [] [] []))
    [0; 1; 2; 3] [4; 5; 6; 7] [8; 9; 10; 11] [12; 13; 14; 15] [16; 17; 18; 19] [20; 21; 22; 23] 0x0a 0x0d)
    as (_ & a' & Hr & Hv & _); [split; [reflexivity|cbn; lia]|reflexivity|by repeat constructor|].
  exists a'. split; [exact Hr|]. destruct (vals a'). cbn in Hv. destruct Hv as (-> & -> & -> & -> & -> & ->). reflexivity.
Defined.
