(* ===== verification/FollowLine.v ===== *)
(** * [follow_line.c]: the line follower

    Every 15 ms the thread reads eight infrared sensors, computes how far the line is
    off the middle, and publishes first the special point, if there is one, then the
    error.  The manager's callbacks run inside those calls: one round of the thread is
    a list of the [event]s of RobotManager. *)
From S2P Require Import Prelude CFloat Apid Motor Chassis RobotManager.
#[local] Open Scope Z_scope.

Definition front : Z := 0.
Definition rotate : Z := 3.

Record infrared := Infrared {
  infrared_data : list Z;
  is_spacial_point_flag : Z;
  move_direction : Z;
}.

(** [TT(rt_pin_read(...))] for the eight pins. *)
Definition TT (x : Z) : Z := if x =? 0 then 1 else 0.
Definition GET_Infrared_Data (pins : list Z) (p : infrared) : infrared :=
  Infrared (map TT pins) (is_spacial_point_flag p) (move_direction p).

Definition datum (p : infrared) (k : nat) : Z := nth k (infrared_data p) 0.
Definition is_set (p : infrared) (k : nat) : bool := negb (datum p k =? 0).

(** The flag is stored and returned. *)
Definition Is_Spacial_point (p : infrared) : infrared * Z :=
  let flag :=
    if move_direction p =? front then
      if ((is_set p 0 && is_set p 1) || (is_set p 7 && is_set p 6)) && (is_set p 3 || is_set p 4)
      then 1 else 0
    else 0 in
  (Infrared (infrared_data p) flag (move_direction p), flag).

(** What [line_dir_sub_callback] reads from its queue. *)
Definition line_dir_sub_callback (dir : Z) (p : infrared) : infrared :=
  Infrared (infrared_data p) (is_spacial_point_flag p) dir.

Section follow.
Context {F : Type} `{FloatOps F} `{DoubleOf F}.

(** The sum, in [double]; the data are [int]s and the factors [double]s. *)
Definition line_error_of (p : infrared) : F :=
  let d k : dbl := f_of_Z (datum p k) in
  let m k : dbl := f_of_Z (- datum p k) in
  let factor3 : dbl := f_lit 1 10 in
  let factor2 : dbl := f_lit 2 10 in
  let factor1 : dbl := f_lit 3 10 in
  let factor0 : dbl := f_lit 4 10 in
  narrow (m 0%nat * factor0 + d 7%nat * factor0
          - d 1%nat * factor1 + d 6%nat * factor1
          - d 2%nat * factor2 + d 5%nat * factor2
          - d 3%nat * factor3 + d 4%nat * factor3)%F.

(** One pass of the loop, up to its sleep. *)
Definition follow_line (pins : list Z) (p : infrared) : infrared * list (event F) :=
  let p := GET_Infrared_Data pins p in
  let error := line_error_of p in
  let '(p, special) := Is_Spacial_point p in
  (p, (if special =? 0 then [] else [EvSpecial]) ++ [EvError error]).
End follow.

(** ** All 256 readings, in the machine's arithmetic *)

Definition bit (b : bool) : Z := if b then 1 else 0.
Fixpoint readings (n : nat) : list (list bool) :=
  match n with O => [[]] | S n => flat_map (fun bs => [false :: bs; true :: bs]) (readings n) end.
Lemma readings_all n bs : length bs = n -> In bs (readings n).
Proof.
  revert bs. induction n as [|n IH]; intros [|b bs] Hl; try done; [by left|].
  cbn. apply in_flat_map. exists bs. split; [apply IH; by injection Hl|]. destruct b; cbn; auto.
Qed.

(** The turn commanded for a reading: within 0.9, and opposite for the mirrored one. *)
Definition turn_of (bs : list bool) : f32 := (line_error_of (Infrared (map bit bs) 0 front) * KK)%F.
Definition turns_ok (z z' : f32) : bool :=
  negb (f_lit 9 10 <? z)%F && negb (z <? - f_lit 9 10)%F && (z' =? - z)%F.
Lemma turns_ok_spec z z' : turns_ok z z' = true -> f_within (f_lit 9 10) z /\ (z' =? - z)%F = true.
Proof.
  intros [[H1%negb_true_iff H2%negb_true_iff]%andb_true_iff H3]%andb_true_iff.
  exact (conj (conj H1 H2) H3).
Qed.
Lemma readings_ok : forallb (fun bs => turns_ok (turn_of bs) (turn_of (rev bs))) (readings 8) = true.
Proof. vm_compute. reflexivity. Qed.

Lemma TT_bits pins : map TT pins = map bit (map (Z.eqb 0) pins).
Proof.
  rewrite map_map. apply map_ext. intros x. unfold TT, bit. rewrite Z.eqb_sym. done.
Qed.
Lemma line_error_data p q : infrared_data p = infrared_data q -> line_error_of (F := f32) p = line_error_of q.
Proof. intros Hd. unfold line_error_of, datum. by rewrite Hd. Qed.
Lemma reading_bounds bs : length bs = 8%nat ->
  f_within (f_lit 9 10) (turn_of bs) /\ (turn_of (rev bs) =? - turn_of bs)%F = true.
Proof.
  intros Hl. apply turns_ok_spec.
  exact (proj1 (forallb_forall _ _) readings_ok bs (readings_all 8 bs Hl)).
Qed.
Lemma turn_of_pins pins p :
  (line_error_of (GET_Infrared_Data pins p) * KK : f32)%F = turn_of (map (Z.eqb 0) pins).
Proof.
  unfold turn_of. apply (f_equal (fun e => e * KK)%F). apply line_error_data. cbn. by rewrite TT_bits.
Qed.
Lemma turn_bounds pins p : length pins = 8%nat ->
  f_within (f_lit 9 10) (line_error_of (GET_Infrared_Data pins p) * KK : f32)%F /\
  (line_error_of (F := f32) (GET_Infrared_Data (rev pins) p) * KK =?
   - (line_error_of (GET_Infrared_Data pins p) * KK))%F = true.
Proof.
  intros Hl. rewrite !turn_of_pins, map_rev. apply reading_bounds. by rewrite length_map.
Qed.

(** ** A round, seen by the manager *)

Definition special_reading (d : list Z) : bool :=
  let b k := negb (nth k d 0 =? 0) in
  ((b 0%nat && b 1%nat) || (b 7%nat && b 6%nat)) && (b 3%nat || b 4%nat).

Lemma line_ctrl_ahead (e : f32) c : line_ctrl 0 e c = Ctrl (ctrl_type c) 0%F (f_lit 25 100) (e * KK)%F.
Proof.
  unfold line_ctrl. change (0 =? 0) with true. cbn match.
  assert (narrow SPEED = (f_lit 25 100 : f32)) as -> by by vm_compute. done.
Qed.

(** C18: In the machine's arithmetic, for each of the 256 readings and a manager in line
    mode: a special point switches it to action mode and the error of the same round
    commands nothing; any other reading publishes 0.25 m/s ahead with a turn within 0.9
    rad/s, exactly opposite for the mirrored reading, as the chassis's speed target. *)
Theorem follow_line_steers pins p (s : rbmg f32) :
  length pins = 8%nat -> move_direction p = front -> rbmg_mode s = LINE_MODE ->
  exists s', handle_events (follow_line pins p).2 s = Done s' /\
    if special_reading (map TT pins)
    then rbmg_mode s' = ACTION_MODE /\ out s' = out s /\ chassis_mai s' = chassis_mai s
    else exists z, rbmg_mode s' = LINE_MODE /\
      out s' = out s ++ [Publish (Ctrl 0 0%F (f_lit 25 100) z)] /\
      speed (c_target (rb_chassis (chassis_mai s'))) = Speed 0%F (f_lit 25 100) z /\
      run_status (rb_chassis (chassis_mai s')) = CHASSIS_SPEED /\
      f_within (f_lit 9 10) z /\
      ((line_error_of (GET_Infrared_Data (rev pins) p) * KK =? - z)%F = true).
Proof.
  intros Hl Hd Hm. destruct (turn_bounds pins p Hl) as [Hb Hr].
  unfold follow_line. set (e := line_error_of _) in *. set (z := (e * KK)%F) in *.
  assert ((Is_Spacial_point (GET_Infrared_Data pins p)).2 = bit (special_reading (map TT pins))) as Hs.
  { unfold Is_Spacial_point. cbn [GET_Infrared_Data move_direction]. rewrite Hd.
    unfold is_set, datum. cbn [infrared_data snd]. change (front =? front) with true. cbn match.
    done. }
  destruct (Is_Spacial_point _) as [q special]. cbn [snd] in *. subst special.
  destruct (special_reading _); cbn [bit].
  - change (1 =? 0) with false. cbn [app handle_events handle_event mbind outcome_bind].
    unfold rbmg_special_point_callback. rewrite Hm. change (LINE_MODE =? CAB_MODE) with false. cbn match.
    by eexists.
  - change (0 =? 0) with true. cbn [app handle_events handle_event mbind outcome_bind].
    unfold rbmg_error_callback, line_command. rewrite Hm. change (LINE_MODE =? LINE_MODE) with true.
    cbn match. cbv zeta.
    cbn [chassis_dir line_error ctrl ctrl_type set_chassis_dir set_ctrl set_line_error].
    rewrite line_ctrl_ahead. fold z. eexists. split; [reflexivity|]. exists z.
    split; [exact Hm|]. split; [reflexivity|]. split; [reflexivity|]. split; [reflexivity|]. by split.
Qed.

(** The line is under sensors 5 and 6: 0.5 off, so a turn. *)
Lemma follow_line_steers_witness :
  exists s', handle_events (follow_line [1; 1; 1; 1; 1; 0; 0; 1] (Infrared [] 0 front)).2
      (set_mode LINE_MODE (rbmg_start (Robot (Chassis (Data (Speed 0 0 0) (Pos 0 0 0))
         (Data (Speed 0 0 0) (Pos 0 0 0)) 0 (Data (Speed 0 0 0) (Pos 0 0 0))) (MaiData 0 0 0 0 0) []))%F
       : rbmg f32) = Done s' /\ rbmg_mode s' = LINE_MODE.
Proof.
  match goal with |- context [handle_events _ ?s] =>
    destruct (follow_line_steers [1; 1; 1; 1; 1; 0; 0; 1] (Infrared [] 0 front) s) as (s' & Hr & z & Hm & _);
      [reflexivity|reflexivity|reflexivity|] end.
  exists s'. split; [exact Hr|exact Hm].
Defined.
