(* ===== verification/FloatMem.v ===== *)
(** * A [float] in memory

    What the bytes of a message or of a stored value are; a value written to memory
    is the value read back from it. *)
From Stdlib Require Import SpecFloat.
From S2P Require Import Prelude CFloat.

Class FloatBytes (F : Type) := {
  float_bytes : F -> list Z;
  bytes_float : list Z -> F;
  length_float_bytes x : length (float_bytes x) = 4%nat;
  bytes_float_bytes x : bytes_float (float_bytes x) = x;
}.

(** The same for a [double]. *)
Class DoubleBytes (D : Type) := {
  double_bytes : D -> list Z;
  bytes_double : list Z -> D;
  length_double_bytes x : length (double_bytes x) = 8%nat;
  bytes_double_bytes x : bytes_double (double_bytes x) = x;
}.

(** The interchange formats: [wm] bits of fraction, [we] of exponent. *)
Definition decode_bits (wm we b : Z) : spec_float :=
  let s := Z.testbit b (wm + we) in
  let e := b / 2 ^ wm mod 2 ^ we in
  let m := b mod 2 ^ wm in
  let bias := 2 ^ (we - 1) - 1 + wm in
  if e =? 2 ^ we - 1 then (if m =? 0 then S754_infinity s else S754_nan)
  else if e =? 0 then
    match m with Zpos m => S754_finite s m (1 - bias) | _ => S754_zero s end
  else match m + 2 ^ wm with Zpos m => S754_finite s m (e - bias) | _ => S754_nan end.
Definition encode_bits (wm we : Z) (x : spec_float) : Z :=
  let sign (s : bool) := if s then 2 ^ (wm + we) else 0 in
  let bias := 2 ^ (we - 1) - 1 + wm in
  match x with
  | S754_zero s => sign s
  | S754_infinity s => sign s + (2 ^ we - 1) * 2 ^ wm
  | S754_nan => (2 ^ we - 1) * 2 ^ wm + 2 ^ (wm - 1)
  | S754_finite s m e =>
    sign s + (if Zpos m <? 2 ^ wm then Zpos m else (e + bias) * 2 ^ wm + (Zpos m - 2 ^ wm))
  end.
Definition sf_of_bits : Z -> spec_float := decode_bits 23 8.
Definition bits_of_sf : spec_float -> Z := encode_bits 23 8.

Lemma digits2_bounds p : 2 ^ (Zpos (digits2_pos p) - 1) <= Zpos p < 2 ^ Zpos (digits2_pos p).
Proof.
  induction p as [p IH|p IH|]; cbn [digits2_pos]; [| |cbn; lia];
    rewrite Pos2Z.inj_succ; replace (Z.succ _ - 1) with (Z.succ (Zpos (digits2_pos p) - 1)) by lia;
    rewrite !Z.pow_succ_r by lia; lia.
Qed.
Lemma sign_bit (s : bool) r : 0 <= r < 2 ^ 31 -> Z.testbit ((if s then 2 ^ 31 else 0) + r) 31 = s.
Proof.
  intros Hr. apply Z.b2z_inj. rewrite Z.testbit_spec' by done. destruct s; cbn [Z.b2z]; lia.
Qed.
(** Every binary32 value survives; [NaN]s are one. *)
Lemma bits_roundtrip x : valid_binary 24 128 x = true -> sf_of_bits (u32 (bits_of_sf x)) = x.
Proof.
  destruct x as [s|s| |s m e]; [by destruct s|by destruct s|done|].
  unfold bits_of_sf. cbn [valid_binary encode_bits].
  change (23 + 8) with 31. change (2 ^ (8 - 1) - 1 + 23) with 150. unfold bounded, canonical_mantissa, fexp, emin.
  intros [H1%Z.eqb_eq H2%Zle_bool_imp_le]%andb_true_iff. pose proof (digits2_bounds m) as [Hl Hu].
  set (d := Zpos (digits2_pos m)) in *. assert (d <= 24) as Hd by lia.
  pose proof (Z.pow_le_mono_r 2 d 24 ltac:(lia) Hd) as H24.
  set (r := if Zpos m <? 2 ^ 23 then Zpos m else (e + 150) * 2 ^ 23 + (Zpos m - 2 ^ 23)).
  assert (0 <= r < 2 ^ 31 /\ r / 2 ^ 23 = (if Zpos m <? 2 ^ 23 then 0 else e + 150) /\
    r mod 2 ^ 23 = (if Zpos m <? 2 ^ 23 then Zpos m else Zpos m - 2 ^ 23) /\
    (Zpos m < 2 ^ 23 -> e = -149)) as (Hr & Hq & Hm & He).
  { unfold r. destruct (Z.ltb_spec (Zpos m) (2 ^ 23)) as [Hlt|Hge].
    - split_and!; [lia|lia|lia|lia|]. intros _. assert (d - 1 < 23) by (apply (Z.pow_lt_mono_r_iff 2); lia). lia.
    - assert (e + 150 <= 254) by lia. split_and!; lia. }
  rewrite u32_id by (destruct s; cint). unfold sf_of_bits, decode_bits.
  change (23 + 8) with 31. change (2 ^ (8 - 1) - 1 + 23) with 150. change (2 ^ 8) with 256.
  rewrite (sign_bit s r Hr).
  assert (((if s then 2 ^ 31 else 0) + r) / 2 ^ 23 mod 256 = r / 2 ^ 23) as -> by (destruct s; lia).
  assert (((if s then 2 ^ 31 else 0) + r) mod 2 ^ 23 = r mod 2 ^ 23) as -> by (destruct s; lia).
  rewrite Hq, Hm. destruct (Z.ltb_spec (Zpos m) (2 ^ 23)) as [Hlt|Hge].
  - by rewrite He.
  - destruct (Z.eqb_spec (e + 150) (256 - 1)); [lia|]. destruct (Z.eqb_spec (e + 150) 0); [lia|].
    replace (Zpos m - 2 ^ 23 + 2 ^ 23) with (Zpos m) by lia. f_equal. lia.
Qed.

(** A floating-point number as its word of memory, of [n] bits; it computes as the number
    it stands for. *)
Section word.
Context {G : Type} `{FloatOps G} (n : positive) (dec : Z -> G) (enc : G -> Z).

Definition word : Type := dsig (fun z : Z => 0 <= z < 2 ^ Zpos n).
Lemma word_range z : 0 <= z mod 2 ^ Zpos n < 2 ^ Zpos n.
Proof using. apply Z.mod_pos_bound. clear. lia. Qed.
Definition word_of (z : Z) : word := dexist (z mod 2 ^ Zpos n) (word_range z).
Definition number (x : word) : G := dec (`x).
Definition word_number (x : G) : word := word_of (enc x).

#[local] Instance word_ops : FloatOps word := {
  f_of_Z z := word_number (f_of_Z z);
  f_lit n d := word_number (f_lit n d);
  f_add x y := word_number (number x + number y)%F;
  f_sub x y := word_number (number x - number y)%F;
  f_mul x y := word_number (number x * number y)%F;
  f_div x y := word_number (number x / number y)%F;
  f_opp x := word_number (- number x)%F;
  f_ltb x y := (number x <? number y)%F;
  f_leb x y := (number x <=? number y)%F;
  f_eqb x y := (number x =? number y)%F;
  f_flt_max := word_number f_flt_max;
  f_trunc x := f_trunc (number x);
}.
End word.

Definition w32 : Type := word 32.
Definition to_f32 (z : Z) : f32 := F32 (sf_of_bits z).
Definition of_f32 (x : f32) : Z := bits_of_sf (sf32 x).
#[export] Instance w32_ops : FloatOps w32 := word_ops 32 to_f32 of_f32.
Definition w64 : Type := word 64.
Definition to_f64 (z : Z) : f64 := F64 (decode_bits 52 11 z).
Definition of_f64 (x : f64) : Z := encode_bits 52 11 (sf64 x).
#[export] Instance w64_ops : FloatOps w64 := word_ops 64 to_f64 of_f64.
#[export] Instance w32_double : DoubleOf w32 := {
  dbl := w64;
  widen x := word_number 64 of_f64 (@widen f32 _ (number 32 to_f32 x));
  narrow x := word_number 32 of_f32 (@narrow f32 _ (number 64 to_f64 x));
}.

Lemma word_load_store n k (x : word n) : 256 ^ Z.of_nat k = 2 ^ Zpos n ->
  word_of n (le_word (le_bytes k (`x))) = x.
Proof.
  intros Hk. apply dsig_eq. cbn. rewrite le_word_bytes, Hk, Z.mod_mod by lia.
  apply Z.mod_small. exact (proj2_dsig x).
Qed.
#[export] Instance w32_bytes : FloatBytes w32 := {
  float_bytes x := le_bytes 4 (`x);
  bytes_float l := word_of 32 (le_word l);
  length_float_bytes x := length_le_bytes 4 _;
  bytes_float_bytes x := word_load_store 32 4 x eq_refl;
}.
#[export] Instance w64_bytes : DoubleBytes w64 := {
  double_bytes x := le_bytes 8 (`x);
  bytes_double l := word_of 64 (le_word l);
  length_double_bytes x := length_le_bytes 8 _;
  bytes_double_bytes x := word_load_store 64 8 x eq_refl;
}.
