(* ===== verification/Var.v ===== *)
(** * [apid_exfunc.c]: variables for the shell

    Modules register their variables by name, type and address in a singly linked list;
    the shell command [var] lists, shows, sets and copies them.  Memory is bytes, in the
    order of the core; a list node is an object of a heap of its own. *)
From Stdlib Require Import String.
From stdpp Require Import strings pretty.
From S2P Require Import Prelude CString CFloat FloatMem.
#[local] Open Scope Z_scope.

(** ** Memory *)

Abbreviation memory := (gmap Z Z) (only parsing).

Fixpoint load (n : nat) (a : Z) (m : memory) : outcome (list Z) :=
  match n with
  | O => Done []
  | S n =>
    match m !! a with Some b => l ← load n (a + 1) m; Done (b :: l) | None => Fault OutOfBounds end
  end.
Fixpoint store (bs : list Z) (a : Z) (m : memory) : outcome memory :=
  match bs with
  | [] => Done m
  | b :: bs => match m !! a with Some _ => store bs (a + 1) (<[a := b]> m) | None => Fault OutOfBounds end
  end.

Definition s64 (z : Z) : Z := swrap 64 z.

(** ** The registry *)

Inductive var_type_e := T_8 | T_16 | T_32 | T_64 | T_f | T_lf.
#[export] Instance var_type_eq_dec : EqDecision var_type_e.
Proof. solve_decision. Defined.

Record var_list_t := VarNode {
  v_name : string;
  v_body : Z;
  v_type : var_type_e;
  v_next : option nat;
}.
Definition set_v_next (q : option nat) (n : var_list_t) : var_list_t :=
  VarNode (v_name n) (v_body n) (v_type n) q.

(** What [var_logInfo] prints. *)
Inductive value {F D : Type} := Int (z : Z) | Flt (f : F) | Dbl (d : D).
Arguments value : clear implicits.
Inductive log {F D : Type} :=
  | NewLine
  | Listed (name : string)
  | ParamError
  | NotHere
  | SecondNotHere
  | Is (name : string) (v : value F D).
Arguments log : clear implicits.

(** The statics and what the module reaches; [malloc_ok] says how the coming calls of
    [VAR_MALLOC] end, all well when it is exhausted. *)
Record vars := Vars {
  v_nodes : gmap nat var_list_t;
  _var_begin : option nat;
  v_fresh : nat;
  malloc_ok : list bool;
  mem : memory;
}.
Definition set_v_nodes (h : gmap nat var_list_t) (s : vars) : vars :=
  Vars h (_var_begin s) (v_fresh s) (malloc_ok s) (mem s).
Definition set_var_begin (p : option nat) (s : vars) : vars :=
  Vars (v_nodes s) p (v_fresh s) (malloc_ok s) (mem s).
Definition set_mem (m : memory) (s : vars) : vars :=
  Vars (v_nodes s) (_var_begin s) (v_fresh s) (malloc_ok s) m.

(** A list has at most as many nodes as the heap. *)
Definition WALK_FUEL (s : vars) : nat := S (size (v_nodes s)).

Definition VAR_MALLOC (s : vars) : option nat * vars :=
  match malloc_ok s with
  | false :: l => (None, Vars (v_nodes s) (_var_begin s) (v_fresh s) l (mem s))
  | l => (Some (v_fresh s), Vars (v_nodes s) (_var_begin s) (S (v_fresh s)) (tail l) (mem s))
  end.

(** [while ((p2->next) != 0) p2 = p2->next;] *)
Fixpoint last_node (fuel : nat) (h : gmap nat var_list_t) (p : nat) : outcome nat :=
  match fuel with
  | O => Fault Hang
  | S fuel =>
    n ← deref h (Some p);
    match v_next n with Some q => last_node fuel h q | None => Done p end
  end.

(** The name is copied to memory of its own; a node that is given up leaks. *)
Definition var_register (var : option Z) (name : option string) (type : var_type_e) (s : vars) : outcome vars :=
  let '(p, s) := VAR_MALLOC s in
  match p, var, name with
  | Some p, Some body, Some name =>
    let '(pname, s) := VAR_MALLOC s in
    match pname with
    | None => Fault NullDeref
    | Some _ =>
      let s := set_v_nodes (<[p := VarNode name body type None]> (v_nodes s)) s in
      match _var_begin s with
      | None => Done (set_var_begin (Some p) s)
      | Some b =>
        p2 ← last_node (WALK_FUEL s) (v_nodes s) b;
        n ← deref (v_nodes s) (Some p2);
        Done (set_v_nodes (<[p2 := set_v_next (Some p) n]> (v_nodes s)) s)
      end
    end
  | _, _, _ => Done s
  end.

Definition sizeof (t : var_type_e) : nat :=
  match t with T_8 => 1 | T_16 => 2 | T_32 => 4 | T_64 => 8 | T_f => 4 | T_lf => 8 end.

(** [sprintf(name1, "%s[%d]", name, i)] into twenty bytes. *)
Definition arr_name (name : string) (i : Z) : outcome string :=
  let s := (name ++ "[" ++ pretty i ++ "]")%string in
  if decide (String.length s < 20)%nat then Done s else Fault OutOfBounds.
Fixpoint arr_loop (var : Z) (name : string) (type : var_type_e) (i : Z) (n : nat) (s : vars) : outcome vars :=
  match n with
  | O => Done s
  | S n =>
    name1 ← arr_name name i;
    s ← var_register (Some (var + i * Z.of_nat (sizeof type))) (Some name1) type s;
    arr_loop var name type (i + 1) n s
  end.
Definition var_arr_register (var : Z) (name : string) (type : var_type_e) (size : Z) (s : vars) : outcome vars :=
  arr_loop var name type 0 (Z.to_nat size) s.

(** ** The command *)

Section command.
Context {F : Type} `{FloatOps F} `{DoubleOf F} `{FloatBytes F} `{DoubleBytes dbl}.
Context (atof : string -> dbl).

(** Reading and writing through [body], as a pointer to the type. *)
Definition value_of_bytes (t : var_type_e) (l : list Z) : value F dbl :=
  match t with
  | T_8 => Int (u8 (le_word l))
  | T_16 => Int (s16 (le_word l))
  | T_32 => Int (s32 (le_word l))
  | T_64 => Int (s64 (le_word l))
  | T_f => Flt (bytes_float l)
  | T_lf => Dbl (bytes_double l)
  end.
Definition bytes_of_value (t : var_type_e) (v : value F dbl) : list Z :=
  match v with
  | Int z => le_bytes (sizeof t) z
  | Flt f => float_bytes f
  | Dbl d => double_bytes d
  end.
Definition read_var (t : var_type_e) (a : Z) (m : memory) : outcome (value F dbl) :=
  value_of_bytes t <$> load (sizeof t) a m.
Definition write_var (t : var_type_e) (a : Z) (v : value F dbl) (m : memory) : outcome memory :=
  store (bytes_of_value t v) a m.

(** The text of the command line as a value of the type; [char] has no sign. *)
Definition convert (t : var_type_e) (text : string) : outcome (value F dbl) :=
  match t with
  | T_8 => z ← atoi text; Done (Int (u8 z))
  | T_16 => z ← atoi text; Done (Int (s16 z))
  | T_32 | T_64 => z ← atoi text; Done (Int z)
  | T_f => Done (Flt (narrow (atof text)))
  | T_lf => Done (Dbl (atof text))
  end.
(** What is printed of it: of the 64 bits, the low [int32_t]. *)
Definition shown (v : value F dbl) : value F dbl := match v with Int z => Int (s32 z) | v => v end.

(** [while (0 != strcmp(name, p->name)) ...] *)
Fixpoint search (fuel : nat) (h : gmap nat var_list_t) (name : string) (p : option nat)
    : outcome (option var_list_t) :=
  match fuel with
  | O => Fault Hang
  | S fuel =>
    n ← deref h p;
    if decide (name = v_name n) then Done (Some n)
    else match v_next n with Some q => search fuel h name (Some q) | None => Done None end
  end.
(** [while (_var) ...] *)
Fixpoint list_names (fuel : nat) (h : gmap nat var_list_t) (p : option nat) : outcome (list (log F dbl)) :=
  match fuel with
  | O => Fault Hang
  | S fuel =>
    match p with
    | None => Done []
    | Some p =>
      n ← deref h (Some p); l ← list_names fuel h (v_next n); Done (Listed (v_name n) :: l)
    end
  end.

(** The [switch]: set from [argv[2]], copy from [second], or neither; then print. *)
Definition var_switch (n : var_list_t) (argv : list string) (second : option var_list_t) (m : memory)
    : outcome (memory * list (log F dbl)) :=
  let t := v_type n in
  m ← match argv, second with
      | [_; _; text], None => v ← convert t text; write_var t (v_body n) v m
      | _, Some n2 => v ← read_var t (v_body n2) m; write_var t (v_body n) v m
      | _, None => Done m
      end;
  v ← read_var t (v_body n) m;
  Done (m, [Is (v_name n) (shown v)]).

Definition var (argv : list string) (s : vars) : outcome (vars * list (log F dbl)) :=
  match argv with
  | [] => Fault OutOfBounds
  | [_] => l ← list_names (WALK_FUEL s) (v_nodes s) (_var_begin s); Done (s, NewLine :: l)
  | _ :: name :: args =>
    if decide (2 < length args)%nat then Done (s, [ParamError])
    else if decide (name = "all"%string) then
      l ← list_names (WALK_FUEL s) (v_nodes s) (_var_begin s); Done (s, l)
    else
      r ← search (WALK_FUEL s) (v_nodes s) name (_var_begin s);
      match r with
      | None => Done (s, [NotHere])
      | Some n =>
        match args with
        | ["="%string; other] =>
          r2 ← search (WALK_FUEL s) (v_nodes s) other (_var_begin s);
          match r2 with
          | None => Done (s, [SecondNotHere])
          | Some n2 => r ← var_switch n argv (Some n2) (mem s); Done (set_mem r.1 s, r.2)
          end
        | _ => r ← var_switch n argv None (mem s); Done (set_mem r.1 s, r.2)
        end
      end
  end.
End command.

(** ** The list of nodes is the list of registrations *)

Record entry := Entry { e_name : string; e_type : var_type_e; e_body : Z }.
Definition node (e : entry) (q : option nat) : var_list_t := VarNode (e_name e) (e_body e) (e_type e) q.

(** The nodes from [p] up to [q]. *)
Fixpoint seg (h : gmap nat var_list_t) (p : option nat) (l : list (nat * entry)) (q : option nat) : Prop :=
  match l with
  | [] => p = q
  | (a, e) :: l => p = Some a /\ exists r, h !! a = Some (node e r) /\ seg h r l q
  end.

Lemma seg_app h p l1 l2 q : seg h p (l1 ++ l2) q <-> exists r, seg h p l1 r /\ seg h r l2 q.
Proof.
  revert p. induction l1 as [|[a e] l1 IH]; intros p; cbn [app seg]; [naive_solver|].
  setoid_rewrite IH. naive_solver.
Qed.
Lemma seg_frame h h' p l q : (forall a, a ∈ l.*1 -> h' !! a = h !! a) -> seg h p l q -> seg h' p l q.
Proof.
  revert p. induction l as [|[a e] l IH]; intros p Hf; cbn [seg fmap list_fmap fst] in *; [done|].
  intros (-> & r & Hr & Hs). split; [done|]. exists r. rewrite Hf by set_solver. split; [done|].
  apply IH; [|done]. set_solver.
Qed.
Lemma seg_dom h p l q a : seg h p l q -> a ∈ l.*1 -> a ∈ dom h.
Proof.
  revert p. induction l as [|[b e] l IH]; intros p; cbn [seg]; [set_solver|].
  intros (_ & r & Hr & Hs) [->|Ha]%elem_of_cons; [by apply elem_of_dom_2 in Hr|by eapply IH].
Qed.

(** The registry holds [es], in this order. *)
Record registry (es : list entry) (s : vars) : Prop := Registry {
  rg_nodes : exists l, l.*2 = es /\ NoDup l.*1 /\ seg (v_nodes s) (_var_begin s) l None;
  rg_fresh : forall a, a ∈ dom (v_nodes s) -> (a < v_fresh s)%nat;
}.

Lemma seg_fuel s l q : NoDup l.*1 -> seg (v_nodes s) (_var_begin s) l q -> (length l < WALK_FUEL s)%nat.
Proof.
  intros Hnd Hs. unfold WALK_FUEL. rewrite <- (length_fmap fst l), <- (size_list_to_set (C := gset nat) _ Hnd), <- (size_dom (D := gset nat)).
  apply Nat.lt_succ_r, subseteq_size. intros a Ha%elem_of_list_to_set. by eapply seg_dom.
Qed.

Lemma last_node_seg h p l a e fuel : seg h (Some p) (l ++ [(a, e)]) None -> (length l < fuel)%nat ->
  last_node fuel h p = Done a.
Proof.
  revert p fuel. induction l as [|[b e'] l IH]; intros p [|fuel] Hs Hf; cbn [length] in Hf; try lia.
  - destruct Hs as ([= ->] & r & Hr & ->). cbn [last_node]. by rewrite (deref_ok _ _ _ Hr).
  - cbn [app seg] in Hs. destruct Hs as ([= ->] & r & Hr & Hs). cbn [last_node]. rewrite (deref_ok _ _ _ Hr).
    cbn [mbind outcome_bind v_next node].
    assert (exists q, r = Some q) as [q ->] by (destruct l as [|[? ?] ?]; destruct Hs as [-> _]; by eexists).
    apply IH; [done|lia].
Qed.

Lemma VAR_MALLOC_ok s : malloc_ok s = [] ->
  VAR_MALLOC s = (Some (v_fresh s), Vars (v_nodes s) (_var_begin s) (S (v_fresh s)) [] (mem s)).
Proof. unfold VAR_MALLOC. by intros ->. Qed.

(** Registering appends. *)
Lemma var_register_appends es s e : registry es s -> malloc_ok s = [] -> exists s',
  var_register (Some (e_body e)) (Some (e_name e)) (e_type e) s = Done s' /\
  registry (es ++ [e]) s' /\ malloc_ok s' = [] /\ mem s' = mem s.
Proof.
  intros [(l & Hl & Hnd & Hseg) Hfr] Hm. unfold var_register.
  rewrite (VAR_MALLOC_ok s Hm). rewrite VAR_MALLOC_ok by done. cbn [v_nodes _var_begin v_fresh malloc_ok mem set_v_nodes].
  set (p := v_fresh s). set (h := <[p := VarNode _ _ _ None]> (v_nodes s)).
  assert (p ∉ dom (v_nodes s)) as Hp by (intros Hd%Hfr; unfold p in Hd; lia).
  assert (p ∉ l.*1) as Hpl by (intros Hin; by eapply Hp, seg_dom).
  assert (forall a, a ∈ l.*1 -> h !! a = v_nodes s !! a) as Hfa
    by (intros a Ha; apply lookup_insert_ne; set_solver).
  pose proof (seg_frame _ h _ _ _ Hfa Hseg) as Hseg'.
  destruct l as [|x l _] using rev_ind.
  - cbn in Hseg. rewrite Hseg. eexists. split; [done|]. split; [|done]. subst es. split.
    + exists [(p, e)]. split; [done|]. split; [apply NoDup_singleton|]. split; [done|]. exists None.
      split; [apply lookup_insert_eq|done].
    + cbn. intros a. unfold h. rewrite dom_insert. intros [->%elem_of_singleton|Ha%Hfr]%elem_of_union; [unfold p|]; lia.
  - destruct x as [a e']. assert (exists b, _var_begin s = Some b) as [b Hb]
      by (destruct l as [|[? ?] ?]; destruct Hseg as [-> _]; by eexists).
    rewrite Hb in *. unfold set_v_nodes. cbn [_var_begin v_nodes].
    set (s1 := Vars h (Some b) _ _ _).
    assert (length l < WALK_FUEL s1)%nat as Hfuel.
    { pose proof (seg_fuel s1 (l ++ [(a, e')]) None Hnd Hseg') as Hlen. rewrite length_app in Hlen. lia. }
    rewrite (last_node_seg h b l a e') by done. cbn [mbind outcome_bind].
    apply seg_app in Hseg' as (r & Hs1 & -> & r' & Ha & ->).
    rewrite (deref_ok _ _ _ Ha). cbn [mbind outcome_bind]. eexists. split; [done|]. split; [|done].
    rewrite fmap_app in Hnd, Hpl. cbn in Hnd, Hpl. apply NoDup_app in Hnd as (Hnd1 & Hnd2 & Hnd3). split.
    + exists ((l ++ [(a, e')]) ++ [(p, e)]). split; [|split].
      * by rewrite fmap_app, Hl.
      * rewrite !fmap_app. cbn. apply NoDup_app. split; [apply NoDup_app; split_and!; set_solver|].
        split; [set_solver|apply NoDup_singleton].
      * cbn [v_nodes _var_begin]. assert (a <> p) by set_solver. apply seg_app. exists (Some p). split.
        -- apply seg_app. exists (Some a). split; [|split; [done|]].
           ++ apply (seg_frame h); [|done]. intros x Hx. apply lookup_insert_ne. set_solver.
           ++ exists (Some p). by rewrite lookup_insert_eq.
        -- split; [done|]. exists None. split; [|done]. rewrite lookup_insert_ne by done. apply lookup_insert_eq.
    + cbn. intros x. unfold h. rewrite !dom_insert. apply elem_of_dom_2 in Ha. unfold h in Ha. rewrite dom_insert in Ha.
      intros Hx. assert (x = p \/ x ∈ dom (v_nodes s)) as [->|Hd%Hfr] by set_solver; unfold p; lia.
Qed.

(** Registrations one after the other. *)
Fixpoint register_all (es : list entry) (s : vars) : outcome vars :=
  match es with
  | [] => Done s
  | e :: es => s ← var_register (Some (e_body e)) (Some (e_name e)) (e_type e) s; register_all es s
  end.
Lemma register_all_ok es0 es s : registry es0 s -> malloc_ok s = [] -> exists s',
  register_all es s = Done s' /\ registry (es0 ++ es) s' /\ malloc_ok s' = [] /\ mem s' = mem s.
Proof.
  revert es0 s. induction es as [|e es IH]; intros es0 s Hr Hm; cbn [register_all].
  - exists s. by rewrite app_nil_r.
  - destruct (var_register_appends es0 s e Hr Hm) as (s1 & -> & Hr1 & Hm1 & He1). cbn [mbind outcome_bind].
    destruct (IH _ _ Hr1 Hm1) as (s2 & -> & Hr2 & Hm2 & He2). exists s2.
    rewrite <- app_assoc in Hr2. by rewrite He2, He1.
Qed.

(** An array's elements are registered one by one. *)
Lemma arr_loop_registers body x t i n s ns :
  Forall2 (fun j y => arr_name x j = Done y) (seqZ i (Z.of_nat n)) ns ->
  arr_loop body x t i n s =
  register_all (zip_with (fun j y => Entry y t (body + j * Z.of_nat (sizeof t))) (seqZ i (Z.of_nat n)) ns) s.
Proof.
  revert i s ns. induction n as [|n IH]; intros i s ns Hns; [done|].
  rewrite seqZ_cons in * by lia. apply Forall2_cons_inv_l in Hns as (y & ns' & Hy & Hns' & ->).
  cbn [arr_loop zip_with register_all]. rewrite Hy. cbn [mbind outcome_bind e_body e_name e_type].
  replace (Z.pred (Z.of_nat (S n))) with (Z.of_nat n) in * by lia.
  destruct (var_register _ _ t s) as [s1|]; [|done]. cbn [mbind outcome_bind].
  exact (IH (Z.succ i) s1 ns' Hns').
Qed.
Lemma string_length_app (x y : string) : String.length (x ++ y) = (String.length x + String.length y)%nat.
Proof. induction x as [|c x IH]; [done|]. exact (f_equal S IH). Qed.
(** Of a name of eighteen letters no element can be registered. *)
Lemma arr_name_overflow (x : string) i : (18 <= String.length x)%nat -> arr_name x i = Fault OutOfBounds.
Proof.
  intros Hx. unfold arr_name. rewrite decide_False; [done|].
  rewrite !string_length_app. cbn [String.length]. lia.
Qed.

(** ** Bytes and values *)

Definition mapped (a : Z) (n : nat) (m : memory) : Prop := forall i, a <= i < a + Z.of_nat n -> is_Some (m !! i).
Definition outside (a : Z) (n : nat) (i : Z) : Prop := ~ (a <= i < a + Z.of_nat n).

Lemma load_ok n a m : mapped a n m -> exists l, load n a m = Done l.
Proof.
  revert a. induction n as [|n IH]; intros a Hm; cbn [load]; [by eexists|].
  destruct (Hm a) as [b ->]; [lia|]. destruct (IH (a + 1)) as [l ->]; [|by eexists].
  intros i Hi. apply Hm. lia.
Qed.
Lemma load_spec n a m l : load n a m = Done l <->
  length l = n /\ forall k b, l !! k = Some b -> m !! (a + Z.of_nat k) = Some b.
Proof.
  revert a l. induction n as [|n IH]; intros a l; cbn [load].
  - split; [by intros [= <-]|]. intros [Hl _]. by destruct l.
  - split.
    + destruct (m !! a) as [b|] eqn:Hb; [|done]. intros (l' & Hl & [= <-])%outcome_bind_Done. apply IH in Hl as [<- Hl].
      split; [done|]. intros [|k] x; cbn [lookup list_lookup].
      * intros [= <-]. by rewrite Z.add_0_r.
      * intros Hx. rewrite <- (Hl k x Hx). f_equal. lia.
    + intros [Hn Hl]. destruct l as [|b l]; [done|]. injection Hn as Hn.
      pose proof (Hl O b eq_refl) as Hb. rewrite Z.add_0_r in Hb. rewrite Hb.
      rewrite (proj2 (IH (a + 1) l)); [done|]. split; [done|]. intros k x Hx. rewrite <- (Hl (S k) x Hx). f_equal. lia.
Qed.
Lemma store_ok bs a m : mapped a (length bs) m -> exists m', store bs a m = Done m' /\
  load (length bs) a m' = Done bs /\ forall i, outside a (length bs) i -> m' !! i = m !! i.
Proof.
  unfold outside. revert a m. induction bs as [|b bs IH]; intros a m Hm; cbn [store length load] in *; [by exists m|].
  destruct (Hm a) as [x ->]; [lia|].
  destruct (IH (a + 1) (<[a := b]> m)) as (m' & -> & Hl & Ho).
  { intros i Hi. rewrite lookup_insert_ne by lia. apply Hm. lia. }
  exists m'. split; [done|]. split.
  - rewrite Ho by lia. rewrite lookup_insert_eq. by rewrite Hl.
  - intros i Hi. rewrite Ho by lia. apply lookup_insert_ne. lia.
Qed.

Section values.
Context {F : Type} `{FloatOps F} `{DoubleOf F} `{FloatBytes F} `{DoubleBytes dbl}.
Implicit Types (v : value F dbl) (t : var_type_e).

(** The values of a type. *)
Definition of_type t v : Prop :=
  match t, v with
  | T_8, Int z => is_u8 z
  | T_16, Int z => is_s16 z
  | T_32, Int z => is_s32 z
  | T_64, Int z => - 2 ^ 63 <= z < 2 ^ 63
  | T_f, Flt _ | T_lf, Dbl _ => True
  | _, _ => False
  end.
Lemma s64_range z : - 2 ^ 63 <= s64 z < 2 ^ 63.
Proof. unfold s64, swrap. change (2 ^ (64 - 1)) with 9223372036854775808. change (2 ^ 63) with 9223372036854775808. change (2 ^ 64) with 18446744073709551616. lia. Qed.
Lemma of_type_bytes t v : of_type t v ->
  length (bytes_of_value t v) = sizeof t /\ value_of_bytes t (bytes_of_value t v) = v.
Proof.
  destruct t, v; cbn [of_type]; try done; intros Hz; cbn [bytes_of_value value_of_bytes sizeof];
    rewrite ?length_le_bytes, ?le_word_bytes, ?length_float_bytes, ?length_double_bytes, ?bytes_float_bytes, ?bytes_double_bytes;
    (split; [done|]); try done; f_equal.
  - change (256 ^ Z.of_nat 1) with 256. cint.
  - change (256 ^ Z.of_nat 2) with 65536. cint.
  - change (256 ^ Z.of_nat 4) with 4294967296. cint.
  - change (256 ^ Z.of_nat 8) with 18446744073709551616. unfold s64, swrap.
    change (2 ^ (64 - 1)) with 9223372036854775808. change (2 ^ 64) with 18446744073709551616.
    change (2 ^ 63) with 9223372036854775808 in *. lia.
Qed.
(** The bytes of a variable in memory are those of a value of its type. *)
Definition width (t : var_type_e) : nat :=
  match t with T_8 => 1 | T_16 => 2 | T_32 | T_f => 4 | T_64 | T_lf => 8 end.
Definition holds (m : gmap Z Z) (e : entry) (v : value F dbl) : Prop :=
  of_type (e_type e) v /\ exists l, length l = width (e_type e) /\
    (forall k b, l !! k = Some b -> m !! (e_body e + Z.of_nat k) = Some b) /\
    match v with
    | Int z => Forall is_u8 l /\ le_word l = z mod 256 ^ Z.of_nat (width (e_type e))
    | Flt f => l = float_bytes f
    | Dbl d => l = double_bytes d
    end.
Lemma le_bytes_u8 n z : Forall is_u8 (le_bytes n z).
Proof. revert z. induction n as [|n IH]; intros z; constructor; [cint|apply IH]. Qed.
Lemma sizeof_width t : sizeof t = width t.
Proof. by destruct t. Qed.
Lemma int_value t z l : of_type t (Int z) -> le_word l = z mod 256 ^ Z.of_nat (width t) ->
  value_of_bytes t l = Int z.
Proof.
  intros Hz Hl. destruct (of_type_bytes t (Int z) Hz) as [_ Hv]. rewrite <- Hv.
  destruct t; try done; cbn [value_of_bytes bytes_of_value sizeof]; by rewrite le_word_bytes, Hl.
Qed.
Lemma holds_read m e v : holds m e v -> read_var (e_type e) (e_body e) m = Done v.
Proof.
  intros (Ht & l & Hlen & Hl & Hv). unfold read_var. rewrite sizeof_width.
  rewrite (proj2 (load_spec _ _ _ l)) by done. cbn. f_equal.
  destruct v; [by apply int_value, Hv|subst l..]; destruct (e_type e) eqn:E; try done; cbn [value_of_bytes];
    by rewrite ?bytes_float_bytes, ?bytes_double_bytes.
Qed.
(** A typed write leaves the value there, and touches nothing else. *)
Lemma write_holds e v m : of_type (e_type e) v -> mapped (e_body e) (width (e_type e)) m ->
  exists m', write_var (e_type e) (e_body e) v m = Done m' /\
  holds m' e v /\ forall i, outside (e_body e) (width (e_type e)) i -> m' !! i = m !! i.
Proof.
  intros Ht Hm. destruct (of_type_bytes _ _ Ht) as [Hl _]. rewrite <- sizeof_width in *. rewrite <- Hl in Hm.
  destruct (store_ok _ _ _ Hm) as (m' & Hs & Hld & Ho).
  exists m'. split; [done|]. rewrite Hl in Hld, Ho. split; [|done]. split; [done|].
  rewrite <- sizeof_width. exists (bytes_of_value (e_type e) v). apply load_spec in Hld as [_ Hld].
  split; [done|]. split; [done|]. destruct v; cbn [bytes_of_value]; [|done..].
  split; [apply le_bytes_u8|by rewrite le_word_bytes].
Qed.

(** The value a text stands for in a type: for the integers what [atoi] makes of it,
    modulo the width of a narrower type. *)
Inductive meant (atof : string -> dbl) (text : string) : var_type_e -> value F dbl -> Prop :=
  | meant_8 z x : atoi text = Done z -> 0 <= x < 256 -> x mod 256 = z mod 256 -> meant atof text T_8 (Int x)
  | meant_16 z x : atoi text = Done z -> -32768 <= x < 32768 -> x mod 65536 = z mod 65536 ->
    meant atof text T_16 (Int x)
  | meant_32 z : atoi text = Done z -> meant atof text T_32 (Int z)
  | meant_64 z : atoi text = Done z -> meant atof text T_64 (Int z)
  | meant_f : meant atof text T_f (Flt (narrow (atof text)))
  | meant_lf : meant atof text T_lf (Dbl (atof text)).
Lemma meant_convert atof text t v : meant atof text t v -> convert atof t text = Done v.
Proof. destruct 1 as [z x Hz| z x Hz|z Hz|z Hz| |]; cbn [convert]; rewrite ?Hz; cbn [mbind outcome_bind]; do 2 f_equal; cint. Qed.
Lemma meant_typed atof text t v : meant atof text t v -> of_type t v.
Proof. destruct 1 as [z x Hz| z x Hz|z Hz|z Hz| |]; cbn [of_type]; try done; try apply atoi_range in Hz; cint. Qed.

(** What is printed of a value: its low 32 bits, signed, if it is an integer. *)
Definition prints (v w : value F dbl) : Prop :=
  match v with
  | Int z => exists x, w = Int x /\ - 2 ^ 31 <= x < 2 ^ 31 /\ x mod 2 ^ 32 = z mod 2 ^ 32
  | v => w = v
  end.
Lemma prints_shown v : prints v (shown v).
Proof. destruct v; [|done..]. cbn. eexists. split; [done|]. cint. Qed.
End values.

(** ** The command on a registry *)

(** The first registration of a name. *)
Fixpoint find_var (es : list entry) (name : string) : option entry :=
  match es with
  | [] => None
  | e :: es => if decide (name = e_name e) then Some e else find_var es name
  end.

Section shell.
Context {F : Type} `{FloatOps F} `{DoubleOf F} `{FloatBytes F} `{DoubleBytes dbl}.
Context (atof : string -> dbl).

Lemma search_seg h name l p fuel : seg h p l None -> l <> [] -> (length l <= fuel)%nat ->
  match find_var l.*2 name with
  | Some e => exists q, search fuel h name p = Done (Some (node e q))
  | None => search fuel h name p = Done None
  end.
Proof.
  revert p fuel. induction l as [|[a e] l IH]; intros p [|fuel] Hs Hne Hf; cbn [length] in Hf; try (done || lia).
  destruct Hs as (-> & r & Hr & Hs). cbn [search fmap list_fmap find_var snd]. rewrite (deref_ok _ _ _ Hr).
  cbn [mbind outcome_bind v_name v_next node]. case_decide; [by exists r|].
  destruct l as [|x l]; [by cbn in Hs; subst r|].
  assert (exists q, r = Some q) as [q ->] by (destruct x; destruct Hs as [-> _]; by eexists).
  apply IH; [done|done|lia].
Qed.
Lemma search_ok es s name : registry es s -> es <> [] ->
  match find_var es name with
  | Some e => exists q, search (WALK_FUEL s) (v_nodes s) name (_var_begin s) = Done (Some (node e q))
  | None => search (WALK_FUEL s) (v_nodes s) name (_var_begin s) = Done None
  end.
Proof.
  intros [(l & <- & Hnd & Hs) _] Hne. pose proof (seg_fuel s l None Hnd Hs).
  apply search_seg; [done| |lia]. intros ->. done.
Qed.
Lemma list_names_seg h l p fuel : seg h p l None -> (length l < fuel)%nat ->
  list_names fuel h p = Done (Listed (F := F) (D := dbl) <$> (e_name <$> l.*2)).
Proof.
  revert p fuel. induction l as [|[a e] l IH]; intros p [|fuel] Hs Hf; cbn [length] in Hf; try lia.
  - cbn in Hs. by subst p.
  - destruct Hs as (-> & r & Hr & Hs). cbn [list_names]. rewrite (deref_ok _ _ _ Hr). cbn [mbind outcome_bind v_next node].
    by rewrite (IH r) by (done || lia).
Qed.
Lemma list_names_ok es s : registry es s ->
  list_names (WALK_FUEL s) (v_nodes s) (_var_begin s) = Done (Listed (F := F) (D := dbl) <$> (e_name <$> es)).
Proof. intros [(l & <- & Hnd & Hs) _]. apply list_names_seg; [done|]. by eapply seg_fuel. Qed.

Lemma registry_set_mem es s m : registry es s -> registry es (set_mem m s).
Proof. by intros [? ?]; split. Qed.
Lemma find_var_nonempty es name e : find_var es name = Some e -> es <> [].
Proof. by destruct es. Qed.

(** Every command line, on a registry of [es]. *)
Lemma var_lists es s c : registry es s -> let l := Listed <$> (e_name <$> es) in
  var atof [c] s = Done (s, NewLine :: l) /\ var atof [c; "all"%string] s = Done (s, l).
Proof. intros Hr. cbn [var length]. rewrite (list_names_ok es s Hr). done. Qed.
Lemma var_unknown es s c name args : registry es s -> es <> [] -> name <> "all"%string -> (length args <= 2)%nat ->
  find_var es name = None -> var atof (c :: name :: args) s = Done (s, [NotHere]).
Proof.
  intros Hr Hne Hall Hl Hn. cbn [var]. rewrite decide_False by lia. rewrite decide_False by done.
  pose proof (search_ok es s name Hr Hne) as Hs. rewrite Hn in Hs. by rewrite Hs.
Qed.
Lemma var_found es s c name args e : registry es s -> name <> "all"%string -> find_var es name = Some e ->
  (length args <= 1)%nat -> exists q, var atof (c :: name :: args) s =
    (r ← var_switch atof (node e q) (c :: name :: args) None (mem s); Done (set_mem r.1 s, r.2)).
Proof.
  intros Hr Hall Hn Hl. cbn [var]. rewrite decide_False by lia. rewrite decide_False by done.
  pose proof (search_ok es s name Hr (find_var_nonempty _ _ _ Hn)) as Hs. rewrite Hn in Hs. destruct Hs as [q ->].
  exists q. cbn [mbind outcome_bind]. destruct args as [|? [|? ?]]; [done| |cbn in Hl; lia].
  by destruct s0 as [|[[] [] [] [] [] [] [] []] [|]].
Qed.
Lemma find_var_name es name e : find_var es name = Some e -> e_name e = name.
Proof. induction es as [|x es IH]; cbn [find_var]; [done|]. case_decide; [by intros [= <-]|done]. Qed.

Lemma var_shows es s c name e v : registry es s -> name <> "all"%string -> find_var es name = Some e ->
  read_var (e_type e) (e_body e) (mem s) = Done v ->
  var atof [c; name] s = Done (s, [Is name (shown v)]).
Proof.
  intros Hr Hall Hn Hv. destruct (var_found es s c name [] e) as [q ->]; [done..|cbn; lia|].
  unfold var_switch. cbn [v_type v_body v_name node mbind outcome_bind]. rewrite Hv. cbn [mbind outcome_bind fst snd].
  rewrite (find_var_name _ _ _ Hn). by destruct s.
Qed.
Lemma var_sets es s c name text e v : registry es s -> name <> "all"%string -> find_var es name = Some e ->
  mapped (e_body e) (width (e_type e)) (mem s) -> meant atof text (e_type e) v ->
  exists m', var atof [c; name; text] s = Done (set_mem m' s, [Is name (shown v)]) /\ holds m' e v /\
    forall i, outside (e_body e) (width (e_type e)) i -> m' !! i = mem s !! i.
Proof.
  intros Hr Hall Hn Hm Hv. destruct (var_found es s c name [text] e) as [q ->]; [done..|cbn; lia|].
  destruct (write_holds e v (mem s)) as (m' & Hw & Hh & Ho); [by eapply meant_typed|done|].
  exists m'. split; [|done]. unfold var_switch. cbn [v_type v_body v_name node]. rewrite (meant_convert _ _ _ _ Hv).
  cbn [mbind outcome_bind]. rewrite Hw. cbn [mbind outcome_bind]. rewrite (holds_read _ _ _ Hh).
  cbn [mbind outcome_bind fst snd]. by rewrite (find_var_name _ _ _ Hn).
Qed.
(** Copied by the type of the destination. *)
Lemma var_copies es s c name other e e2 v : registry es s -> name <> "all"%string ->
  find_var es name = Some e -> find_var es other = Some e2 -> e_type e2 = e_type e ->
  mapped (e_body e) (width (e_type e)) (mem s) -> holds (mem s) e2 v ->
  exists m', var atof [c; name; "="%string; other] s = Done (set_mem m' s, [Is name (shown v)]) /\ holds m' e v /\
    forall i, outside (e_body e) (width (e_type e)) i -> m' !! i = mem s !! i.
Proof.
  intros Hr Hall Hn Hn2 Ht Hm Hh2. cbn [var length]. rewrite decide_False by lia. rewrite decide_False by done.
  pose proof (find_var_nonempty _ _ _ Hn) as Hne.
  pose proof (search_ok es s name Hr Hne) as Hs. rewrite Hn in Hs. destruct Hs as [q ->].
  pose proof (search_ok es s other Hr Hne) as Hs. rewrite Hn2 in Hs. destruct Hs as [q2 ->].
  cbn [mbind outcome_bind]. pose proof (holds_read _ _ _ Hh2) as Hv. rewrite Ht in Hv.
  destruct (write_holds e v (mem s)) as (m' & Hw & Hh & Ho); [rewrite <- Ht; by apply Hh2|done|].
  exists m'. split; [|done]. unfold var_switch. cbn [v_type v_body v_name node]. rewrite Hv. cbn [mbind outcome_bind].
  rewrite Hw. cbn [mbind outcome_bind]. rewrite (holds_read _ _ _ Hh). cbn [mbind outcome_bind fst snd].
  by rewrite (find_var_name _ _ _ Hn).
Qed.
(** Without a registration, any name but [all] is looked up through [NULL]. *)
Lemma var_empty s c name : registry [] s -> name <> "all"%string -> var atof [c; name] s = Fault NullDeref.
Proof.
  intros [(l & Hl & _ & Hs) _] Hall. apply fmap_nil_inv in Hl. subst l. cbn in Hs.
  cbn [var length]. rewrite decide_False by lia. rewrite decide_False by done. unfold WALK_FUEL. cbn [search]. by rewrite Hs.
Qed.
End shell.

(** The statics at start. *)
Definition no_vars (m : gmap Z Z) : vars := Vars ∅ None 0 [] m.
Lemma no_vars_registry m : registry [] (no_vars m).
Proof. split; [exists []; split_and!; [done|constructor|done]|]. intros a. cbn. rewrite dom_empty. set_solver. Qed.

(** C36: After at least one registration, with memory enough for all of them, the
    shell's command finds the first registration of a name other than all: setting a
    variable from text leaves in its bytes what atoi makes of the text, cut to the width
    of a char or a short, or what atof makes of it for the two floating types; assigning
    a variable of the same type leaves that variable's value in them; both show the
    value, of an integer its low 32 bits, and showing it later shows the same; no byte
    outside the variable changes. Other names than all that no registration has are
    reported and change nothing, and the list of names is in the order of registration.
    Texts whose atoi overflows are not covered. *)
Theorem var_sets_shows_copies {F} `{FloatOps F} `{DoubleOf F} `{FloatBytes F} `{DoubleBytes dbl} atof es m c name e :
  name <> "all"%string -> find_var es name = Some e -> mapped (e_body e) (width (e_type e)) m ->
  exists s, register_all es (no_vars m) = Done s /\ mem s = m /\
    var atof [c] s = Done (s, NewLine :: (Listed <$> (e_name <$> es))) /\
    (forall other args, find_var es other = None -> other <> "all"%string -> (length args <= 2)%nat ->
       var atof (c :: other :: args) s = Done (s, [NotHere])) /\
    let stores args v := exists m' w, prints v w /\ holds m' e v /\
      var atof (c :: name :: args) s = Done (set_mem m' s, [Is name w]) /\
      (forall i, outside (e_body e) (width (e_type e)) i -> m' !! i = m !! i) /\
      var atof [c; name] (set_mem m' s) = Done (set_mem m' s, [Is name w]) in
    (forall text v, meant atof text (e_type e) v -> stores [text] v) /\
    (forall other e2 v, find_var es other = Some e2 -> e_type e2 = e_type e -> holds m e2 v ->
       stores ["="%string; other] v).
Proof.
  intros Hall Hn Hm. destruct (register_all_ok [] es (no_vars m) (no_vars_registry m) eq_refl) as (s & He & Hr & _ & Hms).
  cbn [app] in Hr. cbn [mem no_vars] in Hms. exists s. split; [done|]. split; [done|]. subst m.
  split; [by apply (var_lists atof es s c Hr)|]. split.
  { intros other args Ho Ha Hl. apply (var_unknown atof es); [done| |done..]. by eapply find_var_nonempty. }
  intros stores. assert (forall args v, (exists m', var atof (c :: name :: args) s = Done (set_mem m' s, [Is name (shown v)]) /\
    holds m' e v /\ forall i, outside (e_body e) (width (e_type e)) i -> m' !! i = mem s !! i) -> stores args v) as Hst.
  { intros args v (m' & Hv & Hh & Ho). exists m', (shown v). split; [apply prints_shown|]. do 3 (split; [done|]).
    apply (var_shows atof es (set_mem m' s) c name e); [by apply registry_set_mem|done..|by apply holds_read]. }
  split.
  - intros text v Hv. apply Hst. by apply (var_sets atof es s c name text e v).
  - intros other e2 v Hn2 Ht Hh2. apply Hst. by apply (var_copies atof es s c name other e e2 v).
Qed.

(** ** An instance *)

Definition ex_atof (_ : string) : dbl (F := w32) := f_lit 3 2.
Definition ex_memory : gmap Z Z := list_to_map ((fun i => (i, 0)) <$> seqZ 100 17).
Definition ex_vars : list entry :=
  [Entry "speed" T_16 100; Entry "gain" T_f 104; Entry "total" T_64 108; Entry "flag" T_8 116; Entry "bias" T_16 102].
Lemma ex_mapped a n : forallb (fun i => bool_decide (is_Some (ex_memory !! i))) (seqZ a (Z.of_nat n)) = true ->
  mapped a n ex_memory.
Proof.
  intros Hf i Hi. rewrite forallb_forall in Hf. apply (bool_decide_eq_true_1 _), Hf, list_elem_of_In, elem_of_seqZ. lia.
Qed.
Lemma var_sets_shows_copies_witness : exists s m1 m2, register_all ex_vars (no_vars ex_memory) = Done s /\
  var (F := w32) ex_atof ["var"; "speed"; " -70000"]%string s = Done (set_mem m1 s, [Is "speed" (Int (-4464))]) /\
  m1 !! 100 = Some 0x90 /\ m1 !! 101 = Some 0xee /\
  var (F := w32) ex_atof ["var"; "speed"; "="; "bias"]%string s = Done (set_mem m2 s, [Is "speed" (Int 0)]) /\
  var (F := w32) ex_atof ["var"; "sped"]%string s = Done (s, [NotHere]).
Proof.
  destruct (var_sets_shows_copies (F := w32) ex_atof ex_vars ex_memory "var" "speed" (Entry "speed" T_16 100))
    as (s & Hs & Hm & _ & Hno & Hset & Hcopy); [discriminate|reflexivity|by apply ex_mapped|].
  destruct (Hset " -70000"%string (Int (-4464))) as (m1 & w1 & (x1 & -> & Hr1 & Hx1) & (_ & l1 & Hl1 & Hb1 & Hu1 & Hw1) & H1 & _).
  { apply (meant_16 _ _ (-70000)); [reflexivity|lia|reflexivity]. }
  destruct (Hcopy "bias"%string (Entry "bias" T_16 102) (Int 0) eq_refl eq_refl)
    as (m2 & w2 & (x2 & -> & Hr2 & Hx2) & _ & H2 & _).
  { split; [cbn [of_type e_type]; unfold is_s16; lia|]. exists [0; 0]. split; [reflexivity|]. split.
    - intros [|[|k]] b Hb; [injection Hb as <-; reflexivity..|discriminate].
    - split; [repeat constructor; lia|reflexivity]. }
  assert (x1 = -4464) as -> by cint. assert (x2 = 0) as -> by cint. exists s, m1, m2.
  destruct l1 as [|b0 [|b1 [|b2 l1]]]; try discriminate Hl1.
  apply Forall_cons in Hu1 as [Hu0 Hu1]. apply Forall_cons in Hu1 as [Hu1 _].
  change (b0 + 256 * (b1 + 256 * 0) = 61072) in Hw1.
  assert (b0 = 0x90 /\ b1 = 0xee) as [-> ->] by (unfold is_u8 in *; lia).
  split; [exact Hs|]. split; [exact H1|]. split; [exact (Hb1 0%nat _ eq_refl)|].
  split; [exact (Hb1 1%nat _ eq_refl)|]. split; [exact H2|].
  apply (Hno "sped"%string []); [reflexivity|discriminate|cbn; lia].
Defined.

(** A copy has the width of its destination, whatever the source is: eight bytes from the
    address of a [char]. *)
Example copy_reads_past_the_source : exists s, register_all ex_vars (no_vars ex_memory) = Done s /\
  var (F := w32) ex_atof ["var"; "total"; "="; "flag"]%string s = Fault OutOfBounds.
Proof. eexists. split; [vm_compute; reflexivity|]. reflexivity. Qed.
