(* ===== verification/System.v ===== *)
(** * The bus in service

    [abus_port.c], the callbacks of [robotmanager.c], [chassis_port.c] and
    [follow_line.c], and the threads that publish, composed as the firmware runs them:
    messages are bytes in the topics' fifos, and the manager's error callback publishes
    on the chassis's topic from inside the line follower's publication.  What the bus
    does is then the direct calls that [RobotManager] and [FollowLine] are modelled
    with. *)
From S2P Require Import Prelude CFloat FloatMem Afifo Alist Abus Motor Chassis RobotManager Mission FollowLine.
#[local] Open Scope Z_scope.

Section system.
Context {F : Type} `{FloatOps F} `{DoubleOf F} `{FloatBytes F}.

(** The statics of the modules that share the bus. *)
Record firmware := Firmware { manager : rbmg F; infrared_package : infrared }.
Definition set_manager (s : rbmg F) (w : firmware) : firmware := Firmware s (infrared_package w).
Definition set_infrared (p : infrared) (w : firmware) : firmware := Firmware (manager w) p.

(** [chassis_ctrl_t]: the type, three bytes of padding, three floats. *)
Definition SIZEOF_CTRL : Z := 16.
Definition ctrl_bytes (c : chassis_ctrl_t F) : list Z :=
  ctrl_type c :: 0 :: 0 :: 0 ::
  float_bytes (ctrl_x c) ++ float_bytes (ctrl_y c) ++ float_bytes (ctrl_z c).
Definition ctrl_of_bytes (l : list Z) : chassis_ctrl_t F :=
  Ctrl (nth 0 l 0) (bytes_float (take 4 (drop 4 l))) (bytes_float (take 4 (drop 8 l)))
    (bytes_float (take 4 (drop 12 l))).

(** [afifo_out_data(sub->datafifo, dst, n)]. *)
Definition peek (b : bus) (t : addr) (dst : list Z) (n : Z) : outcome (list Z * Z) :=
  tp ← deref (topics_mem b) (Some t);
  f ← deref (fifos b) (tp_datafifo tp);
  afifo_out_data f dst n.

(** ** The callbacks, with the bus in their hands *)

Definition chassis_callback (t : addr) (b : bus) (w : firmware) : outcome (bus * firmware) :=
  r ← peek b t (replicate 16 0) SIZEOF_CTRL;
  let msg := if u16 r.2 =? SIZEOF_CTRL then Some (ctrl_of_bytes r.1) else None in
  let s := manager w in
  Done (b, set_manager (set_chassis (chassis_sub_callback msg (chassis_mai s)).1 s) w).

Definition publisher : Type := addr -> list Z -> bus -> firmware -> outcome (bus * firmware).

(** [abus_public(&rbmg_chassis_acc, &ctrl)]; the trace keeps the message. *)
Definition publish_ctrl (public : publisher) (b : bus) (w : firmware) : outcome (bus * firmware) :=
  let s := manager w in
  public rbmg_chassis_acc (ctrl_bytes (ctrl s)) b (set_manager (tell (Publish (ctrl s)) s) w).

Definition error_callback (public : publisher) (t : addr) (b : bus) (w : firmware)
    : outcome (bus * firmware) :=
  let s := manager w in
  if rbmg_mode s =? LINE_MODE then
    r ← peek b t (float_bytes (line_error s)) 4;
    publish_ctrl public b (set_manager (line_command (bytes_float r.1) s) w)
  else Done (b, w).

Definition special_point_callback (t : addr) (b : bus) (w : firmware) : outcome (bus * firmware) :=
  Done (b, set_manager (RobotManager.rbmg_special_point_callback (manager w)) w).

(** [enum direction] has one byte. *)
Definition line_dir_callback (t : addr) (b : bus) (w : firmware) : outcome (bus * firmware) :=
  r ← peek b t [move_direction (infrared_package w)] 1;
  Done (b, set_infrared (FollowLine.line_dir_sub_callback (nth 0 r.1 0) (infrared_package w)) w).

(** Rings have at most as many members as there are accounters. *)
Definition RING_FUEL : nat := S ABUS_ACCS_NUM.
Definition public_with (callback : fnptr -> addr -> bus -> firmware -> outcome (bus * firmware)) : publisher :=
  fun a msg b w =>
    o ← abus_public callback RING_FUEL a msg b w;
    match o with Some r => Done r | None => Fault Hang end.

(** Publications nest: a callback's own are one level down. *)
Fixpoint dispatch (depth : nat) (f : fnptr) (t : addr) (b : bus) (w : firmware)
    : outcome (bus * firmware) :=
  match depth with
  | O => Fault Hang
  | S depth =>
    if decide (f = Abus.chassis_sub_callback) then chassis_callback t b w
    else if decide (f = Abus.rbmg_error_callback) then error_callback (public_with (dispatch depth)) t b w
    else if decide (f = Abus.rbmg_special_point_callback) then special_point_callback t b w
    else if decide (f = Abus.line_dir_sub_callback) then line_dir_callback t b w
    else if decide (f = rbmg_dir_callback \/ f = rbmg_chassis_ctrl_callback) then Done (b, w)
    else Fault Undefined
  end.
Definition public (depth : nat) : publisher := public_with (dispatch depth).

(** An error, inside it a command: two levels. *)
Definition DEPTH : nat := 2.

(** ** The threads, as far as they publish *)

(** One pass of the line follower's loop. *)
Definition follow_line_pass (pins : list Z) (b : bus) (w : firmware) : outcome (bus * firmware) :=
  let p := GET_Infrared_Data pins (infrared_package w) in
  let error : F := line_error_of p in
  let '(p, special) := Is_Spacial_point p in
  let w := set_infrared p w in
  r ← (if special =? 0 then Done (b, w) else public DEPTH line_spacial_point_acc [1] b w);
  public DEPTH line_error_acc (float_bytes error) r.1 r.2.

(** What happens on the robot: a pass of the line follower, a command published by the
    manager's thread, a step of the chassis, measurements, the camera's interrupt. *)
Inductive step :=
  | Follow (pins : list Z)
  | Command (c : chassis_ctrl_t F)
  | Other (e : event F).
Definition do_step (x : step) (b : bus) (w : firmware) : outcome (bus * firmware) :=
  match x with
  | Follow pins => follow_line_pass pins b w
  | Command c => publish_ctrl (public DEPTH) b (set_manager (set_ctrl c (manager w)) w)
  | Other e => s ← handle_event e (manager w); Done (b, set_manager s w)
  end.
Fixpoint do_steps (xs : list step) (b : bus) (w : firmware) : outcome (bus * firmware) :=
  match xs with [] => Done (b, w) | x :: xs => r ← do_step x b w; do_steps xs r.1 r.2 end.

(** ** The abstract system: no bus, the callbacks are called directly *)

Definition spec_step (x : step) (w : firmware) : outcome firmware :=
  match x with
  | Follow pins =>
    let '(p, es) := follow_line pins (infrared_package w) in
    s ← handle_events es (manager w); Done (Firmware s p)
  | Command c => Done (set_manager (public_ctrl (set_ctrl c (manager w))) w)
  | Other e => s ← handle_event e (manager w); Done (set_manager s w)
  end.
Fixpoint spec_steps (xs : list step) (w : firmware) : outcome firmware :=
  match xs with [] => Done w | x :: xs => w ← spec_step x w; spec_steps xs w end.

(** ** Messages *)

Lemma length_ctrl_bytes c : length (ctrl_bytes c) = 16%nat.
Proof. unfold ctrl_bytes. cbn [length]. by rewrite !length_app, !length_float_bytes. Qed.
Lemma ctrl_of_ctrl_bytes c : ctrl_of_bytes (ctrl_bytes c) = c.
Proof.
  destruct c as [ty x y z]. unfold ctrl_of_bytes, ctrl_bytes. cbn [ctrl_type ctrl_x ctrl_y ctrl_z nth].
  pose proof (length_float_bytes x) as Hx. pose proof (length_float_bytes y) as Hy.
  pose proof (length_float_bytes z) as Hz.
  transitivity (Ctrl ty (bytes_float (float_bytes x)) (bytes_float (float_bytes y)) (bytes_float (float_bytes z)));
    [|by rewrite !bytes_float_bytes].
  revert Hx Hy Hz. generalize (float_bytes x), (float_bytes y), (float_bytes z). intros lx ly lz Hx Hy Hz.
  destruct lx as [|? [|? [|? [|? [|]]]]]; try discriminate Hx.
  destruct ly as [|? [|? [|? [|? [|]]]]]; try discriminate Hy.
  by destruct lz as [|? [|? [|? [|? [|]]]]].
Qed.

(** ** A wired bus

    [b0] is a bus at rest, as after the boot. *)
Context (b0 : bus).

Definition empty_fifo (b : bus) (f : addr) : Prop :=
  exists x, fifos b !! f = Some x /\ af_rep x [] /\ size x = 1024.
Definition port_fifos : list addr := [50; 51; 52; 53]%nat.

(** Between publications: the wiring of [b0], and no message in any fifo. *)
Record in_service (b : bus) : Prop := InService {
  sv_wiring : same_wiring b0 b;
  sv_empty : forall f, f ∈ port_fifos -> empty_fifo b f;
}.

(** A topic of [b0] with its publisher [a] and its subscribers, none of which has a
    fifo of its own. *)
Record port_topic (a t tf : addr) (tp : abus_topic) (l : list addr) : Prop := {
  pt_pub : exists acc, accounters b0 !! a = Some acc /\ acc_topic acc = Some t;
  pt_topic : topics_mem b0 !! t = Some tp;
  pt_fifo : tp_datafifo tp = Some tf;
  pt_ring : dll (nodes b0) (tp_sync tp) l;
  pt_subs : forall s, s ∈ l -> exists acc, accounters b0 !! s = Some acc /\
    is_async (acc_flag acc) = 0 /\ acc_topic acc = Some t /\ acc_datafifo acc = None;
  pt_size : 0 <= tp_msg_size tp <= 1024;
  pt_ring_size : (length l < RING_FUEL)%nat;
}.

Lemma port_ready a t tf tp l b : port_topic a t tf tp l -> same_wiring b0 b ->
  bus_ready a t tf tp l b.
Proof.
  intros [Hpub Htp Hf Hr Hs Hsz _] (Hn & Ha & Ht & _). split; rewrite ?Hn, ?Ha, ?Ht; try done.
  - intros s Hsl. destruct (Hs s Hsl) as (acc & Hacc & Hsync & Hto & Hno). exists acc.
    split; rewrite ?Ha; try done. intros f Hff. by rewrite Hno in Hff.
  - intros s1 s2 acc1 acc2 f Hs1 Hs2 Ha1 Ha2 Hf1 Hf2. destruct (Hs s1 Hs1) as (acc & Hacc & _ & _ & Hno).
    congruence.
Qed.

Lemma port_own a t tf tp l b g : port_topic a t tf tp l -> same_wiring b0 b ->
  own_fifo tf l b g -> g = tf.
Proof.
  intros Hp (_ & Ha & _) [->|(s & acc & Hs & Hacc & Hg)]; [done|]. rewrite Ha in Hacc.
  destruct (pt_subs _ _ _ _ _ Hp s Hs) as (acc' & Hacc' & _ & _ & Hno). congruence.
Qed.

(** What a publication does to a bus in service; [E] are the fifos of the topics its
    callbacks publish on. *)
Record settles (E : list addr) (b b' : bus) : Prop := {
  st_wiring : same_wiring b0 b';
  st_empty : forall g, g ∈ E -> empty_fifo b' g;
  st_frame : forall g, g ∉ E -> fifos b' !! g = fifos b !! g;
}.

(** The subscribers, called one after the other. *)
Definition react_wired {W} (react : fnptr -> list Z -> W -> W) (msg : list Z) (w : W) (s : addr) : W :=
  match accounters b0 !! s ≫= acc_callback with Some f => react f msg w | None => w end.

Lemma fifo_empty_room b f n : empty_fifo b f -> n <= 1024 -> fifo_room b f n.
Proof. intros (x & Hx & Hr & Hs) Hn. exists x, []. split_and!; [done..|]. cbn. lia. Qed.

Lemma foldl_wired {W} (react : fnptr -> list Z -> W -> W) t b msg w l : accounters b = accounters b0 ->
  foldl (react_one (fun f _ q w => react f q w) t b msg) w l = foldl (react_wired react msg) w l.
Proof.
  intros Ha. revert w. induction l as [|s l IH]; intros w; [done|]. cbn. rewrite IH.
  f_equal. unfold react_one, react_wired. by rewrite Ha.
Qed.

Section port_public.
Context {W : Type} (callback : fnptr -> addr -> bus -> W -> outcome (bus * W)).
Context (react : fnptr -> list Z -> W -> W).
Context (a t tf : addr) (tp : abus_topic) (l E : list addr).
Hypothesis topic : port_topic a t tf tp l.
Hypothesis apart : tf ∉ E.
Hypothesis callback_ok : forall f b w q, called l b0 f -> same_wiring b0 b ->
  (forall g, g ∈ E -> empty_fifo b g) -> fifo_holds b tf q ->
  exists b', callback f t b w = Done (b', react f q w) /\ settles E b b'.

Lemma port_public msg b w : Z.of_nat (length msg) = tp_msg_size tp -> same_wiring b0 b ->
  (forall g, g ∈ tf :: E -> empty_fifo b g) ->
  exists b', abus_public callback RING_FUEL a msg b w = Done (Some (b', foldl (react_wired react msg) w l))
    /\ settles (tf :: E) b b'.
Proof.
  intros Hlen Hw He. pose proof (pt_fifo _ _ _ _ _ topic) as Hfifo. pose proof (pt_size _ _ _ _ _ topic).
  pose proof (pt_ring_size _ _ _ _ _ topic) as Hring.
  assert (empty_fifo b tf) as Htf by (apply He; set_solver).
  set (I b1 := same_wiring b0 b1 /\ (forall g, g ∈ E -> empty_fifo b1 g)
    /\ (exists x, fifos b1 !! tf = Some x /\ size x = 1024)
    /\ forall g, g ∉ tf :: E -> fifos b1 !! g = fifos b !! g).
  assert (forall b1 g, same_wiring b0 b1 -> own_fifo tf l b1 g -> g = tf) as Hown
    by (intros; by eapply port_own).
  destruct (public_spec callback (fun f _ q w => react f q w) a t tf tp msg l I) with (q := @nil Z) (b := b)
    (w := w) (fuel := RING_FUEL) as (b' & -> & Hw' & (HwI & HE & (x & Hx & Hsx) & Hfr) & _ & Hh); try done.
  - intros b1 g x y Hg Hy Hxy (Hw1 & HE1 & (z & Hz & Hsz) & Hfr1). rewrite (Hown b1 g Hw1 Hg) in *.
    split; [done|]. split_and!.
    + intros g' Hg'. destruct (HE1 g' Hg') as (u & Hu & Hr). exists u. cbn.
      by rewrite lookup_insert_ne by set_solver.
    + exists x. cbn. rewrite lookup_insert_eq. split; [done|]. congruence.
    + intros g' Hg'. cbn. rewrite lookup_insert_ne by set_solver. by apply Hfr1.
  - intros f b1 w1 q Hc (Hw1 & HE1 & (z & Hz & Hsz) & Hfr1) Hq.
    destruct (callback_ok f b1 w1 q) as (b2 & He2 & [Hw2 HE2 Hfr2]); try done.
    { by apply (called_wiring l b0 b1 f Hw1). }
    exists b2. split; [done|]. split; [split; [done|split_and!; [done| |]]|split].
    + exists z. by rewrite Hfr2.
    + intros g Hg. rewrite Hfr2 by set_solver. by apply Hfr1.
    + apply (same_wiring_trans b1 b0 b2); [by apply same_wiring_sym|done].
    + intros g Hg. rewrite (Hown b1 g Hw1 Hg). by apply Hfr2.
  - split; [|done]. unfold is_u32. lia.
  - split; [done|]. split_and!; [set_solver| |done]. destruct Htf as (x & Hx & _ & Hs). by exists x.
  - by apply port_ready.
  - destruct Htf as (x & Hx & Hr & _). by exists x.
  - destruct Htf as (x & Hx & Hr & Hs). exists x, []. split_and!; [done..|]. cbn. lia.
  - exists b'. split.
    + do 3 f_equal. apply foldl_wired. apply Hw.
    + split; [done| |done]. intros g [->|Hg]%elem_of_cons; [|by apply HE].
      destruct Hh as (y & Hy & Hr). rewrite app_nil_l, drop_all in Hr. exists y. split_and!; [done..|]. congruence.
Qed.
End port_public.

(** ** The wiring of the port *)

Definition error_tp : abus_topic := Topic (lit L_line_error_topic) 200 201 (Some 50%nat) 4.
Definition special_tp : abus_topic := Topic (lit L_line_special_topic) 202 203 (Some 51%nat) 1.
Definition ctrl_tp : abus_topic := Topic (lit L_chassis_ctrl) 206 207 (Some 53%nat) SIZEOF_CTRL.

Record port_wiring : Prop := {
  pw_error : port_topic line_error_acc line_error_topic 50 error_tp [rbmg_error_acc; line_error_acc];
  pw_special : port_topic line_spacial_point_acc line_special_topic 51 special_tp
    [rbmg_special_point_acc; line_spacial_point_acc];
  pw_ctrl : port_topic rbmg_chassis_acc chassis_ctrl_topic 53 ctrl_tp [rbmg_chassis_acc; chassis_acc];
  pw_callbacks : map (fun s => accounters b0 !! s ≫= acc_callback)
    [rbmg_error_acc; line_error_acc; rbmg_special_point_acc; line_spacial_point_acc; rbmg_chassis_acc; chassis_acc]
    = [Some Abus.rbmg_error_callback; None; Some Abus.rbmg_special_point_callback; None;
       Some rbmg_chassis_ctrl_callback; Some Abus.chassis_sub_callback];
}.
Context (wired : port_wiring).

Lemma peek_ok b a t tf tp l dst n q : port_topic a t tf tp l -> same_wiring b0 b -> fifo_holds b tf q ->
  is_u32 n -> n = Z.of_nat (length dst) ->
  let k := Z.to_nat (Z.min n (Z.of_nat (length q))) in
  peek b t dst n = Done (take k q ++ drop k dst, Z.min n (Z.of_nat (length q))).
Proof.
  intros Hp (_ & _ & Ht & _) (x & Hx & Hr) Hn Hd k. unfold peek.
  rewrite (deref_ok _ _ tp) by (rewrite Ht; apply Hp). cbn [mbind outcome_bind].
  rewrite (pt_fifo _ _ _ _ _ Hp), (deref_ok _ _ _ Hx). cbn [mbind outcome_bind].
  unfold afifo_out_data. by rewrite (read_spec x q Hr dst n Hn) by lia.
Qed.

(** What the callbacks make of the queue. *)
Definition react_ctrl (f : fnptr) (q : list Z) (w : firmware) : firmware :=
  if decide (f = Abus.chassis_sub_callback) then
    let msg := if decide (16 <= length q)%nat then Some (ctrl_of_bytes (take 16 q)) else None in
    let s := manager w in set_manager (set_chassis (chassis_sub_callback msg (chassis_mai s)).1 s) w
  else w.
Definition react_special (f : fnptr) (q : list Z) (w : firmware) : firmware :=
  if decide (f = Abus.rbmg_special_point_callback)
  then set_manager (RobotManager.rbmg_special_point_callback (manager w)) w else w.
Definition react_error (f : fnptr) (q : list Z) (w : firmware) : firmware :=
  if decide (f = Abus.rbmg_error_callback) then
    let s := manager w in
    let k := Z.to_nat (Z.min 4 (Z.of_nat (length q))) in
    let e := bytes_float (take k q ++ drop k (float_bytes (line_error s))) in
    set_manager (RobotManager.rbmg_error_callback e s) w
  else w.

(** The callbacks on a topic of the port. *)
Lemma called_port ss f : called ss b0 f ->
  Some f ∈ map (fun s => accounters b0 !! s ≫= acc_callback) ss.
Proof.
  intros (s & acc & Hs & Ha & Hf). apply list_elem_of_fmap. exists s. by rewrite Ha.
Qed.
Lemma callback_at k s f :
  [rbmg_error_acc; line_error_acc; rbmg_special_point_acc; line_spacial_point_acc; rbmg_chassis_acc; chassis_acc]
    !! k = Some s ->
  [Some Abus.rbmg_error_callback; None; Some Abus.rbmg_special_point_callback; None;
       Some rbmg_chassis_ctrl_callback; Some Abus.chassis_sub_callback] !! k = Some f ->
  accounters b0 !! s ≫= acc_callback = f.
Proof.
  rewrite <- (pw_callbacks wired). intros Hs. rewrite list_lookup_fmap, Hs. cbn. by intros [= <-].
Qed.

Lemma settles_refl E b : same_wiring b0 b -> (forall g, g ∈ E -> empty_fifo b g) -> settles E b b.
Proof. by split. Qed.

Lemma ctrl_message q n : n = Z.min SIZEOF_CTRL (Z.of_nat (length q)) ->
  (if u16 n =? SIZEOF_CTRL then Some (ctrl_of_bytes (take (Z.to_nat n) q ++ drop (Z.to_nat n) (replicate 16 0)))
   else None) =
  if decide (16 <= length q)%nat then Some (ctrl_of_bytes (take 16 q)) else None.
Proof.
  unfold SIZEOF_CTRL. intros ->. rewrite u16_id by cint. case_decide.
  - rewrite Z.min_l by lia. change (16 =? 16) with true. cbn match. do 2 f_equal. apply app_nil_r.
  - rewrite (proj2 (Z.eqb_neq _ _)) by lia. done.
Qed.
Lemma react_ctrl_chassis c w : react_ctrl Abus.chassis_sub_callback (ctrl_bytes c) w =
  set_manager (set_chassis (chassis_sub_callback (Some c) (chassis_mai (manager w))).1 (manager w)) w.
Proof.
  unfold react_ctrl. rewrite decide_True by done. rewrite decide_True by (rewrite length_ctrl_bytes; lia).
  cbv zeta. by rewrite take_ge, ctrl_of_ctrl_bytes by (rewrite length_ctrl_bytes; lia).
Qed.

(** The two callbacks of each topic, newest first. *)
Lemma react_two {W} (react : fnptr -> list Z -> W -> W) msg w s1 s2 f1 f2 :
  accounters b0 !! s1 ≫= acc_callback = f1 -> accounters b0 !! s2 ≫= acc_callback = f2 ->
  let call f w := match f with Some f => react f msg w | None => w end in
  foldl (react_wired react msg) w [s1; s2] = call f2 (call f1 w).
Proof. intros E1 E2 call. cbn. unfold react_wired. by rewrite E1, E2. Qed.

Lemma publish_ctrl_ok d b w : same_wiring b0 b -> empty_fifo b 53 ->
  exists b', publish_ctrl (public (S d)) b w = Done (b', set_manager (public_ctrl (manager w)) w)
    /\ settles [53%nat] b b'.
Proof.
  intros Hw He. unfold publish_ctrl, public, public_with. cbv zeta.
  pose proof (callback_at 4 _ _ eq_refl eq_refl) as Hf1. pose proof (callback_at 5 _ _ eq_refl eq_refl) as Hf2.
  destruct (port_public (dispatch (S d)) react_ctrl _ _ _ _ _ [] (pw_ctrl wired)) with
    (msg := ctrl_bytes (ctrl (manager w))) (b := b)
    (w := set_manager (tell (Publish (ctrl (manager w))) (manager w)) w) as (b' & -> & Hs).
  - set_solver.
  - intros f b1 w1 q Hc%called_port Hw1 HE Hq. exists b1. split; [|by apply settles_refl].
    cbn [map] in Hc. rewrite Hf1, Hf2 in Hc.
    assert (f = rbmg_chassis_ctrl_callback \/ f = Abus.chassis_sub_callback) as [-> | ->] by set_solver; [done|].
    change (dispatch (S d) Abus.chassis_sub_callback) with chassis_callback. unfold chassis_callback.
    rewrite (peek_ok b1 _ _ _ _ _ _ SIZEOF_CTRL q (pw_ctrl wired) Hw1 Hq) by (unfold SIZEOF_CTRL; cint || done).
    cbn [mbind outcome_bind fst snd]. by rewrite ctrl_message.
  - by rewrite length_ctrl_bytes.
  - done.
  - intros g ->%list_elem_of_singleton. done.
  - exists b'. split; [|done]. cbn [mbind outcome_bind]. do 2 f_equal.
    rewrite (react_two _ _ _ _ _ _ _ Hf1 Hf2). cbv zeta.
    assert (forall m w, react_ctrl rbmg_chassis_ctrl_callback m w = w) as -> by done.
    by rewrite react_ctrl_chassis.
Qed.

Lemma publish_special_ok d b w : same_wiring b0 b -> empty_fifo b 51 ->
  exists b', public (S d) line_spacial_point_acc [1] b w
      = Done (b', set_manager (RobotManager.rbmg_special_point_callback (manager w)) w)
    /\ settles [51%nat] b b'.
Proof.
  intros Hw He. unfold public, public_with.
  pose proof (callback_at 2 _ _ eq_refl eq_refl) as Hf1. pose proof (callback_at 3 _ _ eq_refl eq_refl) as Hf2.
  destruct (port_public (dispatch (S d)) react_special _ _ _ _ _ [] (pw_special wired)) with
    (msg := [1]) (b := b) (w := w) as (b' & -> & Hs); try done.
  - set_solver.
  - intros f b1 w1 q Hc%called_port Hw1 HE Hq. exists b1. split; [|by apply settles_refl].
    cbn [map] in Hc. rewrite Hf1, Hf2 in Hc.
    assert (f = Abus.rbmg_special_point_callback) as -> by set_solver. done.
  - intros g ->%list_elem_of_singleton. done.
  - exists b'. split; [|done]. cbn [mbind outcome_bind]. do 2 f_equal.
    by rewrite (react_two _ _ _ _ _ _ _ Hf1 Hf2).
Qed.

(** The error's callback publishes the command while the error is in its own fifo. *)
Lemma error_callback_ok d b w q : same_wiring b0 b -> empty_fifo b 53 -> fifo_holds b 50 q ->
  exists b', error_callback (public (S d)) line_error_topic b w
      = Done (b', react_error Abus.rbmg_error_callback q w) /\ settles [53%nat] b b'.
Proof.
  intros Hw He Hq. unfold error_callback, react_error. rewrite decide_True by done. cbv zeta.
  unfold RobotManager.rbmg_error_callback.
  destruct (rbmg_mode (manager w) =? LINE_MODE).
  - rewrite (peek_ok b _ _ _ _ _ _ 4 q (pw_error wired) Hw Hq) by (cint || by rewrite length_float_bytes).
    cbn [mbind outcome_bind fst].
    match goal with |- context [publish_ctrl _ b ?w1] => exact (publish_ctrl_ok d b w1 Hw He) end.
  - exists b. split; [by destruct w|]. apply settles_refl; [done|]. intros g ->%list_elem_of_singleton. done.
Qed.

Lemma publish_error_ok d e b w : same_wiring b0 b -> empty_fifo b 50 -> empty_fifo b 53 ->
  exists b', public (S (S d)) line_error_acc (float_bytes e) b w
      = Done (b', set_manager (RobotManager.rbmg_error_callback e (manager w)) w)
    /\ settles [50; 53]%nat b b'.
Proof.
  intros Hw He Hc. unfold public at 1, public_with.
  pose proof (callback_at 0 _ _ eq_refl eq_refl) as Hf1. pose proof (callback_at 1 _ _ eq_refl eq_refl) as Hf2.
  destruct (port_public (dispatch (S (S d))) react_error _ _ _ _ _ [53%nat] (pw_error wired)) with
    (msg := float_bytes e) (b := b) (w := w) as (b' & -> & Hs); try done.
  - set_solver.
  - intros f b1 w1 q Hc'%called_port Hw1 HE Hq. cbn [map] in Hc'. rewrite Hf1, Hf2 in Hc'.
    assert (f = Abus.rbmg_error_callback) as -> by set_solver.
    apply error_callback_ok; [done|apply HE; set_solver|done].
  - by rewrite length_float_bytes.
  - intros g [->| ->%list_elem_of_singleton]%elem_of_cons; done.
  - exists b'. split; [|done]. cbn [mbind outcome_bind]. do 2 f_equal.
    rewrite (react_two _ _ _ _ _ _ _ Hf1 Hf2). cbv zeta. unfold react_error. rewrite decide_True by done.
    cbv zeta. rewrite length_float_bytes. change (Z.to_nat _) with 4%nat.
    rewrite take_ge, drop_ge, app_nil_r, bytes_float_bytes by (rewrite length_float_bytes; lia). done.
Qed.

(** ** One step *)

Lemma in_service_settles E b b' : in_service b -> settles E b b' -> E ⊆ port_fifos -> in_service b'.
Proof.
  intros [Hw He] [Hw' HE Hfr] HEp. split; [done|]. intros f Hf.
  destruct (decide (f ∈ E)) as [|Hn]; [by apply HE|]. destruct (He f Hf) as (x & Hx & Hr). exists x.
  by rewrite Hfr.
Qed.

Lemma follow_line_pass_ok pins b w : in_service b ->
  exists b', follow_line_pass pins b w =
      (let '(p, es) := follow_line pins (infrared_package w) in
       s ← handle_events es (manager w); Done (b', Firmware s p))
    /\ in_service b'.
Proof.
  intros Hb. unfold follow_line_pass, follow_line, DEPTH.
  set (p := GET_Infrared_Data pins (infrared_package w)). set (e := line_error_of p).
  destruct (Is_Spacial_point p) as [p' special]. destruct (special =? 0).
  - cbn [mbind outcome_bind fst snd app handle_events handle_event]. set (w1 := set_infrared p' w).
    destruct (publish_error_ok 0 e b w1) as (b' & He & Hs); [apply Hb|apply Hb; set_solver..|].
    exists b'. split; [exact He|]. apply (in_service_settles _ _ _ Hb Hs). set_solver.
  - cbn [mbind outcome_bind fst snd app handle_events handle_event]. set (w1 := set_infrared p' w).
    destruct (publish_special_ok 1 b w1) as (b1 & He1 & Hs1); [apply Hb|apply Hb; set_solver|].
    assert (in_service b1) as Hb1 by (apply (in_service_settles _ _ _ Hb Hs1); set_solver).
    rewrite He1. cbn [mbind outcome_bind fst snd].
    destruct (publish_error_ok 0 e b1 (set_manager (RobotManager.rbmg_special_point_callback (manager w1)) w1))
      as (b' & He & Hs); [apply Hb1|apply Hb1; set_solver..|].
    exists b'. split; [exact He|]. apply (in_service_settles _ _ _ Hb1 Hs). set_solver.
Qed.

(** The simulation: the real step is the abstract one, and the bus is at rest again. *)
Lemma do_step_ok x b w : in_service b ->
  exists b', do_step x b w = (w' ← spec_step x w; Done (b', w')) /\ in_service b'.
Proof.
  intros Hb. destruct x as [pins|c|e]; cbn [do_step spec_step].
  - destruct (follow_line_pass_ok pins b w Hb) as (b' & -> & Hb'). exists b'. split; [|done].
    destruct (follow_line _ _) as [p es]. by destruct (handle_events es (manager w)).
  - destruct (publish_ctrl_ok 1 b (set_manager (set_ctrl c (manager w)) w)) as (b' & He & Hs);
      [apply Hb|apply Hb; set_solver|].
    exists b'. split; [exact He|]. apply (in_service_settles _ _ _ Hb Hs). set_solver.
  - exists b. split; [|done]. by destruct (handle_event e (manager w)).
Qed.

Lemma do_steps_ok xs b w : in_service b ->
  exists b', do_steps xs b w = (w' ← spec_steps xs w; Done (b', w')) /\ in_service b'.
Proof.
  revert b w. induction xs as [|x xs IH]; intros b w Hb; cbn [do_steps spec_steps]; [by exists b|].
  destruct (do_step_ok x b w Hb) as (b1 & -> & Hb1). destruct (spec_step x w) as [w1|]; cbn [mbind outcome_bind fst snd].
  - by apply IH.
  - by exists b1.
Qed.

(** ** Runs without a fault *)

(** No more bytes from the camera than its buffer holds. *)
Definition step_ok (x : step) : Prop := match x with Other e => event_ok e | _ => True end.

Lemma spec_step_ok x w : step_ok x -> well_formed (manager w) ->
  exists w', spec_step x w = Done w' /\ well_formed (manager w').
Proof.
  intros Hx Hw. destruct x as [pins|c|e]; cbn [spec_step].
  - unfold follow_line. destruct (Is_Spacial_point _) as [p special].
    destruct (handle_events_calm ((if special =? 0 then [] else [EvSpecial])
      ++ [EvError (line_error_of (GET_Infrared_Data pins (infrared_package w)))]) (manager w))
      as (s' & He & Hc); [|done|].
    { by destruct (special =? 0); repeat constructor. }
    rewrite He. eexists. split; [done|]. apply Hc.
  - eexists. split; [done|]. eapply calm_public. by apply calm_set_ctrl.
  - destruct (handle_event_calm e (manager w) Hx Hw) as (s' & -> & Hc). eexists. split; [done|]. apply Hc.
Qed.
Lemma spec_steps_ok xs w : Forall step_ok xs -> well_formed (manager w) ->
  exists w', spec_steps xs w = Done w' /\ well_formed (manager w').
Proof.
  intros Hxs. revert w. induction Hxs as [|x xs Hx _ IH]; intros w Hw; cbn [spec_steps]; [by exists w|].
  destruct (spec_step_ok x w Hx Hw) as (w1 & -> & Hw1). by apply IH.
Qed.
End system.
Arguments firmware : clear implicits.
Arguments step : clear implicits.

(** ** The boot *)

#[export] Instance sub_flag_eq_dec : EqDecision abus_sub_flag.
Proof. solve_decision. Defined.
#[export] Instance accounter_eq_dec : EqDecision abus_accounter.
Proof. solve_decision. Defined.
#[export] Instance topic_eq_dec : EqDecision abus_topic.
Proof. solve_decision. Defined.

(** The wiring as a computation: a ring of two, and its members. *)
Definition linked_b (b : bus) (x y : addr) : bool :=
  bool_decide (nxt (nodes b) x = Some y) && bool_decide (prv (nodes b) y = Some x).
Definition plain_sub (b : bus) (t s : addr) : bool :=
  match accounters b !! s with
  | Some acc => (is_async (acc_flag acc) =? 0) && bool_decide (acc_topic acc = Some t)
    && bool_decide (acc_datafifo acc = None)
  | None => false
  end.
Definition port_check (b : bus) (a t tf : addr) (tp : abus_topic) (s1 s2 : addr) : bool :=
  let h := tp_sync tp in
  bool_decide ((accounters b !! a ≫= acc_topic) = Some t) && bool_decide (topics_mem b !! t = Some tp)
  && bool_decide (tp_datafifo tp = Some tf) && bool_decide (0 <= tp_msg_size tp <= 1024)
  && linked_b b h s1 && linked_b b s1 s2 && linked_b b s2 h && bool_decide (NoDup [h; s1; s2])
  && plain_sub b t s1 && plain_sub b t s2.

Lemma linked_b_spec b x y : linked_b b x y = true -> linked (nodes b) x y.
Proof. by intros [?%bool_decide_eq_true ?%bool_decide_eq_true]%andb_true_iff. Qed.
Lemma plain_sub_spec b t s : plain_sub b t s = true -> exists acc, accounters b !! s = Some acc /\
  is_async (acc_flag acc) = 0 /\ acc_topic acc = Some t /\ acc_datafifo acc = None.
Proof.
  unfold plain_sub. destruct (accounters b !! s) as [acc|]; [|done].
  intros [[?%Z.eqb_eq ?%bool_decide_eq_true]%andb_true_iff ?%bool_decide_eq_true]%andb_true_iff. by exists acc.
Qed.
Lemma port_check_spec b a t tf tp s1 s2 : port_check b a t tf tp s1 s2 = true ->
  port_topic b a t tf tp [s1; s2].
Proof.
  unfold port_check. cbv zeta. rewrite !andb_true_iff, !bool_decide_eq_true.
  intros [[[[[[[[[Ha Ht] Hf] Hs] Hl1] Hl2] Hl3] Hnd] Hp1] Hp2]. split; try done.
  - destruct (accounters b !! a) as [acc|]; [|done]. by exists acc.
  - split; [|done]. by repeat split; apply linked_b_spec.
  - intros s [->| ->%list_elem_of_singleton]%elem_of_cons; by apply plain_sub_spec.
  - apply (bool_decide_unpack _). by vm_compute.
Qed.

Definition boot_bus : bus :=
  match abus_all_init SIZEOF_CTRL (replicate 1024 0) port_bus with Done b => b | Fault _ => port_bus end.

Lemma boot_wired : port_wiring boot_bus.
Proof. split; [apply port_check_spec; vm_compute; reflexivity..|vm_compute; reflexivity]. Qed.

Lemma new_fifo buf : Z.of_nat (length buf) = 1024 -> af_rep (Afifo buf 1024 0 0) [].
Proof.
  intros Hb. apply (init_rep 10 buf (Afifo buf 1024 0 0)); [lia|exact Hb|vm_compute; reflexivity].
Qed.

(** Whatever the blocks of [malloc] held. *)
Lemma boot_in_service buf : Z.of_nat (length buf) = 1024 ->
  exists b, abus_all_init SIZEOF_CTRL buf port_bus = Done b /\ in_service boot_bus b.
Proof.
  intros Hb. eexists. split; [vm_compute; reflexivity|]. split.
  - repeat split; vm_compute; reflexivity.
  - intros f Hf. exists (Afifo buf 1024 0 0). split; [|split; [by apply new_fifo|reflexivity]].
    assert (f = 50%nat \/ f = 51%nat \/ f = 52%nat \/ f = 53%nat) as [-> | [-> | [-> | ->]]]
      by (unfold port_fifos in Hf; set_solver); vm_compute; reflexivity.
Qed.

(** C3: From boot, whatever runs on the robot in whatever order (passes of the line
    follower, commands of the manager, chassis steps, measurements, the camera),
    publishing through the bus (messages as bytes in the topics' ring buffers, callbacks
    walked from the subscriber rings, and the command published from inside the error's
    publication) never hangs or faults, does to the manager, the chassis and the sensors
    exactly what calling the callbacks directly does, and leaves every topic's buffer
    empty. *)
Theorem bus_implements_calls {F} `{FloatOps F} `{DoubleOf F} `{FloatBytes F} buf xs (w : firmware F) :
  Z.of_nat (length buf) = 1024 -> Forall step_ok xs -> well_formed (manager w) ->
  exists b b' w', abus_all_init SIZEOF_CTRL buf port_bus = Done b /\
    do_steps xs b w = Done (b', w') /\ spec_steps xs w = Done w' /\ in_service boot_bus b'.
Proof.
  intros Hbuf Hxs Hw. destruct (boot_in_service buf Hbuf) as (b & Hb & Hs).
  destruct (do_steps_ok boot_bus boot_wired xs b w Hs) as (b' & Hd & Hb').
  destruct (spec_steps_ok xs w Hxs Hw) as (w' & Hr & _). rewrite Hr in Hd.
  exists b, b', w'. exact (conj Hb (conj Hd (conj Hr Hb'))).
Qed.

(** A robot of words that follows the line, meets a special point and is sent 0.09 ahead. *)
Definition ex_firmware : firmware w32 :=
  let zero := (Data (Speed 0 0 0) (Pos 0 0 0))%F in
  let m := (Motor None 0 0 0 0 0 None None None 0 0 0 0 0 0 0 0 0 true 0 None 0)%F in
  Firmware (set_mode LINE_MODE (rbmg_start (Robot (Chassis zero zero 0 zero)
    (MaiData 0 0 0 0 0)%F (replicate 4 m)))) (Infrared [] 0 front).
Definition ex_steps : list (step w32) :=
  [Follow [1; 1; 1; 1; 1; 0; 0; 1]; Other EvChassis; Follow [0; 0; 1; 0; 0; 1; 1; 1];
   Command (Ctrl 1 0 HALF_CAR_WIDTH 0)%F; Other EvChassis].
Definition mode_and_commands (o : outcome (firmware w32)) : option (Z * nat) :=
  match o with Done w => Some (rbmg_mode (manager w), length (RobotManager.out (manager w))) | Fault _ => None end.

Lemma bus_implements_calls_witness :
  exists b b' w', abus_all_init SIZEOF_CTRL (replicate 1024 0) port_bus = Done b /\
    do_steps ex_steps b ex_firmware = Done (b', w') /\
    mode_and_commands (Done w') = Some (ACTION_MODE, 2%nat) /\ in_service boot_bus b'.
Proof.
  destruct (bus_implements_calls (replicate 1024 0) ex_steps ex_firmware) as (b & b' & w' & Hb & Hd & Hs & Hr).
  - reflexivity.
  - repeat constructor.
  - split; [reflexivity|split; [reflexivity|right; left; reflexivity]].
  - exists b, b', w'. refine (conj Hb (conj Hd (conj _ Hr))). rewrite <- Hs. vm_compute. reflexivity.
Defined.
