(* ===== verification/Arm.v ===== *)
(** * [robotarm/robotGeometry.cpp], [robotarm/interpolation.cpp], [arduino_main.cpp]: the arm

    The interpolator moves a point along a line at a speed profile and refuses points
    outside the arm's limits; the geometry turns a point into joint angles; the sketch's
    [loop] turns the angles into the pulse counts that the stepper thread sends
    ([Stepper.drv_loop]).  The functions of [math.h] and Arduino's macros are an
    interface, [Libm]; times are the readings of [micros()]. *)
From Stdlib Require Import SpecFloat.
From S2P Require Import Prelude CFloat.
#[local] Open Scope Z_scope.

(** On [float]s the C++ overloads; in formulas with [PI], on [double]s. *)
Class Libm (F : Type) `{DoubleOf F} := {
  hypot : F -> F -> F;
  sqrtf : F -> F;
  asin : F -> F;
  acos : F -> F;
  abs : F -> F;
  sq : F -> F;
  atan : dbl -> dbl;
  cos : dbl -> dbl;
  sqrt : dbl -> dbl;
  sqd : dbl -> dbl;
  PI : dbl;
}.

(** [config.h]. *)
Section config.
Context {F : Type} `{FloatOps F}.
Definition LOW_SHANK_LENGTH : F := f_of_Z 120.
Definition HIGH_SHANK_LENGTH : F := f_of_Z 120.
Definition END_EFFECTOR_OFFSET : F := f_of_Z 47.
Definition Z_MIN : F := (- f_of_Z 140)%F.
Definition Z_MAX : F := (LOW_SHANK_LENGTH + f_of_Z 30)%F.
Definition SHANKS_MIN_ANGLE_COS : F := f_lit 791436948 1000000000.
Definition SHANKS_MAX_ANGLE_COS : F := (- f_lit 774944489 1000000000)%F.
End config.
Definition SPEED_PROFILE : Z := 2.

Section arm.
Context {F : Type} `{FloatOps F} `{Libm F}.

(** ** [RobotGeometry] *)

Record RobotGeometry := Geometry {
  ee_offset : F;
  low_shank_length : F;
  high_shank_length : F;
  xmm : F;
  ymm : F;
  zmm : F;
  rot : F;
  low : F;
  high : F;
  rrot_ee : F;
}.

(** The members the constructor does not set are zero, in static storage. *)
Definition RobotGeometry_new (a_ee_offset a_low_shank_length a_high_shank_length : F) : RobotGeometry :=
  Geometry a_ee_offset a_low_shank_length a_high_shank_length 0%F 0%F 0%F 0%F 0%F 0%F 0%F.

Definition calculateGrad (g : RobotGeometry) : RobotGeometry :=
  let rrot_ee := hypot (xmm g) (ymm g) in
  let rrot := (rrot_ee - ee_offset g)%F in
  let rside := hypot rrot (zmm g) in
  let rside_2 := sq rside in
  let low_2 := sq (low_shank_length g) in
  let high_2 := sq (high_shank_length g) in
  let rot := asin (xmm g / rrot_ee)%F in
  let high := narrow (PI - widen (acos ((low_2 + high_2 - rside_2)
                 / (f_of_Z 2 * low_shank_length g * high_shank_length g))))%F in
  let inner := acos ((low_2 - high_2 + rside_2) / (f_of_Z 2 * low_shank_length g * rside))%F in
  let low :=
    if (zmm g >? 0)%F then (acos (zmm g / rside) - inner)%F
    else narrow (PI - widen (asin (rrot / rside)) - widen inner)%F in
  Geometry (ee_offset g) (low_shank_length g) (high_shank_length g) (xmm g) (ymm g) (zmm g)
    rot low (high + low)%F rrot_ee.

Definition set (axmm aymm azmm : F) (g : RobotGeometry) : RobotGeometry :=
  calculateGrad (Geometry (ee_offset g) (low_shank_length g) (high_shank_length g) axmm aymm azmm
    (rot g) (low g) (high g) (rrot_ee g)).

Definition getXmm (g : RobotGeometry) : F := xmm g.
Definition getYmm (g : RobotGeometry) : F := ymm g.
Definition getZmm (g : RobotGeometry) : F := zmm g.
Definition getRotRad (g : RobotGeometry) : F := rot g.
Definition getLowRad (g : RobotGeometry) : F := low g.
Definition getHighRad (g : RobotGeometry) : F := high g.
Definition getHypot (g : RobotGeometry) : F := rrot_ee g.

(** ** [Interpolation] *)

Record Point := Pt { p_xmm : F; p_ymm : F; p_zmm : F; p_emm : F }.
Definition zip_point (f : F -> F -> F) (p q : Point) : Point :=
  Pt (f (p_xmm p) (p_xmm q)) (f (p_ymm p) (p_ymm q)) (f (p_zmm p) (p_zmm q)) (f (p_emm p) (p_emm q)).
Definition zero_point : Point := Pt 0%F 0%F 0%F 0%F.

(** The four [Start]s, [Delta]s and [Pos]s are points. *)
Record Interpolation := Interp {
  speed_profile : Z;
  pos_offset : Point;
  pos_tracker : Point;
  state : Z;
  startTime : Z;
  startmm : Point;
  deltamm : Point;
  posmm : Point;
  v : F;
  tmul : F;
}.

Definition Interpolation_new : Interpolation :=
  Interp SPEED_PROFILE zero_point zero_point 0 0 zero_point zero_point zero_point 0%F 0%F.
Definition setSpeedProfile (p : Z) (s : Interpolation) : Interpolation :=
  Interp p (pos_offset s) (pos_tracker s) (state s) (startTime s) (startmm s) (deltamm s) (posmm s) (v s) (tmul s).
Definition set_offset (o : Point) (s : Interpolation) : Interpolation :=
  Interp (speed_profile s) o (pos_tracker s) (state s) (startTime s) (startmm s) (deltamm s) (posmm s) (v s) (tmul s).
Definition setPosOffset (new_x new_y new_z new_e : F) (s : Interpolation) : Interpolation :=
  set_offset (zip_point f_sub (posmm s) (Pt new_x new_y new_z new_e)) s.
Definition resetPosOffset (s : Interpolation) : Interpolation := set_offset zero_point s.
Definition getPosOffset (s : Interpolation) : Point := pos_offset s.

Definition setCurrentPos_point (p : Point) (s : Interpolation) : Interpolation :=
  Interp (speed_profile s) (pos_offset s) (pos_tracker s) (state s) (startTime s) p zero_point (posmm s) (v s) (tmul s).
Definition setCurrentPos (px py pz pe : F) (s : Interpolation) : Interpolation :=
  setCurrentPos_point (Pt px py pz pe) s.

(** The overloads of [setInterpolation]; [m] is what [micros()] returns, stored in a
    [long]. *)
Definition setInterpolation_points (m : Z) (p0 p1 : Point) (av : F) (s : Interpolation) : Interpolation :=
  let a := (p_xmm p1 - p_xmm p0)%F in
  let b := (p_ymm p1 - p_ymm p0)%F in
  let c := (p_zmm p1 - p_zmm p0)%F in
  let e := abs (p_emm p1 - p_emm p0)%F in
  let dist := sqrtf (a * a + b * b + c * c)%F in
  let dist := if (dist <? e)%F then e else dist in
  let v := if (av <? f_of_Z 5)%F then (sqrtf dist * f_of_Z 10)%F else av in
  let v := if (v <? f_of_Z 5)%F then f_of_Z 5 else v in
  Interp (speed_profile s) (pos_offset s) (pos_tracker s) 0 (s32 m) p0 (zip_point f_sub p1 p0) (posmm s)
    v (v / dist)%F.
Definition setInterpolation_point (m : Z) (p1 : Point) (v : F) (s : Interpolation) : Interpolation :=
  setInterpolation_points m (zip_point f_add (startmm s) (deltamm s)) p1 v s.
Definition setInterpolation (m : Z) (px py pz pe v : F) (s : Interpolation) : Interpolation :=
  setInterpolation_point m (Pt px py pz pe) v s.
Definition setInterpolation_from (m : Z) (p1x p1y p1z p1e p2x p2y p2z p2e v : F) (s : Interpolation)
    : Interpolation :=
  setInterpolation_points m (Pt p1x p1y p1z p1e) (Pt p2x p2y p2z p2e) v s.

(** The squared limits, in [double]. *)
Definition R_LIMIT (angle_cos : dbl) : dbl :=
  let l : dbl := LOW_SHANK_LENGTH in
  let h : dbl := HIGH_SHANK_LENGTH in
  sqrt (sqd l + sqd h - f_of_Z 2 * l * h * angle_cos)%F.
Definition R_MIN : dbl := R_LIMIT SHANKS_MIN_ANGLE_COS.
Definition R_MAX : dbl := R_LIMIT SHANKS_MAX_ANGLE_COS.

Definition isAllowedPosition (p : Point) : bool :=
  let rrot_ee := hypot (p_xmm p) (p_ymm p) in
  let rrot := narrow (widen rrot_ee - END_EFFECTOR_OFFSET)%F in
  let rrot_x := (rrot * (p_ymm p / rrot_ee))%F in
  let rrot_y := (rrot * (p_xmm p / rrot_ee))%F in
  let squaredPositionModule := widen (sq rrot_x + sq rrot_y + sq (p_zmm p))%F in
  (squaredPositionModule <=? sqd R_MAX)%F && (squaredPositionModule >=? sqd R_MIN)%F
  && (widen (p_zmm p) >=? Z_MIN)%F && (widen (p_zmm p) <=? Z_MAX)%F.

(** [switch (speed_profile)]: how far, and whether that is the end; another profile
    leaves [progress] unset. *)
Definition progress_at (profile : Z) (t tmul : F) : outcome (F * bool) :=
  let half : dbl := f_lit 5 10 in
  if profile =? 0 then
    let progress := (t * tmul)%F in
    Done (if (widen progress >=? f_of_Z 1)%F then (f_of_Z 1, true) else (progress, false))
  else if profile =? 1 then
    let progress := narrow (atan (PI * widen t * widen tmul - PI * half) * half + half)%F in
    Done (if (widen progress >=? f_of_Z 1)%F then (f_of_Z 1, true) else (progress, false))
  else if profile =? 2 then
    let progress := narrow (- cos (widen (t * tmul) * PI) * half + half)%F in
    Done (if (widen (t * tmul) >=? f_of_Z 1)%F then (f_of_Z 1, true) else (progress, false))
  else Fault Undefined.

(** The difference of two [long]s, and what it is in seconds. *)
Definition elapsed (m start : Z) : outcome F :=
  d ← int_result (s32 m - start); Done (narrow (f_of_Z d / f_of_Z 1000000)%F).

Definition updateActualPosition (m : Z) (s : Interpolation) : outcome Interpolation :=
  if negb (state s =? 0) then Done s
  else
    t ← elapsed m (startTime s);
    r ← progress_at (speed_profile s) t (tmul s);
    let '(progress, over) := r in
    let st := if over : bool then 1 else 0 in
    let tracker := zip_point f_add (startmm s) (zip_point f_mul (Pt progress progress progress progress) (deltamm s)) in
    Done (if isAllowedPosition tracker then
      Interp (speed_profile s) (pos_offset s) tracker st (startTime s) (startmm s) (deltamm s) tracker (v s) (tmul s)
    else
      Interp (speed_profile s) (pos_offset s) (posmm s) 1 (startTime s) (posmm s) zero_point (posmm s) (v s) (tmul s)).

Definition isFinished (s : Interpolation) : bool := negb (state s =? 0).
Definition getXPosmm (s : Interpolation) : F := p_xmm (posmm s).
Definition getYPosmm (s : Interpolation) : F := p_ymm (posmm s).
Definition getZPosmm (s : Interpolation) : F := p_zmm (posmm s).
Definition getEPosmm (s : Interpolation) : F := p_emm (posmm s).
Definition getPosmm (s : Interpolation) : Point := posmm s.

(** ** [arduino_main.cpp] *)

Record sketch := Sketch {
  geometry : RobotGeometry;
  interpolator : Interpolation;
  abig_arm_pulse : Z;
  asmall_arm_pulse : Z;
  radToStepFactor : F;
}.

(** The globals' constructors; [setup] reads the clock once and leaves the targets
    [ymm] and [zmm], which other threads write, at [INITIAL_Y] and [INITIAL_Z]. *)
Definition INITIAL_Y : F := narrow (HIGH_SHANK_LENGTH + END_EFFECTOR_OFFSET)%F.
Definition INITIAL_Z : F := narrow LOW_SHANK_LENGTH.
Definition sketch_new : sketch :=
  Sketch (RobotGeometry_new (narrow END_EFFECTOR_OFFSET) (narrow LOW_SHANK_LENGTH) (narrow HIGH_SHANK_LENGTH))
    Interpolation_new 0 0 0%F.
Definition step_factor : F := narrow (f_of_Z 90 / f_of_Z 20 * f_of_Z (16 * 200) / f_of_Z 2 / PI)%F.
Definition setup (m : Z) (k : sketch) : sketch :=
  Sketch (geometry k)
    (setSpeedProfile 0 (setInterpolation_from m 0%F INITIAL_Y INITIAL_Z 0%F 0%F INITIAL_Y INITIAL_Z 0%F 0%F
       (interpolator k)))
    (abig_arm_pulse k) (asmall_arm_pulse k) step_factor.

(** One pass of [loop], up to its [delay]; [m0] and [m1] are the clock's readings in
    [setInterpolation] and [updateActualPosition]. *)
Definition loop (m0 m1 : Z) (ymm zmm : F) (k : sketch) : outcome sketch :=
  let s := setInterpolation m0 0%F ymm zmm 0%F (f_of_Z 5) (interpolator k) in
  s ← updateActualPosition m1 s;
  let g := set (getXPosmm s) (getYPosmm s) (getZPosmm s) (geometry k) in
  big ← to_int32 (getLowRad g * radToStepFactor k)%F;
  small ← to_int32 (getHighRad g * radToStepFactor k)%F;
  small' ← int_result (small - 3600);
  Done (Sketch g s big small' (radToStepFactor k)).

(** ** The limits hold, whatever is asked for

    In any arithmetic, [float] included, and for any profile and clock. *)
Inductive interp_op :=
  | OpProfile (p : Z)
  | OpOffset (x y z e : F)
  | OpResetOffset
  | OpCurrent (p : Point)
  | OpMove (m : Z) (p0 p1 : Point) (v : F)
  | OpMoveTo (m : Z) (p1 : Point) (v : F)
  | OpUpdate (m : Z).
Definition interp_step (o : interp_op) (s : Interpolation) : outcome Interpolation :=
  match o with
  | OpProfile p => Done (setSpeedProfile p s)
  | OpOffset x y z e => Done (setPosOffset x y z e s)
  | OpResetOffset => Done (resetPosOffset s)
  | OpCurrent p => Done (setCurrentPos_point p s)
  | OpMove m p0 p1 v => Done (setInterpolation_points m p0 p1 v s)
  | OpMoveTo m p1 v => Done (setInterpolation_point m p1 v s)
  | OpUpdate m => updateActualPosition m s
  end.
Fixpoint interp_run (os : list interp_op) (s : Interpolation) : outcome Interpolation :=
  match os with [] => Done s | o :: os => s ← interp_step o s; interp_run os s end.

(** An update leaves the position or moves it to an allowed one; a refused point ends
    the interpolation there. *)
Lemma update_allowed m s s' : updateActualPosition m s = Done s' ->
  posmm s' = posmm s /\ (state s' = state s \/ state s' = 1) \/ isAllowedPosition (posmm s') = true.
Proof.
  unfold updateActualPosition. destruct (negb (state s =? 0)) eqn:E; [intros [= <-]; auto|].
  destruct (elapsed m (startTime s)) as [t|]; [|done]. cbn [mbind outcome_bind].
  destruct (progress_at (speed_profile s) t (tmul s)) as [[q over]|]; [|done]. cbn [mbind outcome_bind].
  destruct (isAllowedPosition _) eqn:Ea; intros [= <-]; [by right|left]. cbn. auto.
Qed.
Lemma interp_step_pos o s s' : interp_step o s = Done s' ->
  posmm s' = posmm s \/ isAllowedPosition (posmm s') = true.
Proof.
  destruct o; cbn [interp_step]; try (intros [= <-]; by left). intros Hu.
  destruct (update_allowed m s s' Hu) as [[? _]|]; auto.
Qed.
Lemma interp_run_pos os s s' : interp_run os s = Done s' ->
  posmm s' = posmm s \/ isAllowedPosition (posmm s') = true.
Proof.
  revert s. induction os as [|o os IH]; intros s; cbn [interp_run]; [intros [= <-]; by left|].
  intros Hr. apply outcome_bind_Done in Hr as (s1 & Hs1 & Hs2).
  destruct (interp_step_pos o s s1 Hs1) as [E1|E1], (IH s1 Hs2) as [E2|E2]; auto; [left|right]; congruence.
Qed.
End arm.
Arguments RobotGeometry : clear implicits.
Arguments Point : clear implicits.
Arguments Interpolation : clear implicits.
Arguments sketch : clear implicits.

(** A [math.h] for [float] with a correct square root; the profile below needs no angle. *)
Definition ex_libm : Libm f32 := {|
  hypot x y := F32 (SFsqrt 24 128 (sf32 (x * x + y * y)%F));
  sqrtf x := F32 (SFsqrt 24 128 (sf32 x));
  asin x := x;
  acos x := x;
  abs x := if (x <? 0)%F then (- x)%F else x;
  sq x := (x * x)%F;
  atan x := x;
  cos x := x;
  sqrt x := F64 (SFsqrt 53 1024 (sf64 x));
  sqd x := (x * x)%F;
  PI := f_lit 314159265358979 100000000000000;
|}.
(** Two seconds of a move at 20 mm/s from home, upwards, and one beyond the limits. *)
Definition ex_home : Point f32 := Pt 0%F (f_of_Z 167) (f_of_Z 120) 0%F.
Definition ex_ops : list (interp_op (F := f32)) :=
  [OpProfile 0; OpMove 0 ex_home (Pt 0%F (f_of_Z 167) (f_of_Z 180) 0%F) (f_of_Z 20);
   OpUpdate 1000000; OpUpdate 2000000].
