(* ===== verification/ArmExact.v ===== *)
(** * The arm in exact arithmetic

    The model of [Arm] over the real numbers, with the functions of [math.h] what they
    approximate: the joint angles put the gripper where it was asked to be, and what
    the sketch's [loop] makes of its targets. *)
From Stdlib Require Import Reals Lra Lia.
From S2P Require Import Prelude CFloat Arm.
#[local] Open Scope R_scope.

Definition r_ltb (x y : R) : bool := if Rlt_dec x y then true else false.
Definition r_leb (x y : R) : bool := if Rle_dec x y then true else false.
Definition r_eqb (x y : R) : bool := if Req_EM_T x y then true else false.
#[export] Instance r_ops : FloatOps R := {
  f_of_Z := IZR;
  f_lit n d := IZR n / IZR (Zpos d);
  f_add := Rplus;
  f_sub := Rminus;
  f_mul := Rmult;
  f_div := Rdiv;
  f_opp := Ropp;
  f_ltb := r_ltb;
  f_leb := r_leb;
  f_eqb := r_eqb;
  f_flt_max := IZR (16777215 * 2 ^ 104);
  f_trunc x := Some (if r_leb 0 x then Int_part x else (- Int_part (- x))%Z);
}.
#[export] Instance r_double : DoubleOf R := { dbl := R; widen x := x; narrow x := x }.
#[export] Instance r_libm : Libm R := {
  hypot x y := R_sqrt.sqrt (x * x + y * y);
  sqrtf := R_sqrt.sqrt;
  Arm.asin := Ratan.asin;
  Arm.acos := Ratan.acos;
  abs := Rabs;
  sq x := x * x;
  Arm.atan := Ratan.atan;
  Arm.cos := Rtrigo_def.cos;
  Arm.sqrt := R_sqrt.sqrt;
  sqd x := x * x;
  Arm.PI := Rtrigo1.PI;
}.

Lemma r_ltb_true x y : x < y -> r_ltb x y = true.
Proof. intros. unfold r_ltb. by destruct (Rlt_dec x y). Qed.
Lemma r_ltb_false x y : y <= x -> r_ltb x y = false.
Proof. intros. unfold r_ltb. destruct (Rlt_dec x y); [lra|done]. Qed.
Lemma r_leb_true x y : x <= y -> r_leb x y = true.
Proof. intros. unfold r_leb. by destruct (Rle_dec x y). Qed.
Lemma r_leb_false x y : y < x -> r_leb x y = false.
Proof. intros. unfold r_leb. destruct (Rle_dec x y); [lra|done]. Qed.
Lemma r_leb_spec x y : r_leb x y = true <-> x <= y.
Proof. unfold r_leb. by destruct (Rle_dec x y). Qed.

(** ** Two links and a triangle *)

Section triangle.
Context (l h r : R).
Hypothesis Hl : 0 < l.
Hypothesis Hh : 0 < h.
Hypothesis Hr : 0 < r.
Hypothesis closes : Rabs (l - h) <= r <= l + h.

(** The cosines of the angles at the shoulder and at the elbow. *)
Definition cos_inner : R := (l * l - h * h + r * r) / (2 * l * r).
Definition cos_outer : R := (l * l + h * h - r * r) / (2 * l * h).

Lemma ratio_bounds n d : 0 < d -> - d <= n <= d -> -1 <= n / d <= 1.
Proof.
  intros Hd Hn. split.
  - apply (Rmult_le_reg_r d); [done|]. unfold Rdiv. rewrite Rmult_assoc, Rinv_l by lra. lra.
  - apply (Rmult_le_reg_r d); [done|]. unfold Rdiv. rewrite Rmult_assoc, Rinv_l by lra. lra.
Qed.
Lemma sides : - (l - h) <= r /\ l - h <= r /\ r <= l + h.
Proof. destruct closes as [Ha ?]. unfold Rabs in Ha. destruct (Rcase_abs _); lra. Qed.
Lemma cos_inner_bounds : -1 <= cos_inner <= 1.
Proof.
  pose proof sides. apply ratio_bounds; [nra|].
  assert (0 <= (h - l + r) * (h + l - r)) by (apply Rmult_le_pos; lra).
  assert (0 <= (l + r - h) * (l + r + h)) by (apply Rmult_le_pos; lra). lra.
Qed.
Lemma cos_outer_bounds : -1 <= cos_outer <= 1.
Proof.
  pose proof sides. apply ratio_bounds; [nra|].
  assert (0 <= (r - l + h) * (r + l - h)) by (apply Rmult_le_pos; lra).
  assert (0 <= (l + h - r) * (l + h + r)) by (apply Rmult_le_pos; lra). lra.
Qed.

Lemma cos_acos_in x : -1 <= x <= 1 -> Rtrigo_def.cos (Ratan.acos x) = x.
Proof. apply cos_acos. Qed.
Lemma sin_acos_nonneg x : 0 <= Rtrigo_def.sin (Ratan.acos x).
Proof. destruct (acos_bound x). by apply sin_ge_0. Qed.

(** The law of sines, and the projection on the lower link. *)
Lemma law_of_sines : h * Rtrigo_def.sin (Ratan.acos cos_outer) = r * Rtrigo_def.sin (Ratan.acos cos_inner).
Proof.
  pose proof (sin_acos_nonneg cos_outer). pose proof (sin_acos_nonneg cos_inner).
  apply Rsqr_inj; [by apply Rmult_le_pos; lra..|]. rewrite !Rsqr_mult.
  rewrite !sin2, !cos_acos_in by (apply cos_outer_bounds || apply cos_inner_bounds).
  unfold Rsqr, cos_outer, cos_inner. field. lra.
Qed.
Lemma projection : l = h * cos_outer + r * cos_inner.
Proof. unfold cos_outer, cos_inner. field. lra. Qed.

(** The lower link at [low] from the vertical and the upper one at [high] end at
    distance [r] in direction [phi]. *)
Lemma two_links phi :
  let low := phi - Ratan.acos cos_inner in
  let high := Rtrigo1.PI - Ratan.acos cos_outer + low in
  l * Rtrigo_def.sin low + h * Rtrigo_def.sin high = r * Rtrigo_def.sin phi /\
  l * Rtrigo_def.cos low + h * Rtrigo_def.cos high = r * Rtrigo_def.cos phi.
Proof.
  pose proof law_of_sines as Hs. pose proof projection as Hp. intros low high.
  set (a := Ratan.acos cos_inner) in *. set (g := Ratan.acos cos_outer) in *.
  replace high with (Rtrigo1.PI - (g + (a - phi))) by (unfold high, low; ring).
  unfold low. rewrite sin_PI_x, Rtrigo_facts.cos_pi_minus, sin_plus, cos_plus, !sin_minus, !cos_minus.
  assert (Rtrigo_def.cos g = cos_outer) as -> by (apply cos_acos_in, cos_outer_bounds).
  assert (Rtrigo_def.cos a = cos_inner) as Ha by (apply cos_acos_in, cos_inner_bounds).
  pose proof (sin2_cos2 a) as H1. unfold Rsqr in H1. rewrite Ha in *.
  set (sa := Rtrigo_def.sin a) in *. set (sg := Rtrigo_def.sin g) in *.
  set (sp := Rtrigo_def.sin phi). set (cp := Rtrigo_def.cos phi). set (cg := cos_outer) in *. set (ca := cos_inner) in *.
  assert (r = r * (sa * sa + ca * ca)) as Hrr by (rewrite H1; ring).
  split.
  - transitivity (sp * ((l - h * cg) * ca + (h * sg) * sa) + cp * ((h * sg) * ca - (l - h * cg) * sa)); [ring|].
    rewrite Hs. replace (l - h * cg) with (r * ca) by lra. rewrite Hrr at 5. ring.
  - transitivity (cp * ((l - h * cg) * ca + (h * sg) * sa) - sp * ((h * sg) * ca - (l - h * cg) * sa)); [ring|].
    rewrite Hs. replace (l - h * cg) with (r * ca) by lra. rewrite Hrr at 5. ring.
Qed.
End triangle.

(** ** Forward kinematics *)

(** Where the links are for the angles of [g]: the lower one from the shoulder at
    [low] from the vertical, the upper one at [high], the gripper [ee_offset] further out. *)
Definition gripper (g : RobotGeometry R) : R * R * R :=
  let radius := low_shank_length g * Rtrigo_def.sin (getLowRad g)
                + high_shank_length g * Rtrigo_def.sin (getHighRad g) + ee_offset g in
  (radius * Rtrigo_def.sin (getRotRad g), radius * Rtrigo_def.cos (getRotRad g),
   low_shank_length g * Rtrigo_def.cos (getLowRad g) + high_shank_length g * Rtrigo_def.cos (getHighRad g)).

Lemma sqrt_sum_pos a b : 0 < a * a + b * b -> 0 < R_sqrt.sqrt (a * a + b * b).
Proof. apply sqrt_lt_R0. Qed.
Lemma sqrt_sum_sq a b : R_sqrt.sqrt (a * a + b * b) * R_sqrt.sqrt (a * a + b * b) = a * a + b * b.
Proof. apply sqrt_sqrt. nra. Qed.

(** A side of a right triangle over the other side's cosine. *)
Lemma side_bounds a b r : 0 < r -> r * r = a * a + b * b -> -1 <= a / r <= 1.
Proof. intros Hr He. apply ratio_bounds; [done|]. nra. Qed.
Lemma other_side a b r : 0 < r -> r * r = a * a + b * b -> 0 <= b ->
  R_sqrt.sqrt (1 - (a / r) * (a / r)) = b / r.
Proof.
  intros Hr He Hb. apply sqrt_lem_1.
  - pose proof (side_bounds a b r Hr He). nra.
  - apply Rmult_le_pos; [done|]. left. by apply Rinv_0_lt_compat.
  - replace (1 - a / r * (a / r)) with ((r * r - a * a) / (r * r)) by (field; lra).
    rewrite He. replace (a * a + b * b - a * a) with (b * b) by ring. rewrite <- He. field. lra.
Qed.
Lemma sin_asin_side a b r : 0 < r -> r * r = a * a + b * b -> Rtrigo_def.sin (Ratan.asin (a / r)) = a / r.
Proof. intros Hr He. apply sin_asin. by apply (side_bounds a b). Qed.
Lemma cos_asin_side a b r : 0 < r -> r * r = a * a + b * b -> 0 <= b ->
  Rtrigo_def.cos (Ratan.asin (a / r)) = b / r.
Proof.
  intros Hr He Hb. rewrite cos_asin by by apply (side_bounds a b). unfold Rsqr. by apply other_side.
Qed.
Lemma sin_acos_side a b r : 0 < r -> r * r = a * a + b * b -> 0 <= b ->
  Rtrigo_def.sin (Ratan.acos (a / r)) = b / r.
Proof.
  intros Hr He Hb. rewrite sin_acos by by apply (side_bounds a b). unfold Rsqr. by apply other_side.
Qed.

(** The direction [calculateGrad] starts from, by the sign of [z]. *)
Definition direction (rr z r : R) : R :=
  if r_ltb 0 z then Ratan.acos (z / r) else Rtrigo1.PI - Ratan.asin (rr / r).
Lemma direction_ok rr z r : 0 < r -> r * r = rr * rr + z * z -> 0 <= rr \/ z <= 0 ->
  r * Rtrigo_def.sin (direction rr z r) = rr /\ r * Rtrigo_def.cos (direction rr z r) = z.
Proof.
  intros Hr He Hd. unfold direction, r_ltb. destruct (Rlt_dec 0 z).
  - assert (r * r = z * z + rr * rr) as He' by lra.
    rewrite (sin_acos_side z rr r) by lra. rewrite cos_acos_in by by apply (side_bounds z rr).
    split; field; lra.
  - assert (r * r = rr * rr + - z * - z) as He' by lra.
    rewrite sin_PI_x, Rtrigo_facts.cos_pi_minus.
    rewrite (sin_asin_side rr (- z) r), (cos_asin_side rr (- z) r) by lra. split; field; lra.
Qed.

Section solve.
Context (g : RobotGeometry R) (x y z : R).
Let l := low_shank_length g.
Let h := high_shank_length g.
Let rr := R_sqrt.sqrt (x * x + y * y) - ee_offset g.
Let rs := R_sqrt.sqrt (rr * rr + z * z).
Hypothesis Hl : 0 < l.
Hypothesis Hh : 0 < h.
Hypothesis Hy : 0 < y.
Hypothesis Hrs : 0 < rs.
Hypothesis Hcl : Rabs (l - h) <= rs <= l + h.

Lemma rs_sq : rs * rs = rr * rr + z * z.
Proof. apply sqrt_sum_sq. Qed.

(** The links end in the direction [calculateGrad] starts from. *)
Lemma gripper_set :
  let radius := rs * Rtrigo_def.sin (direction rr z rs) + ee_offset g in
  let ree := rr + ee_offset g in
  gripper (set x y z g) = (radius * (x / ree), radius * (y / ree), rs * Rtrigo_def.cos (direction rr z rs)).
Proof.
  intros radius ree. assert (ree = R_sqrt.sqrt (x * x + y * y)) as Hree by (unfold ree, rr; ring).
  assert (ree * ree = x * x + y * y) as He2 by (rewrite Hree; apply sqrt_sum_sq).
  assert (0 < ree) as He by (rewrite Hree; apply sqrt_sum_pos; nra).
  destruct (two_links l h rs Hl Hh Hrs Hcl (direction rr z rs)) as [H1 H2].
  set (lo := direction rr z rs - Ratan.acos (cos_inner l h rs)) in *.
  set (hi := Rtrigo1.PI - Ratan.acos (cos_outer l h rs) + lo) in *.
  assert (getLowRad (set x y z g) = lo) as Hlo.
  { unfold lo, direction, getLowRad, set, calculateGrad. cbn -[R_sqrt.sqrt Ratan.acos Ratan.asin].
    fold l h. fold rr. fold rs. unfold cos_inner. by destruct (r_ltb 0 z). }
  assert (getHighRad (set x y z g) = hi) as Hhi by (unfold hi; rewrite <- Hlo; reflexivity).
  assert (getRotRad (set x y z g) = Ratan.asin (x / ree)) as Hrot by (rewrite Hree; reflexivity).
  unfold gripper. rewrite Hlo, Hhi, Hrot.
  change (low_shank_length (set x y z g)) with l. change (high_shank_length (set x y z g)) with h.
  change (ee_offset (set x y z g)) with (ee_offset g).
  by rewrite H1, H2, (sin_asin_side x y ree), (cos_asin_side x y ree) by lra.
Qed.

Lemma set_solves : 0 <= rr \/ z <= 0 -> gripper (set x y z g) = (x, y, z).
Proof.
  intros Hd. destruct (direction_ok rr z rs Hrs rs_sq Hd) as [H1 H2].
  rewrite gripper_set. cbv zeta. rewrite H1, H2.
  assert (0 < rr + ee_offset g). { unfold rr. ring_simplify (R_sqrt.sqrt (x * x + y * y) - ee_offset g + ee_offset g).
    apply sqrt_sum_pos. nra. }
  f_equal. f_equal; field; lra.
Qed.

(** A wrist above and behind the shoulder: the angles are those of the point mirrored to
    the front. *)
Lemma set_mirrors : rr < 0 -> 0 < z -> x = 0 -> gripper (set x y z g) = (0, 2 * ee_offset g - y, z).
Proof.
  intros Hrr Hz Hx. rewrite gripper_set. cbv zeta.
  assert (rs * rs = - rr * - rr + z * z) as Hsq by (rewrite rs_sq; ring).
  destruct (direction_ok (- rr) z rs Hrs Hsq) as [H1 H2]; [lra|].
  assert (direction rr z rs = direction (- rr) z rs) as -> by (unfold direction; by rewrite r_ltb_true).
  rewrite H1, H2. assert (rr + ee_offset g = y) as He.
  { unfold rr. rewrite Hx. replace (0 * 0 + y * y) with (y * y) by ring. rewrite sqrt_square by lra. ring. }
  rewrite He, Hx. replace rr with (y - ee_offset g) by lra. f_equal. f_equal; field; lra.
Qed.
End solve.

(** C7: The joint angles computed for a point put the gripper exactly at that point, in
    exact arithmetic: whenever the point is in front of the robot, the two links can
    reach from shoulder to wrist, and the wrist is not both above and behind the
    shoulder. *)
Theorem calculateGrad_solves (g : RobotGeometry R) x y z :
  let l := low_shank_length g in
  let h := high_shank_length g in
  let rr := R_sqrt.sqrt (x * x + y * y) - ee_offset g in
  let rs := R_sqrt.sqrt (rr * rr + z * z) in
  0 < l -> 0 < h -> 0 < y -> 0 < rs -> Rabs (l - h) <= rs <= l + h -> 0 <= rr \/ z <= 0 ->
  gripper (set x y z g) = (x, y, z).
Proof. intros. by apply set_solves. Qed.

(** ** The limits of [config.h] *)

Lemma hypot_exact a b : hypot a b = R_sqrt.sqrt (a * a + b * b).
Proof. done. Qed.
Lemma limit_sq c : -1 <= c <= 1 -> sqd (R_LIMIT (F := R) c) = 28800 * (1 - c).
Proof.
  intros Hc. unfold R_LIMIT. cbn -[R_sqrt.sqrt]. rewrite sqrt_sqrt by lra. lra.
Qed.

(** What the limits leave of the radius and the height. *)
Lemma allowed_exact (p : Point R) : 0 < p_xmm p * p_xmm p + p_ymm p * p_ymm p ->
  let rr := R_sqrt.sqrt (p_xmm p * p_xmm p + p_ymm p * p_ymm p) - 47 in
  isAllowedPosition p = true <->
  28800 * (1 - 791436948 / 1000000000) <= rr * rr + p_zmm p * p_zmm p
    <= 28800 * (1 + 774944489 / 1000000000) /\ -140 <= p_zmm p <= 150.
Proof.
  intros Hy rr. unfold isAllowedPosition. rewrite hypot_exact. cbv zeta.
  set (ree := R_sqrt.sqrt (p_xmm p * p_xmm p + p_ymm p * p_ymm p)) in *.
  assert (ree * ree = p_xmm p * p_xmm p + p_ymm p * p_ymm p) as He by apply sqrt_sum_sq.
  assert (0 < ree) by (by apply sqrt_sum_pos).
  unfold R_MAX, R_MIN. rewrite !limit_sq by (unfold SHANKS_MIN_ANGLE_COS, SHANKS_MAX_ANGLE_COS; cbn; lra).
  rewrite !andb_true_iff. unfold SHANKS_MIN_ANGLE_COS, SHANKS_MAX_ANGLE_COS, Z_MIN, Z_MAX, END_EFFECTOR_OFFSET,
    LOW_SHANK_LENGTH. cbn. rewrite !r_leb_spec. fold rr.
  assert (rr * (p_ymm p / ree) * (rr * (p_ymm p / ree)) + rr * (p_xmm p / ree) * (rr * (p_xmm p / ree)) = rr * rr) as ->.
  { transitivity (rr * rr * ((p_ymm p * p_ymm p + p_xmm p * p_xmm p) / (ree * ree))); [field; lra|].
    rewrite (Rplus_comm (p_ymm p * p_ymm p)), <- He. field. lra. }
  lra.
Qed.

(** In [float] the height has passed the comparisons with the limits, which no NaN does. *)
Lemma allowed_float (L : Libm f32) (p : Point f32) : isAllowedPosition p = true ->
  (f_of_Z (-140) <=? widen (p_zmm p))%F = true /\ (widen (p_zmm p) <=? f_of_Z 150)%F = true /\
  sf32 (p_zmm p) <> SpecFloat.S754_nan.
Proof.
  unfold isAllowedPosition. cbv zeta. rewrite !andb_true_iff. intros [[_ Hl] Hh].
  split; [exact Hl|]. split; [exact Hh|]. intros Hn. destruct (p_zmm p) as [z]. cbn in Hn. subst z. discriminate Hl.
Qed.

(** C21: Whatever sequence of calls is made on the interpolator (positions, targets,
    speeds, profiles and clock readings of any value), once the position it reports is
    not the one it started with: in float, NaN and infinities included among the values,
    its height is no NaN and lies between -140 and 150 mm in the comparisons the FPU
    makes; in exact arithmetic and off the vertical axis, the height lies between -140
    and 150 mm and the square of the wrist's distance from the shoulder, 47 mm inside
    the reported radius, between 28800 * (1 - 0.791436948) and 28800 * (1 + 0.774944489)
    mm2. *)
Theorem interpolator_stays_in_limits :
  (forall (L : Libm f32) os (s s' : Interpolation f32), interp_run os s = Done s' -> posmm s' <> posmm s ->
    let z := p_zmm (posmm s') in
    (f_of_Z (-140) <=? widen z)%F = true /\ (widen z <=? f_of_Z 150)%F = true /\ sf32 z <> SpecFloat.S754_nan) /\
  (forall os (s s' : Interpolation R), interp_run os s = Done s' -> posmm s' <> posmm s ->
    let p := posmm s' in
    let axis := R_sqrt.sqrt (p_xmm p * p_xmm p + p_ymm p * p_ymm p) in
    0 < axis ->
    28800 * (1 - 791436948 / 1000000000) <= (axis - 47) * (axis - 47) + p_zmm p * p_zmm p
      <= 28800 * (1 + 774944489 / 1000000000) /\ -140 <= p_zmm p <= 150).
Proof.
  split.
  - intros L os s s' Hr Hne. destruct (interp_run_pos os s s' Hr) as [|Ha]; [done|]. by apply (allowed_float L).
  - intros os s s' Hr Hne p axis Hx. destruct (interp_run_pos os s s' Hr) as [|Ha]; [done|].
    apply allowed_exact; [|done]. pose proof (sqrt_sum_sq (p_xmm p) (p_ymm p)) as Hs. fold axis in Hs. fold p. nra.
Qed.
Lemma interpolator_stays_in_limits_witness :
  exists s', interp_run (H1 := ex_libm) ex_ops Interpolation_new = Done s' /\
  p_zmm (posmm s') = f_of_Z 140 /\ isFinished s' = true /\ (widen (p_zmm (posmm s')) <=? f_of_Z 150)%F = true.
Proof.
  eexists. split; [vm_compute; reflexivity|]. split; [vm_compute; reflexivity|]. split; [vm_compute; reflexivity|].
  eapply (proj1 interpolator_stays_in_limits ex_libm ex_ops Interpolation_new); [vm_compute; reflexivity|].
  vm_compute. discriminate.
Defined.

(** A point the interpolator lets through is solved by the geometry of the sketch. *)
Definition of_sketch (g : RobotGeometry R) : Prop :=
  low_shank_length g = 120 /\ high_shank_length g = 120 /\ ee_offset g = 47.
Lemma allowed_solved g (p : Point R) : of_sketch g -> 0 < p_ymm p ->
  47 <= R_sqrt.sqrt (p_xmm p * p_xmm p + p_ymm p * p_ymm p) \/ p_zmm p <= 0 ->
  isAllowedPosition p = true ->
  gripper (set (p_xmm p) (p_ymm p) (p_zmm p) g) = (p_xmm p, p_ymm p, p_zmm p).
Proof.
  intros (Hl & Hh & Hee) Hy Hd Ha. apply allowed_exact in Ha as [Hr Hz]; [|nra].
  set (rr := R_sqrt.sqrt (p_xmm p * p_xmm p + p_ymm p * p_ymm p) - 47) in *.
  pose proof (sqrt_sum_sq rr (p_zmm p)) as Hs. pose proof (sqrt_pos (rr * rr + p_zmm p * p_zmm p)) as Hp.
  apply set_solves; rewrite ?Hl, ?Hh, ?Hee; fold rr; try lra.
  - apply sqrt_sum_pos. lra.
  - replace (120 - 120) with 0 by ring. rewrite Rabs_R0. split; [lra|]. nra.
  - unfold rr. destruct Hd; [left; lra|by right].
Qed.

(** ** Angles and pulses *)

Lemma trunc_near (x : R) : exists n, f_trunc x = Some n /\ Rabs (IZR n - x) < 1.
Proof.
  cbn. eexists. split; [done|]. unfold r_leb. destruct (Rle_dec 0 x).
  - destruct (base_Int_part x). apply Rabs_def1; lra.
  - destruct (base_Int_part (- x)). rewrite opp_IZR. apply Rabs_def1; lra.
Qed.
Lemma to_int32_near (x : R) : Rabs x <= 1000000 -> exists n, to_int32 x = Done n /\
  Rabs (IZR n - x) < 1 /\ (-1000001 <= n <= 1000001)%Z.
Proof.
  intros Hx. destruct (trunc_near x) as (n & Hn & Hd).
  assert (-1000001 <= n <= 1000001)%Z as Hb.
  { apply Rabs_def2 in Hd. assert (-1000000 <= x <= 1000000) by (unfold Rabs in Hx; destruct (Rcase_abs x); lra). split; apply le_IZR; lra. }
  exists n. split; [|done]. unfold to_int32, f_to_int. rewrite Hn. by rewrite decide_True by lia.
Qed.

Lemma acos_range x : 0 <= Ratan.acos x <= Rtrigo1.PI.
Proof. apply acos_bound. Qed.
Lemma asin_range x : - Rtrigo1.PI / 2 <= Ratan.asin x <= Rtrigo1.PI / 2.
Proof. pose proof (asin_bound x). lra. Qed.
Lemma angles_range (g : RobotGeometry R) x y z :
  - Rtrigo1.PI <= getLowRad (set x y z g) <= 2 * Rtrigo1.PI /\
  - Rtrigo1.PI <= getHighRad (set x y z g) <= 3 * Rtrigo1.PI.
Proof.
  unfold getLowRad, getHighRad, set, calculateGrad. cbn -[R_sqrt.sqrt Ratan.acos Ratan.asin].
  pose proof PI_RGT_0.
  repeat match goal with |- context [Ratan.acos ?q] => pose proof (acos_range q); generalize dependent (Ratan.acos q); intros end.
  repeat match goal with |- context [Ratan.asin ?q] => pose proof (asin_range q); generalize dependent (Ratan.asin q); intros end.
  destruct (r_ltb 0 z); lra.
Qed.

Lemma step_factor_exact : step_factor (F := R) = 7200 / Rtrigo1.PI.
Proof.
  unfold step_factor. cbn. change (16 * 200)%Z with 3200%Z. pose proof PI_RGT_0. field. lra.
Qed.
Lemma pulse_range a : - Rtrigo1.PI <= a <= 3 * Rtrigo1.PI -> Rabs (a * step_factor (F := R)) <= 1000000.
Proof.
  intros Ha. rewrite step_factor_exact. pose proof PI_RGT_0 as Hp.
  replace (a * (7200 / Rtrigo1.PI)) with (7200 * (a / Rtrigo1.PI)) by (field; lra).
  assert (-1 <= a / Rtrigo1.PI <= 3).
  { split; apply (Rmult_le_reg_r Rtrigo1.PI); try done; unfold Rdiv; rewrite Rmult_assoc, Rinv_l by lra; lra. }
  apply Rabs_le. lra.
Qed.

(** ** A pass of [loop] *)

(** The clock's readings and the targets of a pass. *)
Record pass := Pass { clock0 : Z; clock1 : Z; to_y : R; to_z : R }.
Definition delay_us (p : pass) : Z := (s32 (clock1 p) - s32 (clock0 p))%Z.
Definition do_pass (p : pass) (k : sketch R) : outcome (sketch R) :=
  loop (clock0 p) (clock1 p) (to_y p) (to_z p) k.
Fixpoint do_passes (ps : list pass) (k : sketch R) : outcome (sketch R) :=
  match ps with [] => Done k | p :: ps => k ← do_pass p k; do_passes ps k end.

(** Where the interpolator is heading. *)
Definition heading (s : Interpolation R) : Point R := zip_point Rplus (startmm s) (deltamm s).
Definition aim_of (p : pass) : Point R := Pt 0 (to_y p) (to_z p) 0.

(** On the way from [a] to [b], at most [d] from [a] in each coordinate of space. *)
Definition on_way (a b : Point R) (d : R) (c : Point R) : Prop :=
  exists q, 0 <= q <= 1 /\
    c = zip_point Rplus a (zip_point Rmult (Pt q q q q) (zip_point Rminus b a)) /\
    Rabs (p_xmm c - p_xmm a) <= d /\ Rabs (p_ymm c - p_ymm a) <= d /\ Rabs (p_zmm c - p_zmm a) <= d.

Lemma component_dist a b c dist : dist * dist >= a * a + b * b + c * c -> 0 <= dist ->
  Rabs a <= dist /\ Rabs b <= dist /\ Rabs c <= dist.
Proof. intros Hd H0. repeat split; apply Rabs_le; nra. Qed.

(** The speed is 5 mm/s: what part of the line is done after [t] seconds. *)
Lemma progress_flat t dist : 0 <= t -> 0 <= dist -> exists q over,
  progress_at 0 t (5 / dist) = Done (q, over) /\ 0 <= q <= 1 /\
  forall a, Rabs a <= dist -> Rabs (q * a) <= 5 * t.
Proof.
  intros Ht Hd. unfold progress_at. cbn match.
  change (widen (t * (5 / dist))%F) with (t * (5 / dist)). change ((t * (5 / dist))%F) with (t * (5 / dist)).
  assert (0 <= t * (5 / dist)) as Hq.
  { apply Rmult_le_pos; [done|]. apply Rmult_le_pos; [lra|].
    destruct (Req_dec dist 0) as [->|]; [rewrite Rinv_0; lra|]. left. apply Rinv_0_lt_compat. lra. }
  assert (forall q a, 0 <= q <= t * (5 / dist) -> Rabs a <= dist -> Rabs (q * a) <= 5 * t) as Hbound.
  { intros q a Hqq Ha. rewrite Rabs_mult, (Rabs_pos_eq q) by lra.
    destruct (Req_dec dist 0) as [Hz|Hnz].
    - assert (Rabs a = 0) as -> by (pose proof (Rabs_pos a); lra). lra.
    - apply Rle_trans with (t * (5 / dist) * dist); [|right; field; lra].
      apply Rmult_le_compat; try lra. apply Rabs_pos. }
  unfold f_leb. cbn -[Rdiv Rmult]. unfold r_leb. destruct (Rle_dec 1 (t * (5 / dist))).
  - exists 1, true. split; [done|]. split; [lra|]. intros a Ha. apply Hbound; [lra|done].
  - exists (t * (5 / dist)), false. split; [done|]. split; [lra|]. intros a Ha. apply Hbound; [lra|done].
Qed.

Lemma heading_aim p s m v : heading (setInterpolation_point m p v s) = p.
Proof.
  unfold heading, setInterpolation_point, setInterpolation_points. cbv zeta.
  destruct p as [px py pz pe]. unfold zip_point. cbn -[Rplus Rminus]. f_equal; ring.
Qed.

(** The interpolator's part of a pass. *)
Lemma update_pass p s : speed_profile s = 0%Z -> (0 <= delay_us p < 2 ^ 31)%Z -> exists c s',
  updateActualPosition (clock1 p) (setInterpolation (clock0 p) 0 (to_y p) (to_z p) 0 5 s) = Done s' /\
  on_way (heading s) (aim_of p) (5 * (IZR (delay_us p) / 1000000)) c /\ speed_profile s' = 0%Z /\
  (if isAllowedPosition c then posmm s' = c /\ heading s' = aim_of p
   else posmm s' = posmm s /\ heading s' = posmm s).
Proof.
  intros Hp Hd. set (s1 := setInterpolation _ _ _ _ _ _ _).
  pose proof (heading_aim (aim_of p) s (clock0 p) 5) as Hh. change (setInterpolation_point _ _ _ _) with s1 in Hh.
  set (D := zip_point Rminus (aim_of p) (heading s)).
  set (dist0 := R_sqrt.sqrt (p_xmm D * p_xmm D + p_ymm D * p_ymm D + p_zmm D * p_zmm D)).
  set (e := Rabs (p_emm D)). set (dist := if r_ltb dist0 e then e else dist0).
  assert (tmul s1 = 5 / dist) as Ht.
  { unfold s1, setInterpolation, setInterpolation_point, setInterpolation_points. cbv zeta. cbn -[R_sqrt.sqrt Rdiv].
    rewrite (r_ltb_false 5 5) by lra. rewrite (r_ltb_false 5 5) by lra. reflexivity. }
  assert (0 <= dist0) as Hd0 by apply sqrt_pos.
  assert (dist0 <= dist) as Hdd by (unfold dist, r_ltb; destruct (Rlt_dec dist0 e); lra).
  assert (dist0 * dist0 = p_xmm D * p_xmm D + p_ymm D * p_ymm D + p_zmm D * p_zmm D) as Hsq
    by (apply sqrt_sqrt; nra).
  assert (dist0 * dist0 <= dist * dist) by (apply Rmult_le_compat; lra).
  destruct (component_dist (p_xmm D) (p_ymm D) (p_zmm D) dist) as (Hx & Hy & Hz); [lra|lra|].
  destruct (progress_flat (IZR (delay_us p) / 1000000) dist) as (q & over & Hq & Hq01 & Hb); [|lra|].
  { apply Rmult_le_pos; [|lra]. apply IZR_le. lia. }
  set (c := zip_point Rplus (heading s) (zip_point Rmult (Pt q q q q) D)).
  unfold updateActualPosition. change (state s1) with 0%Z. cbn [negb Z.eqb].
  assert (elapsed (clock1 p) (startTime s1) = Done (IZR (delay_us p) / 1000000)) as ->.
  { unfold elapsed. change (startTime s1) with (s32 (clock0 p)). fold (delay_us p).
    rewrite int_result_ok by lia. reflexivity. }
  cbn [mbind outcome_bind]. change (speed_profile s1) with (speed_profile s). rewrite Hp, Ht, Hq. cbn [mbind outcome_bind].
  change (zip_point f_add (startmm s1) _) with c.
  exists c. eexists. split; [done|]. split; [|split; [by destruct (isAllowedPosition c)|]].
  - exists q. split; [done|]. split; [done|]. unfold c. cbn -[Rplus Rminus Rmult Rdiv delay_us].
    split_and!; match goal with |- Rabs (?u + ?w - ?u) <= _ => replace (u + w - u) with w by ring end; by apply Hb.
  - destruct (isAllowedPosition c); [done|]. split; [done|]. unfold heading. cbn.
    destruct (posmm s) as [a1 a2 a3 a4]. unfold zip_point. cbn. f_equal; ring.
Qed.

(** ** Passes after [setup] *)

(** In the plane of the arm, not behind the shoulder, within the limits. *)
Record good (c : Point R) : Prop := Good {
  good_x : p_xmm c = 0;
  good_y : 47 <= p_ymm c;
  good_allowed : isAllowedPosition c = true;
}.
(** A pass with at most 0.1 s between its readings of the clock, and such a target. *)
Record pass_ok (p : pass) : Prop := PassOk {
  prompt : (0 <= delay_us p <= 100000)%Z;
  ahead : 47 <= to_y p;
}.
Definition home : Point R := Pt 0 167 120 0.

(** The pulse counts are within one of what turns the joints to the angles that hold
    the gripper at the interpolator's position; the upper joint starts at 3600. *)
Record at_pulses (k : sketch R) : Prop := AtPulses {
  at_big : Rabs (IZR (abig_arm_pulse k) - getLowRad (geometry k) * (7200 / Rtrigo1.PI)) < 1;
  at_small : Rabs (IZR (asmall_arm_pulse k + 3600) - getHighRad (geometry k) * (7200 / Rtrigo1.PI)) < 1;
  at_gripper : let c := posmm (interpolator k) in gripper (geometry k) = (p_xmm c, p_ymm c, p_zmm c);
}.

Record sketch_inv (k : sketch R) : Prop := SketchInv {
  inv_geometry : of_sketch (geometry k);
  inv_factor : radToStepFactor k = step_factor;
  inv_profile : speed_profile (interpolator k) = 0%Z;
  inv_heading_x : p_xmm (heading (interpolator k)) = 0;
  inv_heading_y : 47 <= p_ymm (heading (interpolator k));
  inv_pos : good (posmm (interpolator k)) \/ heading (interpolator k) = home;
  inv_pulses : (-1010000 <= abig_arm_pulse k <= 1010000 /\ -1010000 <= asmall_arm_pulse k <= 1010000)%Z;
}.

Lemma near_home c : p_xmm c = 0 -> Rabs (p_ymm c - 167) <= 1 / 2 -> Rabs (p_zmm c - 120) <= 1 / 2 ->
  isAllowedPosition c = true.
Proof.
  intros Hx Hy Hz.
  assert (166.5 <= p_ymm c <= 167.5) by (unfold Rabs in Hy; destruct (Rcase_abs _); lra).
  assert (119.5 <= p_zmm c <= 120.5) by (unfold Rabs in Hz; destruct (Rcase_abs _); lra).
  apply allowed_exact; [nra|]. rewrite Hx. replace (0 * 0 + p_ymm c * p_ymm c) with (p_ymm c * p_ymm c) by ring.
  rewrite sqrt_square by lra. split; [|lra]. nra.
Qed.

Lemma on_way_plane a p d c : on_way a (aim_of p) d c -> p_xmm a = 0 -> 47 <= p_ymm a -> 47 <= to_y p ->
  p_xmm c = 0 /\ 47 <= p_ymm c.
Proof.
  intros (q & Hq & -> & _) Hx Hy Ht. cbn -[Rplus Rminus Rmult]. rewrite Hx. split; [ring|].
  assert (0 <= q * (to_y p - 47)) by (apply Rmult_le_pos; lra).
  assert (0 <= (1 - q) * (p_ymm a - 47)) by (apply Rmult_le_pos; lra). lra.
Qed.

Lemma do_pass_ok p k : pass_ok p -> sketch_inv k -> exists k', do_pass p k = Done k' /\
  sketch_inv k' /\ good (posmm (interpolator k')) /\ at_pulses k'.
Proof.
  intros [Hd Ht] [Hg Hf Hp Hhx Hhy Hpos _]. destruct (update_pass p (interpolator k) Hp) as (c & s' & Hu & Hc & Hp' & Ha); [lia|].
  destruct (on_way_plane _ _ _ _ Hc Hhx Hhy Ht) as [Hcx Hcy].
  assert (good (posmm s') /\ p_xmm (heading s') = 0 /\ 47 <= p_ymm (heading s')) as (Hgood & Hx' & Hy').
  { destruct (isAllowedPosition c) eqn:E; destruct Ha as [-> ->]; [by split_and!|].
    destruct Hpos as [Hgd|Hhome]; [by destruct Hgd; split_and!|]. exfalso.
    destruct Hc as (q & _ & _ & _ & Hdy & Hdz). rewrite Hhome in Hdy, Hdz. cbn [p_ymm p_zmm home] in *.
    assert (IZR (delay_us p) <= 100000) by (apply IZR_le; lia).
    rewrite near_home in E; [done|done|lra|lra]. }
  unfold do_pass, loop. cbv zeta.
  change (setInterpolation _ _ _ _ _ _ _) with (setInterpolation (clock0 p) 0 (to_y p) (to_z p) 0 5 (interpolator k)).
  rewrite Hu. cbn [mbind outcome_bind].
  set (g := set (getXPosmm s') (getYPosmm s') (getZPosmm s') (geometry k)).
  destruct (angles_range (geometry k) (getXPosmm s') (getYPosmm s') (getZPosmm s')) as [Hlow Hhigh].
  fold g in Hlow, Hhigh. pose proof PI_RGT_0. rewrite Hf.
  destruct (to_int32_near (getLowRad g * step_factor)%F) as (n1 & -> & Hn1 & Hb1); [apply pulse_range; lra|].
  destruct (to_int32_near (getHighRad g * step_factor)%F) as (n2 & -> & Hn2 & Hb2); [apply pulse_range; lra|].
  cbn [mbind outcome_bind]. rewrite int_result_ok by lia. cbn [mbind outcome_bind].
  change (?u * ?w)%F with (u * w) in Hn1, Hn2. rewrite step_factor_exact in Hn1, Hn2.
  eexists. split; [done|]. split; [split; try done; [by left|cbn; lia]|]. split; [done|]. split; try done.
  - cbn [asmall_arm_pulse geometry]. by replace (n2 - 3600 + 3600)%Z with n2 by lia.
  - cbn [interpolator geometry]. destruct Hgood as [Hgx Hgy Hga].
    assert (R_sqrt.sqrt (p_xmm (posmm s') * p_xmm (posmm s') + p_ymm (posmm s') * p_ymm (posmm s')) = p_ymm (posmm s')) as Hsq.
    { rewrite Hgx. replace (0 * 0 + p_ymm (posmm s') * p_ymm (posmm s')) with (p_ymm (posmm s') * p_ymm (posmm s')) by ring.
      apply sqrt_square. lra. }
    apply allowed_solved; [done|lra|left; rewrite Hsq; lra|done].
Qed.

Lemma setup_inv m : sketch_inv (setup m sketch_new).
Proof.
  assert (heading (interpolator (setup m (sketch_new (F := R)))) = home) as Hh.
  { unfold heading, home, zip_point. cbn -[Rplus Rminus]. unfold LOW_SHANK_LENGTH, HIGH_SHANK_LENGTH, END_EFFECTOR_OFFSET,
      INITIAL_Y, INITIAL_Z, LOW_SHANK_LENGTH, HIGH_SHANK_LENGTH, END_EFFECTOR_OFFSET. cbn -[Rplus Rminus]. f_equal; ring. }
  split; try done; rewrite ?Hh; cbn; try lra. by right.
Qed.

Lemma do_passes_inv ps k : Forall pass_ok ps -> sketch_inv k -> exists k', do_passes ps k = Done k' /\
  sketch_inv k' /\ (ps <> [] -> good (posmm (interpolator k')) /\ at_pulses k').
Proof.
  intros Hps. revert k. induction Hps as [|p ps Hp _ IH]; intros k Hk; cbn [do_passes]; [by exists k|].
  destruct (do_pass_ok p k Hp Hk) as (k1 & -> & Hk1 & Hgood & Hat). cbn [mbind outcome_bind].
  destruct (IH k1 Hk1) as (k' & He & Hk' & Hne). exists k'. split; [done|]. split; [done|]. intros _.
  destruct ps; [|by apply Hne]. cbn in He. by injection He as <-.
Qed.

(** In exact arithmetic, from setup on and for any targets at or ahead of the
    gripper's offset, every pass of loop that is not held up for 0.1 s returns, with the
    arm's position inside the limits of config.h and both pulse counts within one step
    of the joint angles that hold the gripper exactly there. *)
Theorem arm_pulses_reach m ps : ps <> [] -> Forall pass_ok ps ->
  exists k, do_passes ps (setup m sketch_new) = Done k /\ good (posmm (interpolator k)) /\ at_pulses k.
Proof.
  intros Hne Hps. destruct (do_passes_inv ps _ Hps (setup_inv m)) as (k & Hr & _ & Hk).
  exists k. split; [done|]. by apply Hk.
Qed.

Definition near (d : R) (a c : Point R) : Prop :=
  Rabs (p_xmm c - p_xmm a) <= d /\ Rabs (p_ymm c - p_ymm a) <= d /\ Rabs (p_zmm c - p_zmm a) <= d.
Lemma near_refl d a : 0 <= d -> near d a a.
Proof. intros Hd. unfold near. rewrite !Rminus_diag_eq by done. rewrite Rabs_R0. lra. Qed.

(** What a pass leaves, for its position and for the next pass. *)
Lemma do_pass_moves p k k' : pass_ok p -> sketch_inv k -> do_pass p k = Done k' ->
  (near (5 * (IZR (delay_us p) / 1000000)) (heading (interpolator k)) (posmm (interpolator k'))
     /\ heading (interpolator k') = aim_of p) \/
  (posmm (interpolator k') = posmm (interpolator k) /\
   heading (interpolator k') = posmm (interpolator k)).
Proof.
  intros [Hd Ht] Hk. destruct (update_pass p (interpolator k) (inv_profile k Hk)) as (c & s' & Hu & Hc & _ & Ha); [lia|].
  unfold do_pass, loop. cbv zeta.
  change (setInterpolation _ _ _ _ _ _ _) with (setInterpolation (clock0 p) 0 (to_y p) (to_z p) 0 5 (interpolator k)).
  rewrite Hu. cbn [mbind outcome_bind]. intros Hr.
  apply outcome_bind_Done in Hr as (n1 & _ & Hr). apply outcome_bind_Done in Hr as (n2 & _ & Hr).
  apply outcome_bind_Done in Hr as (n3 & _ & Hr). injection Hr as <-. cbn [interpolator].
  destruct Hc as (_ & _ & _ & Hc). destruct (isAllowedPosition c); destruct Ha as [-> Hh]; [by left|by right].
Qed.

(** C22: In exact arithmetic, a pass of loop does not move the arm towards its own
    target: up to 5 mm/s times the microseconds between its two readings of the clock,
    it puts the arm on the target of the pass before it, in one jump, or leaves it where
    it was. *)
Theorem arm_jumps_one_pass_late m ps p q : Forall pass_ok (ps ++ [p; q]) ->
  exists k1 k2, do_passes (ps ++ [p]) (setup m sketch_new) = Done k1 /\ do_pass q k1 = Done k2 /\
    let d := 5 * (IZR (delay_us q) / 1000000) in
    near d (aim_of p) (posmm (interpolator k2)) \/ near d (posmm (interpolator k1)) (posmm (interpolator k2)).
Proof.
  rewrite Forall_app, !Forall_cons. intros (Hps & Hp & Hq & _).
  destruct (do_passes_inv ps _ Hps (setup_inv m)) as (k0 & Hk0 & Hi0 & _).
  destruct (do_pass_ok p k0 Hp Hi0) as (k1 & Hk1 & Hi1 & _).
  destruct (do_pass_ok q k1 Hq Hi1) as (k2 & Hk2 & _). exists k1, k2.
  assert (forall l k, do_passes (l ++ [p]) k = (k ← do_passes l k; do_pass p k)) as Happ.
  { induction l as [|p' l IH]; intros k; cbn [app do_passes mbind outcome_bind]; [by destruct (do_pass p k)|].
    destruct (do_pass p' k); cbn [mbind outcome_bind]; [apply IH|done]. }
  rewrite Happ, Hk0. cbn [mbind outcome_bind]. split; [done|]. split; [done|]. cbv zeta.
  assert (0 <= 5 * (IZR (delay_us q) / 1000000)).
  { assert (0 <= IZR (delay_us q)) by (apply IZR_le; apply Hq). lra. }
  destruct (do_pass_moves q k1 k2 Hq Hi1 Hk2) as [[Hn _]|[-> _]]; [|right; by apply near_refl].
  destruct (do_pass_moves p k0 k1 Hp Hi0 Hk1) as [[_ Hh]|[H1 H2]].
  - left. by rewrite <- Hh.
  - right. by rewrite H1, <- H2.
Qed.

(** ** Instances *)

Definition ex_geometry : RobotGeometry R := RobotGeometry_new 47 120 120.
Lemma calculateGrad_solves_witness : gripper (set 0 167 120 ex_geometry) = (0, 167, 120).
Proof.
  assert (R_sqrt.sqrt (0 * 0 + 167 * 167) = 167) as Hs
    by (replace (0 * 0 + 167 * 167) with (167 * 167) by ring; apply sqrt_square; lra).
  assert (R_sqrt.sqrt ((167 - 47) * (167 - 47) + 120 * 120) * R_sqrt.sqrt ((167 - 47) * (167 - 47) + 120 * 120) = 28800) as H2
    by (rewrite sqrt_sum_sq; lra).
  pose proof (sqrt_pos ((167 - 47) * (167 - 47) + 120 * 120)) as H3.
  apply (calculateGrad_solves ex_geometry 0 167 120); cbn [low_shank_length high_shank_length ee_offset ex_geometry RobotGeometry_new];
    rewrite ?Hs; try lra.
  - apply sqrt_sum_pos. lra.
  - replace (120 - 120) with 0 by ring. rewrite Rabs_R0. split; [lra|]. nra.
Defined.

Lemma ex_pass_ok y z : 47 <= y -> pass_ok (Pass 0 40 y z).
Proof. intros Hy. split; [change (delay_us _) with 40%Z; lia|exact Hy]. Qed.
Lemma arm_pulses_reach_witness :
  exists k, do_passes [Pass 0 40 187 120; Pass 0 40 187 100] (setup 0 sketch_new) = Done k /\ at_pulses k.
Proof.
  destruct (arm_pulses_reach 0 [Pass 0 40 187 120; Pass 0 40 187 100]) as (k & Hr & _ & Ha).
  - discriminate.
  - constructor; [apply ex_pass_ok; lra|constructor; [apply ex_pass_ok; lra|constructor]].
  - exists k. exact (conj Hr Ha).
Defined.

Lemma arm_jumps_one_pass_late_witness :
  exists k1 k2, do_passes [Pass 0 40 187 120] (setup 0 sketch_new) = Done k1 /\
    do_pass (Pass 0 40 187 100) k1 = Done k2 /\
    (near (2 / 10000) (Pt 0 187 120 0) (posmm (interpolator k2)) \/
     near (2 / 10000) (posmm (interpolator k1)) (posmm (interpolator k2))).
Proof.
  destruct (arm_jumps_one_pass_late 0 [] (Pass 0 40 187 120) (Pass 0 40 187 100)) as (k1 & k2 & H1 & H2 & Hn).
  - constructor; [apply ex_pass_ok; lra|constructor; [apply ex_pass_ok; lra|constructor]].
  - exists k1, k2. refine (conj H1 (conj H2 _)). cbv zeta in Hn.
    replace (2 / 10000) with (5 * (IZR (delay_us (Pass 0 40 187 100)) / 1000000)); [exact Hn|].
    change (delay_us (Pass 0 40 187 100)) with 40%Z. lra.
Defined.
