(* ===== verification/ArmWire.v ===== *)
(** * From an arm command to the frames on the wire

    The shell commands of [drv_stepper_motor.c], which move the target, the sketch's
    [loop], which turns the target into pulse counts, and the main loop of the stepper
    thread, which sends them: three threads that share [ymm], [zmm], [abig_arm_pulse] and
    [asmall_arm_pulse]. *)
From Stdlib Require Import Reals Lra Lia String.
From S2P Require Import Prelude CFloat Emm Stepper Arm ArmExact.
#[local] Open Scope Z_scope.

(** ** The shell commands *)

Section commands.
Context {F : Type} `{FloatOps F} `{Libm F}.
Context (atof : string -> dbl).

(** The globals [ymm] and [zmm]. *)
Record target := Target { tar_y : F; tar_z : F }.

Definition arm_y_add20 (t : target) : target := Target (tar_y t + f_of_Z 20)%F (tar_z t).
Definition arm_y_reduce20 (t : target) : target := Target (tar_y t - f_of_Z 20)%F (tar_z t).
Definition arm_z_add20 (t : target) : target := Target (tar_y t) (tar_z t + f_of_Z 20)%F.
Definition arm_z_reduce20 (t : target) : target := Target (tar_y t) (tar_z t - f_of_Z 20)%F.
Definition arm_ctrl (argv : list string) (t : target) : target :=
  match argv with [_; y; z] => Target (narrow (atof y)) (narrow (atof z)) | _ => t end.

Inductive arm_command :=
  | YAdd
  | YReduce
  | ZAdd
  | ZReduce
  | Ctrl (argv : list string).
Definition arm_shell (c : arm_command) : target -> target :=
  match c with
  | YAdd => arm_y_add20
  | YReduce => arm_y_reduce20
  | ZAdd => arm_z_add20
  | ZReduce => arm_z_reduce20
  | Ctrl argv => arm_ctrl argv
  end.

(** ** The threads *)

Fixpoint send_commands (cs : list (Z * emm_cmd)) : outcome (list emm_action) :=
  match cs with
  | [] => Done []
  | c :: cs => a ← emm_send c.1 c.2; l ← send_commands cs; Done (a ++ l)
  end.

(** One round of the stepper thread. *)
Definition drive (k : sketch F) : outcome (list emm_action) :=
  cs ← drv_loop (abig_arm_pulse k) (asmall_arm_pulse k); send_commands cs.

(** What runs next: a shell command, a pass of [loop] with its readings of the clock, a
    round of the stepper thread. *)
Inductive arm_op :=
  | Command (c : arm_command)
  | Loop (m0 m1 : Z)
  | Drive.
Record arm := ArmState { aim : target; arduino : sketch F; actions : list (list emm_action) }.
Definition arm_start (m : Z) : arm := ArmState (Target INITIAL_Y INITIAL_Z) (setup m sketch_new) [].
Definition arm_step (o : arm_op) (a : arm) : outcome arm :=
  match o with
  | Command c => Done (ArmState (arm_shell c (aim a)) (arduino a) (actions a))
  | Loop m0 m1 =>
    k ← loop m0 m1 (tar_y (aim a)) (tar_z (aim a)) (arduino a); Done (ArmState (aim a) k (actions a))
  | Drive => l ← drive (arduino a); Done (ArmState (aim a) (arduino a) (actions a ++ [l]))
  end.
Fixpoint arm_run (os : list arm_op) (a : arm) : outcome arm :=
  match os with [] => Done a | o :: os => a ← arm_step o a; arm_run os a end.

(** ** What is sent *)

(** The actions of a round ask motor 1 for the pulses [p1] and motor 3 for [p3], then
    only read parameters. *)
Definition asks (l : list emm_action) (p1 p3 : Z) : Prop :=
  let sent f := [TakeMutex; SetCmdState S_Ans; Transmit f; ReleaseMutex; ReleaseStepSem] in
  exists f1 f3 reads, l = sent f1 ++ sent f3 ++ reads /\
    send_commands (param_reads 1 ++ param_reads 3) = Done reads /\
    frame_pulse 0 f1 = Some (1, p1) /\ frame_pulse 1 f3 = Some (3, p3).

Definition small_pulse (p : Z) : Prop := -10000000 <= p <= 10000000.

Lemma drive_asks k : small_pulse (abig_arm_pulse k) -> small_pulse (asmall_arm_pulse k) ->
  exists l, drive k = Done l /\ asks l (abig_arm_pulse k) (asmall_arm_pulse k).
Proof.
  unfold small_pulse. intros Hb Hs.
  destruct (arm_targets_on_the_wire (abig_arm_pulse k) (asmall_arm_pulse k)) as (c1 & c3 & f1 & f3 & He & E1 & E3 & P1 & P3); [cint..|].
  unfold drive. rewrite He. cbn [mbind outcome_bind send_commands]. rewrite E1, E3. cbn [mbind outcome_bind].
  destruct (send_commands (param_reads 1 ++ param_reads 3)) as [reads|] eqn:Hreads; [|by vm_compute in Hreads].
  cbn [mbind outcome_bind]. eexists. split; [done|]. by exists f1, f3, reads.
Qed.
End commands.
Arguments target : clear implicits.
Arguments arm : clear implicits.

(** ** In exact arithmetic *)

Section exact.
Context (atof : string -> dbl (F := R)).

(** No pass of [loop] is held up or has a target behind the gripper's offset. *)
Fixpoint ops_ok (os : list arm_op) (t : target R) : Prop :=
  match os with
  | [] => True
  | Command c :: os => ops_ok os (arm_shell atof c t)
  | Loop m0 m1 :: os => pass_ok (Pass m0 m1 (tar_y t) (tar_z t)) /\ ops_ok os t
  | Drive :: os => ops_ok os t
  end.
Definition is_loop (o : arm_op) : bool := match o with Loop _ _ => true | _ => false end.

(** Once [loop] has run, the position is within the limits and the pulses fit it. *)
Definition on_target (k : sketch R) : Prop := good (posmm (interpolator k)) /\ at_pulses k.

Lemma inv_drive k : sketch_inv k -> exists l, drive k = Done l /\ asks l (abig_arm_pulse k) (asmall_arm_pulse k).
Proof. intros Hk. pose proof (inv_pulses k Hk). apply drive_asks; unfold small_pulse; lia. Qed.

Lemma arm_run_ok os a : ops_ok os (aim a) -> sketch_inv (arduino a) ->
  exists a', arm_run atof os a = Done a' /\ sketch_inv (arduino a') /\
    (existsb is_loop os = true \/ on_target (arduino a) -> on_target (arduino a')).
Proof.
  revert a. induction os as [|o os IH]; intros [t k ls] Hos Hk; cbn [arm_run aim arduino] in *.
  { exists (ArmState t k ls). split; [done|]. split; [done|]. by intros [|]. }
  destruct o as [c|m0 m1|]; cbn [arm_step ops_ok aim arduino actions] in *.
  - destruct (IH (ArmState (arm_shell (F := R) atof c t) k ls) Hos Hk) as (a' & He & Hk' & Ht). by exists a'.
  - destruct Hos as [Hp Hos]. destruct (do_pass_ok _ k Hp Hk) as (k' & He & Hk' & Hg & Ha).
    unfold do_pass in He. cbn [clock0 clock1 to_y to_z] in He. rewrite He. cbn [mbind outcome_bind].
    destruct (IH (ArmState t k' ls) Hos Hk') as (a' & He' & Hk'' & Ht). exists a'. split; [done|]. split; [done|].
    intros _. apply Ht. right. by split.
  - destruct (inv_drive k Hk) as (l & -> & _). cbn [mbind outcome_bind].
    destruct (IH (ArmState t k (ls ++ [l])) Hos Hk) as (a' & He & Hk' & Ht). by exists a'.
Qed.
End exact.

(** C8: End to end in exact arithmetic: whatever the shell commands make of the target
    and however the passes of loop and the rounds of the stepper thread follow each
    other, as long as a pass is not held up for 0.1 s nor aims behind the gripper's
    offset, everything returns; and once loop has run, the next round of the stepper
    thread sends the two motors position frames, from which they read pulse counts
    within one step of the joint angles that hold the gripper at a point within the
    limits of config.h, and after them only requests for parameters. *)
Theorem arm_commands_on_the_wire atof m os :
  ops_ok atof os (Target INITIAL_Y INITIAL_Z) -> existsb is_loop os = true ->
  exists a l, arm_run atof os (arm_start m) = Done a /\ drive (arduino a) = Done l /\
    asks l (abig_arm_pulse (arduino a)) (asmall_arm_pulse (arduino a)) /\
    good (posmm (interpolator (arduino a))) /\ at_pulses (arduino a).
Proof.
  intros Hos Hl. destruct (arm_run_ok atof os (arm_start m) Hos (setup_inv m)) as (a & He & Hk & Ht).
  destruct (inv_drive _ Hk) as (l & Hd & Ha). exists a, l.
  exact (conj He (conj Hd (conj Ha (Ht (or_introl Hl))))).
Qed.

(** 20 mm forward, a pass, 20 mm down, another pass, with rounds of the stepper thread
    before and in between. *)
Definition ex_ops : list arm_op := [Drive; Command YAdd; Loop 0 40; Drive; Command ZReduce; Loop 500000 500040].
Definition ex_atof (_ : string) : dbl (F := R) := 0%R.
Lemma arm_commands_on_the_wire_witness : exists a l, arm_run ex_atof ex_ops (arm_start 0) = Done a /\
  drive (arduino a) = Done l /\ asks l (abig_arm_pulse (arduino a)) (asmall_arm_pulse (arduino a)).
Proof.
  destruct (arm_commands_on_the_wire ex_atof 0 ex_ops) as (a & l & Hr & Hd & Ha & _).
  - assert (forall y z, (47 <= y)%R -> forall m0, delay_us (Pass m0 (m0 + 40) y z) = 40 -> pass_ok (Pass m0 (m0 + 40) y z)) as Hp
      by (intros y z Hy m0 Hd; split; [rewrite Hd; lia|exact Hy]).
    split; [apply (Hp _ _) with (m0 := 0); [|reflexivity]|split; [apply (Hp _ _) with (m0 := 500000); [|reflexivity]|exact I]];
      cbn; unfold INITIAL_Y, HIGH_SHANK_LENGTH, END_EFFECTOR_OFFSET; cbn; lra.
  - reflexivity.
  - exists a, l. exact (conj Hr (conj Hd Ha)).
Defined.
